(* ===== verification/_CoqProject ===== *)
-Q . S2P
Prelude.v
Ints.v
Text.v
Hex.v
Sys.v
Syscall.v
Sim.v
Debugfs.v
Floats.v
Control.v
Stats.v
Rt.v
Threading.v
Typing.v
Parallel.v
ParallelSync.v
SyncMode.v
Chardev.v
IoUring.v
KernelSync.v
Netdev.v
Module.v
ModeB.v
Locking.v
Os.v
Discovery.v
ConfigGen.v
ModuleLoader.v
Health.v
Ptp4l.v
Daemon.v
Sysfs.v
Signals.v
Shutdown.v
ModeC.v
Cli.v
DebugfsMain.v
