(* ===== verification/Prelude.v ===== *)
(** * tsf-sync: a verification development

    tsf-sync keeps the TSF counters (microsecond clocks) of the WiFi cards of one
    machine together.  The repository has three programs that do so, and this
    library models them with the operations they share.

    ** The program and the files of this library

    Shared foundations.
    - [Prelude]: results, outcomes ([Done], [Panic], [OutOfFuel]), the monad [M]
      of code with effects on a world, automation and lists.
    - [Ints]: Rust's machine integers as [Z], their casts, and operators that
      panic in a debug build and wrap around in a release build.
    - [Text]: [str], lines, white space, integer parsing and printing, padding.
    - [Floats]: binary64 behind the class [F64], with the executable IEEE 754
      numbers and the real numbers as instances.

    The tool tsf-sync-debugfs (src/bin/tsf_sync_debugfs), which reads and writes
    mac80211's debugfs files.
    - [Sys]: the system calls as a class, and the documented behaviour of the
      debugfs files as classes of laws; [Sim] is a machine that satisfies them.
    - [Syscall] (asm/syscall.rs): the inline system calls over registers.
    - [Hex] (asm/hex.rs): the SSSE3 and the scalar parser of a counter.
    - [Debugfs] (debugfs.rs): the open file, its reading and writing.
    - [Control] (control.rs): the Kalman filter and the proportional controller.
    - [Stats] (stats.rs): Welford's statistics.
    - [Rt] (rt.rs): real-time set-up, the periodic deadline, the sleep.
    - [Threading] (threading.rs, run_single): the correction of a follower and
      the single-threaded loop; [Typing]: the types of its variables.
    - [Parallel] (threading.rs, run_parallel): the sampler and the workers as a
      step relation over what they share; [ParallelSync]: their convergence.
    - [DebugfsMain] (main.rs, cli.rs, signal.rs): from the parsed arguments to
      the loops.

    The kernel module (kernel/tsf_ptp.c), which makes a PTP clock of every card.
    - [SyncMode] (src/sync_mode.rs, kernel/tsf_ptp_uapi.h): the three modes and the
      layout of the structures that cross the character device.
    - [Chardev]: the list of cards and the device /dev/tsf_sync (mode C).
    - [KernelSync]: the operations of a PTP clock and the work function (mode B).
    - [Netdev]: probing, the notifier of network devices, loading, unloading.
    - [Module]: the cards of [Netdev] with the counters of [KernelSync], one state;
      [ModeB]: that state over time, under the timer.
    - [Locking]: the mutexes the module's entry points take, and the threads that
      run them.

    The daemon and command tsf-sync (src/), which finds the cards, loads the
    module and runs or watches the synchronisation in one of three ways: phc2sys
    processes (A), the module's own loop (B), a thread using the device (C).
    - [Os]: files, commands and child processes as a class, and [Box], a machine
      that is an instance of it.
    - [Discovery] (discovery.rs), [ConfigGen] (config_gen.rs), [ModuleLoader]
      (module_loader.rs), [Health] (health.rs), [Ptp4l] (ptp4l.rs).
    - [IoUring] (iouring_sync.rs): mode C in user space, over a class [Uring] that
      an instance implements with the module's handlers of [Chardev].
    - [Daemon] (daemon.rs): start, stop, status, the monitoring loop, intervals;
      [Signals]: its signal handler; [ModeC]: its thread over the module's device.
    - [Sysfs]: the module's counters as the files the kernel makes of them, read
      by the daemon; [Shutdown]: stop against the thread of mode C, as steps.
    - [Cli] (main.rs): what each subcommand does.

    A definition has the name of the function it translates; a loop of the source
    is a function of its own, named after what it does.  State is passed
    explicitly: a Rust [&mut self] becomes an argument and a component of the
    result, the operating system the world of the monad.

    ** What the theorems show

    - Convergence: the single-threaded loop brings every follower to within the
      latency of a pass and keeps it there ([Threading]), and so do the parallel
      loop in every interleaving ([ParallelSync]) and the program from its
      arguments on, in either mode ([DebugfsMain]); one cycle of mode C and
      one of mode B bring every other card that is up and writable to within the
      threshold and the time of the cycle of the primary ([IoUring], [KernelSync]),
      and the thread of mode C, from the primary's name to its end, keeps them so
      while the primary is up ([ModeC]); where the two modes agree and where they
      do not, and that a write to the device does what the clock's adjtime does
      ([KernelSync]); the controller's step points at the master and does not pass
      it, short of overflow ([Control]).
    - Concurrency ([Parallel]): in every interleaving workers use the value last
      published; no deadlock while the flag is set; a shutdown found by the sampler
      after its sleep ends if every worker has passed its own test by then, and
      otherwise never; one between the barriers may not end, and a panicked worker
      blocks all.
    - State of the module ([Netdev]): the cards and clocks are those of the
      devices, whatever comes and goes; what loading reports and unloading leaves;
      an interface that goes up is synchronised by the timer's next tick ([Module]),
      and after a tick its cards stay synchronised, through any further ticks,
      time, devices that come and go and writes of the parameters, as long as the
      ticks find the same primary, the threshold is not raised above the bound and
      nothing else sets a counter ([ModeB]).
    - Locks of the module ([Locking]): in every interleaving a mutex has one holder,
      and only a caller of the notifier that holds the mutex of a wiphy, as cfg80211
      does, can be part of a deadlock; with it there is one.
    - Processes ([Ptp4l], [Daemon]): a stopped child has ended; a start is all or
      nothing, on the cards there are once the module is loaded; the daemon leaves
      no process behind when its flag is cleared; stop does not wait for the thread
      of mode C, and can fail for it ([Shutdown]).
    - Data: the two hex parsers agree; a value written is read back; decimal
      numerals fit their buffer; a report of pmc and an interval are read as
      written; the daemon shows the module's counters as they are ([Sysfs]); a configuration is the rendering of its sections; cards are
      listed in natural order; statistics are those of the observations; the
      filter's updates move by the textbook's gain, which stays in (0,1) in binary64.
    - Types ([Typing]): in a release build a pass keeps every variable in the range
      of its type and reaches its sleep without a panic, whatever the files answer.
    - Signals ([Signals]): once handled none is lost; a second daemon in one
      process gets none.
    - Errors and bounds: what each failing call leads to; the deadline grid; the
      integer overflows and what they do in either build.

    ** Fuel and bounds

    A loop that runs until a flag is cleared or a call succeeds takes fuel:
    [Threading.run_loop] and [run_single] (a pass each), [IoUring.run] and
    [Daemon.monitor_loop] (a cycle each), [Rt.sleep_until] (a call each).  Their
    theorems say how much is enough: as many passes as the flag stays set, as
    many calls as interruptions; running out is [OutOfFuel], never a result.
    Other fuel is computed from the arguments so that it suffices: the digits of
    a number ([Debugfs.format_loop], [Text.rev_digits]), the seconds to carry
    ([Rt.carry]), the length of a path ([Os.trim_back]).  [Ptp4l.polls] is the
    source's own bound: five seconds in steps of 100 ms.

    ** Assumptions

    What is not under src/ is a class or a parameter: the system calls and the
    debugfs files ([Sys], [TsfFiles], [Steady], [SteadyStart]), the registers of
    a system call ([LinuxAbi]), files and processes ([Os]), io_uring ([Uring]),
    the daemon's flag and the ends of other threads ([Threads]; [Signals] has an
    instance with the handler of the code). Each has a concrete instance on
    which the witnesses run. A disposition set with libc's [signal] stays set.
    The networking core of [Netdev] calls the notifier in the documented order,
    a registration being replayed for the devices that are there. The operations
    of [Netdev], [KernelSync] and [Module] are atomic: they keep a mutex over
    the state they change, and [Locking] shows that no other thread then touches
    it. All counters count on one clock and differ by offsets that only a write
    changes; those of real cards drift (docs/wifi-timing.md), so that a bound
    holds up to the drift in the time it speaks of. In the kernel time passes before each access to
    a counter in [Chardev] and [KernelSync], by the elements of a list of delays
    that a call of the device or a tick is given; the access itself takes none. The
    file of a parameter of the module holds what its [get] has written
    ([Sysfs]); rmmod fails exactly while the module's device is open ([Shutdown]).
    A command on the machine [Box] answers from a script and may change files;
    [Box] never gives the number of a process twice, which a real system does
    ([Ptp4l.stop_signals_reaped]). What follows the use of freed or foreign memory,
    as after a failed registration of a clock, is not modelled: it is [Panic].

    ** Not modelled

    The parsing of the command line (clap), logging and the threads that copy
    the output of a child to the log; failing allocation and faults in copies to
    and from user space in the kernel module; the parameters of ordinary types,
    which the kernel itself parses and shows; the build of the module, the
    patches to drivers, nix files, tests, benchmarks and scripts. *)

From Stdlib Require Export ZArith Lia.
From stdpp Require Export base tactics option numbers list.

#[global] Open Scope Z_scope.

(** ** Results and outcomes *)

(** Rust's [Result<A, E>]. *)
Inductive result (A E : Type) : Type :=
  | Ok (a : A)
  | Err (e : E).
Arguments Ok {A E} a.
Arguments Err {A E} e.

(** What running a piece of code can do: return, panic, or (for a loop given
    too little fuel) not have finished. *)
Inductive outcome (A : Type) : Type :=
  | Done (a : A)
  | Panic
  | OutOfFuel.
Arguments Done {A} a.
Arguments Panic {A}.
Arguments OutOfFuel {A}.

#[export] Instance outcome_ret : MRet outcome := fun A a => Done a.
#[export] Instance outcome_bind : MBind outcome := fun A B f m =>
  match m with
  | Done a => f a
  | Panic => Panic
  | OutOfFuel => OutOfFuel
  end.

(** Code with effects on a world [W]. *)
Definition M (W A : Type) : Type := W -> outcome A * W.

#[export] Instance M_ret {W} : MRet (M W) := fun A a w => (Done a, w).
#[export] Instance M_bind {W} : MBind (M W) := fun A B f m w =>
  match m w with
  | (Done a, w') => f a w'
  | (Panic, w') => (Panic, w')
  | (OutOfFuel, w') => (OutOfFuel, w')
  end.

(** A computation without effects, in the world monad. *)
Definition lift {W A} (o : outcome A) : M W A := fun w => (o, w).
(** An effect that cannot fail. *)
Definition act {W A} (f : W -> A * W) : M W A := fun w => let '(a, w') := f w in (Done a, w').

(** A reading of the world. *)
Definition gets {W A} (f : W -> A) : M W A := fun w => (Done (f w), w).

(** Rust's [?] on a [Result]. *)
Definition try_bind {W A B E} (m : M W (result A E)) (k : A -> M W (result B E)) : M W (result B E) :=
  r ← m; match r with Ok a => k a | Err e => mret (Err e) end.
Notation "x ←? m ; k" := (try_bind m (fun x => k))
  (at level 20, m at level 100, k at level 200, only parsing).
Notation "' x ←? m ; k" := (try_bind m (fun x => k))
  (at level 20, x pattern, m at level 100, k at level 200, only parsing).

Lemma bind_done {W A B} (m : M W A) (k : A -> M W B) w a w1 :
  m w = (Done a, w1) -> (x ← m; k x) w = k a w1.
Proof. unfold mbind, M_bind. by intros ->. Qed.
Lemma try_bind_ok {W A B E} (m : M W (result A E)) (k : A -> M W (result B E)) w a w1 :
  m w = (Done (Ok a), w1) -> try_bind m k w = k a w1.
Proof. unfold try_bind, mbind, M_bind. by intros ->. Qed.
Lemma try_bind_err {W A B E} (m : M W (result A E)) (k : A -> M W (result B E)) w e w1 :
  m w = (Done (Err e), w1) -> try_bind m k w = (Done (Err e), w1).
Proof. unfold try_bind, mbind, M_bind. by intros ->. Qed.

(** ** Automation *)

Create HintDb tsf.
Create Rewrite HintDb tsf.

(** Case analysis on every boolean comparison in sight, with the arithmetic
    fact it stands for. *)
Ltac zbool :=
  repeat match goal with
  | H : context [ (?a <? ?b) ] |- _ => destruct (Z.ltb_spec a b)
  | H : context [ (?a <=? ?b) ] |- _ => destruct (Z.leb_spec a b)
  | H : context [ (?a =? ?b) ] |- _ => destruct (Z.eqb_spec a b)
  | H : context [ (?a >? ?b) ] |- _ => rewrite (Z.gtb_ltb a b) in H
  | H : context [ (?a >=? ?b) ] |- _ => rewrite (Z.geb_leb a b) in H
  | |- context [ (?a <? ?b) ] => destruct (Z.ltb_spec a b)
  | |- context [ (?a <=? ?b) ] => destruct (Z.leb_spec a b)
  | |- context [ (?a =? ?b) ] => destruct (Z.eqb_spec a b)
  | |- context [ (?a >? ?b) ] => rewrite (Z.gtb_ltb a b)
  | |- context [ (?a >=? ?b) ] => rewrite (Z.geb_leb a b)
  end.

(** Unfold the world monad's operations, and run a computation on a world whose
    effects are known. *)
Ltac m_unfold := unfold try_bind, mbind, mret, M_bind, M_ret, lift, act, gets, outcome_bind, outcome_ret in *.
Ltac m_simp := repeat (m_unfold; simpl in *; simplify_eq).

(** Evaluate every [bool_decide] whose proposition congruence or arithmetic settles. *)
Ltac bdec :=
  repeat match goal with
  | |- context [bool_decide ?P] =>
      first [rewrite (bool_decide_eq_true_2 P) by (congruence || lia)
            |rewrite (bool_decide_eq_false_2 P) by (congruence || lia)]
  | H : context [bool_decide ?P] |- _ =>
      first [rewrite (bool_decide_eq_true_2 P) in H by (congruence || lia)
            |rewrite (bool_decide_eq_false_2 P) in H by (congruence || lia)]
  end.

(** Decompose [Forall] hypotheses about explicit lists. *)
Ltac forall_inv :=
  repeat match goal with
  | H : Forall _ [] |- _ => clear H
  | H : Forall _ (_ :: _) |- _ =>
      let H1 := fresh H in
      apply Forall_cons_iff in H; destruct H as [H1 H]
  end.

(** ** Lists *)

Lemma imap_imap {A B C} (f : nat -> A -> B) (g : nat -> B -> C) l :
  imap g (imap f l) = imap (λ i x, g i (f i x)) l.
Proof. apply list_eq. intros i. rewrite !list_lookup_imap. by destruct (l !! i). Qed.

Lemma length_16_inv {A} (l : list A) :
  length l = 16%nat ->
  exists a0 a1 a2 a3 a4 a5 a6 a7 a8 a9 a10 a11 a12 a13 a14 a15,
    l = [a0; a1; a2; a3; a4; a5; a6; a7; a8; a9; a10; a11; a12; a13; a14; a15].
Proof.
  intros H. do 16 (destruct l as [|? l]; [discriminate|]). destruct l; [|discriminate].
  repeat eexists.
Qed.
