(* ===== verification/Ints.v ===== *)
(** * Machine integers

    Rust's fixed-width integers as [Z]: ranges, [as] casts, and the arithmetic
    operators, which panic on overflow in a build with overflow checks (debug)
    and wrap around in one without (release). *)

From S2P Require Import Prelude.

(** ** Ranges *)

Definition in_u8 (z : Z) : Prop := 0 <= z <= 255.
Definition in_u32 (z : Z) : Prop := 0 <= z <= 4294967295.
Definition in_u64 (z : Z) : Prop := 0 <= z <= 18446744073709551615.
Definition in_i32 (z : Z) : Prop := -2147483648 <= z <= 2147483647.
Definition in_i64 (z : Z) : Prop := -9223372036854775808 <= z <= 9223372036854775807.

#[export] Instance in_u8_dec z : Decision (in_u8 z). Proof. unfold in_u8; apply _. Defined.
#[export] Instance in_u32_dec z : Decision (in_u32 z). Proof. unfold in_u32; apply _. Defined.
#[export] Instance in_u64_dec z : Decision (in_u64 z). Proof. unfold in_u64; apply _. Defined.
#[export] Instance in_i32_dec z : Decision (in_i32 z). Proof. unfold in_i32; apply _. Defined.
#[export] Instance in_i64_dec z : Decision (in_i64 z). Proof. unfold in_i64; apply _. Defined.

(** ** Casts ([as]) *)

Definition as_u8 (z : Z) : Z := z mod 256.
Definition as_u32 (z : Z) : Z := z mod 4294967296.
Definition as_u64 (z : Z) : Z := z mod 18446744073709551616.
Definition as_i32 (z : Z) : Z := (z + 2147483648) mod 4294967296 - 2147483648.
Definition as_i64 (z : Z) : Z :=
  (z + 9223372036854775808) mod 18446744073709551616 - 9223372036854775808.

(** ** Operators

    [oc] is the build's [overflow-checks]: on in the debug profile, off in the
    release profile. *)

Definition i64_op (oc : bool) (z : Z) : outcome Z :=
  if decide (in_i64 z) then Done z else if oc then Panic else Done (as_i64 z).
Definition u64_op (oc : bool) (z : Z) : outcome Z :=
  if decide (in_u64 z) then Done z else if oc then Panic else Done (as_u64 z).
Definition u32_op (oc : bool) (z : Z) : outcome Z :=
  if decide (in_u32 z) then Done z else if oc then Panic else Done (as_u32 z).

(** [Ord::clamp], which asserts [min <= max]. *)
Definition clamp (z lo hi : Z) : outcome Z :=
  if hi <? lo then Panic else Done (if z <? lo then lo else if hi <? z then hi else z).

(** ** Facts *)

Ltac int_unfold :=
  unfold in_u8, in_u32, in_u64, in_i32, in_i64, as_u8, as_u32, as_u64, as_i32, as_i64 in *.

Lemma as_u8_range z : in_u8 (as_u8 z).
Proof. int_unfold. pose proof (Z.mod_pos_bound z 256). lia. Qed.
Lemma as_u32_range z : in_u32 (as_u32 z).
Proof. int_unfold. pose proof (Z.mod_pos_bound z 4294967296). lia. Qed.
Lemma as_u64_range z : in_u64 (as_u64 z).
Proof. int_unfold. pose proof (Z.mod_pos_bound z 18446744073709551616). lia. Qed.
Lemma as_i64_range z : in_i64 (as_i64 z).
Proof.
  int_unfold.
  pose proof (Z.mod_pos_bound (z + 9223372036854775808) 18446744073709551616). lia.
Qed.

Lemma as_u64_id z : in_u64 z -> as_u64 z = z.
Proof. int_unfold. intros. apply Z.mod_small. lia. Qed.
Lemma as_u32_id z : in_u32 z -> as_u32 z = z.
Proof. int_unfold. intros. apply Z.mod_small. lia. Qed.
Lemma as_i64_id z : in_i64 z -> as_i64 z = z.
Proof. int_unfold. intros. rewrite Z.mod_small; lia. Qed.

(** The two 64-bit casts undo each other. *)
Lemma as_u64_as_i64 z : in_u64 z -> as_u64 (as_i64 z) = z.
Proof.
  int_unfold. intros H.
  rewrite Zminus_mod_idemp_l. rewrite Z.add_simpl_r. apply Z.mod_small. lia.
Qed.
Lemma as_i64_as_u64 z : in_i64 z -> as_i64 (as_u64 z) = z.
Proof.
  int_unfold. intros H. rewrite Zplus_mod_idemp_l. rewrite Z.mod_small; lia.
Qed.
(** [as_i64] only depends on the residue. *)
Lemma as_i64_mod z : as_i64 (z mod 18446744073709551616) = as_i64 z.
Proof. int_unfold. by rewrite Zplus_mod_idemp_l. Qed.
Lemma as_u64_as_i64_any z : as_u64 (as_i64 z) = as_u64 z.
Proof. int_unfold. rewrite Zminus_mod_idemp_l. by rewrite Z.add_simpl_r. Qed.

Lemma i64_op_in oc z : in_i64 z -> i64_op oc z = Done z.
Proof. intros. unfold i64_op. by rewrite decide_True. Qed.
Lemma u64_op_in oc z : in_u64 z -> u64_op oc z = Done z.
Proof. intros. unfold u64_op. by rewrite decide_True. Qed.
Lemma u32_op_in oc z : in_u32 z -> u32_op oc z = Done z.
Proof. intros. unfold u32_op. by rewrite decide_True. Qed.
Lemma i64_op_release z : i64_op false z = Done (as_i64 z).
Proof. unfold i64_op. case_decide; [by rewrite as_i64_id|done]. Qed.
Lemma i64_op_debug_out z : ~ in_i64 z -> i64_op true z = Panic.
Proof. intros. unfold i64_op. by rewrite decide_False. Qed.

Lemma clamp_done z lo hi :
  lo <= hi -> exists c, clamp z lo hi = Done c /\ lo <= c <= hi /\
    (lo <= z <= hi -> c = z) /\ (z < lo -> c = lo) /\ (hi < z -> c = hi).
Proof.
  intros H. unfold clamp. zbool; try lia; eexists; (split; [done|]); lia.
Qed.
Lemma clamp_panic z lo hi : hi < lo -> clamp z lo hi = Panic.
Proof. intros. unfold clamp. by rewrite (proj2 (Z.ltb_lt hi lo)). Qed.

#[export] Hint Resolve as_u8_range as_u32_range as_u64_range as_i64_range : tsf.
#[export] Hint Rewrite i64_op_in u64_op_in u32_op_in using (int_unfold; lia) : tsf.

(** The 64-bit casts add a multiple of 2^64, and do not see one. *)
Lemma as_i64_shift z : exists k, as_i64 z = z + k * 18446744073709551616.
Proof.
  exists (- ((z + 9223372036854775808) / 18446744073709551616)). unfold as_i64.
  pose proof (Z.div_mod (z + 9223372036854775808) 18446744073709551616). lia.
Qed.
Lemma as_u64_shift z : exists k, as_u64 z = z + k * 18446744073709551616.
Proof.
  exists (- (z / 18446744073709551616)). unfold as_u64.
  pose proof (Z.div_mod z 18446744073709551616). lia.
Qed.
Lemma as_i64_add_mul z k : as_i64 (z + k * 18446744073709551616) = as_i64 z.
Proof.
  unfold as_i64. f_equal.
  replace (z + k * 18446744073709551616 + 9223372036854775808)
    with (z + 9223372036854775808 + k * 18446744073709551616) by lia.
  by rewrite Z.mod_add.
Qed.
(** A value congruent to one in range is cast to it. *)
Lemma as_i64_cong z z' k : in_i64 z' -> z = z' + k * 18446744073709551616 -> as_i64 z = z'.
Proof. intros Hr ->. rewrite as_i64_add_mul. by apply as_i64_id. Qed.
