(* ===== verification/Text.v ===== *)
(** * Text

    Rust's [str] as the list of its code points, bytes of ASCII text as the
    list of their codes, and the functions of the standard library the program
    applies to them: white space, lines, prefixes and suffixes, integer
    parsing and printing, padded formatting. *)

From Stdlib Require Ascii String.
Export String.StringSyntax.
From S2P Require Import Prelude Ints.

Abbreviation str := (list Z).

(** The code points (and bytes) of an ASCII literal. *)
Definition lit (s : String.string) : str :=
  (λ a, Z.of_N (Ascii.N_of_ascii a)) <$> String.list_ascii_of_string s.
Arguments lit s%_string_scope.

(** ** White space *)

(** [char::is_whitespace]: the Unicode property White_Space. *)
Definition is_whitespace (c : Z) : bool :=
  ((9 <=? c) && (c <=? 13)) || (c =? 32) || (c =? 133) || (c =? 160) || (c =? 5760)
  || ((8192 <=? c) && (c <=? 8202)) || (c =? 8232) || (c =? 8233) || (c =? 8239)
  || (c =? 8287) || (c =? 12288).

Fixpoint trim_start (s : str) : str :=
  match s with
  | [] => []
  | c :: s' => if is_whitespace c then trim_start s' else s
  end.
Definition trim_end (s : str) : str := reverse (trim_start (reverse s)).
(** [str::trim] *)
Definition trim (s : str) : str := trim_end (trim_start s).

(** [str::split_whitespace]: the maximal runs of other characters.  [tok] is
    the run being read, backwards. *)
Fixpoint split_ws_from (tok : str) (s : str) : list str :=
  let emit rest := match tok with [] => rest | _ => reverse tok :: rest end in
  match s with
  | [] => emit []
  | c :: s' => if is_whitespace c then emit (split_ws_from [] s') else split_ws_from (c :: tok) s'
  end.
Definition split_whitespace (s : str) : list str := split_ws_from [] s.

(** ** Lines *)

(** [str::lines]: the text between newlines, without a final carriage return;
    no last line when the text ends with a newline.  [cur] is the current line,
    backwards. *)
Definition chop_cr (cur : str) : str := match cur with 13 :: cur' => cur' | _ => cur end.
Fixpoint lines_from (cur : str) (s : str) : list str :=
  match s with
  | [] => match cur with [] => [] | _ => [reverse cur] end
  | c :: s' =>
      if c =? 10 then reverse (chop_cr cur) :: lines_from [] s' else lines_from (c :: cur) s'
  end.
Definition lines (s : str) : list str := lines_from [] s.

(** ** Prefixes and suffixes *)

Fixpoint starts_with (s p : str) : bool :=
  match p, s with
  | [], _ => true
  | c :: p', d :: s' => (c =? d) && starts_with s' p'
  | _ :: _, [] => false
  end.
Definition strip_prefix (s p : str) : option str :=
  if starts_with s p then Some (drop (length p) s) else None.
Definition strip_suffix (s p : str) : option str :=
  reverse <$> strip_prefix (reverse s) (reverse p).

(** ** Integers *)

Inductive parse_int_error := Empty | InvalidDigit | PosOverflow | NegOverflow.

#[export] Instance parse_int_error_eq_dec : EqDecision parse_int_error.
Proof. solve_decision. Defined.

(** Its [Display]. *)
Definition parse_int_error_text (e : parse_int_error) : str :=
  match e with
  | Empty => lit "cannot parse integer from empty string"
  | InvalidDigit => lit "invalid digit found in string"
  | PosOverflow => lit "number too large to fit in target type"
  | NegOverflow => lit "number too small to fit in target type"
  end.

Definition dec_digit (c : Z) : option Z :=
  if (48 <=? c) && (c <=? 57) then Some (c - 48) else None.

(** The digit loops of [from_str_radix]. *)
Fixpoint parse_digits_pos (hi acc : Z) (s : str) : result Z parse_int_error :=
  match s with
  | [] => Ok acc
  | c :: s' =>
      match dec_digit c with
      | None => Err InvalidDigit
      | Some d => if hi <? acc * 10 + d then Err PosOverflow else parse_digits_pos hi (acc * 10 + d) s'
      end
  end.
Fixpoint parse_digits_neg (lo acc : Z) (s : str) : result Z parse_int_error :=
  match s with
  | [] => Ok acc
  | c :: s' =>
      match dec_digit c with
      | None => Err InvalidDigit
      | Some d => if acc * 10 - d <? lo then Err NegOverflow else parse_digits_neg lo (acc * 10 - d) s'
      end
  end.

(** [<u64 as FromStr>::from_str] *)
Definition u64_from_str (s : str) : result Z parse_int_error :=
  match s with
  | [] => Err Empty
  | [43] | [45] => Err InvalidDigit
  | 43 :: s' => parse_digits_pos 18446744073709551615 0 s'
  | _ => parse_digits_pos 18446744073709551615 0 s
  end.
(** [<i64 as FromStr>::from_str] *)
Definition i64_from_str (s : str) : result Z parse_int_error :=
  match s with
  | [] => Err Empty
  | [43] | [45] => Err InvalidDigit
  | 43 :: s' => parse_digits_pos 9223372036854775807 0 s'
  | 45 :: s' => parse_digits_neg (-9223372036854775808) 0 s'
  | _ => parse_digits_pos 9223372036854775807 0 s
  end.

(** [Display] of an unsigned integer: its decimal digits, the fuel being a
    bound on their number. *)
Fixpoint rev_digits (fuel : nat) (v : Z) : str :=
  match fuel with
  | O => []
  | S f => if v =? 0 then [] else 48 + v mod 10 :: rev_digits f (v / 10)
  end.
Definition rev_dec (v : Z) : str := rev_digits (S (Z.to_nat (Z.log2 v))) v.
Definition dec (v : Z) : str := if v =? 0 then [48] else reverse (rev_dec v).
(** [Display] of a signed integer. *)
Definition dec_signed (v : Z) : str := if v <? 0 then 45 :: dec (- v) else dec v.

(** The value of a string of decimal digits, and being one. *)
Definition is_dec (c : Z) : Prop := 48 <= c <= 57.
Definition dec_value (ds : str) : Z := foldl (λ acc c, acc * 10 + (c - 48)) 0 ds.

(** ** Formatting *)

(** [{:<n}]: pad on the right with spaces to [n] characters. *)
Definition pad_right (n : nat) (s : str) : str := s ++ replicate (n - length s) 32.

(** ** Facts *)

Lemma is_whitespace_cases c :
  is_whitespace c = true ->
  9 <= c <= 13 \/ c = 32 \/ 133 <= c.
Proof. unfold is_whitespace. lia. Qed.

Lemma trim_start_non_ws c s : is_whitespace c = false -> trim_start (c :: s) = c :: s.
Proof. intros H. simpl. by rewrite H. Qed.

(** A string without white space at either end is its own [trim]. *)
Lemma trim_id s :
  match s with [] => True | c :: _ => is_whitespace c = false end ->
  match last s with None => True | Some c => is_whitespace c = false end ->
  trim s = s.
Proof.
  intros Hh Hl. unfold trim, trim_end.
  assert (trim_start s = s) as ->. { destruct s; [done|]. by apply trim_start_non_ws. }
  destruct s as [|c s _] using rev_ind; [done|].
  rewrite last_snoc in Hl. rewrite reverse_snoc, trim_start_non_ws by done.
  by rewrite reverse_cons, reverse_involutive.
Qed.

Lemma starts_with_app p s : starts_with (p ++ s) p = true.
Proof. induction p as [|c p IH]; [by destruct s|]. simpl. by rewrite Z.eqb_refl, IH. Qed.

Lemma starts_with_spec s p : starts_with s p = true <-> exists r, s = p ++ r.
Proof.
  split; [|intros [r ->]; apply starts_with_app].
  revert s. induction p as [|c p IH]; intros s H; [by exists s|].
  destruct s as [|d s]; simpl in H; [done|].
  apply andb_true_iff in H as [->%Z.eqb_eq H]. destruct (IH s H) as [r ->]. by exists r.
Qed.

Lemma strip_prefix_spec s p r : strip_prefix s p = Some r <-> s = p ++ r.
Proof.
  unfold strip_prefix. destruct (starts_with s p) eqn:H.
  - apply starts_with_spec in H as [r' ->]. rewrite drop_app_length.
    split; [by intros [= ->]|]. intros H. by apply app_inv_head in H as ->.
  - split; [done|]. intros ->. by rewrite starts_with_app in H.
Qed.

Lemma strip_suffix_spec s p r : strip_suffix s p = Some r <-> s = r ++ p.
Proof.
  unfold strip_suffix. rewrite fmap_Some. split.
  - intros (q & H%strip_prefix_spec & ->).
    rewrite <- (reverse_involutive s), H, reverse_app, reverse_involutive. done.
  - intros ->. exists (reverse r). rewrite strip_prefix_spec, reverse_app, reverse_involutive. done.
Qed.

Lemma strip_suffix_app s p : strip_suffix (s ++ p) p = Some s.
Proof. by apply strip_suffix_spec. Qed.

(** *** Decimal digits *)

Lemma dec_value_snoc ds c : dec_value (ds ++ [c]) = dec_value ds * 10 + (c - 48).
Proof. unfold dec_value. by rewrite foldl_snoc. Qed.

Lemma log2_div10 v : 0 < v / 10 -> (S (Z.to_nat (Z.log2 (v / 10))) <= Z.to_nat (Z.log2 v))%nat.
Proof.
  intros H. pose proof (Z.div_mod v 10). pose proof (Z.mod_pos_bound v 10).
  assert (Z.log2 (v / 10) + 1 <= Z.log2 v); [|pose proof (Z.log2_nonneg (v / 10)); lia].
  rewrite Z.add_1_r. rewrite <- Z.log2_double by lia. apply Z.log2_le_mono. lia.
Qed.

(** With fuel above the binary logarithm, the digits are the number's. *)
Lemma rev_digits_spec fuel v :
  0 <= v -> (v <> 0 -> (S (Z.to_nat (Z.log2 v)) <= fuel)%nat) ->
  Forall is_dec (rev_digits fuel v) /\ dec_value (reverse (rev_digits fuel v)) = v
  /\ (v <> 0 -> exists d ds, rev_digits fuel v = ds ++ [d] /\ d <> 48).
Proof.
  revert v. induction fuel as [|f IH]; intros v Hv Hf; simpl.
  { assert (v = 0) by lia. subst v. repeat split; [constructor|]. lia. }
  destruct (Z.eqb_spec v 0) as [->|Hne].
  { repeat split; [constructor|]. lia. }
  specialize (Hf Hne).
  pose proof (Z.div_mod v 10) as Hdm. pose proof (Z.mod_pos_bound v 10) as Hmod.
  destruct (IH (v / 10)) as (H1 & H2 & H3); [apply Z.div_pos; lia| |].
  { intros Hd. assert (0 < v / 10) as Hd' by (pose proof (Z.div_pos v 10); lia).
    pose proof (log2_div10 v Hd'). lia. }
  split_and!.
  - constructor; [unfold is_dec; lia|done].
  - rewrite reverse_cons, dec_value_snoc, H2. lia.
  - intros _. destruct (Z.eq_dec (v / 10) 0) as [E|E].
    + exists (48 + v mod 10), []. rewrite E. split; [by destruct f|lia].
    + destruct (H3 E) as (d & ds & -> & Hd). by exists d, (48 + v mod 10 :: ds).
Qed.

(** More fuel changes nothing. *)
Lemma rev_digits_fuel f1 f2 v :
  0 <= v -> (v <> 0 -> (S (Z.to_nat (Z.log2 v)) <= f1)%nat) ->
  (v <> 0 -> (S (Z.to_nat (Z.log2 v)) <= f2)%nat) -> rev_digits f1 v = rev_digits f2 v.
Proof.
  revert f2 v. induction f1 as [|f1 IH]; intros f2 v Hv H1 H2.
  { assert (v = 0) by lia. subst v. by destruct f2. }
  destruct (Z.eq_dec v 0) as [->|Hne]; [by destruct f2|].
  destruct f2 as [|f2]; [lia|]. simpl. destruct (Z.eqb_spec v 0); [done|]. f_equal.
  assert (v / 10 <> 0 -> (S (Z.to_nat (Z.log2 (v / 10))) <= Z.to_nat (Z.log2 v))%nat).
  { intros Hd. apply log2_div10. pose proof (Z.div_pos v 10). lia. }
  apply IH; [apply Z.div_pos; lia|lia|lia].
Qed.

Lemma rev_dec_0 : rev_dec 0 = [].
Proof. done. Qed.
Lemma rev_dec_step v : 0 < v -> rev_dec v = 48 + v mod 10 :: rev_dec (v / 10).
Proof.
  intros Hv. unfold rev_dec at 1. simpl. destruct (Z.eqb_spec v 0); [lia|]. f_equal.
  pose proof (Z.div_pos v 10).
  apply rev_digits_fuel; [lia| |lia]. intros. apply log2_div10. lia.
Qed.

(** A number below [10^n] has at most [n] digits. *)
Lemma rev_dec_length n v : 0 <= v < 10 ^ Z.of_nat n -> (length (rev_dec v) <= n)%nat.
Proof.
  revert v. induction n as [|n IH]; intros v Hv.
  { change (10 ^ Z.of_nat 0) with 1 in Hv. assert (v = 0) as -> by lia. done. }
  destruct (Z.eq_dec v 0) as [->|Hne]; [simpl; lia|].
  rewrite rev_dec_step by lia. simpl. apply le_n_S, IH.
  rewrite Nat2Z.inj_succ, Z.pow_succ_r in Hv by lia.
  split; [apply Z.div_pos; lia|]. apply Z.div_lt_upper_bound; lia.
Qed.

Lemma dec_length n v : 0 <= v < 10 ^ Z.of_nat (S n) -> (length (dec v) <= S n)%nat.
Proof.
  intros Hv. unfold dec. destruct (v =? 0); [simpl; lia|].
  rewrite length_reverse. by apply rev_dec_length.
Qed.

(** [dec v] is the canonical numeral of [v]. *)
Lemma dec_spec v :
  0 <= v ->
  Forall is_dec (dec v) /\ dec_value (dec v) = v /\ dec v <> []
  /\ (v <> 0 -> exists d ds, dec v = d :: ds /\ d <> 48).
Proof.
  intros Hv. unfold dec, rev_dec. destruct (Z.eqb_spec v 0) as [->|Hne].
  { repeat split; [repeat constructor; unfold is_dec; lia|done|lia]. }
  destruct (rev_digits_spec (S (Z.to_nat (Z.log2 v))) v) as (H1 & H2 & H3); [done|lia|].
  destruct (H3 Hne) as (d & ds & E & Hd). rewrite E in *. rewrite reverse_snoc in *.
  rewrite Forall_app, Forall_singleton in H1. destruct H1 as [H1 H1d].
  split_and!; [constructor; [done|by apply Forall_reverse]|done|done|by eauto].
Qed.

Lemma dec_digit_is_dec c : is_dec c -> dec_digit c = Some (c - 48).
Proof. unfold is_dec, dec_digit. intros. by replace ((48 <=? c) && (c <=? 57)) with true by lia. Qed.

Lemma foldl_dec_ge ds acc : Forall is_dec ds -> 0 <= acc -> acc <= foldl (λ acc c, acc * 10 + (c - 48)) acc ds.
Proof.
  intros H. revert acc. induction H as [|c ds Hc H IH]; intros acc Hacc; simpl; [lia|].
  unfold is_dec in Hc. etrans; [|apply IH]; lia.
Qed.

Lemma parse_digits_pos_ok hi acc ds :
  Forall is_dec ds -> 0 <= acc ->
  foldl (λ acc c, acc * 10 + (c - 48)) acc ds <= hi ->
  parse_digits_pos hi acc ds = Ok (foldl (λ acc c, acc * 10 + (c - 48)) acc ds).
Proof.
  intros H. revert acc. induction H as [|c ds Hc H IH]; intros acc Hacc Hle; simpl in *; [done|].
  rewrite dec_digit_is_dec by done. unfold is_dec in Hc.
  pose proof (foldl_dec_ge ds (acc * 10 + (c - 48)) H).
  destruct (Z.ltb_spec hi (acc * 10 + (c - 48))); [lia|]. apply IH; [lia|done].
Qed.

(** A printed [u64] is read back. *)
Lemma u64_from_str_dec v : in_u64 v -> u64_from_str (dec v) = Ok v.
Proof.
  intros Hv. unfold in_u64 in Hv.
  destruct (dec_spec v) as (H1 & H2 & H3 & _); [lia|].
  assert (u64_from_str (dec v) = parse_digits_pos 18446744073709551615 0 (dec v)) as ->.
  { destruct (dec v) as [|c ds]; [done|]. apply Forall_cons_iff in H1 as [Hc _].
    unfold is_dec in Hc. unfold u64_from_str.
    destruct (Z.eq_dec c 43), (Z.eq_dec c 45); [lia..|].
    repeat (case_match; try lia; try done). }
  rewrite parse_digits_pos_ok; [by f_equal|done|lia|]. unfold dec_value in H2. lia.
Qed.

Lemma dec_last n : 0 <= n -> exists ds c, dec n = ds ++ [c] /\ is_dec c.
Proof.
  intros Hn. destruct (dec_spec n Hn) as (Hd & _ & Hne & _).
  destruct (dec n) as [|c ds _] using rev_ind; [done|]. exists ds, c. split; [done|].
  apply Forall_app in Hd as [_ Hd]. by inversion Hd.
Qed.

Lemma dec_not_ws c : is_dec c -> is_whitespace c = false.
Proof.
  unfold is_dec. intros Hc. destruct (is_whitespace c) eqn:E; [|done].
  apply is_whitespace_cases in E. lia.
Qed.

(** A printed [i64] is read back, the least value included. *)
Lemma foldl_dec_neg ds acc :
  foldl (λ acc c, acc * 10 - (c - 48)) (- acc) ds = - foldl (λ acc c, acc * 10 + (c - 48)) acc ds.
Proof.
  revert acc. induction ds as [|c ds IH]; intros acc; [done|]. cbn [foldl]. rewrite <- IH. f_equal. lia.
Qed.

Lemma parse_digits_neg_ok lo acc ds :
  Forall is_dec ds -> 0 <= acc ->
  lo <= - foldl (λ acc c, acc * 10 + (c - 48)) acc ds ->
  parse_digits_neg lo (- acc) ds = Ok (- foldl (λ acc c, acc * 10 + (c - 48)) acc ds).
Proof.
  intros H. revert acc. induction H as [|c ds Hc H IH]; intros acc Hacc Hle; cbn [foldl parse_digits_neg] in *; [done|].
  rewrite dec_digit_is_dec by done. unfold is_dec in Hc.
  pose proof (foldl_dec_ge ds (acc * 10 + (c - 48)) H).
  replace (- acc * 10 - (c - 48)) with (- (acc * 10 + (c - 48))) by lia.
  destruct (Z.ltb_spec (- (acc * 10 + (c - 48))) lo); [lia|]. apply IH; [lia|done].
Qed.

Lemma i64_from_str_digits ds :
  Forall is_dec ds -> ds <> [] -> dec_value ds <= 9223372036854775807 -> i64_from_str ds = Ok (dec_value ds).
Proof.
  intros Hd Hne Hv.
  assert (i64_from_str ds = parse_digits_pos 9223372036854775807 0 ds) as ->.
  { destruct ds as [|c ds]; [done|]. apply Forall_cons_iff in Hd as [Hc _]. unfold is_dec in Hc. unfold i64_from_str.
    destruct (Z.eq_dec c 43), (Z.eq_dec c 45); [lia..|]. repeat (case_match; try lia; try done). }
  by apply parse_digits_pos_ok.
Qed.

Lemma i64_from_str_dec_signed v : in_i64 v -> i64_from_str (dec_signed v) = Ok v.
Proof.
  intros Hv. unfold in_i64 in Hv. unfold dec_signed. destruct (Z.ltb_spec v 0) as [Hneg|Hpos].
  - destruct (dec_spec (- v)) as (H1 & H2 & H3 & _); [lia|].
    assert (i64_from_str (45 :: dec (- v)) = parse_digits_neg (-9223372036854775808) 0 (dec (- v))) as ->
      by (unfold i64_from_str; by destruct (dec (- v))).
    unfold dec_value in H2. change 0 with (- 0) at 1. rewrite parse_digits_neg_ok; [f_equal; lia|done|lia|lia].
  - destruct (dec_spec v) as (H1 & H2 & H3 & _); [lia|].
    rewrite i64_from_str_digits by (done || lia). by f_equal.
Qed.

(** The line of a number. *)
Lemma length_trim_start s : (length (trim_start s) <= length s)%nat.
Proof. induction s as [|c s IH]; [done|]. cbn [trim_start]. destruct (is_whitespace c); simpl; lia. Qed.

Lemma trim_line s : trim s = s -> s <> [] -> trim (s ++ [10]) = s.
Proof.
  intros Ht Hne. destruct s as [|c s]; [done|]. destruct (is_whitespace c) eqn:E.
  - exfalso. apply (f_equal length) in Ht. revert Ht. unfold trim, trim_end. cbn [trim_start].
    rewrite E, length_reverse. pose proof (length_trim_start (reverse (trim_start s))) as H1.
    rewrite length_reverse in H1. pose proof (length_trim_start s). simpl. lia.
  - unfold trim in *. cbn [app]. rewrite trim_start_non_ws in * by done. etransitivity; [|exact Ht].
    unfold trim_end. change (c :: s ++ [10]) with ((c :: s) ++ [10]). by rewrite reverse_snoc.
Qed.

Lemma trim_dec_signed v : trim (dec_signed v) = dec_signed v.
Proof.
  assert (forall n, 0 <= n -> match last (dec n) with None => True | Some c => is_whitespace c = false end) as Hl.
  { intros n Hn. destruct (dec_last n Hn) as (ds & c & -> & Hc). rewrite last_snoc. by apply dec_not_ws. }
  unfold dec_signed. destruct (Z.ltb_spec v 0).
  - apply trim_id; [done|]. destruct (dec_last (- v)) as (ds & c & -> & Hc); [lia|].
    change (45 :: ds ++ [c]) with ((45 :: ds) ++ [c]). rewrite last_snoc. by apply dec_not_ws.
  - apply trim_id; [|by apply Hl]. destruct (dec_spec v) as (Hd & _); [done|].
    destruct (dec v) as [|c ds]; [done|]. apply Forall_cons_iff in Hd as [Hd _]. by apply dec_not_ws.
Qed.

Example dec_ex : dec 18446744073709551615 = lit "18446744073709551615".
Proof. reflexivity. Qed.
