(* ===== verification/Hex.v ===== *)
(** * Hex parsing (src/bin/tsf_sync_debugfs/asm/hex.rs)

    The SSSE3 parser over 128-bit registers, the scalar parser and the
    dispatcher between them.  Bytes are [Z] in [0, 255]. *)

From S2P Require Import Prelude Ints Text.

(** ** The [core::arch::x86_64] intrinsics the parser uses

    A register is its 16 bytes, lowest lane first. *)
Module Simd.
Definition to_i8 (b : Z) : Z := if b <? 128 then b else b - 256.
Definition to_i16 (w : Z) : Z := if w <? 32768 then w else w - 65536.

(** [n] little-endian bytes of [z], and back. *)
Fixpoint le_split (n : nat) (z : Z) : list Z :=
  match n with
  | O => []
  | S n' => z mod 256 :: le_split n' (z / 256)
  end.
Fixpoint le_combine (l : list Z) : Z :=
  match l with
  | [] => 0
  | b :: l' => b + 256 * le_combine l'
  end.

(** Signed 16-bit lanes of a register. *)
Fixpoint lanes_i16 (r : list Z) : list Z :=
  match r with
  | b0 :: b1 :: r' => to_i16 (b0 + 256 * b1) :: lanes_i16 r'
  | _ => []
  end.

Definition mm_set1_epi8 (b : Z) : list Z := replicate 16 (as_u8 b).
(** Arguments from the highest lane down. *)
Definition mm_set_epi8 (args : list Z) : list Z := reverse (as_u8 <$> args).
Definition mm_set_epi16 (args : list Z) : list Z := mjoin (le_split 2 <$> reverse args).
Definition mm_and_si128 (a b : list Z) : list Z := zip_with Z.land a b.
Definition mm_cmpgt_epi8 (a b : list Z) : list Z :=
  zip_with (λ x y, if to_i8 y <? to_i8 x then 255 else 0) a b.
Definition mm_add_epi8 (a b : list Z) : list Z := zip_with (λ x y, as_u8 (x + y)) a b.

(** Saturation to [i16]. *)
Definition sat_i16 (z : Z) : Z := Z.max (-32768) (Z.min 32767 z).
(** Unsigned bytes of [a] times signed bytes of [b], neighbours added. *)
Fixpoint mm_maddubs_epi16 (a b : list Z) : list Z :=
  match a, b with
  | a0 :: a1 :: a', b0 :: b1 :: b' =>
      le_split 2 (sat_i16 (a0 * to_i8 b0 + a1 * to_i8 b1)) ++ mm_maddubs_epi16 a' b'
  | _, _ => []
  end.
Fixpoint madd_lanes (a b : list Z) : list Z :=
  match a, b with
  | a0 :: a1 :: a', b0 :: b1 :: b' => le_split 4 (a0 * b0 + a1 * b1) ++ madd_lanes a' b'
  | _, _ => []
  end.
(** Signed 16-bit lanes multiplied, neighbours added into 32-bit lanes. *)
Definition mm_madd_epi16 (a b : list Z) : list Z := madd_lanes (lanes_i16 a) (lanes_i16 b).
Definition mm_shuffle_epi8 (a m : list Z) : list Z :=
  (λ c, if 128 <=? c then 0 else nth (Z.to_nat (Z.land c 15)) a 0) <$> m.
Definition mm_cvtsi128_si64 (r : list Z) : Z := as_i64 (le_combine (take 8 r)).
End Simd.

(** ** parse_hex_16_ssse3 *)

Definition parse_hex_16_ssse3 (hex : list Z) : Z :=
  let input := hex in
  let low_nibble := Simd.mm_and_si128 input (Simd.mm_set1_epi8 15) in
  let is_letter := Simd.mm_cmpgt_epi8 input (Simd.mm_set1_epi8 57) in
  let letter_adj := Simd.mm_and_si128 is_letter (Simd.mm_set1_epi8 9) in
  let nibbles := Simd.mm_add_epi8 low_nibble letter_adj in
  let mul_16_1 := Simd.mm_set_epi8 [1; 16; 1; 16; 1; 16; 1; 16; 1; 16; 1; 16; 1; 16; 1; 16] in
  let bytes := Simd.mm_maddubs_epi16 nibbles mul_16_1 in
  let mul_256_1 := Simd.mm_set_epi16 [1; 256; 1; 256; 1; 256; 1; 256] in
  let words := Simd.mm_madd_epi16 bytes mul_256_1 in
  let shuffle :=
    Simd.mm_set_epi8 [-1; -1; -1; -1; -1; -1; -1; -1; 1; 0; 5; 4; 9; 8; 13; 12] in
  let packed := Simd.mm_shuffle_epi8 words shuffle in
  as_u64 (Simd.mm_cvtsi128_si64 packed).

(** ** parse_hex_scalar *)

(** [u8::is_ascii_whitespace] and [u8::is_ascii_hexdigit]. *)
Definition is_ascii_whitespace (b : Z) : bool :=
  (b =? 32) || (b =? 9) || (b =? 10) || (b =? 12) || (b =? 13).
Definition between (lo hi b : Z) : bool := (lo <=? b) && (b <=? hi).
Definition is_ascii_hexdigit (b : Z) : bool :=
  between 48 57 b || between 97 102 b || between 65 70 b.

(** [u64::checked_shl]: only the shift amount is checked. *)
Definition checked_shl (v rhs : Z) : option Z :=
  if rhs <? 64 then Some (as_u64 (Z.shiftl v rhs)) else None.

Fixpoint skip_ascii_whitespace (buf : list Z) : list Z :=
  match buf with
  | [] => []
  | b :: rest => if is_ascii_whitespace b then skip_ascii_whitespace rest else buf
  end.

Definition skip_0x (buf : list Z) : list Z :=
  match buf with
  | z :: x :: rest => if (z =? 48) && ((x =? 120) || (x =? 88)) then rest else buf
  | _ => buf
  end.

(** The [match buf[i]] of the loop; [None] is the [break]. *)
Definition nibble_of (b : Z) : option Z :=
  if between 48 57 b then Some (b - 48)
  else if between 97 102 b then Some (b - 97 + 10)
  else if between 65 70 b then Some (b - 65 + 10)
  else None.

(** The digit loop from the bytes still to read; [None] is the [?] on
    [checked_shl].  (The counter is a [u32]: exact below 2^32 digits.) *)
Fixpoint hex_loop (buf : list Z) (val digits : Z) : option (Z * Z) :=
  match buf with
  | [] => Some (val, digits)
  | b :: rest =>
      match nibble_of b with
      | None => Some (val, digits)
      | Some nibble =>
          v ← checked_shl val 4;
          hex_loop rest (Z.lor v nibble) (digits + 1)
      end
  end.

Definition parse_hex_scalar (buf : list Z) : option Z :=
  let buf := skip_0x (skip_ascii_whitespace buf) in
  '(val, digits) ← hex_loop buf 0 0;
  if digits =? 0 then None else Some val.

(** ** parse_hex_auto

    [ssse3] is what [has_ssse3()] answers: the processor's feature flag on
    x86_64, [false] on the targets whose [parse_hex_auto] is the scalar one. *)
Definition parse_hex_auto (ssse3 : bool) (buf : list Z) : option Z :=
  if (19 <=? Z.of_nat (length buf))
     && (nth 0 buf 0 =? 48) && ((nth 1 buf 0 =? 120) || (nth 1 buf 0 =? 88)) && ssse3
  then
    let hex_slice := take 16 (drop 2 buf) in
    if forallb is_ascii_hexdigit hex_slice
    then Some (parse_hex_16_ssse3 hex_slice)
    else parse_hex_scalar buf
  else parse_hex_scalar buf.

(** ** Specification *)

(** The value of a digit, and of a digit string, most significant first. *)
Definition digit_val (b : Z) : Z := default 0 (nibble_of b).
Definition hex_value (ds : list Z) : Z := foldl (λ acc d, 16 * acc + digit_val d) 0 ds.
Definition is_hex (b : Z) : Prop := is_ascii_hexdigit b = true.

(** [0x%016llx\n], the text mac80211's debugfs file answers a read with. *)
Definition hex_char (d : Z) : Z := if d <? 10 then 48 + d else 87 + d.
Fixpoint hex_digits (n : nat) (v : Z) : list Z :=
  match n with
  | O => []
  | S n' => hex_digits n' (v / 16) ++ [hex_char (v mod 16)]
  end.
Definition tsf_text (v : Z) : list Z := lit "0x" ++ hex_digits 16 v ++ [10].

(** The longest run of hex digits at the start of a buffer. *)
Fixpoint hex_prefix (buf : list Z) : list Z :=
  match buf with
  | [] => []
  | b :: rest => if is_ascii_hexdigit b then b :: hex_prefix rest else []
  end.

(** ** Digits *)

Lemma is_hex_cases b :
  is_hex b -> 48 <= b <= 57 \/ 97 <= b <= 102 \/ 65 <= b <= 70.
Proof. unfold is_hex, is_ascii_hexdigit, between. lia. Qed.

Lemma nibble_of_hex b : is_ascii_hexdigit b = bool_decide (is_Some (nibble_of b)).
Proof.
  unfold is_ascii_hexdigit, nibble_of.
  destruct (between 48 57 b), (between 97 102 b), (between 65 70 b); reflexivity.
Qed.

Lemma digit_val_range b : is_hex b -> 0 <= digit_val b < 16.
Proof.
  intros H. pose proof (is_hex_cases b H).
  unfold digit_val, nibble_of, between. repeat case_match; simpl; lia.
Qed.

Lemma nibble_of_some b : is_hex b -> nibble_of b = Some (digit_val b).
Proof.
  unfold is_hex. rewrite nibble_of_hex. unfold digit_val.
  intros [n ->]%bool_decide_eq_true. done.
Qed.

(** What the vector code computes in each byte lane. *)
Lemma simd_nibble b :
  is_hex b ->
  as_u8 (Z.land b (as_u8 15)
         + Z.land (if Simd.to_i8 (as_u8 57) <? Simd.to_i8 b then 255 else 0) (as_u8 9))
  = digit_val b.
Proof.
  intros H. apply is_hex_cases in H.
  assert (In b (seqZ 48 10 ++ seqZ 97 6 ++ seqZ 65 6)) as Hin.
  { rewrite !in_app_iff, <- !list_elem_of_In, !elem_of_seqZ. lia. }
  clear H. revert b Hin. apply List.Forall_forall. vm_compute. repeat constructor.
Qed.

(** ** The vector parser *)

(** Four digits make one 32-bit lane holding their 16-bit value. *)
Lemma maddubs_pair n0 n1 a b :
  0 <= n0 < 16 -> 0 <= n1 < 16 ->
  Simd.mm_maddubs_epi16 (n0 :: n1 :: a) (16 :: 1 :: b)
  = 16 * n0 + n1 :: 0 :: Simd.mm_maddubs_epi16 a b.
Proof.
  intros. cbn [Simd.mm_maddubs_epi16]. unfold Simd.sat_i16, Simd.to_i8.
  cbn [Simd.le_split app]. change (16 <? 128) with true. change (1 <? 128) with true. cbn iota.
  rewrite Z.min_r, Z.max_r by lia. rewrite Z.mod_small, Z.div_small by lia.
  f_equal. lia.
Qed.

Lemma madd_quad b0 b1 a w :
  0 <= b0 < 256 -> 0 <= b1 < 256 ->
  Simd.madd_lanes (Simd.lanes_i16 (b0 :: 0 :: b1 :: 0 :: a)) (256 :: 1 :: w)
  = b1 :: b0 :: 0 :: 0 :: Simd.madd_lanes (Simd.lanes_i16 a) w.
Proof.
  intros. cbn [Simd.lanes_i16 Simd.madd_lanes]. unfold Simd.to_i16.
  rewrite !Z.mul_0_r, !Z.add_0_r.
  rewrite !(proj2 (Z.ltb_lt _ 32768)) by lia.
  replace (b0 * 256 + b1 * 1) with (b1 + b0 * 256) by lia.
  cbn [Simd.le_split app].
  rewrite Z.mod_add, Z.div_add, (Z.mod_small b1), (Z.div_small b1) by lia.
  rewrite (Z.mod_small (0 + b0)), (Z.div_small (0 + b0)) by lia. reflexivity.
Qed.

Lemma simd_lanes (hex : list Z) :
  Forall is_hex hex -> length hex = 16%nat ->
  Simd.mm_add_epi8 (Simd.mm_and_si128 hex (Simd.mm_set1_epi8 15))
    (Simd.mm_and_si128 (Simd.mm_cmpgt_epi8 hex (Simd.mm_set1_epi8 57)) (Simd.mm_set1_epi8 9))
  = digit_val <$> hex.
Proof.
  unfold Simd.mm_set1_epi8. intros Hhex Hlen.
  assert (forall n, length hex = n ->
    Simd.mm_add_epi8 (Simd.mm_and_si128 hex (replicate n (as_u8 15)))
      (Simd.mm_and_si128 (Simd.mm_cmpgt_epi8 hex (replicate n (as_u8 57)))
         (replicate n (as_u8 9)))
    = digit_val <$> hex) as Hgen; [|by apply Hgen].
  unfold Simd.mm_add_epi8, Simd.mm_and_si128, Simd.mm_cmpgt_epi8. clear Hlen.
  induction Hhex as [|b hex Hb Hhex IH]; intros n <-; [done|].
  cbn [length replicate zip_with fmap list_fmap]. rewrite simd_nibble by done.
  f_equal. by apply IH.
Qed.

Lemma parse_hex_16_ssse3_value (hex : list Z) :
  Forall is_hex hex -> length hex = 16%nat ->
  parse_hex_16_ssse3 hex = hex_value hex.
Proof.
  intros Hhex Hlen. unfold parse_hex_16_ssse3.
  rewrite simd_lanes by done.
  destruct (length_16_inv _ Hlen)
    as (?&?&?&?&?&?&?&?&?&?&?&?&?&?&?&?&->).
  forall_inv.
  repeat match goal with H : is_hex _ |- _ => apply digit_val_range in H end.
  cbn [fmap list_fmap].
  change (Simd.mm_set_epi8 [1; 16; 1; 16; 1; 16; 1; 16; 1; 16; 1; 16; 1; 16; 1; 16])
    with [16; 1; 16; 1; 16; 1; 16; 1; 16; 1; 16; 1; 16; 1; 16; 1].
  change (Simd.mm_set_epi16 [1; 256; 1; 256; 1; 256; 1; 256])
    with [0; 1; 1; 0; 0; 1; 1; 0; 0; 1; 1; 0; 0; 1; 1; 0].
  rewrite !maddubs_pair by done. unfold Simd.mm_madd_epi16.
  change (Simd.lanes_i16 [0; 1; 1; 0; 0; 1; 1; 0; 0; 1; 1; 0; 0; 1; 1; 0])
    with [256; 1; 256; 1; 256; 1; 256; 1].
  cbn [Simd.mm_maddubs_epi16]. rewrite !madd_quad by lia.
  cbn [Simd.lanes_i16 Simd.madd_lanes].
  unfold Simd.mm_cvtsi128_si64. rewrite as_u64_as_i64_any.
  change (Simd.mm_set_epi8 [-1; -1; -1; -1; -1; -1; -1; -1; 1; 0; 5; 4; 9; 8; 13; 12])
    with [12; 13; 8; 9; 4; 5; 0; 1; 255; 255; 255; 255; 255; 255; 255; 255].
  cbv -[Z.mul Z.add Z.le Z.lt as_u64 digit_val].
  rewrite as_u64_id by (int_unfold; lia). lia.
Qed.

(** ** The scalar parser *)

Lemma lor_shl4 v n :
  0 <= n < 16 -> Z.lor (as_u64 (Z.shiftl v 4)) n = as_u64 (16 * v + n).
Proof.
  intros Hn. rewrite Z.shiftl_mul_pow2 by lia. int_unfold.
  change (2 ^ 4) with 16. change 18446744073709551616 with (1152921504606846976 * 16).
  rewrite Zmult_mod_distr_r.
  replace (16 * v + n) with (n + v * 16) by lia.
  rewrite (Z.mul_comm 1152921504606846976 16), Z.rem_mul_r by lia.
  rewrite Z.mod_add, Z.div_add, (Z.mod_small n 16), (Z.div_small n 16) by lia.
  set (k := v mod 1152921504606846976). rewrite Z.add_0_l. fold k.
  assert (Z.land (k * 16) n = 0) as Hland.
  { change 16 with (2 ^ 4). rewrite <- Z.shiftl_mul_pow2 by lia.
    apply Z.bits_inj'. intros i Hi. rewrite Z.land_spec, Z.bits_0.
    destruct (Z.lt_ge_cases i 4).
    - by rewrite Z.shiftl_spec_low.
    - rewrite (Z.bits_above_log2 n i), andb_false_r; [done|lia|].
      destruct (Z.eq_dec n 0) as [->|]; [simpl; lia|].
      apply Z.lt_le_trans with 4; [|done]. apply Z.log2_lt_pow2; [lia|]. change (2 ^ 4) with 16. lia. }
  pose proof (Z.add_lor_land (k * 16) n). lia.
Qed.

Lemma hex_value_snoc ds d : hex_value (ds ++ [d]) = 16 * hex_value ds + digit_val d.
Proof. unfold hex_value. by rewrite foldl_snoc. Qed.

Lemma hex_value_bound ds :
  Forall is_hex ds -> 0 <= hex_value ds < 16 ^ Z.of_nat (length ds).
Proof.
  induction ds as [|d ds IH] using rev_ind; [cbn; lia|].
  rewrite Forall_app, Forall_singleton. intros [Hds Hd%digit_val_range].
  specialize (IH Hds). rewrite hex_value_snoc, length_app, Nat2Z.inj_add. simpl length.
  rewrite Z.pow_add_r by lia. change (16 ^ Z.of_nat 1) with 16. lia.
Qed.

(** The loop consumes the leading digits and accumulates them mod 2^64. *)
Lemma hex_loop_prefix buf ds0 :
  hex_loop buf (as_u64 (hex_value ds0)) (Z.of_nat (length ds0)) =
  Some (as_u64 (hex_value (ds0 ++ hex_prefix buf)),
        Z.of_nat (length (ds0 ++ hex_prefix buf))).
Proof.
  revert ds0. induction buf as [|b buf IH]; intros ds0; simpl.
  { by rewrite app_nil_r. }
  destruct (is_ascii_hexdigit b) eqn:Hb.
  - rewrite nibble_of_some by done. simpl.
    rewrite lor_shl4 by (by apply digit_val_range).
    replace (as_u64 (16 * as_u64 (hex_value ds0) + digit_val b))
      with (as_u64 (hex_value (ds0 ++ [b]))).
    2: { rewrite hex_value_snoc. int_unfold.
         by rewrite <- (Zplus_mod_idemp_l (16 * (_ mod _))), Zmult_mod_idemp_r, Zplus_mod_idemp_l. }
    replace (Z.of_nat (length ds0) + 1) with (Z.of_nat (length (ds0 ++ [b])))
      by (rewrite length_app; simpl; lia).
    rewrite IH. by rewrite <- app_assoc.
  - rewrite nibble_of_hex in Hb. apply bool_decide_eq_false in Hb.
    apply eq_None_not_Some in Hb as ->. by rewrite app_nil_r.
Qed.

Lemma parse_hex_scalar_value buf :
  parse_hex_scalar buf =
  (let ds := hex_prefix (skip_0x (skip_ascii_whitespace buf)) in
   if decide (ds = []) then None else Some (as_u64 (hex_value ds))).
Proof.
  unfold parse_hex_scalar.
  set (b := skip_0x _). pose proof (hex_loop_prefix b []) as H.
  change (as_u64 (hex_value [])) with 0 in H. change (Z.of_nat (length [])) with 0 in H.
  rewrite H. simpl. destruct (hex_prefix b) as [|d ds]; [done|]. simpl.
  destruct (Z.eqb_spec (Z.of_nat (S (length ds))) 0); [lia|done].
Qed.

Lemma hex_prefix_all ds rest :
  Forall is_hex ds -> match rest with [] => True | b :: _ => is_ascii_hexdigit b = false end ->
  hex_prefix (ds ++ rest) = ds.
Proof.
  intros H Hrest. induction H as [|d ds Hd H IH]; simpl.
  - destruct rest as [|b rest]; simpl; [done|by rewrite Hrest].
  - rewrite Hd. by rewrite IH.
Qed.

Lemma hex_value_16 ds : Forall is_hex ds -> length ds = 16%nat -> as_u64 (hex_value ds) = hex_value ds.
Proof.
  intros H Hlen. pose proof (hex_value_bound ds H) as Hb. rewrite Hlen in Hb.
  change (16 ^ Z.of_nat 16) with 18446744073709551616 in Hb.
  apply as_u64_id. int_unfold. lia.
Qed.

(** What both parsers see when the buffer starts as the driver writes it. *)
Lemma parse_scalar_0x x ds rest :
  (x = 120 \/ x = 88) -> Forall is_hex ds -> ds <> [] ->
  match rest with [] => True | b :: _ => is_ascii_hexdigit b = false end ->
  parse_hex_scalar (48 :: x :: ds ++ rest) = Some (as_u64 (hex_value ds)).
Proof.
  intros Hx Hds Hne Hrest. rewrite parse_hex_scalar_value.
  change (skip_ascii_whitespace (48 :: x :: ds ++ rest)) with (48 :: x :: ds ++ rest).
  assert (skip_0x (48 :: x :: ds ++ rest) = ds ++ rest) as ->.
  { destruct Hx as [-> | ->]; reflexivity. }
  cbv zeta. rewrite hex_prefix_all by done. by rewrite decide_False.
Qed.

(** A buffer that passes the fast path's test, taken apart. *)
Lemma fast_path_shape (buf : list Z) :
  (19 <=? Z.of_nat (length buf)) = true -> nth 0 buf 0 = 48 ->
  exists x ds b rest,
    buf = 48 :: x :: ds ++ b :: rest /\ nth 1 buf 0 = x /\
    take 16 (drop 2 buf) = ds /\ length ds = 16%nat.
Proof.
  intros Hlen%Z.leb_le H0.
  destruct buf as [|z [|x tl]]; simpl in *; try lia. subst z.
  destruct (drop 16 tl) as [|b rest] eqn:Hd.
  { apply (f_equal length) in Hd. rewrite length_drop in Hd. simpl in Hd. lia. }
  exists x, (take 16 tl), b, rest. rewrite <- Hd, take_drop. repeat split.
  rewrite length_take. lia.
Qed.

Lemma forallb_is_hex ds : forallb is_ascii_hexdigit ds = true <-> Forall is_hex ds.
Proof. rewrite forallb_forall, List.Forall_forall. done. Qed.

(** The fast path's answer, and the condition that selects it. *)
Lemma parse_hex_auto_fast x ds b rest :
  (x = 120 \/ x = 88) -> length ds = 16%nat -> Forall is_hex ds ->
  parse_hex_auto true (48 :: x :: ds ++ b :: rest) = Some (hex_value ds).
Proof.
  intros Hx Hlen Hds. unfold parse_hex_auto.
  assert (take 16 (drop 2 (48 :: x :: ds ++ b :: rest)) = ds) as Htake.
  { change (drop 2 (48 :: x :: ds ++ b :: rest)) with (ds ++ b :: rest).
    by rewrite take_app_length'. }
  rewrite Htake, (proj2 (forallb_is_hex ds)) by done.
  rewrite parse_hex_16_ssse3_value by done.
  assert ((19 <=? Z.of_nat (length (48 :: x :: ds ++ b :: rest))) = true) as ->.
  { apply Z.leb_le. simpl. rewrite length_app, Hlen. simpl. lia. }
  destruct Hx as [-> | ->]; reflexivity.
Qed.

(** Digits printed and read back. *)
Lemma hex_char_spec d : 0 <= d < 16 -> is_hex (hex_char d) /\ digit_val (hex_char d) = d.
Proof.
  intros Hd. assert (In d (seqZ 0 16)) as Hin by (rewrite <- list_elem_of_In, elem_of_seqZ; lia).
  clear Hd. revert d Hin. apply List.Forall_forall. vm_compute. repeat constructor.
Qed.

Lemma hex_digits_spec n v :
  0 <= v < 16 ^ Z.of_nat n ->
  Forall is_hex (hex_digits n v) /\ length (hex_digits n v) = n /\ hex_value (hex_digits n v) = v.
Proof.
  revert v. induction n as [|n IH]; intros v Hv.
  { simpl in *. change (16 ^ Z.of_nat 0) with 1 in Hv. repeat split; [constructor|]. vm_compute. lia. }
  rewrite Nat2Z.inj_succ, Z.pow_succ_r in Hv by lia.
  destruct (IH (v / 16)) as (IH1 & IH2 & IH3).
  { split; [apply Z.div_pos; lia|apply Z.div_lt_upper_bound; lia]. }
  destruct (hex_char_spec (v mod 16)) as [Hc1 Hc2]; [apply Z.mod_pos_bound; lia|].
  cbn [hex_digits]. rewrite hex_value_snoc, IH3, Hc2, length_app, IH2.
  split_and!; [by apply Forall_app; split; [|constructor]|simpl; lia|].
  pose proof (Z.div_mod v 16). lia.
Qed.

Lemma tsf_text_parses_app (ssse3 : bool) (v : Z) (rest : list Z) :
  in_u64 v -> parse_hex_auto ssse3 (tsf_text v ++ rest) = Some v.
Proof.
  intros Hv. destruct (hex_digits_spec 16 v) as (Hd & Hlen & Hval).
  { change (16 ^ Z.of_nat 16) with 18446744073709551616. int_unfold. lia. }
  assert (tsf_text v ++ rest = 48 :: 120 :: hex_digits 16 v ++ 10 :: rest) as ->.
  { unfold tsf_text. rewrite <- !app_assoc. reflexivity. }
  destruct ssse3.
  - rewrite parse_hex_auto_fast; auto. by rewrite Hval.
  - unfold parse_hex_auto. rewrite andb_false_r, parse_scalar_0x by (try done; by left).
    by rewrite Hval, as_u64_id.
Qed.
Lemma tsf_text_parses (ssse3 : bool) (v : Z) : in_u64 v -> parse_hex_auto ssse3 (tsf_text v) = Some v.
Proof. intros Hv. rewrite <- (app_nil_r (tsf_text v)). by apply tsf_text_parses_app. Qed.

(** ** Properties *)

(** C24: on 16 hex digits the SSSE3 pipeline computes their value, most
    significant digit first, which is also what the scalar parser returns for
    the same digits behind [0x]. *)
Theorem ssse3_equals_scalar (hex : list Z) :
  Forall is_hex hex -> length hex = 16%nat ->
  parse_hex_16_ssse3 hex = hex_value hex
  /\ parse_hex_scalar (lit "0x" ++ hex) = Some (parse_hex_16_ssse3 hex).
Proof.
  intros Hhex Hlen. rewrite parse_hex_16_ssse3_value by done. split; [done|].
  rewrite <- (app_nil_r hex) at 1.
  change (lit "0x" ++ hex ++ []) with (48 :: 120 :: hex ++ []).
  rewrite parse_scalar_0x; auto; [by rewrite hex_value_16|by destruct hex].
Qed.

Lemma ssse3_equals_scalar_witness :
  parse_hex_16_ssse3 (lit "aAbBcCdDeEfF0123") = 0xAABBCCDDEEFF0123
  /\ parse_hex_scalar (lit "0xaAbBcCdDeEfF0123") = Some 0xAABBCCDDEEFF0123.
Proof.
  destruct (ssse3_equals_scalar (lit "aAbBcCdDeEfF0123")) as [H1 H2].
  - apply forallb_is_hex. reflexivity.
  - reflexivity.
  - split; [rewrite H1; reflexivity|].
    change (lit "0x" ++ lit "aAbBcCdDeEfF0123") with (lit "0xaAbBcCdDeEfF0123") in H2.
    rewrite H2, H1. reflexivity.
Defined.

(** Whether or not the processor has SSSE3, [parse_hex_auto] answers what
    the scalar parser answers, for every buffer whose nineteenth byte is not a
    hex digit (the driver writes a newline there). *)
Theorem parse_hex_auto_equals_scalar (ssse3 : bool) (buf : list Z) :
  is_ascii_hexdigit (nth 18 buf 0) = false ->
  parse_hex_auto ssse3 buf = parse_hex_scalar buf.
Proof.
  intros Hb. unfold parse_hex_auto. destruct (_ && _) eqn:Hguard; [|done].
  apply andb_true_iff in Hguard as [[[Hlen H0%Z.eqb_eq]%andb_true_iff H1]%andb_true_iff _].
  destruct (fast_path_shape buf Hlen H0) as (x & ds & b & rest & -> & Hx & Htake & Hds).
  rewrite Htake. destruct (forallb _ ds) eqn:Hhex; [|done]. apply forallb_is_hex in Hhex.
  assert (x = 120 \/ x = 88) as Hx'. { simpl in H1. apply orb_true_iff in H1. lia. }
  rewrite parse_hex_16_ssse3_value, parse_scalar_0x; auto.
  - by rewrite hex_value_16.
  - by destruct ds.
  - change (nth 18 (48 :: x :: ds ++ b :: rest) 0) with (nth 16 (ds ++ b :: rest) 0) in Hb.
    rewrite app_nth2, Hds in Hb by lia. done.
Qed.

Lemma parse_hex_auto_equals_scalar_witness :
  parse_hex_auto true (lit "0x0000000012345678" ++ [10]) = Some 0x12345678.
Proof.
  rewrite (parse_hex_auto_equals_scalar true (lit "0x0000000012345678" ++ [10])); reflexivity.
Defined.

(** The text the driver writes for a TSF value is read back as that value,
    by either path and whatever follows it in the buffer. *)
Theorem tsf_text_round_trip (ssse3 : bool) (v : Z) (rest : list Z) :
  in_u64 v -> parse_hex_auto ssse3 (tsf_text v ++ rest) = Some v.
Proof. apply tsf_text_parses_app. Qed.

Lemma tsf_text_round_trip_witness :
  tsf_text 0xe8d4a51000 = lit "0x000000e8d4a51000" ++ [10]
  /\ parse_hex_auto true (tsf_text 0xe8d4a51000 ++ [0; 0]) = Some 0xe8d4a51000.
Proof.
  split; [reflexivity|]. apply (tsf_text_round_trip true 0xe8d4a51000 [0; 0]).
  unfold in_u64. lia.
Defined.

(** *** The texts the scalar parser accepts

    A digit is a place in an alphabet of sixteen. *)
Definition hex_digit (v : nat) (b : Z) : Prop :=
  lit "0123456789abcdef" !! v = Some b \/ lit "0123456789ABCDEF" !! v = Some b.

Lemma hex_digit_nibble v b : hex_digit v b <-> nibble_of b = Some (Z.of_nat v).
Proof.
  split.
  - intros [H|H]; (do 16 (destruct v as [|v]; [by injection H as <-|])); done.
  - unfold nibble_of, between, hex_digit. intros H.
    assert (exists i, (i < 16)%nat /\ v = i /\ (b = 48 + Z.of_nat i /\ (i < 10)%nat
              \/ b = 87 + Z.of_nat i /\ (10 <= i)%nat \/ b = 55 + Z.of_nat i /\ (10 <= i)%nat)) as (i & Hi & -> & Hb).
    { exists v. repeat case_match; simplify_eq; lia. }
    do 16 (destruct i as [|i]; [destruct Hb as [[-> ?]|[[-> ?]|[-> ?]]]; first [by left|by right|lia]|]). lia.
Qed.

Lemma not_hex_digit b : (forall v, ~ hex_digit v b) -> is_ascii_hexdigit b = false.
Proof.
  intros Hn. rewrite nibble_of_hex. apply bool_decide_eq_false. intros [n Hb].
  assert (0 <= n) by (revert Hb; unfold nibble_of, between; repeat case_match; intros; simplify_eq; lia).
  apply (Hn (Z.to_nat n)), hex_digit_nibble. by rewrite Z2Nat.id.
Qed.

Definition white (b : Z) : Prop := b ∈ [32; 9; 10; 12; 13].
Definition starts_0x (l : list Z) : Prop := exists rest, l = lit "0x" ++ rest \/ l = lit "0X" ++ rest.

(** White space; then "0x", "0X" or nothing, nothing only if neither they nor
    more white space are there; then digits of the values [vs], and no digit
    after them. *)
Definition hex_text (buf : list Z) (vs : list nat) : Prop :=
  exists ws mark ds rest, buf = ws ++ mark ++ ds ++ rest
    /\ Forall white ws
    /\ (mark = lit "0x" \/ mark = lit "0X"
        \/ mark = [] /\ ~ starts_0x (ds ++ rest) /\ forall b, head (ds ++ rest) = Some b -> ~ white b)
    /\ Forall2 hex_digit vs ds
    /\ forall b v, head rest = Some b -> ~ hex_digit v b.

(** What digits are worth, the most significant first. *)
Definition digits_value (vs : list nat) : Z := foldl (λ acc v, acc * 16 + Z.of_nat v) 0 vs.

Lemma white_ascii b : is_ascii_whitespace b = bool_decide (white b).
Proof.
  unfold is_ascii_whitespace, white. apply eq_true_iff_eq. rewrite bool_decide_eq_true.
  rewrite !elem_of_cons, elem_of_nil, !orb_true_iff, !Z.eqb_eq. tauto.
Qed.

Lemma skip_white ws l :
  Forall white ws -> (forall b, head l = Some b -> ~ white b) -> skip_ascii_whitespace (ws ++ l) = l.
Proof.
  intros Hws Hl. induction Hws as [|b ws Hb _ IH]; cbn [app skip_ascii_whitespace].
  - destruct l as [|b l]; [done|]. cbn [skip_ascii_whitespace]. rewrite white_ascii, bool_decide_eq_false_2; [done|by apply Hl].
  - by rewrite white_ascii, bool_decide_eq_true_2.
Qed.

Lemma skip_white_split l : exists ws, l = ws ++ skip_ascii_whitespace l /\ Forall white ws
  /\ forall b, head (skip_ascii_whitespace l) = Some b -> ~ white b.
Proof.
  induction l as [|b l (ws & E & Hws & Hb)]; [by exists []|]. cbn [skip_ascii_whitespace]. rewrite white_ascii.
  case_bool_decide as Hw; [|exists []; split_and!; [done..|by intros ? [= <-]]].
  exists (b :: ws). split_and!; [simpl; congruence|by constructor|done].
Qed.

Lemma skip_0x_not l : ~ starts_0x l -> skip_0x l = l.
Proof.
  intros Hn. destruct l as [|z [|x l]]; [done..|]. cbn [skip_0x].
  destruct (Z.eqb_spec z 48) as [->|]; [|done]. destruct (Z.eqb_spec x 120) as [->|]; [destruct Hn; exists l; by left|].
  destruct (Z.eqb_spec x 88) as [->|]; [destruct Hn; exists l; by right|done].
Qed.

Lemma skip_0x_split l : exists mark, l = mark ++ skip_0x l
  /\ (mark = lit "0x" \/ mark = lit "0X" \/ mark = [] /\ ~ starts_0x (skip_0x l) /\ skip_0x l = l).
Proof.
  assert (starts_0x l \/ ~ starts_0x l) as [(rest & [-> | ->])|Hn].
  - destruct l as [|z [|x l]]; [right; by intros (? & [?|?])..|].
    destruct (decide (z = 48 /\ (x = 120 \/ x = 88))) as [[-> [-> | ->]]|Hn];
      [left; exists l; by left|left; exists l; by right|right]. intros (r & [[= -> -> _]|[= -> -> _]]); apply Hn; auto.
  - exists (lit "0x"). split; [done|by left].
  - exists (lit "0X"). split; [done|by right; left].
  - exists []. rewrite skip_0x_not by done. split; [done|]. by right; right.
Qed.

Lemma hex_digits_value vs ds :
  Forall2 hex_digit vs ds -> Forall is_hex ds /\ hex_value ds = digits_value vs /\ length vs = length ds.
Proof.
  intros H. assert (forall acc, foldl (λ acc d, 16 * acc + digit_val d) acc ds = foldl (λ acc v, acc * 16 + Z.of_nat v) acc vs) as Hv.
  { induction H as [|v d vs ds Hd _ IH]; intros acc; [done|]. cbn [foldl]. rewrite IH. f_equal.
    apply hex_digit_nibble in Hd. unfold digit_val. rewrite Hd. simpl. lia. }
  split; [|split; [apply Hv|by eapply Forall2_length]]. clear Hv. induction H as [|v d vs ds Hd _ IH]; constructor; [|done].
  apply hex_digit_nibble in Hd. unfold is_hex. by rewrite nibble_of_hex, Hd.
Qed.

Lemma hex_prefix_split l : exists vs rest, l = hex_prefix l ++ rest /\ Forall2 hex_digit vs (hex_prefix l)
  /\ forall b v, head rest = Some b -> ~ hex_digit v b.
Proof.
  induction l as [|b l (vs & rest & E & Hv & Hr)]; [by exists [], []|]. cbn [hex_prefix].
  destruct (is_ascii_hexdigit b) eqn:Hb.
  - rewrite nibble_of_hex in Hb. apply bool_decide_eq_true in Hb as [n Hn].
    assert (0 <= n) by (revert Hn; unfold nibble_of, between; repeat case_match; intros; simplify_eq; lia).
    exists (Z.to_nat n :: vs), rest. split_and!; [simpl; congruence| |done]. constructor; [|done].
    apply hex_digit_nibble. by rewrite Z2Nat.id.
  - exists [], (b :: l). split_and!; [done..|]. intros b' v [= <-] Hd%hex_digit_nibble.
    rewrite nibble_of_hex, bool_decide_eq_false in Hb. apply Hb. by eexists.
Qed.

(** C36: the scalar parser.  Every buffer is white space, an optional "0x" or
    "0X", digits and a rest that does not go on with a digit; without digits
    there is no number, and with digits the number is their value, taken mod
    2^64: a run of more than 16 is accepted. *)
Theorem parse_hex_scalar_spec (buf : list Z) :
  (exists vs, hex_text buf vs)
  /\ forall vs, hex_text buf vs ->
       parse_hex_scalar buf = if decide (vs = []) then None else Some (digits_value vs mod 18446744073709551616).
Proof.
  split.
  - destruct (skip_white_split buf) as (ws & Ew & Hws & Hnw). set (l := skip_ascii_whitespace buf) in *.
    destruct (skip_0x_split l) as (mark & Em & Hm). set (l2 := skip_0x l) in *.
    destruct (hex_prefix_split l2) as (vs & rest & Ed & Hv & Hr). exists vs.
    exists ws, mark, (hex_prefix l2), rest. rewrite <- Ed, <- Em. split_and!; try done.
    destruct Hm as [?|[?|(? & ? & E)]]; auto. right; right. split_and!; try done. by rewrite E.
  - intros vs (ws & mark & ds & rest & -> & Hws & Hm & Hv & Hr).
    destruct (hex_digits_value vs ds Hv) as (Hds & Hval & Hlen).
    assert (skip_0x (skip_ascii_whitespace (ws ++ mark ++ ds ++ rest)) = ds ++ rest) as E.
    { destruct Hm as [-> |[-> |(-> & Hn & Hb)]].
      - rewrite skip_white; [done..|]. intros b [= <-]. unfold white. rewrite !elem_of_cons, elem_of_nil. lia.
      - rewrite skip_white; [done..|]. intros b [= <-]. unfold white. rewrite !elem_of_cons, elem_of_nil. lia.
      - rewrite skip_white by done. by apply skip_0x_not. }
    rewrite parse_hex_scalar_value, E. cbv zeta. rewrite hex_prefix_all; [|done|].
    2:{ destruct rest as [|b rest]; [done|]. apply not_hex_digit. intros v. by apply Hr. }
    rewrite Hval. destruct vs, ds; done.
Qed.

Lemma parse_hex_scalar_spec_witness : parse_hex_scalar (lit " 0X1fz") = Some 31.
Proof.
  destruct (parse_hex_scalar_spec (lit " 0X1fz")) as [_ H]. apply (H [1; 15]%nat).
  exists (lit " "), (lit "0X"), (lit "1f"), (lit "z"). split_and!.
  - reflexivity.
  - apply (bool_decide_unpack _). reflexivity.
  - right. left. reflexivity.
  - repeat constructor.
  - intros b v [= <-] Hv. apply hex_digit_nibble in Hv. discriminate.
Defined.

(** On a line with seventeen digits the two parsers disagree: the SSSE3
    path takes the first sixteen, the scalar path the last sixteen. *)
Theorem parse_hex_auto_seventeen_digits (x b : Z) (ds : list Z) :
  (x = 120 \/ x = 88) -> Forall is_hex ds -> length ds = 16%nat -> is_hex b ->
  let buf := 48 :: x :: ds ++ [b; 10] in
  parse_hex_auto true buf = Some (hex_value ds)
  /\ parse_hex_auto false buf = Some (as_u64 (16 * hex_value ds + digit_val b)).
Proof.
  intros Hx Hds Hlen Hb buf. split; [by apply parse_hex_auto_fast|].
  unfold parse_hex_auto. rewrite andb_false_r.
  replace buf with (48 :: x :: (ds ++ [b]) ++ [10]) by (by unfold buf; rewrite <- app_assoc).
  rewrite parse_scalar_0x; auto.
  - by rewrite hex_value_snoc.
  - apply Forall_app. auto.
  - by destruct ds.
Qed.

Lemma parse_hex_auto_seventeen_digits_witness :
  parse_hex_auto true (48 :: 120 :: lit "1234567812345678" ++ [57; 10]) = Some 0x1234567812345678
  /\ parse_hex_auto false (48 :: 120 :: lit "1234567812345678" ++ [57; 10]) = Some 0x2345678123456789.
Proof.
  destruct (parse_hex_auto_seventeen_digits 120 57 (lit "1234567812345678")) as [H1 H2].
  - by left.
  - apply forallb_is_hex. reflexivity.
  - reflexivity.
  - reflexivity.
  - split; [rewrite H1; reflexivity|rewrite H2; reflexivity].
Defined.
