(* ===== verification/Sys.v ===== *)
(** * The operating system under tsf-sync-debugfs

    The system calls the tool makes are parameters of its model: a class gives
    their type, and two more state the documented behaviour some theorems rely
    on (how many bytes a read stores, and how mac80211's debugfs [tsf] files
    answer reads and writes while the counters run). *)

From S2P Require Import Prelude Ints Text Hex.

(** ** The build *)

(** [cfg(target_arch)], as far as the source distinguishes it. *)
Inductive arch := X86_64 | OtherArch.

(** What the compiler and the processor fix before the program runs. *)
Class Build := {
  overflow_checks : bool;
  target_arch : arch;
  ssse3_detected : bool;
}.

(** [has_ssse3()]; on other targets [parse_hex_auto] is the scalar parser. *)
Definition has_ssse3 `{Build} : bool :=
  match target_arch with X86_64 => ssse3_detected | OtherArch => false end.

(** The debug and release builds for an x86_64 machine with SSSE3. *)
Definition debug_x86 : Build :=
  {| overflow_checks := true; target_arch := X86_64; ssse3_detected := true |}.
Definition release_x86 : Build :=
  {| overflow_checks := false; target_arch := X86_64; ssse3_detected := true |}.
Definition release_other : Build :=
  {| overflow_checks := false; target_arch := OtherArch; ssse3_detected := false |}.

(** ** Errors *)

Inductive io_error :=
  | OsError (errno : Z)
  | InvalidData (msg : str)
  | NotFound (msg : str)
  | Other (msg : str).

#[export] Instance io_error_eq_dec : EqDecision io_error.
Proof. solve_decision. Defined.

(** ** System calls

    Raw results: non-negative, or a negated errno in [-4095, -1].  A read also
    gives the bytes it stored.  [running_load] is the value the atomic flag has
    when the program loads it: the signal handler stores to it at any time. *)
Class Sys (W : Type) := {
  sys_open : str -> W -> Z * W;
  sys_pread64 : Z -> nat -> Z -> W -> (Z * list Z) * W;
  sys_pwrite64 : Z -> list Z -> Z -> W -> Z * W;
  sys_lseek : Z -> Z -> W -> Z * W;
  sys_read : Z -> nat -> W -> (Z * list Z) * W;
  sys_write : Z -> list Z -> W -> Z * W;
  sys_clock_gettime : W -> (Z * Z) * W;
  sys_clock_nanosleep : Z * Z -> W -> Z * W;
  sys_mlockall : W -> Z * W;
  sys_sched_setscheduler : Z -> W -> Z * W;
  sys_sched_setaffinity : Z -> W -> Z * W;
  running_load : W -> bool * W;
}.

(** libc's wrappers return -1 on failure and leave the error in [errno]. *)
Definition libc_ret (r : Z) : Z := if r <? 0 then -1 else r.
Definition libc_errno (r : Z) : Z := if r <? 0 then - r else 0.

(** A read stores at most the bytes it was asked for, and says how many. *)
Class SysReads (W : Type) `{Sys W} := {
  sys_pread64_stored fd n off w r data w' :
    sys_pread64 fd n off w = ((r, data), w') ->
    r = Z.of_nat (length data) /\ (length data <= n)%nat \/ r < 0 /\ data = [];
  sys_read_stored fd n w r data w' :
    sys_read fd n w = ((r, data), w') ->
    r = Z.of_nat (length data) /\ (length data <= n)%nat \/ r < 0 /\ data = [];
}.

(** ** The debugfs [tsf] files

    A running clock, in microseconds, and per file the offset of its counter
    from that clock.  A read that succeeds answers with the text of the counter
    at some instant of the call; a write of a decimal number that succeeds makes
    the counter take that value at some instant of the call.  Nothing else
    changes an offset. *)
Class TsfFiles (W : Type) `{Sys W} := {
  tsf_fd : Z -> Prop;
  clk : W -> Z;
  base : W -> Z -> Z;
  tsf_pread fd w r data w' :
    tsf_fd fd -> sys_pread64 fd 64 0 w = ((r, data), w') ->
    clk w <= clk w' /\ base w' = base w /\ -4095 <= r
    /\ (0 <= r -> r = Z.of_nat (length data)
         /\ exists t, clk w <= t <= clk w' /\ data = tsf_text (as_u64 (base w fd + t)));
  tsf_pwrite fd v w r w' :
    tsf_fd fd -> in_u64 v -> sys_pwrite64 fd (dec v ++ [10]) 0 w = (r, w') ->
    clk w <= clk w' /\ (forall fd', fd' <> fd -> base w' fd' = base w fd')
    /\ (r < 0 -> base w' fd = base w fd)
    /\ (0 <= r -> exists t, clk w <= t <= clk w' /\ base w' fd + t = v);
}.

(** A stretch of time in which the given files answer, each call within
    [lat] microseconds, and sleeps are not interrupted. *)
Class Steady (W : Type) `{TsfFiles W} := {
  steady : list Z -> Z -> W -> Prop;
  steady_pread fds lat fd w r data w' :
    steady fds lat w -> fd ∈ fds -> sys_pread64 fd 64 0 w = ((r, data), w') ->
    tsf_fd fd /\ 0 <= r /\ clk w' - clk w <= lat /\ steady fds lat w';
  steady_pwrite fds lat fd v w r w' :
    steady fds lat w -> fd ∈ fds -> in_u64 v -> sys_pwrite64 fd (dec v ++ [10]) 0 w = (r, w') ->
    tsf_fd fd /\ 0 <= r /\ clk w' - clk w <= lat /\ steady fds lat w';
  steady_sleep fds lat d w r w' :
    steady fds lat w -> sys_clock_nanosleep d w = (r, w') ->
    r = 0 /\ clk w <= clk w' /\ base w' = base w /\ steady fds lat w';
  steady_running fds lat w b w' :
    steady fds lat w -> running_load w = (b, w') ->
    clk w <= clk w' /\ base w' = base w /\ steady fds lat w';
}.
