(* ===== verification/Syscall.v ===== *)
(** * The inline system calls (bin/tsf_sync_debugfs/asm/syscall.rs)

    The wrappers put their arguments into registers, execute [syscall], and take
    the result from rax.  The instruction is a parameter; what Linux does with
    the registers is a class of documented laws, the prototypes of the three
    system calls.  Pointers are addresses. *)

From S2P Require Import Prelude Ints.

(** ** Definitions *)

(** The registers the wrappers set. *)
Record Regs := { rax : Z; rdi : Z; rsi : Z; rdx : Z; r10 : Z }.

(** The instruction: the new rax. *)
Class Cpu (W : Type) := { syscall : Regs -> W -> Z * W }.

Section wrappers.
Context {W : Type} `{Cpu W}.

Definition raw_pread64 (fd buf count offset : Z) (w : W) : Z * W :=
  let '(ret, w) := syscall {| rax := 17; rdi := as_u64 fd; rsi := as_u64 buf; rdx := as_u64 count; r10 := as_u64 offset |} w in
  (as_i64 ret, w).

Definition raw_pwrite64 (fd buf count offset : Z) (w : W) : Z * W :=
  let '(ret, w) := syscall {| rax := 18; rdi := as_u64 fd; rsi := as_u64 buf; rdx := as_u64 count; r10 := as_u64 offset |} w in
  (as_i64 ret, w).

Definition raw_clock_nanosleep (clockid flags rqtp : Z) (w : W) : Z * W :=
  let '(ret, w) := syscall {| rax := 230; rdi := as_u64 clockid; rsi := as_u64 flags; rdx := as_u64 rqtp; r10 := 0 |} w in
  (as_i32 (as_i64 ret), w).
End wrappers.

(** The x86_64 Linux convention: the number is in rax, the arguments are cut to
    the types of the prototype (an unsigned descriptor, a pointer, a size and a
    signed 64-bit position; two ints and two pointers for the sleep), and a
    signed word comes back in rax, a negated errno on failure. *)
Class LinuxAbi (W : Type) `{Cpu W} := {
  k_pread64 : Z -> Z -> Z -> Z -> W -> Z * W;
  k_pwrite64 : Z -> Z -> Z -> Z -> W -> Z * W;
  k_clock_nanosleep : Z -> Z -> Z -> Z -> W -> Z * W;
  abi_pread64 r w : rax r = 17 ->
    syscall r w = let '(n, w) := k_pread64 (as_u32 (rdi r)) (rsi r) (rdx r) (as_i64 (r10 r)) w in (as_u64 n, w);
  abi_pwrite64 r w : rax r = 18 ->
    syscall r w = let '(n, w) := k_pwrite64 (as_u32 (rdi r)) (rsi r) (rdx r) (as_i64 (r10 r)) w in (as_u64 n, w);
  abi_clock_nanosleep r w : rax r = 230 ->
    syscall r w = let '(n, w) := k_clock_nanosleep (as_i32 (rdi r)) (as_i32 (rsi r)) (rdx r) (r10 r) w in (as_u64 n, w);
  abi_pread64_range fd buf count pos w : in_i64 (k_pread64 fd buf count pos w).1;
  abi_pwrite64_range fd buf count pos w : in_i64 (k_pwrite64 fd buf count pos w).1;
  abi_clock_nanosleep_result clock flags rqtp rmtp w :
    -4095 <= (k_clock_nanosleep clock flags rqtp rmtp w).1 <= 0;
}.

(** ** Facts *)

Lemma as_u32_as_u64 z : as_u32 (as_u64 z) = as_u32 z.
Proof.
  destruct (as_u64_shift z) as [k ->]. unfold as_u32.
  replace (z + k * 18446744073709551616) with (z + k * 4294967296 * 4294967296) by lia. by rewrite Z.mod_add by lia.
Qed.
Lemma as_i32_as_u64 z : in_i32 z -> as_i32 (as_u64 z) = z.
Proof.
  intros Hz. destruct (as_u64_shift z) as [k ->]. int_unfold.
  replace (z + k * 18446744073709551616 + 2147483648) with (z + 2147483648 + k * 4294967296 * 4294967296) by lia.
  rewrite Z.mod_add by lia. rewrite Z.mod_small; lia.
Qed.

(** ** Properties *)

(** The wrappers call what they name: the kernel gets every argument with
    the value it was given (descriptors as the unsigned number of the
    prototype, the others unchanged, and no buffer for the remaining time), and
    its answer is returned unchanged, so that an interrupted
    [clock_nanosleep] answers a negative number. *)
Theorem raw_calls_pass_arguments `{LinuxAbi W} (fd buf count offset clockid flags rqtp : Z) (w : W) :
  in_u64 buf -> in_u64 count -> in_i64 offset -> in_i32 clockid -> in_i32 flags -> in_u64 rqtp ->
  raw_pread64 fd buf count offset w = k_pread64 (as_u32 fd) buf count offset w
  /\ raw_pwrite64 fd buf count offset w = k_pwrite64 (as_u32 fd) buf count offset w
  /\ raw_clock_nanosleep clockid flags rqtp w = k_clock_nanosleep clockid flags rqtp 0 w
  /\ -4095 <= (raw_clock_nanosleep clockid flags rqtp w).1 <= 0.
Proof.
  intros Hbuf Hcount Hoff Hclock Hflags Hrqtp.
  assert (raw_clock_nanosleep clockid flags rqtp w = k_clock_nanosleep clockid flags rqtp 0 w) as E.
  { unfold raw_clock_nanosleep. rewrite abi_clock_nanosleep by done. cbn [rdi rsi rdx r10].
    rewrite (as_i32_as_u64 clockid), (as_i32_as_u64 flags), (as_u64_id rqtp) by done.
    pose proof (abi_clock_nanosleep_result clockid flags rqtp 0 w) as Hr.
    destruct (k_clock_nanosleep clockid flags rqtp 0 w) as [n w']. simpl in Hr. f_equal.
    rewrite as_i64_as_u64 by (int_unfold; lia). int_unfold. rewrite Z.mod_small; lia. }
  split; [|split; [|split; [exact E|rewrite E; apply abi_clock_nanosleep_result]]].
  - unfold raw_pread64. rewrite abi_pread64 by done. cbn [rdi rsi rdx r10].
    rewrite as_u32_as_u64, (as_u64_id buf), (as_u64_id count), as_i64_as_u64 by done.
    pose proof (abi_pread64_range (as_u32 fd) buf count offset w) as Hr.
    destruct (k_pread64 _ _ _ _ _) as [n w']. by rewrite as_i64_as_u64.
  - unfold raw_pwrite64. rewrite abi_pwrite64 by done. cbn [rdi rsi rdx r10].
    rewrite as_u32_as_u64, (as_u64_id buf), (as_u64_id count), as_i64_as_u64 by done.
    pose proof (abi_pwrite64_range (as_u32 fd) buf count offset w) as Hr.
    destruct (k_pwrite64 _ _ _ _ _) as [n w']. by rewrite as_i64_as_u64.
Qed.

(** A kernel that knows descriptor 3 only, and whose sleeps are interrupted. *)
#[export] Instance toy_cpu : Cpu unit := {
  syscall r w := (as_u64 (if rax r =? 230 then -4 else if as_u32 (rdi r) =? 3 then rdx r mod 1024 else -9), w) }.
#[export, refine] Instance toy_abi : LinuxAbi unit := {
  k_pread64 fd buf count pos w := (if fd =? 3 then count mod 1024 else -9, w);
  k_pwrite64 fd buf count pos w := (if fd =? 3 then count mod 1024 else -9, w);
  k_clock_nanosleep clock flags rqtp rmtp w := (-4, w) }.
Proof.
  1-3: intros r w E; simpl; by rewrite E.
  1-2: intros fd buf count pos w; simpl; pose proof (Z.mod_pos_bound count 1024); int_unfold; zbool; lia.
  intros; simpl; lia.
Defined.

Lemma raw_calls_pass_arguments_witness :
  raw_pread64 3 4096 64 0 tt = (64, tt) /\ raw_pread64 (-1) 4096 1 0 tt = (-9, tt)
  /\ raw_clock_nanosleep 1 1 4096 tt = (-4, tt).
Proof.
  destruct (raw_calls_pass_arguments 3 4096 64 0 1 1 4096 tt) as (Hr & _ & Hs & _); [int_unfold; lia..|].
  destruct (raw_calls_pass_arguments (-1) 4096 1 0 1 1 4096 tt) as (Hr' & _); [int_unfold; lia..|].
  split; [|split].
  - rewrite Hr. reflexivity.
  - rewrite Hr'. reflexivity.
  - rewrite Hs. reflexivity.
Defined.
