(* ===== verification/Sim.v ===== *)
(** * A simulated kernel

    A concrete instance of the operating-system classes, on which the
    development's witnesses run: counters that tick with a shared clock, a
    latency per system call, and scripts of failures, of sleep results and of
    values of the running flag. *)

From stdpp Require Import gmap.
From S2P Require Import Prelude Ints Text Hex Sys.

Record Sim := {
  now : Z;                 (* the clock, in microseconds *)
  latency : Z;             (* what a system call adds to it *)
  offsets : gmap Z Z;      (* the open tsf files and their counters' offsets *)
  paths : list (str * Z);  (* what open finds *)
  faults : list Z;         (* results forced on the next reads and writes; 0 forces none *)
  naps : list Z;           (* results of the next sleeps; 0 afterwards *)
  flags : list bool;       (* values of the next loads of the flag; false afterwards *)
  slept : list (Z * Z);    (* deadlines slept for, last first *)
}.

(** Time passes during a call. *)
Definition tick (w : Sim) : Sim :=
  {| now := now w + Z.abs (latency w); latency := latency w; offsets := offsets w;
     paths := paths w; faults := tail (faults w); naps := naps w; flags := flags w;
     slept := slept w |}.
Definition set_offset (fd off : Z) (w : Sim) : Sim :=
  {| now := now w; latency := latency w; offsets := <[fd := off]> (offsets w);
     paths := paths w; faults := faults w; naps := naps w; flags := flags w;
     slept := slept w |}.

(** The result forced on this call, if it is an errno. *)
Definition fault (w : Sim) : option Z :=
  match faults w with
  | e :: _ => if (-4095 <=? e) && (e <? 0) then Some e else None
  | [] => None
  end.

Definition sim_read (fd : Z) (n : nat) (off : Z) (w : Sim) : (Z * list Z) * Sim :=
  match fault w, offsets w !! fd with
  | Some e, _ => ((e, []), tick w)
  | None, None => ((-9, []), tick w)
  | None, Some b =>
      let data := take n (drop (Z.to_nat off) (tsf_text (as_u64 (b + now w)))) in
      ((Z.of_nat (length data), data), tick w)
  end.

Definition sim_write (fd : Z) (buf : list Z) (w : Sim) : Z * Sim :=
  match fault w, offsets w !! fd, u64_from_str (default buf (strip_suffix buf [10])) with
  | Some e, _, _ => (e, tick w)
  | None, Some _, Ok v => (Z.of_nat (length buf), set_offset fd (v - now w) (tick w))
  | None, None, _ => (-9, tick w)
  | None, Some _, Err _ => (-22, tick w)
  end.

Definition sim_open (path : str) (w : Sim) : Z * Sim :=
  match find (λ e : str * Z, bool_decide (e.1 = path)) (paths w) with
  | Some (_, fd) => (Z.abs fd, w)
  | None => (-2, w)
  end.

Definition sim_nanosleep (deadline : Z * Z) (w : Sim) : Z * Sim :=
  (match naps w with r :: _ => if (-4095 <=? r) && (r <? 0) then r else 0 | [] => 0 end,
   {| now := now w; latency := latency w; offsets := offsets w; paths := paths w;
      faults := faults w; naps := tail (naps w); flags := flags w;
      slept := deadline :: slept w |}).

Definition sim_running (w : Sim) : bool * Sim :=
  (match flags w with b :: _ => b | [] => false end,
   {| now := now w; latency := latency w; offsets := offsets w; paths := paths w;
      faults := faults w; naps := naps w; flags := tail (flags w); slept := slept w |}).

(** The set-up calls only succeed or fail. *)
Definition sim_setup (w : Sim) : Z * Sim := (default 0 (fault w), tick w).

#[export] Instance sim_sys : Sys Sim := {|
  sys_open := sim_open;
  sys_pread64 := sim_read;
  sys_pwrite64 := λ fd buf _, sim_write fd buf;
  sys_lseek := λ _ off w, (off, w);
  sys_read := λ fd n, sim_read fd n 0;
  sys_write := sim_write;
  sys_clock_gettime := λ w, ((now w / 1000000, now w mod 1000000 * 1000), w);
  sys_clock_nanosleep := sim_nanosleep;
  sys_mlockall := sim_setup;
  sys_sched_setscheduler := λ _, sim_setup;
  sys_sched_setaffinity := λ _, sim_setup;
  running_load := sim_running;
|}.

(** A machine with the given counters, no failures and no latency. *)
Definition quiet (now : Z) (offs : list (Z * Z)) : Sim :=
  {| now := now; latency := 0; offsets := list_to_map offs; paths := []; faults := [];
     naps := []; flags := []; slept := [] |}.

Lemma length_tsf_text v : length (tsf_text v) = 19%nat.
Proof. reflexivity. Qed.

Lemma sim_read_stored fd n off w r data w' :
  sim_read fd n off w = ((r, data), w') ->
  r = Z.of_nat (length data) /\ (length data <= n)%nat \/ r < 0 /\ data = [].
Proof.
  unfold sim_read, fault. intros H. repeat case_match; simplify_eq; try (right; split; [lia|done]).
  all: left; split; [done|]; rewrite length_take; lia.
Qed.

#[export] Instance sim_sys_reads : SysReads Sim.
Proof. split; intros *; apply sim_read_stored. Qed.

#[export, program] Instance sim_tsf_files : TsfFiles Sim := {|
  tsf_fd := λ _, True;
  clk := now;
  base := λ w fd, default 0 (offsets w !! fd);
|}.
Next Obligation.
  intros fd w r data w' _. simpl. unfold sim_read, fault. intros H.
  repeat case_match; simplify_eq; simpl; (split; [lia|]); (split; [done|]); (split; [lia|]); try lia.
  all: intros _; split; [done|]; exists (now w); split; [lia|].
  all: simplify_option_eq; reflexivity.
Qed.
Next Obligation.
  intros fd v w r w' _ Hv. simpl. unfold sim_write, fault. rewrite strip_suffix_app. simpl.
  rewrite u64_from_str_dec by done. intros H.
  repeat case_match; simplify_eq; simpl; (split; [lia|]); (split; [|split]); try done; try lia.
  all: try (intros fd' Hne; by rewrite lookup_insert_ne).
  all: intros _; try by simplify_option_eq.
  all: exists (now w); (split; [lia|]); rewrite lookup_insert_eq; simpl; lia.
Qed.

(** The descriptors that [open] gives are those of counters. *)
Definition opens_files (w : Sim) : Prop := Forall (λ e : str * Z, is_Some (offsets w !! Z.abs e.2)) (paths w).

Lemma insert_opens fd off w : opens_files w -> opens_files (set_offset fd off w).
Proof.
  unfold opens_files, set_offset. simpl. intros Hp. eapply Forall_impl; [exact Hp|]. intros e He.
  destruct (decide (Z.abs e.2 = fd)) as [->|]; [by rewrite lookup_insert_eq|by rewrite lookup_insert_ne].
Qed.

#[export, program] Instance sim_steady : Steady Sim := {|
  steady := λ fds lat w, faults w = [] /\ naps w = [] /\ Z.abs (latency w) <= lat
                          /\ Forall (λ fd, is_Some (offsets w !! fd)) fds /\ opens_files w;
|}.
Next Obligation.
  intros fds lat fd w r data w' (Hf & Hn & Hl & Hall & Hp) Hin. simpl. unfold sim_read, fault.
  rewrite Hf. pose proof Hall as Hall'. rewrite Forall_forall in Hall'. destruct (Hall' _ Hin) as [b Hb]. rewrite Hb.
  intros [= <- _ <-]. simpl. rewrite Hf. split_and!; done || lia.
Qed.
Next Obligation.
  intros fds lat fd v w r w' (Hf & Hn & Hl & Hall & Hp) Hin Hv. simpl. unfold sim_write, fault.
  rewrite Hf, strip_suffix_app. simpl. rewrite u64_from_str_dec by done.
  rewrite Forall_forall in Hall. destruct (Hall _ Hin) as [b Hb]. rewrite Hb.
  intros [= <- <-]. simpl. rewrite Hf, Forall_forall. split_and!; try done; try lia; [|by apply insert_opens].
  intros fd' Hin'. destruct (decide (fd' = fd)) as [->|];
    [by rewrite lookup_insert_eq|rewrite lookup_insert_ne by done; by apply Hall].
Qed.
Next Obligation.
  intros fds lat d w r w' (Hf & Hn & Hl & Hall & Hp). simpl. unfold sim_nanosleep. rewrite Hn.
  intros [= <- <-]. simpl. split_and!; done || lia.
Qed.
Next Obligation.
  intros fds lat w b w' (Hf & Hn & Hl & Hall & Hp). simpl. unfold sim_running.
  intros [= <- <-]. simpl. split_and!; done || lia.
Qed.
