(* ===== verification/Debugfs.v ===== *)
(** * The debugfs file (src/bin/tsf_sync_debugfs/debugfs.rs)

    [TsfFile]: the cached descriptor, reading and writing a TSF value, the
    choice between positioned and seeking system calls, and the decimal
    formatter with its 21-byte buffer. *)

From S2P Require Import Prelude Ints Text Hex Sys Sim.

(** ** Formatting *)

(** [buf[pos] = b] on a slice: out of bounds panics. *)
Definition slice_set (buf : list Z) (pos : Z) (b : Z) : outcome (list Z) :=
  if (0 <=? pos) && (pos <? Z.of_nat (length buf)) then Done (<[Z.to_nat pos := b]> buf) else Panic.

(** [&buf[..n]]: out of bounds panics. *)
Definition slice_to (buf : list Z) (n : Z) : outcome (list Z) :=
  if (0 <=? n) && (n <=? Z.of_nat (length buf)) then Done (take (Z.to_nat n) buf) else Panic.

(** The digit loop, least significant digit first. *)
Fixpoint format_loop (fuel : nat) (val : Z) (buf : list Z) (pos : Z) : outcome (list Z * Z) :=
  match fuel with
  | O => OutOfFuel
  | S f =>
      if 0 <? val then
        buf ← slice_set buf pos (48 + as_u8 (val mod 10));
        format_loop f (val / 10) buf (pos + 1)
      else Done (buf, pos)
  end.

(** The fuel covers the 20 digits of [u64::MAX] and the final test. *)
Definition format_u64_decimal (val : Z) (buf : list Z) : outcome (Z * list Z) :=
  if val =? 0 then
    buf ← slice_set buf 0 48;
    buf ← slice_set buf 1 10;
    Done (2, buf)
  else
    '(buf, pos) ← format_loop 21 val buf 0;
    digits ← slice_to buf pos;
    let buf := reverse digits ++ drop (Z.to_nat pos) buf in
    buf ← slice_set buf pos 10;
    Done (pos + 1, buf).

(** ** TsfFile *)

Record TsfFile := { fd : Z; pread_ok : bool }.

Section tsf_file.
Context {W : Type} `{Sys W} `{Build}.

(** The buffer after the kernel stored [data] at its start. *)
Definition fill (buf data : list Z) : list Z := data ++ drop (length data) buf.

Definition do_pread (fd : Z) (buf : list Z) (offset : Z) : M W (Z * list Z) :=
  match target_arch with
  | X86_64 =>
      '(r, data) ← act (sys_pread64 fd (length buf) offset);
      mret (r, fill buf data)
  | OtherArch =>
      '(r0, data) ← act (sys_pread64 fd (length buf) offset);
      let r := libc_ret r0 in
      mret (if r <? 0 then - libc_errno r0 else r, fill buf data)
  end.

Definition do_pwrite (fd : Z) (buf : list Z) (offset : Z) : M W Z :=
  match target_arch with
  | X86_64 => act (sys_pwrite64 fd buf offset)
  | OtherArch =>
      r0 ← act (sys_pwrite64 fd buf offset);
      let r := libc_ret r0 in
      mret (if r <? 0 then - libc_errno r0 else r)
  end.

(** [TsfFile::open] *)
Definition open (path : str) : M W (result TsfFile io_error) :=
  r0 ← act (sys_open path);
  if libc_ret r0 <? 0 then mret (Err (OsError (libc_errno r0)))
  else
    '(r, _) ← do_pread r0 [0] 0;
    mret (Ok {| fd := r0; pread_ok := (0 <=? r) |}).

Definition read_raw (self : TsfFile) (buf : list Z) : M W (result (Z * list Z) io_error) :=
  if pread_ok self then
    '(r, buf) ← do_pread (fd self) buf 0;
    if r <? 0 then mret (Err (OsError (as_i32 (- r))))
    else mret (Ok (as_u64 r, buf))
  else
    _ ← act (sys_lseek (fd self) 0);
    '(r0, data) ← act (sys_read (fd self) (length buf));
    let r := libc_ret r0 in
    if r <? 0 then mret (Err (OsError (libc_errno r0)))
    else mret (Ok (as_u64 r, fill buf data)).

Definition write_raw (self : TsfFile) (buf : list Z) : M W (result unit io_error) :=
  written ←
    (if pread_ok self then do_pwrite (fd self) buf 0
     else
       _ ← act (sys_lseek (fd self) 0);
       r0 ← act (sys_write (fd self) buf);
       mret (libc_ret r0));
  if written <? 0 then mret (Err (OsError (as_i32 (- written)))) else mret (Ok tt).

Definition read_tsf (self : TsfFile) : M W (result Z io_error) :=
  let buf := replicate 64 0 in
  '(n, buf) ←? read_raw self buf;
  s ← lift (slice_to buf n);
  mret match parse_hex_auto has_ssse3 s with
       | Some v => Ok v
       | None => Err (InvalidData (lit "no hex digits in TSF value"))
       end.

Definition write_tsf (self : TsfFile) (val : Z) : M W (result unit io_error) :=
  let buf := replicate 21 0 in
  '(len, buf) ← lift (format_u64_decimal val buf);
  s ← lift (slice_to buf len);
  write_raw self s.
End tsf_file.

(** ** Formatting: facts *)

Lemma slice_set_app (pre post : list Z) (x b : Z) :
  slice_set (pre ++ x :: post) (Z.of_nat (length pre)) b = Done (pre ++ b :: post).
Proof.
  unfold slice_set. rewrite length_app. simpl length.
  rewrite (proj2 (Z.leb_le _ _)), (proj2 (Z.ltb_lt _ _)) by lia. simpl.
  rewrite Nat2Z.id, insert_app_r_alt, Nat.sub_diag by lia. reflexivity.
Qed.

Lemma slice_to_app (pre post : list Z) :
  slice_to (pre ++ post) (Z.of_nat (length pre)) = Done pre.
Proof.
  unfold slice_to. rewrite length_app.
  rewrite (proj2 (Z.leb_le _ _)), (proj2 (Z.leb_le _ _)) by lia. simpl.
  by rewrite Nat2Z.id, take_app_length.
Qed.

(** The loop writes the reversed digits from [pos] on. *)
Lemma format_loop_spec fuel v pre post :
  0 <= v -> (length (rev_dec v) < fuel)%nat -> (length (rev_dec v) <= length post)%nat ->
  format_loop fuel v (pre ++ post) (Z.of_nat (length pre)) =
  Done (pre ++ rev_dec v ++ drop (length (rev_dec v)) post,
        Z.of_nat (length pre + length (rev_dec v))).
Proof.
  revert v pre post. induction fuel as [|f IH]; intros v pre post Hv Hf Hl; [lia|].
  cbn [format_loop]. destruct (Z.ltb_spec 0 v) as [Hpos|Hz].
  - rewrite rev_dec_step in * by done. simpl in Hf, Hl.
    destruct post as [|x post]; simpl in Hl; [lia|].
    rewrite slice_set_app. cbn [mbind outcome_bind].
    assert (as_u8 (v mod 10) = v mod 10) as ->.
    { unfold as_u8. apply Z.mod_small. pose proof (Z.mod_pos_bound v 10). lia. }
    replace (pre ++ 48 + v mod 10 :: post) with ((pre ++ [48 + v mod 10]) ++ post)
      by (by rewrite <- app_assoc).
    replace (Z.of_nat (length pre) + 1) with (Z.of_nat (length (pre ++ [48 + v mod 10])))
      by (rewrite length_app; simpl; lia).
    rewrite IH; [|apply Z.div_pos; lia|lia|lia].
    rewrite <- app_assoc, length_app. simpl. do 2 f_equal. lia.
  - assert (v = 0) as -> by lia. rewrite rev_dec_0. simpl. by rewrite Nat.add_0_r.
Qed.

Lemma format_u64_decimal_done (v : Z) (buf : list Z) :
  in_u64 v -> length buf = 21%nat ->
  exists tl, format_u64_decimal v buf = Done (Z.of_nat (length (dec v) + 1), dec v ++ 10 :: tl)
    /\ (length (dec v) <= 20)%nat /\ length (dec v ++ 10 :: tl) = 21%nat.
Proof.
  unfold in_u64. intros Hv Hbuf. unfold format_u64_decimal.
  destruct (Z.eqb_spec v 0) as [->|Hne].
  { destruct buf as [|x0 [|x1 buf]]; [done..|]. exists buf.
    pose proof (slice_set_app [] (x1 :: buf) x0 48) as H0.
    pose proof (slice_set_app [48] buf x1 10) as H1. simpl in H0, H1, Hbuf.
    change (Z.of_nat 0) with 0 in H0. change (Z.of_nat 1) with 1 in H1.
    rewrite H0. cbn [mbind outcome_bind]. rewrite H1.
    split; [done|]. simpl. lia. }
  assert (length (rev_dec v) <= 20)%nat as Hlen.
  { apply rev_dec_length. change (10 ^ Z.of_nat 20) with 100000000000000000000. lia. }
  pose proof (format_loop_spec 21 v [] buf) as Hloop.
  cbn [app length Nat.add] in Hloop. change (Z.of_nat 0) with 0 in Hloop.
  rewrite Hloop by lia. cbn [mbind outcome_bind].
  rewrite slice_to_app. cbn [mbind outcome_bind].
  rewrite Nat2Z.id, drop_app_length.
  assert (dec v = reverse (rev_dec v)) as Hdec.
  { unfold dec. by destruct (Z.eqb_spec v 0). }
  destruct (drop (length (rev_dec v)) buf) as [|x tl] eqn:Hd.
  { apply (f_equal length) in Hd. rewrite length_drop, Hbuf in Hd. simpl in Hd. lia. }
  apply (f_equal length) in Hd. rewrite length_drop, Hbuf in Hd. simpl in Hd.
  rewrite <- (length_reverse (rev_dec v)), slice_set_app, <- Hdec. cbn [mbind outcome_bind].
  exists tl. rewrite Hdec, length_app, length_reverse. simpl.
  split_and!; [|lia|lia]. do 2 f_equal. lia.
Qed.

(** ** Reading and writing: facts *)

Section tsf_file_facts.
Context {W : Type} `{HSys : Sys W} `{HB : Build}.

(** Both ways of calling the kernel give its raw result. *)
Lemma do_pread_raw fd (buf : list Z) off w :
  do_pread fd buf off w =
  let '((r, data), w') := sys_pread64 fd (length buf) off w in (Done (r, fill buf data), w').
Proof.
  unfold do_pread. m_unfold.
  destruct target_arch, (sys_pread64 fd (length buf) off w) as [[r data] w']; [done|].
  unfold libc_ret, libc_errno. destruct (Z.ltb_spec r 0).
  - by rewrite Z.opp_involutive.
  - by rewrite (proj2 (Z.ltb_ge r 0)).
Qed.

Lemma do_pwrite_raw fd (buf : list Z) off w :
  do_pwrite fd buf off w = let '(r, w') := sys_pwrite64 fd buf off w in (Done r, w').
Proof.
  unfold do_pwrite. m_unfold. destruct target_arch; [done|].
  destruct (sys_pwrite64 fd buf off w) as [r w'].
  unfold libc_ret, libc_errno. destruct (Z.ltb_spec r 0).
  - by rewrite Z.opp_involutive.
  - by rewrite (proj2 (Z.ltb_ge r 0)).
Qed.

(** The system call a read comes down to. *)
Definition kernel_read (self : TsfFile) (n : nat) (w : W) : (Z * list Z) * W :=
  if pread_ok self then sys_pread64 (fd self) n 0 w
  else sys_read (fd self) n (sys_lseek (fd self) 0 w).2.
Definition kernel_write (self : TsfFile) (buf : list Z) (w : W) : Z * W :=
  if pread_ok self then sys_pwrite64 (fd self) buf 0 w
  else sys_write (fd self) buf (sys_lseek (fd self) 0 w).2.

Lemma read_raw_kernel self buf w r data w' :
  kernel_read self (length buf) w = ((r, data), w') ->
  read_raw self buf w =
  (Done (if r <? 0
         then Err (OsError (if pread_ok self then as_i32 (- r) else - r))
         else Ok (as_u64 r, fill buf data)), w').
Proof.
  unfold kernel_read, read_raw. intros Hk. destruct (pread_ok self).
  - unfold mbind, M_bind. rewrite do_pread_raw, Hk. by destruct (r <? 0).
  - m_unfold. destruct (sys_lseek _ _ w) as [x w1]. simpl in Hk. rewrite Hk.
    unfold libc_ret, libc_errno. destruct (Z.ltb_spec r 0); [done|].
    by rewrite (proj2 (Z.ltb_ge r 0)).
Qed.

Lemma write_raw_kernel self buf w r w' :
  kernel_write self buf w = (r, w') ->
  write_raw self buf w =
  (Done (if r <? 0
         then Err (OsError (if pread_ok self then as_i32 (- r) else 1))
         else Ok tt), w').
Proof.
  unfold kernel_write, write_raw. intros Hk. destruct (pread_ok self).
  - unfold mbind, M_bind. rewrite do_pwrite_raw, Hk. by destruct (r <? 0).
  - m_unfold. destruct (sys_lseek _ _ w) as [x w1]. simpl in Hk. rewrite Hk.
    unfold libc_ret. destruct (Z.ltb_spec r 0); [done|].
    by rewrite (proj2 (Z.ltb_ge r 0)).
Qed.

Lemma slice_fill n data :
  (length data <= n)%nat ->
  slice_to (fill (replicate n 0) data) (as_u64 (Z.of_nat (length data))) =
  (if decide (in_u64 (Z.of_nat (length data))) then Done data else
     slice_to (fill (replicate n 0) data) (as_u64 (Z.of_nat (length data)))).
Proof.
  intros Hn. case_decide as Hr; [|done]. rewrite as_u64_id by done.
  unfold fill. apply slice_to_app.
Qed.

(** What [read_tsf] makes of the kernel's answer. *)
Lemma read_tsf_kernel self w r data w' :
  kernel_read self 64 w = ((r, data), w') ->
  r = Z.of_nat (length data) /\ (length data <= 64)%nat \/ -4095 <= r < 0 ->
  read_tsf self w =
  (Done (if r <? 0 then Err (OsError (- r))
         else match parse_hex_auto has_ssse3 data with
              | Some v => Ok v
              | None => Err (InvalidData (lit "no hex digits in TSF value"))
              end), w').
Proof.
  intros Hk Hr. unfold read_tsf, try_bind, mbind, M_bind.
  erewrite read_raw_kernel by (by rewrite length_replicate).
  destruct Hr as [[-> Hl]|Hr].
  - rewrite (proj2 (Z.ltb_ge _ 0)) by lia.
    rewrite slice_fill, decide_True by (int_unfold; lia). m_unfold.
    by destruct (parse_hex_auto _ _).
  - rewrite (proj2 (Z.ltb_lt r 0)) by lia. m_unfold.
    replace (as_i32 (- r)) with (- r); [by destruct (pread_ok self)|].
    unfold as_i32. rewrite Z.mod_small; lia.
Qed.

Lemma write_tsf_kernel self v w r w' :
  in_u64 v -> kernel_write self (dec v ++ [10]) w = (r, w') ->
  write_tsf self v w =
  (Done (if r <? 0
         then Err (OsError (if pread_ok self then as_i32 (- r) else 1))
         else Ok tt), w').
Proof.
  intros Hv Hk. unfold write_tsf.
  destruct (format_u64_decimal_done v (replicate 21 0) Hv) as (tl & Hf & _ & _); [done|].
  unfold mbind, M_bind, lift. rewrite Hf.
  replace (dec v ++ 10 :: tl) with ((dec v ++ [10]) ++ tl) by (by rewrite <- app_assoc).
  replace (length (dec v) + 1)%nat with (length (dec v ++ [10])) by (by rewrite length_app).
  rewrite slice_to_app. by apply write_raw_kernel.
Qed.
End tsf_file_facts.

(** ** Steady files *)

Section steady_files.
Context {W : Type} `{HSt : Steady W} `{HB : Build}.

Lemma read_tsf_steady (self : TsfFile) fds lat w :
  steady fds lat w -> fd self ∈ fds -> pread_ok self = true ->
  exists t w', read_tsf self w = (Done (Ok (as_u64 (base w (fd self) + t))), w')
    /\ clk w <= t <= clk w' /\ clk w' - clk w <= lat /\ base w' = base w /\ steady fds lat w'.
Proof.
  intros Hs Hin Hp. destruct (sys_pread64 (fd self) 64 0 w) as [[r data] w'] eqn:Hk.
  destruct (steady_pread _ _ _ _ _ _ _ Hs Hin Hk) as (Hfd & Hr & Hl & Hs').
  destruct (tsf_pread _ _ _ _ _ Hfd Hk) as (Hc & Hb & _ & Hd).
  destruct (Hd Hr) as (Hlen & t & Ht & ->).
  exists t, w'. split; [|done].
  erewrite read_tsf_kernel;
    [|unfold kernel_read; by rewrite Hp|left; rewrite length_tsf_text in *; lia].
  rewrite (proj2 (Z.ltb_ge r 0)) by done.
  by rewrite (tsf_text_parses _ _ (as_u64_range _)).
Qed.

Lemma write_tsf_steady (self : TsfFile) fds lat v w :
  steady fds lat w -> fd self ∈ fds -> pread_ok self = true -> in_u64 v ->
  exists t w', write_tsf self v w = (Done (Ok tt), w')
    /\ clk w <= t <= clk w' /\ clk w' - clk w <= lat
    /\ base w' (fd self) + t = v /\ (forall fd', fd' <> fd self -> base w' fd' = base w fd')
    /\ steady fds lat w'.
Proof.
  intros Hs Hin Hp Hv.
  destruct (sys_pwrite64 (fd self) (dec v ++ [10]) 0 w) as [r w'] eqn:Hk.
  destruct (steady_pwrite _ _ _ _ _ _ _ Hs Hin Hv Hk) as (Hfd & Hr & Hl & Hs').
  destruct (tsf_pwrite _ _ _ _ _ Hfd Hv Hk) as (Hc & Ho & _ & Hd).
  destruct (Hd Hr) as (t & Ht & Hb).
  exists t, w'. split; [|done].
  erewrite write_tsf_kernel; [|done|unfold kernel_write; by rewrite Hp].
  by rewrite (proj2 (Z.ltb_ge r 0)).
Qed.
End steady_files.

(** ** Properties *)

(** C35: formatting any [u64] neither panics nor runs past the 21-byte buffer;
    the bytes it returns are the canonical decimal numeral and a newline, at
    most 21 of them, and parsing them back gives the number. *)
Theorem format_u64_decimal_correct (v : Z) (buf : list Z) :
  in_u64 v -> length buf = 21%nat ->
  exists len buf', format_u64_decimal v buf = Done (len, buf')
    /\ length buf' = 21%nat /\ 2 <= len <= 21
    /\ take (Z.to_nat len) buf' = dec v ++ [10]
    /\ u64_from_str (dec v) = Ok v
    /\ (v <> 0 -> head (dec v) <> Some 48).
Proof.
  intros Hv Hbuf. destruct (format_u64_decimal_done v buf Hv Hbuf) as (tl & H & Hl & Ht).
  pose proof Hv as Hv'. unfold in_u64 in Hv'.
  destruct (dec_spec v) as (_ & _ & Hne & Hhd); [lia|].
  eexists _, _. split; [exact H|]. split_and!; [done| |lia| |by apply u64_from_str_dec|].
  - destruct (dec v); [done|]. simpl. lia.
  - rewrite Nat2Z.id. replace (dec v ++ 10 :: tl) with ((dec v ++ [10]) ++ tl) by (by rewrite <- app_assoc).
    apply take_app_length'. by rewrite length_app.
  - intros Hz. destruct (Hhd Hz) as (d & ds & -> & Hd). simpl. congruence.
Qed.

Lemma format_u64_decimal_correct_witness :
  exists buf', format_u64_decimal 18446744073709551615 (replicate 21 0) = Done (21, buf')
    /\ take 21 buf' = lit "18446744073709551615" ++ [10].
Proof.
  destruct (format_u64_decimal_correct 18446744073709551615 (replicate 21 0))
    as (len & buf' & H & _ & _ & Ht & _).
  - unfold in_u64. lia.
  - reflexivity.
  - assert (len = 21) as -> by (vm_compute in H; congruence).
    exists buf'. split; [exact H|exact Ht].
Defined.

Section tsf_file_properties.
Context {W : Type} `{HSys : Sys W} `{HB : Build}.

(** [read_tsf] never panics, on any processor and in either system-call
    mode: a failed call gives the kernel's errno, a successful one the value
    of the bytes it stored, or [InvalidData] when they hold no hex digit. *)
Theorem read_tsf_outcome `{!SysReads W} (self : TsfFile) (w w' : W) (r : Z) (data : list Z) :
  kernel_read self 64 w = ((r, data), w') -> -4095 <= r ->
  (r < 0 -> read_tsf self w = (Done (Err (OsError (- r))), w'))
  /\ (0 <= r -> forall v, parse_hex_auto has_ssse3 data = Some v ->
        read_tsf self w = (Done (Ok v), w'))
  /\ (0 <= r -> parse_hex_auto has_ssse3 data = None ->
        read_tsf self w = (Done (Err (InvalidData (lit "no hex digits in TSF value"))), w')).
Proof.
  intros Hk Hr.
  assert (r = Z.of_nat (length data) /\ (length data <= 64)%nat \/ -4095 <= r < 0) as Hr'.
  { unfold kernel_read in Hk.
    destruct (pread_ok self);
      [apply sys_pread64_stored in Hk|apply sys_read_stored in Hk];
      (destruct Hk as [Hk|[Hk _]]; [by left|by right]). }
  pose proof (read_tsf_kernel self w r data w' Hk Hr') as ->.
  split_and!; intros; zbool; try lia; by simplify_option_eq.
Qed.

(** [write_tsf] sends the value's decimal numeral and a newline and
    reports success exactly when the kernel accepts it.  The errno of a
    refused positioned write is reported; in the seeking mode every failure
    is reported as errno 1 (EPERM), because the sign of libc's -1 is taken
    for it. *)
Theorem write_tsf_outcome (self : TsfFile) (v : Z) (w w' : W) (r : Z) :
  in_u64 v -> kernel_write self (dec v ++ [10]) w = (r, w') -> -4095 <= r ->
  (0 <= r -> write_tsf self v w = (Done (Ok tt), w'))
  /\ (r < 0 -> pread_ok self = true -> write_tsf self v w = (Done (Err (OsError (- r))), w'))
  /\ (r < 0 -> pread_ok self = false -> write_tsf self v w = (Done (Err (OsError 1)), w')).
Proof.
  intros Hv Hk Hr. pose proof (write_tsf_kernel self v w r w' Hv Hk) as ->.
  assert (r < 0 -> as_i32 (- r) = - r) as Hi32.
  { intros. unfold as_i32. rewrite Z.mod_small; lia. }
  split_and!; [intros ?|intros ? ->|intros ? ->]; zbool; try lia; try done.
  by rewrite Hi32.
Qed.

(** C25: a value written to a [tsf] file and read back from it has advanced
    by at most the time the two calls took, mod 2^64. *)
Theorem write_read_round_trip `{!TsfFiles W} (self : TsfFile) (v v' : Z) (w w1 w2 : W) :
  tsf_fd (fd self) -> pread_ok self = true -> in_u64 v ->
  write_tsf self v w = (Done (Ok tt), w1) ->
  read_tsf self w1 = (Done (Ok v'), w2) ->
  exists d, 0 <= d <= clk w2 - clk w /\ v' = as_u64 (v + d).
Proof.
  intros Hfd Hp Hv Hwr Hrd.
  destruct (sys_pwrite64 (fd self) (dec v ++ [10]) 0 w) as [r w1'] eqn:Hkw.
  erewrite write_tsf_kernel in Hwr; [|done|unfold kernel_write; by rewrite Hp].
  destruct (Z.ltb_spec r 0); [done|]. injection Hwr as ->.
  destruct (tsf_pwrite _ _ _ _ _ Hfd Hv Hkw) as (Hc1 & _ & _ & Hw).
  destruct Hw as (t1 & Ht1 & Hbase); [done|].
  destruct (sys_pread64 (fd self) 64 0 w1) as [[r2 data] w2'] eqn:Hkr.
  destruct (tsf_pread _ _ _ _ _ Hfd Hkr) as (Hc2 & _ & Hlo & Hr).
  destruct (Z.ltb_spec r2 0) as [Hneg|Hpos].
  { erewrite read_tsf_kernel in Hrd; [|unfold kernel_read; by rewrite Hp|by right].
    rewrite (proj2 (Z.ltb_lt r2 0)) in Hrd by done. done. }
  destruct Hr as (Hlen & t2 & Ht2 & ->); [done|].
  erewrite read_tsf_kernel in Hrd;
    [|unfold kernel_read; by rewrite Hp|left; rewrite length_tsf_text in *; lia].
  rewrite (proj2 (Z.ltb_ge r2 0)) in Hrd by done.
  assert (parse_hex_auto has_ssse3 (tsf_text (as_u64 (base w1 (fd self) + t2)))
          = Some (as_u64 (base w1 (fd self) + t2))) as Hparse by (apply tsf_text_parses, as_u64_range).
  rewrite Hparse in Hrd. injection Hrd as <- ->.
  exists (t2 - t1). split; [lia|]. rewrite <- Hbase. f_equal. lia.
Qed.
End tsf_file_properties.

Lemma read_tsf_outcome_witness :
  exists w', @read_tsf Sim _ release_x86 {| fd := 3; pread_ok := false |} (quiet 5 [(3, 100)])
             = (Done (Ok 105), w').
Proof.
  destruct (kernel_read {| fd := 3; pread_ok := false |} 64 (quiet 5 [(3, 100)]))
    as [[r data] w'] eqn:Hk.
  exists w'. vm_compute in Hk. injection Hk as <- <- <-.
  match goal with |- _ = (_, ?w1) =>
    apply (@read_tsf_outcome Sim _ release_x86 _ {| fd := 3; pread_ok := false |}
             (quiet 5 [(3, 100)]) w1 19
             (tsf_text 105)) end; [reflexivity|lia|lia|reflexivity].
Defined.

Lemma write_tsf_outcome_witness :
  exists w w', faults w = [-5]
  /\ @write_tsf Sim _ release_x86 {| fd := 3; pread_ok := false |} 7 w = (Done (Err (OsError 1)), w')
  /\ @write_tsf Sim _ release_x86 {| fd := 3; pread_ok := true |} 7 w = (Done (Err (OsError 5)), w').
Proof.
  set (w := {| now := 0; latency := 0; offsets := offsets (quiet 0 [(3, 0)]); paths := [];
               faults := [-5]; naps := []; flags := []; slept := [] |}).
  exists w, (tick w). split; [reflexivity|]. split.
  - apply (@write_tsf_outcome Sim _ release_x86 {| fd := 3; pread_ok := false |} 7 w (tick w) (-5));
      [unfold in_u64; lia|reflexivity|lia|lia|reflexivity].
  - apply (@write_tsf_outcome Sim _ release_x86 {| fd := 3; pread_ok := true |} 7 w (tick w) (-5));
      [unfold in_u64; lia|reflexivity|lia|lia|reflexivity].
Defined.

Lemma write_read_round_trip_witness :
  exists d, 0 <= d <= 4 /\ 1002 = as_u64 (1000 + d).
Proof.
  set (w := {| now := 50; latency := 2; offsets := offsets (quiet 0 [(3, 0)]); paths := [];
               faults := []; naps := []; flags := []; slept := [] |}).
  destruct (@write_tsf Sim _ release_x86 {| fd := 3; pread_ok := true |} 1000 w) as [o1 w1] eqn:H1.
  destruct (@read_tsf Sim _ release_x86 {| fd := 3; pread_ok := true |} w1) as [o2 w2] eqn:H2.
  pose proof (@write_read_round_trip Sim _ release_x86 _ {| fd := 3; pread_ok := true |}
                1000 1002 w w1 w2) as H.
  vm_compute in H1. injection H1 as <- <-. vm_compute in H2. injection H2 as <- <-.
  destruct H as (d & Hd & Hv); [exact I|reflexivity|unfold in_u64; lia|reflexivity|reflexivity|].
  exists d. split; [|exact Hv]. vm_compute in Hd. destruct Hd. split; [|]; assumption.
Defined.
