(* ===== verification/Floats.v ===== *)
(** * Floating point

    The arithmetic of Rust's [f64] as an interface, with two instances: the
    IEEE 754 binary64 numbers of the Standard Library's executable
    specification, which is what the program computes with, and the real
    numbers, in which the algorithms' mathematics is stated. *)

From Stdlib Require Import SpecFloat Reals Lra.
From S2P Require Import Prelude Ints.

Class F64 (F : Type) := {
  f_of_Z : Z -> F;         (* an integer [as f64], or an integral literal *)
  f_to_i64 : F -> Z;       (* [as i64]: towards zero, saturating, NaN to 0 *)
  f_add : F -> F -> F;
  f_sub : F -> F -> F;
  f_mul : F -> F -> F;
  f_div : F -> F -> F;
  f_sqrt : F -> F;
  f_lt : F -> F -> bool;
}.

Definition sat_i64 (z : Z) : Z := Z.max (-9223372036854775808) (Z.min 9223372036854775807 z).

(** ** binary64 *)

Definition sf_to_i64 (f : spec_float) : Z :=
  match f with
  | S754_nan | S754_zero _ => 0
  | S754_infinity s => if s then -9223372036854775808 else 9223372036854775807
  | S754_finite s m e =>
      let t := if 0 <=? e then Z.shiftl (Zpos m) e else Z.shiftr (Zpos m) (- e) in
      sat_i64 (if s then - t else t)
  end.

#[export] Instance binary64 : F64 spec_float := {|
  f_of_Z := λ z, binary_normalize 53 1024 z 0 false;
  f_to_i64 := sf_to_i64;
  f_add := SFadd 53 1024;
  f_sub := SFsub 53 1024;
  f_mul := SFmul 53 1024;
  f_div := SFdiv 53 1024;
  f_sqrt := SFsqrt 53 1024;
  f_lt := SFltb;
|}.

(** ** Exact arithmetic *)

Definition R_trunc (r : R) : Z := if Rle_dec 0 r then Int_part r else - Int_part (- r).

#[export] Instance exact : F64 R := {|
  f_of_Z := IZR;
  f_to_i64 := λ r, sat_i64 (R_trunc r);
  f_add := Rplus;
  f_sub := Rminus;
  f_mul := Rmult;
  f_div := Rdiv;
  f_sqrt := sqrt;
  f_lt := λ a b, if Rlt_dec a b then true else false;
|}.

(** Conversion to binary64 of the integers the program uses as constants. *)
Example f_of_Z_4000 : f_of_Z 4000 = S754_finite false 8796093022208000 (-41).
Proof. reflexivity. Qed.
Example f_to_i64_truncates :
  f_to_i64 (f_div (f_of_Z (-7) : spec_float) (f_of_Z 2)) = -3.
Proof. reflexivity. Qed.
