(* ===== verification/Control.v ===== *)
(** * The controller (src/bin/tsf_sync_debugfs/control.rs)

    The one-dimensional Kalman filter and the proportional controller with its
    clamp. *)

From Stdlib Require Import SpecFloat Reals Lra.
From S2P Require Import Prelude Ints Sys Floats.

(** ** Definitions *)

Section control.
Context {F : Type} `{F64 F} `{Build}.

Record KalmanFilter1D := {
  kx : F;   (* state estimate *)
  kp : F;   (* estimate covariance *)
  kq : F;   (* process noise *)
  kr : F;   (* measurement noise *)
}.

Definition kalman_new : KalmanFilter1D :=
  {| kx := f_of_Z 0; kp := f_of_Z 1; kq := f_of_Z 50; kr := f_of_Z 4000 |}.

(** [KalmanFilter1D::update] *)
Definition kalman_update (self : KalmanFilter1D) (z : F) : F * KalmanFilter1D :=
  let p := f_add (kp self) (kq self) in
  let k := f_div p (f_add p (kr self)) in
  let x := f_add (kx self) (f_mul k (f_sub z (kx self))) in
  let p := f_mul p (f_sub (f_of_Z 1) k) in
  (x, {| kx := x; kp := p; kq := kq self; kr := kr self |}).

Record Controller := {
  kp_ppm : Z;
  max_step_us : Z;
  kalman : option KalmanFilter1D;
}.

(** [Controller::new] *)
Definition controller_new (kp_ppm max_step_us : Z) (use_kalman : bool) : Controller :=
  {| kp_ppm := kp_ppm; max_step_us := max_step_us;
     kalman := if use_kalman then Some kalman_new else None |}.

Definition clamp_step (step max_step_us err : Z) : outcome Z :=
  neg ← i64_op overflow_checks (- max_step_us);
  clamped ← clamp step neg max_step_us;
  Done (if (clamped =? 0) && negb (err =? 0) then (if 0 <? err then 1 else -1) else clamped).

(** [Controller::apply]: the step, the raw error and the updated controller. *)
Definition apply (self : Controller) (master_tsf follower_tsf : Z)
    : outcome ((Z * Z) * Controller) :=
  raw_err ← i64_op overflow_checks (as_i64 master_tsf - as_i64 follower_tsf);
  let '(err, kalman) :=
    match kalman self with
    | Some kf => let '(x, kf) := kalman_update kf (f_of_Z raw_err) in (f_to_i64 x, Some kf)
    | None => (raw_err, None)
    end in
  prod ← i64_op overflow_checks (err * kp_ppm self);
  step ← clamp_step (Z.quot prod 1000000) (max_step_us self) err;
  Done ((step, raw_err),
        {| kp_ppm := kp_ppm self; max_step_us := max_step_us self; kalman := kalman |}).
End control.

Arguments KalmanFilter1D F : clear implicits.
Arguments Controller F : clear implicits.

Example clamp_step_tests :
  @clamp_step debug_x86 100 200 100 = Done 100 /\ @clamp_step debug_x86 500 200 500 = Done 200
  /\ @clamp_step debug_x86 0 200 (-10) = Done (-1) /\ @clamp_step debug_x86 0 200 0 = Done 0.
Proof. done. Qed.
Example kalman_smoothing :
  exists c, @apply spec_float _ debug_x86 (controller_new 1000000 200 true) 1000100 1000000
  = Done ((1, 100), c).
Proof. eexists. vm_compute. reflexivity. Qed.

(** ** The proportional step *)

(** The step in unbounded arithmetic: the scaled error, clamped, and at least
    one microsecond towards the master while there is an error. *)
Definition ideal_step (kp_ppm max_step err : Z) : Z :=
  let s := Z.max (- max_step) (Z.min max_step (Z.quot (err * kp_ppm) 1000000)) in
  if decide (s = 0 /\ err <> 0) then Z.sgn err else s.

Lemma clamp_step_ideal `{Build} kp_ppm max_step err :
  0 <= max_step -> in_i64 max_step ->
  clamp_step (Z.quot (err * kp_ppm) 1000000) max_step err = Done (ideal_step kp_ppm max_step err).
Proof.
  intros Hm Hi. unfold clamp_step, ideal_step, clamp. set (s := Z.quot _ _).
  rewrite i64_op_in by (int_unfold; lia). cbn [mbind outcome_bind].
  rewrite (proj2 (Z.ltb_ge max_step (- max_step))) by lia. cbn [mbind outcome_bind].
  f_equal.
  assert ((if s <? - max_step then - max_step else if max_step <? s then max_step else s)
          = Z.max (- max_step) (Z.min max_step s)) as -> by (zbool; lia).
  set (c := Z.max _ _). case_decide as Hd.
  - destruct Hd as [-> He]. rewrite (proj2 (Z.eqb_neq err 0)) by done. simpl.
    zbool; lia.
  - destruct (Z.eqb_spec c 0) as [E|]; [|done]. rewrite E in Hd.
    destruct (Z.eqb_spec err 0); [done|]. exfalso. tauto.
Qed.

(** Without the filter and without overflow, [apply] is the ideal step. *)
Lemma apply_ideal {F} `{F64 F} `{Build} (self : Controller F) m f :
  kalman self = None -> 0 <= max_step_us self -> in_i64 (max_step_us self) ->
  in_i64 (as_i64 m - as_i64 f) -> in_i64 ((as_i64 m - as_i64 f) * kp_ppm self) ->
  apply self m f =
  Done ((ideal_step (kp_ppm self) (max_step_us self) (as_i64 m - as_i64 f), as_i64 m - as_i64 f), self).
Proof.
  intros Hk Hm Hmi He Hp. unfold apply. rewrite (i64_op_in _ _ He). cbn [mbind outcome_bind].
  rewrite Hk. rewrite (i64_op_in _ _ Hp). cbn [mbind outcome_bind].
  rewrite clamp_step_ideal by done. cbn [mbind outcome_bind].
  destruct self as [a b c]; simpl in *. by subst c.
Qed.

Lemma quot_scale_bound e kp :
  0 <= e -> 0 < kp <= 1000000 -> 0 <= Z.quot (e * kp) 1000000 <= e.
Proof.
  intros. rewrite Z.quot_div_nonneg by nia. split; [apply Z.div_pos; nia|].
  apply Z.div_le_upper_bound; nia.
Qed.

Lemma ideal_step_opp kp max_step e :
  0 <= max_step -> ideal_step kp max_step (- e) = - ideal_step kp max_step e.
Proof.
  intros. unfold ideal_step. rewrite Z.mul_opp_l, Z.quot_opp_l, Z.sgn_opp by lia.
  set (s := Z.quot _ _). repeat case_decide; lia.
Qed.

(** With a gain of at most one, the step goes towards the master, never past
    it, and never further than the bound. *)
Lemma ideal_step_pos kp max_step e :
  0 < kp <= 1000000 -> 0 < max_step -> 0 < e ->
  1 <= ideal_step kp max_step e <= Z.min e max_step.
Proof.
  intros Hkp Hm He. pose proof (quot_scale_bound e kp ltac:(lia) Hkp).
  unfold ideal_step. case_decide; lia.
Qed.

Lemma ideal_step_toward kp max_step e :
  0 < kp <= 1000000 -> 0 < max_step -> e <> 0 ->
  Z.sgn (ideal_step kp max_step e) = Z.sgn e
  /\ 1 <= Z.abs (ideal_step kp max_step e) <= Z.min (Z.abs e) max_step
  /\ Z.abs (e - ideal_step kp max_step e) = Z.abs e - Z.abs (ideal_step kp max_step e).
Proof.
  intros Hkp Hm He. destruct (Z.lt_ge_cases 0 e) as [Hpos|Hneg].
  - pose proof (ideal_step_pos kp max_step e Hkp Hm Hpos). lia.
  - pose proof (ideal_step_pos kp max_step (- e) Hkp Hm ltac:(lia)) as Hs.
    rewrite ideal_step_opp in Hs by lia. lia.
Qed.

Lemma ideal_step_0 kp max_step : 0 <= max_step -> ideal_step kp max_step 0 = 0.
Proof. intros. unfold ideal_step. rewrite Z.mul_0_l, Z.quot_0_l by lia. case_decide; lia. Qed.

(** At the default gain of one, the step is the error up to the bound. *)
Lemma ideal_step_unit_gain max_step e :
  0 < max_step -> ideal_step 1000000 max_step e = Z.max (- max_step) (Z.min max_step e).
Proof. intros. unfold ideal_step. rewrite Z.quot_mul by lia. case_decide; lia. Qed.

(** ** The Kalman filter: facts *)

(** The textbook's filter for a constant state: the covariance before the
    [n]-th update and the gain that it gives. *)
Definition textbook_gain {F} `{F64 F} (prior : F) : F := f_div prior (f_add prior (f_of_Z 4000)).
Fixpoint textbook_prior {F} `{F64 F} (n : nat) : F :=
  match n with
  | O => f_add (f_of_Z 1) (f_of_Z 50)
  | S n => let prior := textbook_prior n in
           f_add (f_mul prior (f_sub (f_of_Z 1) (textbook_gain prior))) (f_of_Z 50)
  end.

Definition kalman_run {F} `{F64 F} (kf : KalmanFilter1D F) (zs : list F) : KalmanFilter1D F :=
  foldl (λ kf z, (kalman_update kf z).2) kf zs.

(** The covariance does not depend on the measurements. *)
Definition cov_step {F} `{F64 F} (p : F) : F :=
  kp (kalman_update {| kx := f_of_Z 0; kp := p; kq := f_of_Z 50; kr := f_of_Z 4000 |} (f_of_Z 0)).2.

Lemma kalman_run_cov {F} `{F64 F} (zs : list F) :
  let kf := kalman_run kalman_new zs in
  kp kf = Nat.iter (length zs) cov_step (f_of_Z 1) /\ kq kf = f_of_Z 50 /\ kr kf = f_of_Z 4000.
Proof.
  induction zs as [|z zs IH] using rev_ind; [done|]. cbv zeta in *.
  destruct IH as (Hp & Hq & Hr).
  assert (kalman_run kalman_new (zs ++ [z]) = (kalman_update (kalman_run kalman_new zs) z).2) as ->.
  { unfold kalman_run. by rewrite foldl_snoc. }
  unfold kalman_update. cbn [snd kp kq kr]. rewrite Hp, Hq, Hr, length_app, Nat.add_1_r. done.
Qed.

(** In binary64 it settles after 200 updates. *)
Lemma cov_settled n :
  (200 <= n)%nat ->
  Nat.iter n cov_step (f_of_Z 1 : spec_float) = Nat.iter 200 cov_step (f_of_Z 1).
Proof.
  induction 1 as [|n Hn IH]; [done|]. transitivity (cov_step (Nat.iter n cov_step (f_of_Z 1 : spec_float))).
  - done.
  - rewrite IH. vm_compute. reflexivity.
Qed.

Lemma prior_cov {F} `{F64 F} n : textbook_prior n = f_add (Nat.iter n cov_step (f_of_Z 1 : F)) (f_of_Z 50).
Proof. induction n as [|n IH]; [done|]. cbn [textbook_prior]. rewrite IH. done. Qed.

Definition gain_of_cov (p : spec_float) : spec_float := textbook_gain (f_add p (f_of_Z 50)).
Definition gain_ok (p : spec_float) : bool :=
  f_lt (f_of_Z 0) (gain_of_cov p) && f_lt (gain_of_cov p) (f_of_Z 1).

Fixpoint gain_scan (n : nat) (p : spec_float) : bool :=
  gain_ok p && match n with O => true | S n => gain_scan n (cov_step p) end.

Lemma gain_scan_iter n m p :
  gain_scan n p = true -> (m <= n)%nat -> gain_ok (Nat.iter m cov_step p) = true.
Proof.
  revert m p. induction n as [|n IH]; intros m p; cbn [gain_scan]; rewrite andb_true_iff;
    intros [Hp Hs] Hm; (destruct m as [|m]; [exact Hp|]); [lia|].
  replace (Nat.iter (S m) cov_step p) with (Nat.iter m cov_step (cov_step p))
    by (by rewrite <- Nat.iter_succ_r).
  apply IH; [exact Hs|lia].
Qed.

Lemma gain_ok_all n : gain_ok (Nat.iter n cov_step (f_of_Z 1 : spec_float)) = true.
Proof.
  assert (gain_scan 200 (f_of_Z 1) = true) as Hall by (vm_compute; reflexivity).
  destruct (Nat.le_gt_cases 200 n) as [Hn|Hn]; [rewrite (cov_settled n Hn)|];
    (eapply gain_scan_iter; [exact Hall|lia]).
Qed.

(** In exact arithmetic the covariance stays between 0 and the measurement
    noise, so the gain stays strictly between 0 and 1. *)
Lemma R_cov_step (p : R) : (0 < p)%R -> (0 < cov_step p < 4000)%R.
Proof.
  intros Hp. unfold cov_step, kalman_update. simpl.
  set (s := (p + 50)%R).
  assert (0 < s)%R as Hs by (subst s; lra).
  replace (s * (1 - s / (s + 4000)))%R with (4000 * (s / (s + 4000)))%R by (field; lra).
  assert (0 < s / (s + 4000) < 1)%R; [|lra].
  split; [apply Rdiv_lt_0_compat; lra|].
  apply (Rmult_lt_reg_r (s + 4000)); [lra|]. unfold Rdiv.
  rewrite Rmult_assoc, Rinv_l by lra. lra.
Qed.

Lemma R_cov_pos n : (0 < Nat.iter n cov_step (f_of_Z 1 : R))%R.
Proof.
  induction n as [|n IH]; [simpl; lra|]. cbn [Nat.iter nat_rect].
  apply R_cov_step. exact IH.
Qed.

(** ** Properties *)

(** C26: without the filter, while the scaled error fits an [i64], [apply]
    returns in every build; for a gain in (0, 1] the step points at the master,
    is at least one microsecond while the counters differ, never exceeds the
    bound and never passes the master. *)
Theorem apply_step_toward {F} `{F64 F} `{Build} (self : Controller F) (m f : Z) :
  kalman self = None -> 0 < max_step_us self -> in_i64 (max_step_us self) ->
  0 < kp_ppm self <= 1000000 ->
  in_i64 (as_i64 m - as_i64 f) -> in_i64 ((as_i64 m - as_i64 f) * kp_ppm self) ->
  exists step, apply self m f = Done ((step, as_i64 m - as_i64 f), self)
    /\ Z.sgn step = Z.sgn (as_i64 m - as_i64 f)
    /\ Z.abs step <= max_step_us self
    /\ Z.abs (as_i64 m - as_i64 f - step) = Z.abs (as_i64 m - as_i64 f) - Z.abs step
    /\ (kp_ppm self = 1000000 -> Z.abs (as_i64 m - as_i64 f) <= max_step_us self ->
          step = as_i64 m - as_i64 f).
Proof.
  intros Hk Hm Hmi Hkp He Hp. rewrite apply_ideal by (done || lia).
  set (e := as_i64 m - as_i64 f) in *. eexists. split; [reflexivity|].
  destruct (decide (e = 0)) as [->|Hne].
  - rewrite ideal_step_0 by lia. simpl. split_and!; [done..|lia|done|lia].
  - pose proof (ideal_step_toward _ _ e Hkp Hm Hne). split_and!; try lia.
    intros -> ?. rewrite ideal_step_unit_gain; lia.
Qed.

(** At the default gain, a follower more than 2^63 / 10^6 microseconds
    (about 107 days) behind the master overflows the product: a release build
    steps it by the full bound AWAY from the master (or by -1 near the end of
    the range), and a debug build panics. *)
Theorem apply_overflow_steps_away {F} `{F64 F} `{Build} (self : Controller F) (m f : Z) :
  kalman self = None -> kp_ppm self = 1000000 -> 0 < max_step_us self -> in_i64 (max_step_us self) ->
  9223372036855 <= as_i64 m - as_i64 f <= 18446744073708 ->
  if overflow_checks then apply self m f = Panic
  else exists step, apply self m f = Done ((step, as_i64 m - as_i64 f), self)
    /\ - max_step_us self <= step < 0
    /\ (as_i64 m - as_i64 f <= 18446744073709 - max_step_us self -> step = - max_step_us self).
Proof.
  destruct self as [kp_ppm max kal]. cbn [Control.kalman Control.kp_ppm Control.max_step_us].
  intros -> -> Hm Hmi He. unfold apply. cbn [Control.kalman Control.kp_ppm Control.max_step_us].
  rewrite i64_op_in by (int_unfold; lia). cbn [mbind outcome_bind].
  set (e := as_i64 m - as_i64 f) in *.
  destruct overflow_checks.
  - rewrite i64_op_debug_out; [done|]. int_unfold. lia.
  - rewrite i64_op_release. cbn [mbind outcome_bind].
    assert (as_i64 (e * 1000000) = e * 1000000 - 18446744073709551616) as ->.
    { unfold as_i64. replace (e * 1000000 + 9223372036854775808)
        with (e * 1000000 - 9223372036854775808 + 1 * 18446744073709551616) by lia.
      rewrite Z.mod_add, Z.mod_small by lia. lia. }
    set (d := e * 1000000 - _).
    assert (d ÷ 1000000 = - ((- d) / 1000000)) as Hq.
    { rewrite <- (Z.opp_involutive d) at 1. rewrite Z.quot_opp_l by lia.
      by rewrite Z.quot_div_nonneg by lia. }
    assert (d ÷ 1000000 <= -1 /\ (e <= 18446744073709 - max ->
      d ÷ 1000000 <= - max)) as [Hd Hd'].
    { rewrite Hq. split; [|intros].
      - assert (1 <= (- d) `div` 1000000) by (apply Z.div_le_lower_bound; lia). lia.
      - assert (max <= (- d) `div` 1000000)
          by (apply Z.div_le_lower_bound; lia). lia. }
    unfold clamp_step, clamp. rewrite i64_op_in by (int_unfold; lia). cbn [mbind outcome_bind].
    rewrite (proj2 (Z.ltb_ge (max) (- max))) by lia. cbn [mbind outcome_bind].
    eexists. split; [reflexivity|].
    zbool; simpl in *; try lia; split; try lia.
Qed.

(** C37: the filter over any sequence of binary64 measurements.  An update
    moves the estimate by the textbook's gain for that many measurements times
    the distance to the new one, and that is also what it returns; the gain does
    not depend on the measurements' values, is strictly between 0 and 1, and is
    one constant from the 200th update on. *)
Theorem kalman_gain_binary64 (zs : list spec_float) (z : spec_float) :
  let kf := kalman_run kalman_new zs in
  let g := textbook_gain (textbook_prior (length zs)) in
  let x' := f_add (kx kf) (f_mul g (f_sub z (kx kf))) in
  (kalman_update kf z).1 = x' /\ kx (kalman_update kf z).2 = x'
  /\ f_lt (f_of_Z 0) g = true /\ f_lt g (f_of_Z 1) = true
  /\ (200 <= length zs -> g = textbook_gain (textbook_prior 200))%nat.
Proof.
  cbv zeta. destruct (kalman_run_cov zs) as (Hp & Hq & Hr). pose proof (prior_cov (F := spec_float) (length zs)) as Hprior.
  assert (f_add (kp (kalman_run kalman_new zs)) (kq (kalman_run kalman_new zs)) = textbook_prior (length zs)) as Hpq
    by by rewrite Hp, Hq, Hprior.
  unfold kalman_update. cbn [fst snd kx]. rewrite Hpq, Hr. split; [reflexivity|]. split; [reflexivity|].
  pose proof (gain_ok_all (length zs)) as Hok. unfold gain_ok in Hok. rewrite Hprior.
  apply andb_true_iff in Hok as [H0 H1]. split; [exact H0|]. split; [exact H1|].
  intros Hn. rewrite prior_cov. exact (f_equal gain_of_cov (cov_settled _ Hn)).
Qed.

(** A second measurement of 1000 us after one of 0: the gain is about 0.025. *)
Lemma kalman_gain_binary64_witness :
  let kf := kalman_run kalman_new [f_of_Z 0 : spec_float] in
  (kalman_update kf (f_of_Z 1000)).1
  = f_add (kx kf) (f_mul (textbook_gain (textbook_prior 1)) (f_sub (f_of_Z 1000) (kx kf)))
  /\ f_to_i64 (kalman_update kf (f_of_Z 1000)).1 = 24.
Proof.
  intros kf. destruct (kalman_gain_binary64 [f_of_Z 0] (f_of_Z 1000)) as (H & _). split; [exact H|].
  vm_compute. reflexivity.
Defined.

(** In exact arithmetic an update moves the estimate towards the
    measurement without passing it, and removes at least 1/81 of the
    distance. *)
Theorem kalman_estimate_contracts (zs : list R) (z : R) :
  let kf := kalman_run kalman_new zs in
  let x' := (kalman_update kf z).1 in
  exists g, (x' = (1 - g) * kx kf + g * z /\ 50 / 4050 <= g < 1
    /\ Rabs (x' - z) <= (4000 / 4050) * Rabs (kx kf - z))%R.
Proof.
  cbv zeta. destruct (kalman_run_cov zs) as (Hp & Hq & Hr).
  pose proof (R_cov_pos (length zs)) as Hpos. rewrite <- Hp in Hpos.
  set (kf := kalman_run kalman_new zs) in *. simpl in Hq, Hr.
  exists ((kp kf + 50) / (kp kf + 50 + 4000))%R.
  set (g := ((kp kf + 50) / (kp kf + 50 + 4000))%R).
  assert (50 / 4050 <= g < 1)%R as Hg.
  { subst g. split.
    - apply (Rmult_le_reg_r (kp kf + 50 + 4000)); [lra|]. unfold Rdiv.
      rewrite (Rmult_assoc (kp kf + 50)), Rinv_l by lra. lra.
    - apply (Rmult_lt_reg_r (kp kf + 50 + 4000)); [lra|]. unfold Rdiv.
      rewrite (Rmult_assoc (kp kf + 50)), Rinv_l by lra. lra. }
  assert ((kalman_update kf z).1 = (1 - g) * kx kf + g * z)%R as ->.
  { unfold kalman_update. cbn [fst]. rewrite Hq, Hr. simpl. fold g. ring. }
  split; [done|]. split; [done|].
  replace ((1 - g) * kx kf + g * z - z)%R with ((1 - g) * (kx kf - z))%R by ring.
  rewrite Rabs_mult, (Rabs_pos_eq (1 - g)) by lra.
  apply Rmult_le_compat_r; [apply Rabs_pos|lra].
Qed.

Lemma apply_step_toward_witness :
  exists step, @apply spec_float _ release_x86 (controller_new 500000 200 false) 1000000 1000301
                 = Done ((step, -301), controller_new 500000 200 false)
    /\ Z.sgn step = -1 /\ Z.abs step <= 200.
Proof.
  destruct (@apply_step_toward spec_float _ release_x86 (controller_new 500000 200 false)
              1000000 1000301) as (step & H & Hs & Hb & _);
    try (vm_compute; done); try (vm_compute; split; congruence).
  exists step. split; [exact H|]. split; [exact Hs|exact Hb].
Defined.

Lemma apply_overflow_steps_away_witness :
  exists step, @apply spec_float _ release_x86 (controller_new 1000000 200 false) 9300000000000 5
                 = Done ((step, 9299999999995), controller_new 1000000 200 false)
    /\ step = -200.
Proof.
  destruct (@apply_overflow_steps_away spec_float _ release_x86 (controller_new 1000000 200 false)
              9300000000000 5) as (step & H & _ & Hs);
    try (vm_compute; done); try (vm_compute; split; congruence).
  exists step. split; [exact H|]. apply Hs. vm_compute. congruence.
Defined.

(** A bound of zero does not disable the correction, and a negative one panics. *)
Example clamp_step_edge :
  @clamp_step release_x86 0 0 7 = Done 1 /\ @clamp_step release_x86 3 (-1) 7 = Panic.
Proof. done. Qed.
