(* ===== verification/Stats.v ===== *)
(** * Online statistics (src/bin/tsf_sync_debugfs/stats.rs)

    [WelfordStats] over the floating-point interface; in exact arithmetic it is
    related to the list of observations it has accumulated. *)

From Stdlib Require Import SpecFloat Reals Lra.
From S2P Require Import Prelude Ints Text Sys Floats.

(** ** Definitions *)

Section stats.
Context {F : Type} `{F64 F} `{Build}.

Record WelfordStats := {
  n : Z;
  mean : F;
  m2 : F;
  max_abs_err : Z;
  max_abs_step : Z;
}.

(** [WelfordStats::new] *)
Definition stats_new : WelfordStats :=
  {| n := 0; mean := f_of_Z 0; m2 := f_of_Z 0; max_abs_err := 0; max_abs_step := 0 |}.

(** [unsigned_abs() as i64]: the absolute value of the least [i64] is itself. *)
Definition abs_as_i64 (z : Z) : Z := as_i64 (Z.abs z).

(** [WelfordStats::update] *)
Definition stats_update (self : WelfordStats) (err step : Z) : outcome WelfordStats :=
  n ← u64_op overflow_checks (n self + 1);
  let x := f_of_Z err in
  let delta := f_sub x (mean self) in
  let mean := f_add (mean self) (f_div delta (f_of_Z n)) in
  let delta2 := f_sub x mean in
  let m2 := f_add (m2 self) (f_mul delta delta2) in
  let abs_err := abs_as_i64 err in
  let max_err := if max_abs_err self <? abs_err then abs_err else max_abs_err self in
  let abs_step := abs_as_i64 step in
  let max_step := if max_abs_step self <? abs_step then abs_step else max_abs_step self in
  Done {| n := n; mean := mean; m2 := m2; max_abs_err := max_err; max_abs_step := max_step |}.

(** [WelfordStats::rms] *)
Definition rms (self : WelfordStats) : F :=
  if n self =? 0 then f_of_Z 0 else f_sqrt (f_div (m2 self) (f_of_Z (n self))).

(** What the program writes about its statistics. *)
Inductive event :=
  | StatsLine (label : str) (n : Z) (mean rms : F) (max_err max_step : Z)
  | RmsWarning (rms : F) (threshold : Z).

(** [WelfordStats::print_and_reset]: the value returned, what is printed, and
    the accumulator afterwards. *)
Definition print_and_reset (self : WelfordStats) (label : str) : (F * list event) * WelfordStats :=
  let r := rms self in
  ((r, if 0 <? n self
       then [StatsLine label (n self) (mean self) r (max_abs_err self) (max_abs_step self)]
       else []),
   stats_new).
End stats.

Arguments WelfordStats F : clear implicits.
Arguments event F : clear implicits.

(** A run of updates, from the observations in order. *)
Definition stats_run {F} `{F64 F} `{Build} (s : WelfordStats F) (obs : list (Z * Z))
    : outcome (WelfordStats F) :=
  foldl (λ o e, s ← o; stats_update s e.1 e.2) (Done s) obs.

Example negative_errors :
  exists s, @stats_run spec_float _ debug_x86 stats_new [(-100, -50)] = Done s
    /\ max_abs_err s = 100 /\ max_abs_step s = 50.
Proof. eexists. by vm_compute. Qed.

(** A constant error of 500 microseconds has an "rms" of zero in binary64 too. *)
Example constant_error_binary64 :
  (s ← @stats_run spec_float _ debug_x86 stats_new (replicate 10 (500, 200));
   Done (f_lt (f_of_Z 0) (rms s), max_abs_err s)) = Done (false, 500).
Proof. by vm_compute. Qed.

(** ** Facts *)

Definition Rsum (l : list R) : R := foldr Rplus 0%R l.

Lemma Rsum_app l1 l2 : Rsum (l1 ++ l2) = (Rsum l1 + Rsum l2)%R.
Proof. induction l1 as [|a l IH]; simpl; [lra|]. rewrite IH. lra. Qed.

(** The sum of squared distances to a point. *)
Definition sq_dev (c : R) (l : list R) : R := Rsum (map (λ x, (x - c) * (x - c))%R l).

Lemma sq_dev_snoc c l x : sq_dev c (l ++ [x]) = (sq_dev c l + (x - c) * (x - c))%R.
Proof. unfold sq_dev. rewrite map_app, Rsum_app. simpl. lra. Qed.

(** Moving the point costs the number of terms times the square of the move,
    less a cross term. *)
Lemma sq_dev_shift c d l :
  sq_dev d l = (sq_dev c l + 2 * (c - d) * (Rsum l - INR (length l) * c)
                + INR (length l) * ((c - d) * (c - d)))%R.
Proof.
  induction l as [|a l IH]; [unfold sq_dev; simpl; lra|].
  unfold sq_dev in *. cbn [map Rsum foldr length]. fold (Rsum (map (λ x, (x - d) * (x - d))%R l)).
  fold (Rsum (map (λ x, (x - c) * (x - c))%R l)). fold (Rsum l).
  rewrite IH, S_INR. ring.
Qed.

Lemma stats_run_snoc {F} `{F64 F} `{Build} (s : WelfordStats F) obs e :
  stats_run s (obs ++ [e]) = (s' ← stats_run s obs; stats_update s' e.1 e.2).
Proof. unfold stats_run. by rewrite foldl_snoc. Qed.

Definition errs (obs : list (Z * Z)) : list R := map (λ e, IZR e.1) obs.
Lemma length_errs obs : length (errs obs) = length obs.
Proof. apply length_map. Qed.
Definition max_abs (l : list Z) : Z := foldl Z.max 0 (map Z.abs l).

Lemma max_abs_snoc l z : max_abs (l ++ [z]) = Z.max (max_abs l) (Z.abs z).
Proof. unfold max_abs. by rewrite map_app, foldl_app. Qed.

Lemma abs_as_i64_id z : -9223372036854775807 <= z <= 9223372036854775807 -> abs_as_i64 z = Z.abs z.
Proof. intros. unfold abs_as_i64. apply as_i64_id. int_unfold. lia. Qed.

(** What the accumulator holds after a list of observations, in exact
    arithmetic. *)
Record accumulated (obs : list (Z * Z)) (s : WelfordStats R) : Prop := {
  acc_n : n s = Z.of_nat (length obs);
  acc_mean : (mean s * INR (length obs) = Rsum (errs obs))%R;
  acc_m2 : m2 s = sq_dev (mean s) (errs obs);
  acc_err : max_abs_err s = max_abs (map fst obs);
  acc_step : max_abs_step s = max_abs (map snd obs);
}.

Lemma accumulated_update `{Build} obs s err step :
  accumulated obs s ->
  Z.of_nat (length obs) < 18446744073709551615 ->
  -9223372036854775807 <= err <= 9223372036854775807 ->
  -9223372036854775807 <= step <= 9223372036854775807 ->
  exists s', stats_update s err step = Done s' /\ accumulated (obs ++ [(err, step)]) s'.
Proof.
  intros [Hn Hm Hm2 He Hs] Hlen Herr Hstep. unfold stats_update.
  rewrite u64_op_in by (int_unfold; lia). cbn [mbind outcome_bind].
  eexists. split; [reflexivity|]. rewrite Hn.
  replace (Z.of_nat (length obs) + 1) with (Z.of_nat (S (length obs))) by lia.
  cbn [f_of_Z exact]. rewrite <- INR_IZR_INZ, !abs_as_i64_id by done.
  set (k := INR (length obs)) in *.
  assert (0 <= k)%R as Hk by apply pos_INR.
  assert (INR (S (length obs)) = k + 1)%R as HS by apply S_INR.
  rewrite HS. set (mu := mean s) in *.
  split; cbn [n mean m2 max_abs_err max_abs_step f_add f_sub f_mul f_div exact].
  - rewrite length_app. simpl. lia.
  - rewrite length_app, Nat.add_1_r, HS. unfold errs. rewrite map_app, Rsum_app.
    fold (errs obs). rewrite <- Hm. simpl. field. lra.
  - unfold errs. rewrite map_app. fold (errs obs). simpl.
    rewrite sq_dev_snoc, (sq_dev_shift mu), <- Hm, Hm2.
    rewrite length_errs. fold k. field. lra.
  - rewrite map_app. simpl. rewrite max_abs_snoc, He. zbool; lia.
  - rewrite map_app. simpl. rewrite max_abs_snoc, Hs. zbool; lia.
Qed.

Lemma accumulated_run `{Build} obs :
  Z.of_nat (length obs) <= 18446744073709551615 ->
  Forall (λ e, -9223372036854775807 <= e.1 <= 9223372036854775807
               /\ -9223372036854775807 <= e.2 <= 9223372036854775807) obs ->
  exists s, stats_run (stats_new : WelfordStats R) obs = Done s /\ accumulated obs s.
Proof.
  induction obs as [|[err step] obs IH] using rev_ind; intros Hlen Hall.
  - eexists. split; [reflexivity|]. split; simpl; try done; lra.
  - rewrite length_app in Hlen. simpl in Hlen. apply Forall_app in Hall as [Hall He].
    apply Forall_cons_iff in He as [[He Hs] _].
    destruct IH as (s & Hr & Hacc); [lia|done|]. rewrite stats_run_snoc, Hr.
    cbn [mbind outcome_bind fst snd]. apply accumulated_update; [done|lia|done|done].
Qed.

(** ** Properties *)

(** C38: in exact arithmetic, after any list of observations the accumulator
    holds their number, their mean, and the largest absolute error and step;
    its "rms" is the standard deviation about the mean, so that its square and
    the square of the mean add up to the mean square of the errors. *)
Theorem welford_exact `{Build} (obs : list (Z * Z)) :
  0 < Z.of_nat (length obs) <= 18446744073709551615 ->
  Forall (λ e, -9223372036854775807 <= e.1 <= 9223372036854775807
               /\ -9223372036854775807 <= e.2 <= 9223372036854775807) obs ->
  exists s, stats_run (stats_new : WelfordStats R) obs = Done s
    /\ n s = Z.of_nat (length obs)
    /\ mean s = (Rsum (errs obs) / INR (length obs))%R
    /\ max_abs_err s = max_abs (map fst obs) /\ max_abs_step s = max_abs (map snd obs)
    /\ (0 <= rms s)%R
    /\ (rms s * rms s = sq_dev (mean s) (errs obs) / INR (length obs))%R
    /\ (rms s * rms s + mean s * mean s = sq_dev 0 (errs obs) / INR (length obs))%R.
Proof.
  intros Hlen Hall. destruct (accumulated_run obs) as (s & Hr & [Hn Hm Hm2 He Hs]); [lia|done|].
  exists s. split; [done|]. split; [done|].
  assert (0 < INR (length obs))%R as Hpos by (apply lt_0_INR; lia).
  assert (0 <= sq_dev (mean s) (errs obs))%R as Hdev.
  { generalize (errs obs). intros l. unfold sq_dev.
    induction l as [|a l IH]; simpl; [lra|].
    pose proof (Rle_0_sqr (a - mean s)) as Hsq. unfold Rsqr in Hsq. lra. }
  assert (rms s = sqrt (sq_dev (mean s) (errs obs) / INR (length obs))) as Hrms.
  { unfold rms. rewrite (proj2 (Z.eqb_neq _ _)) by lia. simpl. rewrite Hn, <- INR_IZR_INZ.
    by rewrite Hm2. }
  assert (rms s * rms s = sq_dev (mean s) (errs obs) / INR (length obs))%R as Hsq.
  { rewrite Hrms. apply sqrt_sqrt. apply Rmult_le_pos; [done|].
    apply Rlt_le, Rinv_0_lt_compat, Hpos. }
  split; [rewrite <- Hm; field; lra|]. split; [done|]. split; [done|].
  split; [rewrite Hrms; apply sqrt_pos|]. split; [done|].
  rewrite Hsq, (sq_dev_shift (mean s) 0), <- Hm. rewrite length_errs. field. lra.
Qed.

Lemma welford_exact_witness :
  exists s, @stats_run R _ debug_x86 stats_new [(2, 1); (4, 2); (6, 3)] = Done s
    /\ n s = 3 /\ max_abs_err s = 6 /\ (0 <= rms s)%R.
Proof.
  destruct (@welford_exact debug_x86 [(2, 1); (4, 2); (6, 3)])
    as (s & Hr & Hn & _ & He & _ & Hp & _).
  - simpl. lia.
  - repeat constructor; simpl; lia.
  - exists s. split; [exact Hr|]. split; [exact Hn|]. split; [exact He|exact Hp].
Defined.

(** A constant error, however large, is reported with an "rms" of zero,
    so no positive threshold is ever exceeded. *)
Theorem constant_error_rms `{Build} (e : Z) (obs : list (Z * Z)) (s : WelfordStats R) (warn : Z) :
  0 < Z.of_nat (length obs) <= 18446744073709551615 ->
  Forall (λ o, o.1 = e /\ -9223372036854775807 <= o.1 <= 9223372036854775807
               /\ -9223372036854775807 <= o.2 <= 9223372036854775807) obs ->
  0 < warn -> stats_run stats_new obs = Done s ->
  max_abs_err s = Z.abs e /\ rms s = 0%R /\ f_lt (f_of_Z warn) (rms s) = false.
Proof.
  intros Hlen Hall Hw Hr.
  destruct (accumulated_run obs) as (s' & Hr' & [Hn Hm Hm2 He Hs]);
    [lia|eapply Forall_impl; [exact Hall|naive_solver]|].
  rewrite Hr in Hr'. injection Hr' as <-.
  assert (0 < INR (length obs))%R as Hpos by (apply lt_0_INR; lia).
  assert (Rsum (errs obs) = INR (length obs) * IZR e /\
          sq_dev (IZR e) (errs obs) = 0 /\ Forall (λ z, z = e) (map fst obs))%R as (Hsum & Hdev & Hf).
  { clear -Hall. induction Hall as [|o obs (Ho & _) _ (IH1 & IH2 & IH3)];
      [unfold sq_dev; simpl; split; [lra|split; [lra|constructor]]|].
    unfold sq_dev in *. cbn [errs map Rsum foldr length].
    fold (errs obs) (Rsum (errs obs)) (Rsum (map (λ x, (x - IZR e) * (x - IZR e))%R (errs obs))).
    rewrite S_INR, Ho, IH1, IH2. split; [lra|]. split; [lra|]. by constructor. }
  assert (mean s = IZR e) as Hmean.
  { apply (Rmult_eq_reg_r (INR (length obs))); [|lra]. rewrite Hm, Hsum. lra. }
  assert (rms s = 0)%R as Hz.
  { unfold rms. case_match; [done|]. rewrite Hm2, Hmean, Hdev. simpl. unfold Rdiv.
    rewrite Rmult_0_l. apply sqrt_0. }
  split; [|split; [done|]].
  - rewrite He. clear -Hf Hlen. destruct obs as [|o obs]; [simpl in Hlen; lia|].
    cbn [map] in *. apply Forall_cons_iff in Hf as [-> Hf].
    revert Hf. generalize (map fst obs). intros l.
    induction l as [|z l IH] using rev_ind; intros Hf; [unfold max_abs; simpl; lia|].
    apply Forall_app in Hf as [Hl Hz]. apply Forall_cons_iff in Hz as [-> _].
    rewrite app_comm_cons, max_abs_snoc, IH by done. lia.
  - rewrite Hz. simpl. case_match; [|done].
    apply (IZR_lt 0) in Hw. lra.
Qed.

Lemma constant_error_rms_witness :
  exists s, @stats_run R _ debug_x86 stats_new (replicate 3 (500, 200)) = Done s
    /\ (rms s = 0)%R /\ max_abs_err s = 500.
Proof.
  destruct (@stats_run R _ debug_x86 stats_new (replicate 3 (500, 200))) as [s| |] eqn:Hr;
    [|discriminate|discriminate].
  exists s. split; [reflexivity|].
  destruct (@constant_error_rms debug_x86 500 (replicate 3 (500, 200)) s 100) as (H1 & H2 & _).
  - simpl. lia.
  - repeat constructor; simpl; lia.
  - lia.
  - exact Hr.
  - split; [exact H2|exact H1].
Defined.
