(* ===== verification/Rt.v ===== *)
(** * Real-time set-up and the periodic deadline (src/bin/tsf_sync_debugfs/rt.rs)

    Locking memory, the scheduling class and the processor; the absolute
    deadline of each pass and the sleep until it. *)

From S2P Require Import Prelude Ints Text Hex Sys Sim.

(** ** Definitions *)

Definition EINTR : Z := 4.

(** [libc::timespec] *)
Record timespec := { tv_sec : Z; tv_nsec : Z }.

Definition ts_ns (t : timespec) : Z := tv_sec t * 1000000000 + tv_nsec t.

Section rt.
Context {W : Type} `{Sys W} `{Build}.

(** libc's wrapper: zero, or -1 with the error in [errno]. *)
Definition check_ret (r : Z) : result unit io_error :=
  if negb (libc_ret r =? 0) then Err (OsError (libc_errno r)) else Ok tt.

Definition lock_memory : M W (result unit io_error) :=
  r ← act sys_mlockall; mret (check_ret r).

Definition set_rt_priority (priority : Z) : M W (result unit io_error) :=
  r ← act (sys_sched_setscheduler (as_i32 priority)); mret (check_ret r).

Definition set_cpu_affinity (cpu_id : Z) : M W (result unit io_error) :=
  r ← act (sys_sched_setaffinity cpu_id); mret (check_ret r).

Definition setup_rt (priority : Z) (cpu : option Z) : M W (result unit io_error) :=
  _ ←? lock_memory;
  _ ←? set_rt_priority priority;
  match cpu with
  | Some cpu_id => _ ←? set_cpu_affinity cpu_id; mret (Ok tt)
  | None => mret (Ok tt)
  end.

Definition now_monotonic : M W timespec :=
  '(s, ns) ← act sys_clock_gettime; mret {| tv_sec := s; tv_nsec := ns |}.

(** The normalising loop of [advance_deadline]. *)
Fixpoint carry (fuel : nat) (ts : timespec) : outcome timespec :=
  match fuel with
  | O => OutOfFuel
  | S f =>
      if 1000000000 <=? tv_nsec ts then
        s ← i64_op overflow_checks (tv_sec ts + 1);
        ns ← i64_op overflow_checks (tv_nsec ts - 1000000000);
        carry f {| tv_sec := s; tv_nsec := ns |}
      else Done ts
  end.

(** The fuel is the number of whole seconds to carry, and one for the last test. *)
Definition advance_deadline (ts : timespec) (period_ns : Z) : outcome timespec :=
  ns ← i64_op overflow_checks (tv_nsec ts + period_ns);
  carry (S (Z.to_nat (ns / 1000000000))) {| tv_sec := tv_sec ts; tv_nsec := ns |}.

(** The inline system call returns the kernel's negated errno; libc's function
    returns the errno itself. *)
Definition do_clock_nanosleep (rqtp : timespec) : M W Z :=
  r ← act (sys_clock_nanosleep (tv_sec rqtp, tv_nsec rqtp));
  match target_arch with
  | X86_64 => mret (as_i32 r)
  | OtherArch => mret (- r)
  end.

Fixpoint sleep_until (fuel : nat) (deadline : timespec) : M W unit :=
  match fuel with
  | O => lift OutOfFuel
  | S f =>
      ret ← do_clock_nanosleep deadline;
      if (ret =? 0) || negb (ret =? EINTR) then mret tt else sleep_until f deadline
  end.
End rt.

Example advance_wraps_second :
  @advance_deadline debug_x86 {| tv_sec := 0; tv_nsec := 999000000 |} 10000000
  = Done {| tv_sec := 1; tv_nsec := 9000000 |}.
Proof. reflexivity. Qed.
Example advance_multiple_seconds :
  @advance_deadline debug_x86 {| tv_sec := 0; tv_nsec := 0 |} 2500000000
  = Done {| tv_sec := 2; tv_nsec := 500000000 |}.
Proof. reflexivity. Qed.

(** ** Facts *)

Section rt_facts.
Context {W : Type} `{HSys : Sys W} `{HB : Build}.

Lemma carry_done fuel s ns :
  0 <= ns -> Z.of_nat fuel > ns / 1000000000 -> in_i64 ns ->
  in_i64 s -> in_i64 (s + ns / 1000000000) ->
  carry fuel {| tv_sec := s; tv_nsec := ns |}
  = Done {| tv_sec := s + ns / 1000000000; tv_nsec := ns mod 1000000000 |}.
Proof.
  revert s ns. induction fuel as [|f IH]; intros s ns H0 Hf Hn Hs Hs'.
  { pose proof (Z.div_pos ns 1000000000). lia. }
  cbn [carry tv_nsec tv_sec]. destruct (Z.leb_spec 1000000000 ns) as [Hle|Hlt].
  - assert (ns / 1000000000 = (ns - 1000000000) / 1000000000 + 1) as Hd.
    { replace ns with (ns - 1000000000 + 1 * 1000000000) at 1 by lia. by rewrite Z.div_add by lia. }
    assert (ns mod 1000000000 = (ns - 1000000000) mod 1000000000) as Hm.
    { replace ns with (ns - 1000000000 + 1 * 1000000000) at 1 by lia. by rewrite Z.mod_add by lia. }
    assert (0 <= (ns - 1000000000) / 1000000000) by (apply Z.div_pos; lia).
    rewrite !i64_op_in by (int_unfold; lia). cbn [mbind outcome_bind].
    rewrite IH; [|lia|lia|int_unfold; lia|int_unfold; lia|int_unfold; lia].
    rewrite Hm. f_equal. f_equal. lia.
  - rewrite Z.div_small, Z.mod_small by lia. by rewrite Z.add_0_r.
Qed.

Lemma advance_deadline_done ts period_ns :
  0 <= tv_nsec ts + period_ns -> in_i64 (tv_nsec ts + period_ns) ->
  in_i64 (tv_sec ts) -> in_i64 (tv_sec ts + (tv_nsec ts + period_ns) / 1000000000) ->
  advance_deadline ts period_ns =
  Done {| tv_sec := tv_sec ts + (tv_nsec ts + period_ns) / 1000000000;
          tv_nsec := (tv_nsec ts + period_ns) mod 1000000000 |}.
Proof.
  intros H0 Hi Hs Hs'. unfold advance_deadline. rewrite i64_op_in by done. cbn [mbind outcome_bind].
  apply carry_done; try done. pose proof (Z.div_pos (tv_nsec ts + period_ns) 1000000000). lia.
Qed.

(** In a release build advancing a deadline always ends. *)
Lemma carry_release fuel ts :
  overflow_checks = false -> in_i64 (tv_nsec ts) -> tv_nsec ts / 1000000000 <= Z.of_nat fuel ->
  exists ts', carry (S fuel) ts = Done ts'.
Proof.
  intros Ho. revert ts. induction fuel as [|f IH]; intros [s ns] Hi Hf; cbn [tv_nsec] in *;
    cbn [carry tv_nsec tv_sec]; (destruct (Z.leb_spec 1000000000 ns) as [Hle|]; [|eauto]).
  - assert (1 <= ns / 1000000000) by (apply Z.div_le_lower_bound; lia). lia.
  - rewrite (i64_op_in _ (ns - 1000000000)) by (int_unfold; lia).
    assert (i64_op overflow_checks (s + 1) = Done (as_i64 (s + 1))) as ->
      by (rewrite Ho; apply i64_op_release).
    cbn [mbind outcome_bind]. apply (IH {| tv_sec := as_i64 (s + 1); tv_nsec := ns - 1000000000 |});
      cbn [tv_nsec]; [int_unfold; lia|].
    replace ns with (ns - 1000000000 + 1 * 1000000000) in Hf by lia.
    rewrite Z.div_add in Hf by lia. lia.
Qed.

Lemma advance_deadline_release ts period_ns :
  overflow_checks = false -> exists ts', advance_deadline ts period_ns = Done ts'.
Proof.
  intros Ho. unfold advance_deadline. rewrite Ho, i64_op_release. cbn [mbind outcome_bind].
  apply carry_release; cbn [tv_nsec]; [done|apply as_i64_range|lia].
Qed.

(** The fuel of [advance_deadline] is enough in every build. *)
Lemma carry_fuel fuel ts :
  in_i64 (tv_nsec ts) -> tv_nsec ts / 1000000000 <= Z.of_nat fuel -> carry (S fuel) ts <> OutOfFuel.
Proof.
  revert ts. induction fuel as [|f IH]; intros [s ns] Hi Hf; cbn [tv_nsec] in *;
    cbn [carry tv_nsec tv_sec]; (destruct (Z.leb_spec 1000000000 ns) as [Hle|]; [|done]).
  - assert (1 <= ns / 1000000000) by (apply Z.div_le_lower_bound; lia). lia.
  - rewrite (i64_op_in _ (ns - 1000000000)) by (int_unfold; lia).
    destruct (i64_op overflow_checks (s + 1)) as [s'| |] eqn:E; cbn [mbind outcome_bind]; [|done|].
    + apply (IH {| tv_sec := s'; tv_nsec := ns - 1000000000 |}); cbn [tv_nsec]; [int_unfold; lia|].
      replace ns with (ns - 1000000000 + 1 * 1000000000) in Hf by lia.
      rewrite Z.div_add in Hf by lia. lia.
    + unfold i64_op in E. by repeat case_match.
Qed.

Lemma advance_deadline_fuel ts period_ns : advance_deadline ts period_ns <> OutOfFuel.
Proof.
  unfold advance_deadline. destruct (i64_op _ _) as [ns| |] eqn:E; cbn [mbind outcome_bind];
    [|done|unfold i64_op in E; by repeat case_match].
  apply carry_fuel; cbn [tv_nsec]; [|lia].
  unfold i64_op in E. repeat case_match; simplify_eq; [done|apply as_i64_range].
Qed.

Lemma sleep_until_done fuel deadline w w' :
  sys_clock_nanosleep (tv_sec deadline, tv_nsec deadline) w = (0, w') ->
  sleep_until (S fuel) deadline w = (Done tt, w').
Proof.
  intros Hs. cbn [sleep_until]. unfold do_clock_nanosleep. m_unfold. rewrite Hs.
  by destruct target_arch.
Qed.

Fixpoint advance_times (k : nat) (ts : timespec) (period_ns : Z) : outcome timespec :=
  match k with
  | O => Done ts
  | S k => ts' ← advance_times k ts period_ns; advance_deadline ts' period_ns
  end.

(** [k] interrupted sleeps in a row lead from one world to another. *)
Inductive interrupted (deadline : timespec) : nat -> W -> W -> Prop :=
  | interrupted_0 w : interrupted deadline 0 w w
  | interrupted_S k w w1 w2 :
      sys_clock_nanosleep (tv_sec deadline, tv_nsec deadline) w = (- EINTR, w1) ->
      interrupted deadline k w1 w2 -> interrupted deadline (S k) w w2.

Lemma check_ret_spec r :
  r <= 0 -> check_ret r = if decide (r < 0) then Err (OsError (- r)) else Ok tt.
Proof.
  intros. unfold check_ret, libc_ret, libc_errno.
  case_decide; zbool; simpl; try lia; done.
Qed.

Lemma sleep_until_x86 fuel deadline w r w' :
  target_arch = X86_64 -> -4095 <= r <= 0 ->
  sys_clock_nanosleep (tv_sec deadline, tv_nsec deadline) w = (r, w') ->
  sleep_until (S fuel) deadline w = (Done tt, w').
Proof.
  intros Ha Hr Hs. cbn [sleep_until]. unfold do_clock_nanosleep. m_unfold. rewrite Hs, Ha.
  assert (as_i32 r = r) as -> by (unfold as_i32; rewrite Z.mod_small; lia).
  unfold EINTR. by zbool; try lia.
Qed.

Lemma sleep_until_other fuel deadline w r w' :
  target_arch = OtherArch ->
  sys_clock_nanosleep (tv_sec deadline, tv_nsec deadline) w = (r, w') ->
  sleep_until (S fuel) deadline w
  = if decide (r = - EINTR) then sleep_until fuel deadline w' else (Done tt, w').
Proof.
  intros Ha Hs. cbn [sleep_until]. unfold do_clock_nanosleep. m_unfold. rewrite Hs, Ha.
  unfold EINTR. case_decide as Hd; [by subst|]. by zbool; try lia.
Qed.
End rt_facts.

(** ** Properties *)

(** C39: the [k]-th deadline is exactly [k] periods after the start, with its
    nanoseconds normalised, whatever happens between two of them: the loop's
    schedule does not drift. *)
Theorem deadline_grid `{Build} (start : timespec) (period_ns : Z) (k : nat) :
  0 <= tv_nsec start < 1000000000 -> 0 <= period_ns <= 9223372035854775807 ->
  0 <= tv_sec start -> in_i64 (tv_sec start + Z.of_nat k * (period_ns / 1000000000 + 1)) ->
  exists ts, advance_times k start period_ns = Done ts
    /\ ts_ns ts = ts_ns start + Z.of_nat k * period_ns
    /\ 0 <= tv_nsec ts < 1000000000
    /\ tv_sec ts = (ts_ns start + Z.of_nat k * period_ns) / 1000000000.
Proof.
  intros Hns Hp Hs Hk.
  assert (forall j, (j <= k)%nat -> exists ts, advance_times j start period_ns = Done ts
    /\ ts_ns ts = ts_ns start + Z.of_nat j * period_ns /\ 0 <= tv_nsec ts < 1000000000
    /\ tv_sec start <= tv_sec ts <= tv_sec start + Z.of_nat j * (period_ns / 1000000000 + 1))
    as Hind.
  { assert (0 <= period_ns / 1000000000) as Hq by (apply Z.div_pos; lia).
    induction j as [|j IH]; intros Hj; [eexists; split_and!; [reflexivity|lia..]|].
    destruct IH as (ts & Ha & Ht & Hn & Hsec); [lia|]. cbn [advance_times]. rewrite Ha.
    cbn [mbind outcome_bind].
    set (t := tv_nsec ts + period_ns) in *.
    assert (0 <= t / 1000000000 <= period_ns / 1000000000 + 1) as Hc.
    { split; [apply Z.div_pos; lia|].
      replace (period_ns / 1000000000 + 1) with ((period_ns + 1 * 1000000000) / 1000000000)
        by (by rewrite Z.div_add).
      apply Z.div_le_mono; lia. }
    rewrite advance_deadline_done; fold t; [|lia|int_unfold; lia|int_unfold; nia|int_unfold; nia].
    pose proof (Z.div_mod t 1000000000). pose proof (Z.mod_pos_bound t 1000000000).
    eexists. split; [reflexivity|]. unfold ts_ns in *. cbn [tv_sec tv_nsec]. split_and!; nia. }
  destruct (Hind k) as (ts & Ha & Ht & Hn & _); [lia|].
  exists ts. split_and!; [done..|lia|lia|].
  rewrite <- Ht. unfold ts_ns. rewrite Z.add_comm, Z.div_add, Z.div_small; lia.
Qed.

Lemma deadline_grid_witness :
  exists ts, @advance_times debug_x86 100 {| tv_sec := 7; tv_nsec := 999999999 |} 10000000 = Done ts
    /\ tv_sec ts = 8.
Proof.
  destruct (@deadline_grid debug_x86 {| tv_sec := 7; tv_nsec := 999999999 |} 10000000 100)
    as (ts & H & _ & _ & Hs).
  - simpl. lia.
  - lia.
  - simpl. lia.
  - vm_compute. split; congruence.
  - exists ts. split; [exact H|exact Hs].
Defined.

Section sleep_properties.
Context {W : Type} `{HSys : Sys W} `{HB : Build}.

(** C40: through libc, a sleep interrupted [k] times is retried until it ends
    in another way.  With the inline system call of x86_64 it never is: the
    first interruption, reported as -EINTR, ends [sleep_until] before its
    deadline. *)
Theorem sleep_until_interrupted (fuel k : nat) (deadline : timespec) (w w1 w2 : W) (r : Z) :
  interrupted deadline k w w1 ->
  sys_clock_nanosleep (tv_sec deadline, tv_nsec deadline) w1 = (r, w2) ->
  -4095 <= r <= 0 -> r <> - EINTR -> (k < fuel)%nat ->
  (target_arch = OtherArch -> sleep_until fuel deadline w = (Done tt, w2))
  /\ (target_arch = X86_64 -> exists w', interrupted deadline (Nat.min k 1) w w'
        /\ sleep_until fuel deadline w = (Done tt, if decide (k = 0%nat) then w2 else w')).
Proof.
  intros Hi Hs Hr Hne Hf. split; intros Ha.
  - revert fuel Hf. induction Hi as [w|k w w' w'' Hn Hi IH]; intros fuel Hf;
      (destruct fuel as [|fuel]; [lia|]).
    + by erewrite sleep_until_other, decide_False.
    + erewrite sleep_until_other, decide_True by done. apply IH; [done|lia].
  - destruct fuel as [|fuel]; [lia|]. inversion Hi as [|k' ? w' ? Hn Hi']; subst.
    + exists w1. split; [constructor|]. rewrite decide_True by done. by eapply sleep_until_x86.
    + exists w'. split; [econstructor; [done|]; simpl; destruct k'; constructor|].
      rewrite decide_False by done. eapply sleep_until_x86; [done| |done]. unfold EINTR. lia.
Qed.

(** The set-up steps run in order and the first failure ends them with
    its errno: without [mlockall] no priority is set, and without the priority
    no processor is pinned. *)
Theorem setup_rt_order (priority : Z) (cpu : option Z) (w w1 w2 w3 : W) (r1 r2 r3 : Z) :
  sys_mlockall w = (r1, w1) ->
  sys_sched_setscheduler (as_i32 priority) w1 = (r2, w2) ->
  (forall c, cpu = Some c -> sys_sched_setaffinity c w2 = (r3, w3)) ->
  r1 <= 0 -> r2 <= 0 -> r3 <= 0 ->
  setup_rt priority cpu w =
  if decide (r1 < 0) then (Done (Err (OsError (- r1))), w1)
  else if decide (r2 < 0) then (Done (Err (OsError (- r2))), w2)
  else if decide (is_Some cpu /\ r3 < 0) then (Done (Err (OsError (- r3))), w3)
  else (Done (Ok tt), match cpu with Some _ => w3 | None => w2 end).
Proof.
  intros H1 H2 H3 Hr1 Hr2 Hr3.
  unfold setup_rt, lock_memory, set_rt_priority, set_cpu_affinity. m_unfold. cbv beta.
  rewrite H1. cbv beta iota. rewrite (check_ret_spec r1) by done. case_decide; [done|]. cbv beta iota.
  rewrite H2. cbv beta iota. rewrite (check_ret_spec r2) by done. case_decide; [done|]. cbv beta iota.
  destruct cpu as [c|].
  - rewrite (H3 c eq_refl). cbv beta iota. rewrite (check_ret_spec r3) by done.
    repeat case_decide; try done; exfalso; naive_solver eauto.
  - rewrite decide_False; [done|]. intros [[? ?] _]. done.
Qed.
End sleep_properties.

(** A machine whose next sleeps, or set-up calls, have the given results. *)
Definition napping (results : list Z) : Sim :=
  {| now := 0; latency := 0; offsets := offsets (quiet 0 []); paths := []; faults := results;
     naps := results; flags := []; slept := [] |}.

Lemma sleep_until_interrupted_witness :
  exists w1 w2, slept w1 = [(9, 0)] /\ slept w2 = [(9, 0); (9, 0); (9, 0)]
    /\ @sleep_until Sim _ release_x86 5 {| tv_sec := 9; tv_nsec := 0 |} (napping [-4; -4]) = (Done tt, w1)
    /\ @sleep_until Sim _ release_other 5 {| tv_sec := 9; tv_nsec := 0 |} (napping [-4; -4]) = (Done tt, w2).
Proof.
  set (d := {| tv_sec := 9; tv_nsec := 0 |}).
  set (nap := λ w, snd (sys_clock_nanosleep (9, 0) (w : Sim))).
  assert (interrupted d 2 (napping [-4; -4]) (nap (nap (napping [-4; -4])))) as Hi.
  { econstructor; [reflexivity|]. econstructor; [reflexivity|]. constructor. }
  pose proof (@sleep_until_interrupted Sim _ release_other 5 2 d _ _
    (nap (nap (nap (napping [-4; -4])))) 0 Hi) as Hother.
  pose proof (@sleep_until_interrupted Sim _ release_x86 5 2 d _ _
    (nap (nap (nap (napping [-4; -4])))) 0 Hi) as Hx86.
  destruct Hother as [Hother _]; [reflexivity|lia|unfold EINTR; lia|lia|].
  destruct Hx86 as [_ Hx86]; [reflexivity|lia|unfold EINTR; lia|lia|].
  destruct Hx86 as (w' & Hi' & Hx86); [reflexivity|].
  exists w', (nap (nap (nap (napping [-4; -4])))).
  split; [|split; [reflexivity|split; [exact Hx86|apply Hother; reflexivity]]].
  inversion Hi' as [|? ? ? ? Hs Hi0]. inversion Hi0. subst. vm_compute in Hs.
  injection Hs as <-. reflexivity.
Defined.

Lemma setup_rt_order_witness :
  exists w', @setup_rt Sim _ 80 (Some 2) (napping [0; -1; 0]) = (Done (Err (OsError 1)), w')
    /\ faults w' = [0].
Proof.
  set (w0 := napping [0; -1; 0]). exists (tick (tick w0)). split; [|reflexivity].
  apply (@setup_rt_order Sim _ 80 (Some 2) w0 (tick w0) (tick (tick w0)) (tick (tick (tick w0))) 0 (-1) 0);
    try reflexivity; try lia.
Defined.
