(* ===== verification/Threading.v ===== *)
(** * The single-threaded sync loop (src/bin/tsf_sync_debugfs/threading.rs)

    One correction of a follower, the statistics check, the loop body and the
    loop, with the master and follower files, one controller per follower, and
    the log of what the program reports. *)

From Stdlib Require Import SpecFloat.
From stdpp Require Import gmap.
From S2P Require Import Prelude Ints Text Hex Sys Sim Debugfs Floats Control Stats Rt.

(** ** Definitions *)

Section threading.
Context {W F : Type} `{Sys W} `{F64 F} `{Build}.

(** What the loop reports. *)
Inductive log_event :=
  | Reported (e : event F)
  | MasterReadFailed (e : io_error)
  | FollowerFailed (i : nat).

(** [correct_follower]: the step and the error, or nothing when the follower
    could not be read, and the controller afterwards. *)
Definition correct_follower (follower : TsfFile) (controller : Controller F) (master_tsf : Z)
    : M W (option (Z * Z) * Controller F) :=
  r ← read_tsf follower;
  match r with
  | Err _ => mret (None, controller)
  | Ok follower_tsf =>
      '((step, err), controller) ← lift (apply controller master_tsf follower_tsf);
      new ← lift (i64_op overflow_checks (as_i64 follower_tsf + step));
      let new_tsf := as_u64 new in
      _ ← write_tsf follower new_tsf;
      mret (Some (step, err), controller)
  end.

Definition check_stats (stats : WelfordStats F) (cycle stats_interval_cycles rms_warn_us : Z)
    (label : str) : WelfordStats F * list (event F) :=
  if (0 <? stats_interval_cycles) && (cycle mod stats_interval_cycles =? 0) then
    let '((rms, printed), stats) := print_and_reset stats label in
    (stats, printed ++ (if (0 <? rms_warn_us) && f_lt (f_of_Z rms_warn_us) rms
                        then [RmsWarning rms rms_warn_us] else []))
  else (stats, []).

(** The variables of [run_single]'s loop, with the log so far. *)
Record SyncState := {
  deadline : timespec;
  stats : WelfordStats F;
  cycle : Z;
  controllers : list (Controller F);
  log : list log_event;
}.

Definition with_deadline (d : timespec) (st : SyncState) : SyncState :=
  {| deadline := d; stats := stats st; cycle := cycle st; controllers := controllers st; log := log st |}.
Definition with_controllers (c : list (Controller F)) (s : WelfordStats F) (st : SyncState) : SyncState :=
  {| deadline := deadline st; stats := s; cycle := cycle st; controllers := c; log := log st |}.
Definition with_stats (s : WelfordStats F) (n : Z) (st : SyncState) : SyncState :=
  {| deadline := deadline st; stats := s; cycle := n; controllers := controllers st; log := log st |}.
Definition logged (es : list log_event) (st : SyncState) : SyncState :=
  {| deadline := deadline st; stats := stats st; cycle := cycle st; controllers := controllers st;
     log := log st ++ es |}.

(** The loop over the followers, from follower [i] on; [controllers[i]] panics
    when there is none. *)
Fixpoint correct_all (i : nat) (followers : list TsfFile) (master_tsf : Z) (st : SyncState)
    : M W SyncState :=
  match followers with
  | [] => mret st
  | follower :: rest =>
      match controllers st !! i with
      | None => lift Panic
      | Some controller =>
          '(r, controller) ← correct_follower follower controller master_tsf;
          let cs := <[i := controller]> (controllers st) in
          match r with
          | Some (step, err) =>
              s ← lift (stats_update (stats st) err step);
              correct_all (S i) rest master_tsf (with_controllers cs s st)
          | None =>
              correct_all (S i) rest master_tsf
                (logged [FollowerFailed i] (with_controllers cs (stats st) st))
          end
      end
  end.

Section run_single.
Variable nap_fuel : nat.            (* bounds the retries of one sleep *)
Variable master : TsfFile.
Variable followers : list TsfFile.
Variables period_ns stats_interval_cycles rms_warn_us : Z.

(** Advance the deadline and sleep. *)
Definition pause (st : SyncState) : M W SyncState :=
  d ← lift (advance_deadline (deadline st) period_ns);
  _ ← sleep_until nap_fuel d;
  mret (with_deadline d st).

(** The body of [run_single]'s loop. *)
Definition run_cycle (st : SyncState) : M W SyncState :=
  r ← read_tsf master;
  match r with
  | Err e => pause (logged [MasterReadFailed e] st)
  | Ok master_tsf =>
      st ← correct_all 0 followers master_tsf st;
      cycle ← lift (u64_op overflow_checks (cycle st + 1));
      let '(s, es) := check_stats (stats st) cycle stats_interval_cycles rms_warn_us (lit "sync") in
      pause (logged (Reported <$> es) (with_stats s cycle st))
  end.

Fixpoint run_loop (fuel : nat) (st : SyncState) : M W SyncState :=
  match fuel with
  | O => lift OutOfFuel
  | S f =>
      running ← act running_load;
      if running : bool then st ← run_cycle st; run_loop f st else mret st
  end.

Definition run_single (fuel : nat) (controllers : list (Controller F)) : M W SyncState :=
  deadline ← now_monotonic;
  st ← run_loop fuel {| deadline := deadline; stats := stats_new; cycle := 0;
                        controllers := controllers; log := [] |};
  let '((_, printed), s) := print_and_reset (stats st) (lit "final") in
  mret (logged (Reported <$> printed) (with_stats s (cycle st) st)).

(** [k] passes through the loop, the flag being set before each. *)
Inductive passes : nat -> SyncState * W -> SyncState * W -> Prop :=
  | passes_0 p : passes 0 p p
  | passes_S k st w w1 st2 w2 p :
      running_load w = (true, w1) -> run_cycle st w1 = (Done st2, w2) ->
      passes k (st2, w2) p -> passes (S k) (st, w) p.
End run_single.
End threading.

Arguments SyncState F : clear implicits.
Arguments log_event F : clear implicits.

(** ** Facts: one correction *)

Section correction_facts.
Context {W F : Type} `{HSt : Steady W} `{HF : F64 F} `{HB : Build}.

(** In a release build [apply] works on the wrapped difference. *)
Lemma apply_release (self : Controller F) m f raw :
  overflow_checks = false -> kalman self = None -> 0 <= max_step_us self -> in_i64 (max_step_us self) ->
  raw = as_i64 (as_i64 m - as_i64 f) -> in_i64 (raw * kp_ppm self) ->
  apply self m f = Done ((ideal_step (kp_ppm self) (max_step_us self) raw, raw), self).
Proof.
  intros Ho Hk Hm Hmi -> Hp. unfold apply. rewrite Ho, i64_op_release. cbn [mbind outcome_bind].
  rewrite Hk, i64_op_in by done. cbn [mbind outcome_bind].
  rewrite clamp_step_ideal by done. cbn [mbind outcome_bind].
  destruct self as [a b c]; simpl in *. by subst c.
Qed.

(** The follower's distance from the master. *)
Definition lag (w : W) (master follower : Z) : Z := as_i64 (base w master - base w follower).

(** Within [b] of the master, or ahead of it by no more than [l]... in either
    case behind it by at most the larger of the two. *)
Definition within (b l e : Z) : Prop := - Z.max 0 b <= e <= Z.max l b.

Lemma within_step b l max e d1 d2 :
  0 <= d1 -> 0 <= d2 -> d1 + d2 <= l -> l < max ->
  within b l e -> within (b - (max - l)) l (e - Z.max (- max) (Z.min max (e - d1)) + d2).
Proof. unfold within. lia. Qed.

Lemma correct_follower_steady follower (c : Controller F) fds lat w m bm tm l b :
  overflow_checks = false -> kalman c = None -> kp_ppm c = 1000000 ->
  in_i64 (max_step_us c) -> l < max_step_us c ->
  steady fds lat w -> fd follower ∈ fds -> pread_ok follower = true ->
  m = as_u64 (bm + tm) -> tm <= clk w -> clk w - tm + 2 * lat <= l ->
  l + Z.max l b <= 9223372036854 ->
  within b l (as_i64 (bm - base w (fd follower))) ->
  exists step raw w', correct_follower follower c m w = (Done (Some (step, raw), c), w')
    /\ steady fds lat w' /\ clk w <= clk w' <= clk w + 2 * lat
    /\ (forall fd', fd' <> fd follower -> base w' fd' = base w fd')
    /\ within (b - (max_step_us c - l)) l (as_i64 (bm - base w' (fd follower))).
Proof.
  intros Ho Hk Hkp Hmi Hl Hs Hin Hp -> Htm Hel Hmax Hwi.
  destruct (read_tsf_steady follower fds lat w Hs Hin Hp) as (t1 & w1 & Hrd & Ht1 & Hc1 & Hb1 & Hs1).
  set (e := as_i64 (bm - base w (fd follower))) in *.
  destruct (as_i64_shift (bm - base w (fd follower))) as [k0 He]. fold e in He.
  set (bf := base w (fd follower)) in *.
  assert (0 <= lat /\ 0 <= l) as [Hlat Hl0] by lia.
  assert (as_i64 (as_i64 (as_u64 (bm + tm)) - as_i64 (as_u64 (bf + t1))) = e - (t1 - tm)) as Hraw.
  { unfold as_u64. rewrite !as_i64_mod.
    destruct (as_i64_shift (bm + tm)) as [k1 ->]. destruct (as_i64_shift (bf + t1)) as [k2 ->].
    apply as_i64_cong with (k1 - k2 - k0); [unfold within in Hwi; int_unfold; lia|lia]. }
  assert (ideal_step 1000000 (max_step_us c) (e - (t1 - tm))
          = Z.max (- max_step_us c) (Z.min (max_step_us c) (e - (t1 - tm)))) as Hst
    by (apply ideal_step_unit_gain; lia).
  set (step := ideal_step 1000000 (max_step_us c) (e - (t1 - tm))) in *.
  set (v := as_u64 (as_i64 (as_i64 (as_u64 (bf + t1)) + step))).
  assert (exists k, v = bf + t1 + step + k * 18446744073709551616) as [k3 Hv].
  { unfold v. rewrite as_u64_as_i64_any. unfold as_u64 at 2. rewrite as_i64_mod.
    destruct (as_i64_shift (bf + t1)) as [k1 ->]. destruct (as_u64_shift
      (bf + t1 + k1 * 18446744073709551616 + step)) as [k2 ->]. exists (k1 + k2). lia. }
  destruct (write_tsf_steady follower fds lat v w1 Hs1 Hin Hp (as_u64_range _))
    as (t2 & w2 & Hwr & Ht2 & Hc2 & Hb2 & Hb2' & Hs2).
  exists step, (e - (t1 - tm)), w2. split_and!; try done; try lia.
  - unfold correct_follower. m_unfold. rewrite Hrd. fold bf.
    rewrite (apply_release c _ _ (e - (t1 - tm))); try done; try lia;
      [|unfold within in Hwi; rewrite Hkp; int_unfold; lia].
    rewrite Hkp. fold step. rewrite Ho, i64_op_release. fold v. by rewrite Hwr.
  - intros fd' Hne. by rewrite Hb2', Hb1.
  - assert (as_i64 (bm - base w2 (fd follower)) = e - step + (t2 - t1)) as ->.
    { apply as_i64_cong with (- k0 - k3); [unfold within in Hwi; int_unfold; lia|lia]. }
    rewrite Hst. apply within_step; try done; lia.
Qed.
End correction_facts.

(** ** Facts: one cycle *)

Section cycle_facts.
Context {W F : Type} `{HSt : Steady W} `{HF : F64 F} `{HB : Build}.
Variables (fds : list Z) (lat l max : Z).

(** A controller with the program's default gain, no filter and bound [max]. *)
Definition plain (c : Controller F) : Prop :=
  kalman c = None /\ kp_ppm c = 1000000 /\ max_step_us c = max.

Hypothesis release : overflow_checks = false.
Hypothesis Hmax : in_i64 max /\ l < max.

Lemma stats_update_release (s : WelfordStats F) err step :
  exists s', stats_update s err step = Done s'.
Proof.
  unfold stats_update, u64_op. rewrite release. case_decide; cbn [mbind outcome_bind]; eauto.
Qed.

Lemma correct_all_steady followers i m bm tm b (st : SyncState F) w :
  steady fds lat w -> NoDup (fd <$> followers) ->
  Forall (λ f, fd f ∈ fds /\ pread_ok f = true) followers ->
  Forall plain (controllers st) -> (i + length followers <= length (controllers st))%nat ->
  m = as_u64 (bm + tm) -> tm <= clk w ->
  clk w - tm + 2 * lat * Z.of_nat (length followers) <= l ->
  l + Z.max l b <= 9223372036854 ->
  Forall (λ f, within b l (as_i64 (bm - base w (fd f)))) followers ->
  exists st' w', correct_all i followers m st w = (Done st', w')
    /\ steady fds lat w' /\ clk w <= clk w'
    /\ (forall fd', fd' ∉ fd <$> followers -> base w' fd' = base w fd')
    /\ Forall (λ f, within (b - (max - l)) l (as_i64 (bm - base w' (fd f)))) followers
    /\ controllers st' = controllers st /\ deadline st' = deadline st.
Proof.
  revert i st w. induction followers as [|f rest IH]; intros i st w Hs Hnd Hfs Hcs Hlen Hm Htm Hel Hb Hw.
  { exists st, w. split; [done|]. split_and!; try done; lia. }
  cbn [fmap list_fmap] in Hnd. apply NoDup_cons in Hnd as [Hnin Hnd].
  apply Forall_cons_iff in Hfs as [[Hin Hp] Hfs]. apply Forall_cons_iff in Hw as [Hwf Hw].
  cbn [length] in Hlen, Hel.
  destruct (lookup_lt_is_Some_2 (controllers st) i) as [c Hc]; [lia|].
  assert (plain c) as (Hk & Hkp & Hcm) by (by eapply Forall_lookup_1 in Hcs).
  assert (0 <= lat) as Hlat.
  { destruct (read_tsf_steady f fds lat w Hs Hin Hp) as (? & ? & _ & ? & ? & _). lia. }
  destruct (correct_follower_steady f c fds lat w m bm tm l b)
    as (step & raw & w1 & Hr & Hs1 & Hc1 & Ho1 & Hw1); try done; try (rewrite Hcm; apply Hmax); try nia.
  rewrite Hcm in Hw1.
  destruct (stats_update_release (stats st) raw step) as [s' Hst].
  destruct (IH (S i) (with_controllers (<[i := c]> (controllers st)) s' st) w1)
    as (st' & w' & Hrun & Hs' & Hc' & Ho' & Hw' & Hcs' & Hd'); try done.
  { simpl. by rewrite list_insert_id. } { simpl. rewrite length_insert. lia. } { lia. } { lia. }
  { rewrite Forall_forall in Hw |- *. intros g Hg. rewrite Ho1; [by apply Hw|].
    intros E. apply Hnin. rewrite <- E. by apply list_elem_of_fmap_2. }
  exists st', w'. split_and!; try done; try lia.
  - cbn [correct_all]. rewrite Hc. m_unfold. rewrite Hr. by rewrite Hst.
  - intros fd' Hni. cbn [fmap list_fmap] in Hni. apply not_elem_of_cons in Hni as [Hne Hni].
    by rewrite Ho', Ho1.
  - apply Forall_cons_iff. split; [|done]. by rewrite Ho'.
  - rewrite Hcs'. simpl. by apply list_insert_id.
Qed.

Variables (nap_fuel : nat) (master : TsfFile) (followers : list TsfFile).
Variables period_ns stats_interval_cycles rms_warn_us : Z.

Lemma pause_steady (st : SyncState F) w :
  steady fds lat w ->
  exists st' w', pause (S nap_fuel) period_ns st w = (Done st', w')
    /\ steady fds lat w' /\ base w' = base w /\ controllers st' = controllers st.
Proof.
  intros Hs. destruct (advance_deadline_release (deadline st) period_ns release) as [d Hd].
  destruct (sys_clock_nanosleep (tv_sec d, tv_nsec d) w) as [r w'] eqn:Hn.
  destruct (steady_sleep _ _ _ _ _ _ Hs Hn) as (-> & _ & Hb & Hs').
  exists (with_deadline d st), w'. split_and!; try done.
  unfold pause. m_unfold. rewrite Hd. by rewrite (sleep_until_done _ _ _ _ Hn).
Qed.

(** The files the loop uses are steady, and their controllers plain. *)
Record wired (st : SyncState F) : Prop := {
  wired_master : fd master ∈ fds /\ pread_ok master = true;
  wired_distinct : NoDup (fd <$> master :: followers);
  wired_files : Forall (λ f, fd f ∈ fds /\ pread_ok f = true) followers;
  wired_plain : Forall plain (controllers st);
  wired_len : (length followers <= length (controllers st))%nat;
}.

Lemma run_cycle_steady (st : SyncState F) w b :
  steady fds lat w -> wired st ->
  (1 + 2 * Z.of_nat (length followers)) * lat <= l -> l + Z.max l b <= 9223372036854 ->
  Forall (λ f, within b l (lag w (fd master) (fd f))) followers ->
  exists st' w',
    run_cycle (S nap_fuel) master followers period_ns stats_interval_cycles rms_warn_us st w
      = (Done st', w')
    /\ steady fds lat w' /\ wired st'
    /\ Forall (λ f, within (b - (max - l)) l (lag w' (fd master) (fd f))) followers.
Proof.
  intros Hs [[Hmi Hmp] Hnd Hfs Hcs Hlen] Hl Hb Hw.
  pose proof Hnd as Hnd'. cbn [fmap list_fmap] in Hnd'. apply NoDup_cons in Hnd' as [Hnin Hnd'].
  destruct (read_tsf_steady master fds lat w Hs Hmi Hmp) as (tm & w1 & Hrd & Htm & Hc1 & Hb1 & Hs1).
  destruct (correct_all_steady followers 0 (as_u64 (base w (fd master) + tm)) (base w (fd master)) tm b st w1)
    as (st2 & w2 & Hrun & Hs2 & Hc2 & Ho2 & Hw2 & Hcs2 & Hd2); try done; try lia.
  { unfold lag in Hw. by rewrite Hb1. }
  destruct (u64_op overflow_checks (cycle st2 + 1)) as [n| |] eqn:Hn;
    [|unfold u64_op in Hn; rewrite release in Hn; by case_decide..].
  destruct (check_stats (stats st2) n stats_interval_cycles rms_warn_us (lit "sync")) as [s es] eqn:Hst.
  destruct (pause_steady (logged (Reported <$> es) (with_stats s n st2)) w2 Hs2)
    as (st3 & w3 & Hp & Hs3 & Hb3 & Hcs3).
  exists st3, w3. split; [|split; [done|]].
  - unfold run_cycle. m_unfold. rewrite Hrd, Hrun. cbv beta iota. rewrite Hn. cbv beta iota.
    by rewrite Hst.
  - assert (controllers st3 = controllers st) as Hc3 by (by rewrite Hcs3).
    split; [split; try done; by rewrite Hc3|].
    unfold lag. rewrite Hb3, (Ho2 (fd master)), Hb1 by done. done.
Qed.

Lemma passes_steady k (st st' : SyncState F) w w' b :
  steady fds lat w -> wired st ->
  (1 + 2 * Z.of_nat (length followers)) * lat <= l -> l + Z.max l b <= 9223372036854 ->
  Forall (λ f, within b l (lag w (fd master) (fd f))) followers ->
  passes (S nap_fuel) master followers period_ns stats_interval_cycles rms_warn_us k (st, w) (st', w') ->
  steady fds lat w' /\ wired st'
  /\ Forall (λ f, within (b - Z.of_nat k * (max - l)) l (lag w' (fd master) (fd f))) followers.
Proof.
  intros Hs Hwd Hl Hb Hw Hp. remember (st, w) as p eqn:Ep. remember (st', w') as p' eqn:Ep'.
  revert st w b Ep Hs Hwd Hb Hw.
  induction Hp as [p|k st0 w0 w1 st2 w2 p' Hr Hrun Hp IH]; intros st w b Ep Hs Hwd Hb Hw.
  { rewrite Z.mul_0_l, Z.sub_0_r. by simplify_eq. }
  injection Ep as -> ->.
  destruct (steady_running _ _ _ _ _ Hs Hr) as (_ & Hb1 & Hs1).
  destruct (run_cycle_steady st w1 b) as (st2' & w2' & Hrun' & Hs2 & Hwd2 & Hw2); try done.
  { unfold lag. by rewrite Hb1. }
  rewrite Hrun in Hrun'. injection Hrun' as <- <-.
  replace (b - Z.of_nat (S k) * (max - l)) with (b - (max - l) - Z.of_nat k * (max - l)) by lia.
  apply (IH Ep' st2 w2); try done. lia.
Qed.

(** The loop, whatever fuel it has: it makes passes while it finds the flag set,
    and returns when it finds it cleared; or it has made as many as the fuel allows. *)
Lemma run_loop_passes fuel (st : SyncState F) w b :
  steady fds lat w -> wired st ->
  (1 + 2 * Z.of_nat (length followers)) * lat <= l -> l + Z.max l b <= 9223372036854 ->
  Forall (λ f, within b l (lag w (fd master) (fd f))) followers ->
  exists k o st' wk w',
    run_loop (S nap_fuel) master followers period_ns stats_interval_cycles rms_warn_us fuel st w = (o, w')
    /\ passes (S nap_fuel) master followers period_ns stats_interval_cycles rms_warn_us k (st, w) (st', wk)
    /\ (o = Done st' /\ running_load wk = (false, w') /\ (k < fuel)%nat \/ o = OutOfFuel /\ w' = wk /\ k = fuel)
    /\ base w' = base wk.
Proof.
  revert st w b. induction fuel as [|fuel IH]; intros st w b Hs Hwd Hl Hb Hw; cbn [run_loop].
  { exists O, OutOfFuel, st, w, w. split; [done|]. split; [constructor|]. split; [by right|done]. }
  destruct (running_load w) as [r w1] eqn:Hr. destruct (steady_running _ _ _ _ _ Hs Hr) as (_ & Hb1 & Hs1).
  erewrite bind_done by (unfold act; by rewrite Hr). destruct r.
  - destruct (run_cycle_steady st w1 b) as (st2 & w2 & Hrun & Hs2 & Hwd2 & Hw2); try done.
    { unfold lag. by rewrite Hb1. }
    rewrite (bind_done _ _ _ _ _ Hrun).
    destruct (IH st2 w2 (b - (max - l)) Hs2 Hwd2 Hl ltac:(lia) Hw2) as (k & o & st' & wk & w' & Hrl & Hp & Ho & Hbk).
    exists (S k), o, st', wk, w'. split; [done|]. split; [by eapply passes_S|]. split; [|done].
    destruct Ho as [(? & ? & ?)|(? & ? & ->)]; [left|right]; auto with lia.
  - exists O, (Done st), st, w, w1. split; [done|]. split; [constructor|]. split; [left|done].
    split; [done|]. split; [done|lia].
Qed.
End cycle_facts.

(** ** Properties *)

Section threading_properties.
Context {W F : Type} `{HSy : Sys W} `{HF : F64 F} `{HB : Build}.

(** C1: in a release build at the default gain, while the files answer within
    [lat] microseconds and the counters do not drift, no pass of the loop panics or gets stuck, and every
    pass brings every follower closer to the master by the bound less the
    length [l] of the reads and writes of a pass, until its counter is behind
    the master's by between 0 and [l]; it stays there from then on.  Counters
    and their differences are taken mod 2^64. *)
Theorem sync_converges `{HTs : !TsfFiles W} `{HSt : !Steady W} (fds : list Z) (lat max b : Z)
    (nap_fuel : nat) (master : TsfFile)
    (followers : list TsfFile) (period_ns interval warn : Z) (st st' : SyncState F) (w w' : W) (k : nat) :
  let l := (1 + 2 * Z.of_nat (length followers)) * lat in
  overflow_checks = false -> in_i64 max -> l < max ->
  steady fds lat w -> wired fds max master followers st ->
  0 <= b -> l + Z.max l b <= 9223372036854 ->
  Forall (λ f, Z.abs (lag w (fd master) (fd f)) <= b) followers ->
  passes (S nap_fuel) master followers period_ns interval warn k (st, w) (st', w') ->
  (exists st2 w2, run_cycle (S nap_fuel) master followers period_ns interval warn st'
                    (running_load w').2 = (Done st2, w2))
  /\ Forall (λ f, Z.abs (lag w' (fd master) (fd f)) <= Z.max l (b - Z.of_nat k * (max - l))) followers
  /\ (b <= Z.of_nat k * (max - l) ->
      Forall (λ f, 0 <= lag w' (fd master) (fd f) <= l) followers).
Proof.
  intros l Ho Hm Hlm Hs Hwd H0 Hb Hw Hp.
  destruct (passes_steady fds lat l max Ho (conj Hm Hlm) nap_fuel master followers period_ns interval
              warn k st st' w w' b) as (Hs' & Hwd' & Hw'); try done; try (subst l; lia).
  { eapply Forall_impl; [exact Hw|]. unfold within. intros f Hf. simpl in Hf. lia. }
  assert (0 <= l) as Hl0.
  { destruct (wired_master _ _ _ _ _ Hwd) as [Hin Hpr].
    destruct (read_tsf_steady master fds lat w Hs Hin Hpr) as (? & ? & _ & ? & ? & _). subst l. nia. }
  split_and!.
  - destruct (running_load w') as [r w1] eqn:Hr.
    destruct (steady_running _ _ _ _ _ Hs' Hr) as (_ & Hb1 & Hs1). simpl.
    destruct (run_cycle_steady fds lat l max Ho (conj Hm Hlm) nap_fuel master followers period_ns
                interval warn st' w1 (b - Z.of_nat k * (max - l)))
      as (st2 & w2 & Hrun & _); try done; try nia; try (subst l; lia); [|by eauto].
    unfold lag. by rewrite Hb1.
  - eapply Forall_impl; [exact Hw'|]. unfold within. intros f Hf. simpl in Hf. lia.
  - intros Hk. eapply Forall_impl; [exact Hw'|]. unfold within. intros f Hf. simpl in Hf. lia.
Qed.

(** A pass whose master read fails touches no follower: it reports the
    error, moves the deadline on by one period and sleeps, and changes neither
    the statistics, the cycle count nor a controller. *)
Theorem master_read_failure_skips (nap_fuel : nat) (master : TsfFile) (followers : list TsfFile)
    (period_ns interval warn : Z) (st : SyncState F) (w w1 w2 : W) (e : io_error) (d : timespec) :
  read_tsf master w = (Done (Err e), w1) ->
  advance_deadline (deadline st) period_ns = Done d ->
  sleep_until nap_fuel d w1 = (Done tt, w2) ->
  run_cycle nap_fuel master followers period_ns interval warn st w
  = (Done {| deadline := d; stats := stats st; cycle := cycle st; controllers := controllers st;
             log := log st ++ [MasterReadFailed e] |}, w2).
Proof.
  intros Hr Hd Hs. unfold run_cycle, pause. m_unfold. rewrite Hr. cbv beta iota.
  simpl. rewrite Hd. cbv beta iota. by rewrite Hs.
Qed.

(** A failed write of a follower's counter is invisible: [correct_follower]
    answers the step and error it would have answered, and no pass reports
    it. *)
Theorem write_failure_invisible (follower : TsfFile) (c c' : Controller F) (m f step err new : Z)
    (o : result unit io_error) (w w1 w2 : W) :
  read_tsf follower w = (Done (Ok f), w1) ->
  apply c m f = Done ((step, err), c') ->
  i64_op overflow_checks (as_i64 f + step) = Done new ->
  write_tsf follower (as_u64 new) w1 = (Done o, w2) ->
  correct_follower follower c m w = (Done (Some (step, err), c'), w2).
Proof.
  intros Hr Ha Hn Hw. unfold correct_follower. m_unfold. rewrite Hr. cbv beta iota.
  rewrite Ha. cbv beta iota. rewrite Hn. cbv beta iota. by rewrite Hw.
Qed.

(** The loop ends at the first pass before which the flag is found
    cleared, with any fuel that covers the passes made until then; what is
    left of the statistics is reported then. *)
Theorem run_single_returns (nap_fuel fuel k : nat) (master : TsfFile) (followers : list TsfFile)
    (period_ns interval warn : Z) (cs : list (Controller F)) (w w0 w1 w2 : W) (s ns : Z)
    (st : SyncState F) :
  sys_clock_gettime w = ((s, ns), w0) ->
  passes nap_fuel master followers period_ns interval warn k
    ({| deadline := {| tv_sec := s; tv_nsec := ns |}; stats := stats_new; cycle := 0;
        controllers := cs; log := [] |}, w0) (st, w1) ->
  running_load w1 = (false, w2) -> (k < fuel)%nat ->
  run_single nap_fuel master followers period_ns interval warn fuel cs w
  = (Done (logged (Reported <$> (print_and_reset (stats st) (lit "final")).1.2)
             (with_stats stats_new (cycle st) st)), w2).
Proof.
  intros Hg Hp Hr Hf. unfold run_single, now_monotonic. m_unfold. rewrite Hg. cbv beta iota.
  match goal with |- context [run_loop _ _ _ _ _ _ _ ?s0 w0] => set (st0 := s0) in * end.
  assert (run_loop nap_fuel master followers period_ns interval warn fuel st0 w0 = (Done st, w2)) as ->;
    [|done].
  clearbody st0. clear Hg. remember (st0, w0) as p eqn:Ep. remember (st, w1) as p' eqn:Ep'.
  revert st0 w0 fuel Ep Hf.
  induction Hp as [p|k stx wx wy sty wz p' Hy Hrun Hp IH]; intros st0 w0 fuel Ep Hf;
    (destruct fuel as [|fuel]; [lia|]); cbn [run_loop]; m_unfold.
  - simplify_eq. by rewrite Hr.
  - injection Ep as -> ->. rewrite Hy, Hrun. cbv beta iota.
    apply IH; [done|done|lia].
Qed.
End threading_properties.

(** ** Witnesses: two followers on the simulated kernel *)

Definition file (n : Z) : TsfFile := {| fd := n; pread_ok := true |}.

Definition two_followers : Sim :=
  {| now := 5000; latency := 2; offsets := list_to_map [(3, 1000000); (4, 999700); (5, 1000050)];
     paths := []; faults := []; naps := []; flags := [true; true; true; false]; slept := [] |}.

Definition start_state : SyncState spec_float :=
  {| deadline := {| tv_sec := 0; tv_nsec := 5000000 |}; stats := stats_new; cycle := 0;
     controllers := replicate 2 (controller_new 1000000 200 false); log := [] |}.

Definition sim_cycle : SyncState spec_float -> M Sim (SyncState spec_float) :=
  @run_cycle Sim spec_float _ _ release_x86 1 (file 3) [file 4; file 5] 10000000 0 0.

Lemma sync_converges_witness :
  exists st' w', Forall (λ f, 0 <= lag w' 3 (fd f) <= 10) [file 4; file 5]
    /\ cycle (F := spec_float) st' = 2.
Proof.
  set (w1 := (running_load two_followers).2).
  destruct (sim_cycle start_state w1) as [o2 w2] eqn:H2.
  assert (exists st2, o2 = Done st2) as [st2 ->].
  { vm_compute in H2. injection H2 as <- _. eexists. reflexivity. }
  set (w3 := (running_load w2).2).
  destruct (sim_cycle st2 w3) as [o4 w4] eqn:H4.
  assert (exists st4, o4 = Done st4 /\ cycle st4 = 2) as (st4 & -> & Hc).
  { vm_compute in H2. injection H2 as <- <-. vm_compute in H4. injection H4 as <- _.
    eexists. split; reflexivity. }
  assert (running_load w2 = (true, w3)) as H3.
  { subst w3. vm_compute in H2. injection H2 as _ <-. reflexivity. }
  exists st4, w4. split; [|exact Hc].
  apply (@sync_converges Sim spec_float _ _ release_x86 _ _ [3; 4; 5] 2 200 300 0 (file 3)
           [file 4; file 5] 10000000 0 0 start_state st4 two_followers w4 2).
  - reflexivity.
  - unfold in_i64. lia.
  - simpl. lia.
  - simpl. split_and!; try reflexivity; try lia; [repeat constructor; eexists; reflexivity|constructor].
  - split; simpl.
    + split; [apply (bool_decide_unpack _); vm_compute; reflexivity|reflexivity].
    + apply (bool_decide_unpack _). vm_compute. reflexivity.
    + apply (bool_decide_unpack _). vm_compute. reflexivity.
    + repeat constructor.
    + lia.
  - lia.
  - simpl. lia.
  - apply (bool_decide_unpack _). vm_compute. reflexivity.
  - eapply passes_S; [reflexivity|exact H2|]. eapply passes_S; [exact H3|exact H4|]. apply passes_0.
  - simpl. lia.
Defined.

(** The same machine, with the given results forced on its next calls. *)
Definition failing (fs : list Z) : Sim :=
  {| now := 5000; latency := 2; offsets := offsets two_followers; paths := []; faults := fs;
     naps := []; flags := [true; false]; slept := [] |}.

Lemma master_read_failure_skips_witness :
  exists st w, sim_cycle start_state (failing [-5]) = (Done st, w)
    /\ cycle st = 0 /\ offsets w = offsets two_followers /\ log st = [MasterReadFailed (OsError 5)].
Proof.
  eexists _, _. split.
  - apply (@master_read_failure_skips Sim spec_float _ _ release_x86 1 (file 3) [file 4; file 5]
             10000000 0 0 start_state _ (tick (failing [-5]))
             (sim_nanosleep (0, 15000000) (tick (failing [-5]))).2 (OsError 5)
             {| tv_sec := 0; tv_nsec := 15000000 |}); vm_compute; reflexivity.
  - split_and!; vm_compute; reflexivity.
Defined.

Lemma write_failure_invisible_witness :
  exists w', @correct_follower Sim spec_float _ _ release_x86 (file 4)
               (controller_new 1000000 200 false) 1004700 (failing [0; -5])
             = (Done (Some (0, 0), controller_new 1000000 200 false), w')
    /\ offsets w' = offsets two_followers.
Proof.
  exists (tick (tick (failing [0; -5]))). split; [|reflexivity].
  apply (@write_failure_invisible Sim spec_float _ _ release_x86 (file 4)
           (controller_new 1000000 200 false) _ 1004700 1004700 0 0 1004700 (Err (OsError 5))
           _ (tick (failing [0; -5]))); vm_compute; reflexivity.
Defined.

Lemma run_single_returns_witness :
  exists st w', @run_single Sim spec_float _ _ release_x86 1 (file 3) [file 4; file 5]
      10000000 0 0 2 (replicate 2 (controller_new 1000000 200 false)) (failing [])
    = (Done (logged (Reported <$> (print_and_reset (stats st) (lit "final")).1.2)
               (with_stats stats_new (cycle st) st)), w').
Proof.
  set (w0 := failing []).
  destruct (sim_cycle start_state (running_load w0).2) as [o w1] eqn:H1.
  assert (exists st, o = Done st) as [st ->].
  { vm_compute in H1. injection H1 as <- _. eexists. reflexivity. }
  exists st, (running_load w1).2.
  apply (@run_single_returns Sim spec_float _ _ release_x86 1 2 1 (file 3) [file 4; file 5]
           10000000 0 0 (replicate 2 (controller_new 1000000 200 false)) w0 w0 w1
           (running_load w1).2 0 5000000 st).
  - reflexivity.
  - eapply passes_S; [reflexivity|exact H1|]. apply passes_0.
  - vm_compute in H1. injection H1 as _ <-. reflexivity.
  - lia.
Defined.
