(* ===== verification/Typing.v ===== *)
(** * The types of the single-threaded loop

    The model keeps machine integers as [Z].  The ranges of every variable of
    [run_single]'s loop, that a pass preserves them, and that in a release
    build a state within them never panics, whatever the files and the clock
    answer.  There are no definitions of the program here. *)

From Stdlib Require Import SpecFloat.
From S2P Require Import Prelude Ints Text Hex Sys Sim Debugfs Floats Control Stats Rt Threading.

(** ** Types *)

Definition ts_ok (t : timespec) : Prop := in_i64 (tv_sec t) /\ 0 <= tv_nsec t < 1000000000.

Definition abs_ok (z : Z) : Prop := 0 <= z <= 9223372036854775807.

Section types.
Context {F : Type}.

Record stats_ok (s : WelfordStats F) : Prop := {
  n_ok : in_u64 (Stats.n s);
  max_err_ok : abs_ok (max_abs_err s);
  max_step_ok : abs_ok (max_abs_step s);
}.

Definition ctrl_ok (c : Controller F) : Prop := in_i64 (kp_ppm c) /\ abs_ok (max_step_us c).

(** A line of statistics is about at least one observation; a warning has a
    threshold; a failure names a follower. *)
Definition event_ok (e : event F) : Prop :=
  match e with
  | StatsLine _ n _ _ max_err max_step => 0 < n /\ in_u64 n /\ abs_ok max_err /\ abs_ok max_step
  | RmsWarning _ threshold => 0 < threshold
  end.

Definition log_ok (followers : nat) (e : log_event F) : Prop :=
  match e with
  | Reported e => event_ok e
  | MasterReadFailed _ => True
  | FollowerFailed i => (i < followers)%nat
  end.

Record state_ok (followers : nat) (st : SyncState F) : Prop := {
  deadline_ok : ts_ok (deadline st);
  sums_ok : stats_ok (stats st);
  cycle_ok : in_u64 (cycle st);
  ctrls_ok : Forall ctrl_ok (controllers st);
  ctrls_len : (followers <= length (controllers st))%nat;
  events_ok : Forall (log_ok followers) (log st);
}.
End types.

(** A computation that always answers, with a value in [Q]. *)
Definition safe {W A} (m : M W A) (Q : A -> Prop) : Prop := forall w, exists a w', m w = (Done a, w') /\ Q a.

(** ** Facts *)

Lemma safe_ret {W A} (a : A) (Q : A -> Prop) : Q a -> safe (mret a : M W A) Q.
Proof. intros Hq w. by exists a, w. Qed.

Lemma safe_lift {W A} (o : outcome A) a (Q : A -> Prop) : o = Done a -> Q a -> safe (lift o : M W A) Q.
Proof. intros -> Hq w. by exists a, w. Qed.

Lemma safe_bind {W A B} (m : M W A) (k : A -> M W B) P Q :
  safe m P -> (forall a, P a -> safe (k a) Q) -> safe (m ≫= k) Q.
Proof.
  intros Hm Hk w. destruct (Hm w) as (a & w1 & E & Hp). destruct (Hk a Hp w1) as (b & w2 & E2 & Hq).
  exists b, w2. split; [|done]. unfold mbind, M_bind. by rewrite E.
Qed.

#[export] Hint Resolve safe_ret : tsf.

Section preservation.
Context {W F : Type} `{HSy : Sys W} `{HR : !SysReads W} `{HF : F64 F} `{HB : Build}.
Hypothesis release : overflow_checks = false.

Lemma apply_ok (c : Controller F) m f :
  ctrl_ok c ->
  exists step raw c', apply c m f = Done ((step, raw), c') /\ in_i64 step /\ in_i64 raw
    /\ kp_ppm c' = kp_ppm c /\ max_step_us c' = max_step_us c.
Proof.
  intros [_ Hm]. unfold apply. rewrite release, i64_op_release. cbn [mbind outcome_bind].
  destruct (match kalman c with Some _ => _ | None => _ end) as [err kal].
  rewrite i64_op_release. cbn [mbind outcome_bind]. unfold clamp_step. rewrite release.
  rewrite i64_op_release, (as_i64_id (- max_step_us c)) by (unfold abs_ok in Hm; int_unfold; lia). cbn [mbind outcome_bind].
  destruct (clamp_done (Z.quot (as_i64 (err * kp_ppm c)) 1000000) (- max_step_us c) (max_step_us c))
    as (x & -> & Hx & _); [unfold abs_ok in Hm; lia|]. cbn [mbind outcome_bind].
  eexists _, _, _. split; [reflexivity|]. split_and!; try done; [|apply as_i64_range].
  unfold abs_ok in Hm. destruct (_ && negb _); [destruct (0 <? err)|]; unfold in_i64; lia.
Qed.

Lemma stats_update_ok (s : WelfordStats F) err step :
  stats_ok s -> exists s', stats_update s err step = Done s' /\ stats_ok s'.
Proof.
  intros [Hn He Hs]. unfold stats_update, u64_op. rewrite release.
  assert (forall z, abs_as_i64 z <= 9223372036854775807) as Hz by (intros z; apply (as_i64_range (Z.abs z))).
  pose proof (Hz err). pose proof (Hz step). unfold abs_ok in *.
  case_decide; cbn [mbind outcome_bind]; (eexists; split; [reflexivity|]);
    (split; cbn [Stats.n max_abs_err max_abs_step]; [first [done|apply as_u64_range]|..]; unfold abs_ok; zbool; lia).
Qed.

Lemma stats_new_ok : stats_ok (F := F) stats_new.
Proof. by split; vm_compute. Qed.

Lemma check_stats_ok (s : WelfordStats F) cycle interval warn label :
  stats_ok s ->
  stats_ok (check_stats s cycle interval warn label).1
  /\ Forall event_ok (check_stats s cycle interval warn label).2.
Proof.
  intros Hs. unfold check_stats. destruct (_ && _); [|done]. unfold print_and_reset. cbn [fst snd].
  split; [apply stats_new_ok|]. apply Forall_app. split.
  - destruct (Z.ltb_spec 0 (Stats.n s)); [|constructor]. destruct Hs. apply Forall_cons_iff. by split_and!.
  - destruct (Z.ltb_spec 0 warn); cbn [andb]; [|constructor]. case_match; [|constructor]. apply Forall_cons_iff. by split.
Qed.

Lemma read_tsf_safe self : safe (read_tsf self) (λ _, True).
Proof.
  intros w. destruct (kernel_read self 64 w) as [[r data] w'] eqn:Hk.
  assert (r = Z.of_nat (length data) /\ (length data <= 64)%nat \/ r < 0) as Hr.
  { unfold kernel_read in Hk. destruct (pread_ok self);
      [apply sys_pread64_stored in Hk|apply sys_read_stored in Hk]; naive_solver. }
  unfold read_tsf, try_bind, mbind, M_bind. erewrite read_raw_kernel by (by rewrite length_replicate).
  destruct Hr as [[-> Hl]|Hr].
  - rewrite (proj2 (Z.ltb_ge _ 0)) by lia. rewrite slice_fill, decide_True by (int_unfold; lia). m_unfold. eauto.
  - rewrite (proj2 (Z.ltb_lt r 0)) by lia. m_unfold. eauto.
Qed.

Lemma write_tsf_safe self v : in_u64 v -> safe (write_tsf self v) (λ _, True).
Proof.
  intros Hv w. destruct (kernel_write self (dec v ++ [10]) w) as [r w'] eqn:Hk.
  erewrite write_tsf_kernel by done. eauto.
Qed.

Lemma correct_follower_safe follower (c : Controller F) m :
  ctrl_ok c -> safe (correct_follower follower c m) (λ r, ctrl_ok r.2).
Proof.
  intros Hc. unfold correct_follower. apply safe_bind with (λ _, True); [apply read_tsf_safe|].
  intros [f|e] _; [|by apply safe_ret].
  destruct (apply_ok c m f Hc) as (step & raw & c' & Ha & Hs & Hr & Hk & Hm).
  eapply safe_bind; [by apply (safe_lift _ (step, raw, c') (λ r, r = (step, raw, c')))|]. intros ? ->.
  eapply safe_bind with (λ _, True); [eapply safe_lift; [by rewrite release, i64_op_release|done]|]. intros v _.
  apply safe_bind with (λ _, True); [apply write_tsf_safe, as_u64_range|]. intros _ _.
  apply safe_ret. unfold ctrl_ok in *. cbn [snd]. by rewrite Hk, Hm.
Qed.

Lemma correct_all_safe total i followers m (st : SyncState F) :
  state_ok total st -> (i + length followers <= total)%nat ->
  safe (correct_all i followers m st)
    (λ st', state_ok total st' /\ length (controllers st') = length (controllers st)).
Proof.
  revert i st. induction followers as [|f rest IH]; intros i st Hok Hi; cbn [correct_all]; [by apply safe_ret|].
  destruct Hok as [Hd Hs Hn Hcs Hlen Hlog]. cbn [length] in Hi.
  destruct (lookup_lt_is_Some_2 (controllers st) i) as [c Hc]; [lia|]. rewrite Hc.
  apply safe_bind with (λ r, ctrl_ok r.2); [apply correct_follower_safe; by eapply Forall_lookup_1|].
  intros [[[step err]|] c'] Hc'; cbn [snd] in Hc'.
  - destruct (stats_update_ok (stats st) err step Hs) as (s' & Hu & Hs').
    eapply safe_bind; [by apply (safe_lift _ s' (λ s, s = s'))|]. intros ? ->.
    assert (state_ok total (with_controllers (<[i := c']> (controllers st)) s' st)) as Hst'
      by (split; cbn; try done; [by apply Forall_insert|by rewrite length_insert]).
    intros w. destruct (IH (S i) _ Hst' ltac:(lia) w) as (st' & w' & E & ? & Hl). exists st', w'.
    split_and!; try done. cbn [with_controllers controllers] in Hl. by rewrite length_insert in Hl.
  - assert (state_ok total (logged [FollowerFailed i] (with_controllers (<[i := c']> (controllers st)) (stats st) st))) as Hst'.
    { split; cbn; try done; [by apply Forall_insert|by rewrite length_insert|].
      apply Forall_app. split; [done|]. constructor; [simpl; lia|constructor]. }
    intros w. destruct (IH (S i) _ Hst' ltac:(lia) w) as (st' & w' & E & ? & Hl). exists st', w'.
    split_and!; try done. cbn [logged with_controllers controllers] in Hl. by rewrite length_insert in Hl.
Qed.

(** The next deadline of a normalised one is normalised. *)
Lemma carry_ok fuel ts :
  in_i64 (tv_sec ts) -> 0 <= tv_nsec ts <= 9223372036854775807 -> tv_nsec ts / 1000000000 <= Z.of_nat fuel ->
  exists ts', carry (S fuel) ts = Done ts' /\ ts_ok ts'.
Proof.
  revert ts. induction fuel as [|fuel IH]; intros [s ns] Hs Hn Hf; cbn [tv_sec tv_nsec] in *;
    cbn [carry tv_nsec tv_sec]; (destruct (Z.leb_spec 1000000000 ns); [|eexists; split; [done|]; split; cbn; [done|lia]]).
  - assert (1 <= ns / 1000000000) by (apply Z.div_le_lower_bound; lia). lia.
  - rewrite (i64_op_in _ (ns - 1000000000)) by (int_unfold; lia).
    assert (i64_op overflow_checks (s + 1) = Done (as_i64 (s + 1))) as -> by (rewrite release; apply i64_op_release).
    cbn [mbind outcome_bind]. apply (IH {| tv_sec := as_i64 (s + 1); tv_nsec := ns - 1000000000 |}); cbn [tv_sec tv_nsec]; [apply as_i64_range|lia|].
    replace ns with (ns - 1000000000 + 1 * 1000000000) in Hf by lia. rewrite Z.div_add in Hf by lia. lia.
Qed.

Lemma advance_deadline_ok ts period_ns :
  ts_ok ts -> 0 <= period_ns <= 9223372035854775807 ->
  exists ts', advance_deadline ts period_ns = Done ts' /\ ts_ok ts'.
Proof.
  intros [Hs Hn] Hp. unfold advance_deadline. rewrite i64_op_in by (int_unfold; lia). cbn [mbind outcome_bind].
  apply carry_ok; cbn [tv_sec tv_nsec]; [done|lia|lia].
Qed.

Variables (nap_fuel : nat) (master : TsfFile) (followers : list TsfFile).
Variables period_ns interval warn : Z.
Hypothesis period_ok : 0 <= period_ns <= 9223372035854775807.
Let total := length followers.

(** What follows a pass's work: the sleep until the new deadline. *)
Definition sleeping (st : SyncState F) : M W (SyncState F) :=
  _ ← sleep_until nap_fuel (deadline st); mret st.

Lemma pause_ok (st : SyncState F) w :
  state_ok total st ->
  exists st', pause nap_fuel period_ns st w = sleeping st' w /\ state_ok total st'
    /\ controllers st' = controllers st.
Proof.
  intros [Hd Hs Hn Hcs Hlen Hlog]. destruct (advance_deadline_ok _ _ Hd period_ok) as (d & Ha & Hd').
  exists (with_deadline d st). split; [|by split].
  unfold pause. by erewrite bind_done by (unfold lift; by rewrite Ha).
Qed.

Lemma run_cycle_ok (st : SyncState F) w :
  state_ok total st ->
  exists st' w', run_cycle nap_fuel master followers period_ns interval warn st w = sleeping st' w'
    /\ state_ok total st' /\ length (controllers st') = length (controllers st).
Proof.
  intros Hok. destruct (read_tsf_safe master w) as (r & w1 & Hr & _). unfold run_cycle.
  erewrite bind_done by exact Hr. destruct r as [m|e].
  - destruct (correct_all_safe total 0 followers m st Hok (le_n _) w1) as (st1 & w2 & Hc & Hok1 & Hl).
    erewrite bind_done by exact Hc.
    assert (exists c, u64_op overflow_checks (cycle st1 + 1) = Done c /\ in_u64 c) as (c & Hu & Hcy).
    { unfold u64_op. rewrite release. case_decide; eauto using as_u64_range. }
    erewrite bind_done by (unfold lift; by rewrite Hu).
    destruct Hok1 as [Hd Hs Hn Hcs Hlen Hlog].
    destruct (check_stats_ok (stats st1) c interval warn (lit "sync") Hs) as [Hs' Hes].
    destruct (check_stats _ _ _ _ _) as [s es]. cbn [fst snd] in *.
    destruct (pause_ok (logged (Reported <$> es) (with_stats s c st1)) w2) as (st2 & Hp & Hok2 & Hcs2).
    + split; cbn [logged with_stats deadline stats cycle controllers log]; try done.
      apply Forall_app. split; [done|]. by apply Forall_fmap.
    + exists st2, w2. split; [exact Hp|]. split; [done|]. rewrite Hcs2. exact Hl.
  - destruct (pause_ok (logged [MasterReadFailed e] st) w1) as (st2 & Hp & Hok2 & Hcs2).
    + destruct Hok as [Hd Hs Hn Hcs Hlen Hlog]. split; cbn; try done.
      apply Forall_app. split; [done|]. by repeat constructor.
    + exists st2, w1. split; [exact Hp|]. split; [done|]. by rewrite Hcs2.
Qed.

Lemma passes_ok k (st st' : SyncState F) w w' :
  state_ok total st -> passes nap_fuel master followers period_ns interval warn k (st, w) (st', w') ->
  state_ok total st' /\ length (controllers st') = length (controllers st).
Proof.
  intros Hok Hp. remember (st, w) as p eqn:Ep. remember (st', w') as p' eqn:Ep'. revert st w Ep Hok.
  induction Hp as [p|k st0 w0 w1 st2 w2 p' _ Hrun _ IH]; intros st w Ep Hok; [by simplify_eq|].
  injection Ep as -> ->. destruct (run_cycle_ok st w1 Hok) as (st3 & w3 & Hc & Hok3 & Hl3).
  rewrite Hrun in Hc. unfold sleeping, mbind, M_bind, mret, M_ret in Hc.
  assert (st2 = st3) as -> by (repeat case_match; by simplify_eq).
  destruct (IH Ep' st3 w2 eq_refl Hok3). split; [done|]. by rewrite <- Hl3.
Qed.
End preservation.

(** ** Properties *)

(** C15: in a release build, with a controller for each follower and a bound
    that is not negative, and whatever the files answer, each pass of the loop reaches its sleep: no
    arithmetic, index, slice or clamp panics.  It leaves every variable in the range of its
    type and the deadline normalised; what is reported is about at least one
    observation, with extremes that are not negative, and names followers
    that exist. *)
Theorem loop_well_typed {W F} `{Sys W} `{!SysReads W} `{F64 F} `{Build} (nap_fuel : nat) (master : TsfFile)
    (followers : list TsfFile) (period_ns interval warn : Z) (cs : list (Controller F)) (start : timespec)
    (k : nat) (st : SyncState F) (w w' : W) :
  overflow_checks = false -> 0 <= period_ns <= 9223372035854775807 -> ts_ok start ->
  Forall ctrl_ok cs -> (length followers <= length cs)%nat ->
  passes nap_fuel master followers period_ns interval warn k
    ({| deadline := start; stats := stats_new; cycle := 0; controllers := cs; log := [] |}, w) (st, w') ->
  state_ok (length followers) st /\ length (controllers st) = length cs
  /\ forall w1, exists st2 w2,
       run_cycle nap_fuel master followers period_ns interval warn st w1
         = (_ ← sleep_until nap_fuel (deadline st2); mret st2) w2
       /\ state_ok (length followers) st2.
Proof.
  intros Hrel Hper Hd Hcs Hlen Hp.
  eapply passes_ok in Hp as [Hok Hl]; [|done|done|].
  2: { split; cbn [deadline stats cycle controllers log]; done. }
  split_and!; [done..|]. intros w1.
  destruct (run_cycle_ok Hrel nap_fuel master followers period_ns interval warn Hper st w1 Hok)
    as (st2 & w2 & Hc & Hok2 & _). by exists st2, w2.
Qed.

(** ** Witnesses *)

(** A machine on which the sixth call fails, the master's read of the second
    pass, and then every sleep is interrupted. *)
Definition unsteady : Sim :=
  {| now := 5000; latency := 2; offsets := offsets two_followers; paths := [];
     faults := [0; 0; 0; 0; 0; -5]; naps := [-4; -4]; flags := [true; true]; slept := [] |}.

Lemma loop_well_typed_witness :
  exists st w, state_ok 2 st /\ cycle (F := spec_float) st = 1
    /\ exists st2 w2, sim_cycle st w = (_ ← @sleep_until Sim _ release_x86 1 (deadline st2); mret st2) w2 /\ state_ok 2 st2.
Proof.
  set (w1 := (running_load unsteady).2).
  destruct (sim_cycle start_state w1) as [o2 w2] eqn:H2.
  assert (exists st2, o2 = Done st2 /\ cycle st2 = 1) as (st2 & -> & Hc).
  { vm_compute in H2. injection H2 as <- _. eexists. split; reflexivity. }
  exists st2, (running_load w2).2.
  destruct (@loop_well_typed Sim spec_float _ _ _ release_x86 1 (file 3) [file 4; file 5] 10000000 0 0
              (replicate 2 (controller_new 1000000 200 false)) {| tv_sec := 0; tv_nsec := 5000000 |}
              1 st2 unsteady w2) as (Hok & _ & Hn).
  - reflexivity.
  - lia.
  - repeat split; vm_compute; congruence.
  - repeat constructor; vm_compute; congruence.
  - simpl. lia.
  - eapply passes_S; [reflexivity|exact H2|]. apply passes_0.
  - split; [exact Hok|]. split; [exact Hc|]. apply Hn.
Defined.
