(* ===== verification/Parallel.v ===== *)
(** * The parallel sync loop (src/bin/tsf_sync_debugfs/threading.rs)

    [run_parallel]: a sampler thread and one worker per follower, two barriers,
    the shared master value and the running flag.  A step is one access to
    what the threads share, or one correction of a follower; any thread may
    take the next step, and the signal handler may clear the flag between any
    two.  [std::sync::Barrier] is modelled as it is documented and written: a
    count of arrivals and a generation, which the last arrival increments. *)

From Stdlib Require Import SpecFloat.
From stdpp Require Import gmap relations.
From S2P Require Import Prelude Ints Text Hex Sys Sim Debugfs Floats Control Stats Rt Threading.

(** ** Definitions *)

Record barrier := { count : nat; generation : nat }.

(** Arriving at a barrier of [n] threads: the last arrival goes on, the others
    wait for the generation they found to change. *)
Definition arrive (n : nat) (b : barrier) : barrier * option nat :=
  if (S (count b) <? n)%nat
  then ({| count := S (count b); generation := generation b |}, Some (generation b))
  else ({| count := 0; generation := S (generation b) |}, None).

Inductive wpc :=
  | W_test | W_b1 | W_b1_wait (g : nat) | W_check | W_load | W_correct (m : Z)
  | W_b2 | W_b2_wait (g : nat) | W_print | W_done | W_panicked.
Inductive spc :=
  | S_test | S_read | S_store (v : Z) | S_b1 | S_b1_wait (g : nat) | S_b2 | S_b2_wait (g : nat)
  | S_stats | S_final | S_final_wait (g : nat) | S_join | S_done | S_panicked.

#[export] Instance wpc_eq_dec : EqDecision wpc.
Proof. solve_decision. Defined.
#[export] Instance spc_eq_dec : EqDecision spc.
Proof. solve_decision. Defined.

Section parallel.
Context {W F : Type} `{Sys W} `{F64 F} `{Build}.

Record Worker := {
  pc : wpc;
  follower : TsfFile;
  controller : Controller F;
  wstats : WelfordStats F;
}.

Record Sampler := {
  spc_of : spc;
  sdeadline : timespec;
  scycle : Z;
  sampler_stats : WelfordStats F;
}.

(** What the threads share; [out] is what they have reported. *)
Record Shared := {
  running : bool;
  master_tsf : Z;
  barrier1 : barrier;
  barrier2 : barrier;
  world : W;
  out : list (log_event F);
}.

Record Par := { shared : Shared; workers : list Worker; sampler : Sampler }.

Definition with_b1 (b : barrier) (sh : Shared) : Shared :=
  {| running := running sh; master_tsf := master_tsf sh; barrier1 := b; barrier2 := barrier2 sh;
     world := world sh; out := out sh |}.
Definition with_b2 (b : barrier) (sh : Shared) : Shared :=
  {| running := running sh; master_tsf := master_tsf sh; barrier1 := barrier1 sh; barrier2 := b;
     world := world sh; out := out sh |}.
Definition with_world (w : W) (sh : Shared) : Shared :=
  {| running := running sh; master_tsf := master_tsf sh; barrier1 := barrier1 sh;
     barrier2 := barrier2 sh; world := w; out := out sh |}.
Definition with_tsf (v : Z) (sh : Shared) : Shared :=
  {| running := running sh; master_tsf := v; barrier1 := barrier1 sh;
     barrier2 := barrier2 sh; world := world sh; out := out sh |}.
Definition report (es : list (log_event F)) (sh : Shared) : Shared :=
  {| running := running sh; master_tsf := master_tsf sh; barrier1 := barrier1 sh;
     barrier2 := barrier2 sh; world := world sh; out := out sh ++ es |}.
(** The signal handler. *)
Definition stop (sh : Shared) : Shared :=
  {| running := false; master_tsf := master_tsf sh; barrier1 := barrier1 sh;
     barrier2 := barrier2 sh; world := world sh; out := out sh |}.

Definition at_pc (p : wpc) (wk : Worker) : Worker :=
  {| pc := p; follower := follower wk; controller := controller wk; wstats := wstats wk |}.
Definition s_at (p : spc) (s : Sampler) : Sampler :=
  {| spc_of := p; sdeadline := sdeadline s; scycle := scycle s; sampler_stats := sampler_stats s |}.

Section threads.
Variable nap_fuel : nat.
Variable master : TsfFile.
Variables period_ns stats_interval_cycles rms_warn_us : Z.
Variable n : nat.                     (* the number of followers *)

(** One step of worker [i]; [None] when it is blocked or has ended. *)
Definition worker_step (i : nat) (sh : Shared) (wk : Worker) : option (Shared * Worker) :=
  match pc wk with
  | W_test => Some (sh, at_pc (if running sh then W_b1 else W_print) wk)
  | W_b1 =>
      let '(b, r) := arrive (n + 1) (barrier1 sh) in
      Some (with_b1 b sh, at_pc (match r with Some g => W_b1_wait g | None => W_check end) wk)
  | W_b1_wait g =>
      if bool_decide (generation (barrier1 sh) = g) then None else Some (sh, at_pc W_check wk)
  | W_check => Some (sh, at_pc (if running sh then W_load else W_print) wk)
  | W_load => Some (sh, at_pc (W_correct (master_tsf sh)) wk)
  | W_correct m =>
      match correct_follower (follower wk) (controller wk) m (world sh) with
      | (Done (r, c), w) =>
          match (match r with
                 | Some (step, err) => stats_update (wstats wk) err step
                 | None => Done (wstats wk)
                 end) with
          | Done s => Some (with_world w sh,
                            {| pc := W_b2; follower := follower wk; controller := c; wstats := s |})
          | _ => Some (with_world w sh, at_pc W_panicked wk)
          end
      | (_, w) => Some (with_world w sh, at_pc W_panicked wk)
      end
  | W_b2 =>
      let '(b, r) := arrive (n + 1) (barrier2 sh) in
      Some (with_b2 b sh, at_pc (match r with Some g => W_b2_wait g | None => W_test end) wk)
  | W_b2_wait g =>
      if bool_decide (generation (barrier2 sh) = g) then None else Some (sh, at_pc W_test wk)
  | W_print =>
      let '((_, printed), s) := print_and_reset (wstats wk) (lit "follower-" ++ dec (Z.of_nat i)) in
      Some (report (Reported <$> printed) sh,
            {| pc := W_done; follower := follower wk; controller := controller wk; wstats := s |})
  | W_done | W_panicked => None
  end.

(** The end of the sampler's pass: count it, check the statistics, sleep. *)
Definition sampler_rest (s : Sampler) (w : W) : outcome (Sampler * list (event F)) * W :=
  (cycle ← lift (u64_op overflow_checks (scycle s + 1));
   let '(st, es) := check_stats (sampler_stats s) cycle stats_interval_cycles rms_warn_us (lit "sync") in
   d ← lift (advance_deadline (sdeadline s) period_ns);
   _ ← sleep_until nap_fuel d;
   mret ({| spc_of := S_test; sdeadline := d; scycle := cycle; sampler_stats := st |}, es)) w.

(** One step of the sampler; [ended] says whether every worker thread has. *)
Definition sampler_step (ended : bool) (sh : Shared) (s : Sampler) : option (Shared * Sampler) :=
  match spc_of s with
  | S_test => Some (sh, s_at (if running sh then S_read else S_final) s)
  | S_read =>
      match read_tsf master (world sh) with
      | (Done (Ok v), w) => Some (with_world w sh, s_at (S_store v) s)
      | (Done (Err e), w) => Some (report [MasterReadFailed e] (with_world w sh), s_at S_b1 s)
      | (_, w) => Some (with_world w sh, s_at S_panicked s)
      end
  | S_store v => Some (with_tsf v sh, s_at S_b1 s)
  | S_b1 =>
      let '(b, r) := arrive (n + 1) (barrier1 sh) in
      Some (with_b1 b sh, s_at (match r with Some g => S_b1_wait g | None => S_b2 end) s)
  | S_b1_wait g =>
      if bool_decide (generation (barrier1 sh) = g) then None else Some (sh, s_at S_b2 s)
  | S_b2 =>
      let '(b, r) := arrive (n + 1) (barrier2 sh) in
      Some (with_b2 b sh, s_at (match r with Some g => S_b2_wait g | None => S_stats end) s)
  | S_b2_wait g =>
      if bool_decide (generation (barrier2 sh) = g) then None else Some (sh, s_at S_stats s)
  | S_stats =>
      match sampler_rest s (world sh) with
      | (Done (s', es), w) => Some (report (Reported <$> es) (with_world w sh), s')
      | (Panic, w) => Some (with_world w sh, s_at S_panicked s)
      | (OutOfFuel, w) => None
      end
  | S_final =>
      let '(b, r) := arrive (n + 1) (barrier1 sh) in
      Some (with_b1 b sh, s_at (match r with Some g => S_final_wait g | None => S_join end) s)
  | S_final_wait g =>
      if bool_decide (generation (barrier1 sh) = g) then None else Some (sh, s_at S_join s)
  | S_join => if ended then Some (sh, s_at S_done s) else None
  | S_done | S_panicked => None
  end.

(** A worker thread that has returned or panicked can be joined. *)
Definition ended (wk : Worker) : bool :=
  match pc wk with W_done | W_panicked => true | _ => false end.

(** Who takes a step. *)
Inductive actor := Signal | TheSampler | TheWorker (i : nat).

#[export] Instance actor_eq_dec : EqDecision actor.
Proof. solve_decision. Defined.

Definition step (a : actor) (st : Par) : option Par :=
  match a with
  | Signal => Some {| shared := stop (shared st); workers := workers st; sampler := sampler st |}
  | TheSampler =>
      '(sh, s) ← sampler_step (forallb ended (workers st)) (shared st) (sampler st);
      Some {| shared := sh; workers := workers st; sampler := s |}
  | TheWorker i =>
      wk ← workers st !! i;
      '(sh, wk) ← worker_step i (shared st) wk;
      Some {| shared := sh; workers := <[i := wk]> (workers st); sampler := sampler st |}
  end.

Definition pstep (st st' : Par) : Prop := exists a, step a st = Some st'.

(** A schedule, as the actors in the order of their steps. *)
Fixpoint schedule (l : list actor) (st : Par) : option Par :=
  match l with
  | [] => Some st
  | a :: l => st' ← step a st; schedule l st'
  end.
End threads.

(** The state in which [run_parallel] has spawned its workers. *)
Definition par_init (followers : list TsfFile) (controllers : list (Controller F)) (d : timespec)
    (w : W) : Par :=
  {| shared := {| running := true; master_tsf := 0; barrier1 := {| count := 0; generation := 0 |};
                  barrier2 := {| count := 0; generation := 0 |}; world := w; out := [] |};
     workers := zip_with (λ f c, {| pc := W_test; follower := f; controller := c; wstats := stats_new |})
                  followers controllers;
     sampler := {| spc_of := S_test; sdeadline := d; scycle := 0; sampler_stats := stats_new |} |}.
End parallel.

Arguments Worker F : clear implicits.
Arguments Sampler F : clear implicits.
Arguments Shared W F : clear implicits.
Arguments Par W F : clear implicits.

(** ** Facts: counting threads *)

Fixpoint cnt {A} (p : A -> bool) (l : list A) : nat :=
  match l with [] => 0 | a :: l => (if p a then 1 else 0) + cnt p l end.

Lemma cnt_le {A} (p : A -> bool) l : (cnt p l <= length l)%nat.
Proof. induction l as [|a l IH]; simpl; [lia|]. destruct (p a); lia. Qed.

Lemma cnt_insert {A} (p : A -> bool) l i a b :
  l !! i = Some a ->
  (cnt p (<[i := b]> l) + (if p a then 1 else 0) = cnt p l + (if p b then 1 else 0))%nat.
Proof.
  revert i. induction l as [|c l IH]; intros [|i] Hi; simplify_eq/=; [destruct (p a), (p b); lia|].
  specialize (IH i Hi). lia.
Qed.

Lemma cnt_all {A} (p : A -> bool) l : cnt p l = length l -> Forall (λ a, p a = true) l.
Proof.
  induction l as [|a l IH]; simpl; [by constructor|]. intros Hc.
  pose proof (cnt_le p l). destruct (p a) eqn:Hp; [|lia]. constructor; [done|]. apply IH. lia.
Qed.

Lemma cnt_none {A} (p : A -> bool) l : Forall (λ a, p a = false) l -> cnt p l = 0%nat.
Proof. induction 1 as [|a l Ha _ IH]; simpl; [done|]. by rewrite Ha. Qed.

Lemma all_or_one {A} (p : A -> bool) l :
  cnt p l = length l \/ exists i a, l !! i = Some a /\ p a = false.
Proof.
  induction l as [|c l [IH|(i & a & Hi & Ha)]]; [by left| |right; by exists (S i), a].
  destruct (p c) eqn:Hc; [left; simpl; rewrite Hc; lia|right; by exists 0%nat, c].
Qed.

(** One element lacks [p], and nothing else can. *)
Lemma full_but_one {A} (p : A -> bool) l i a a' (s : bool) :
  l !! i = Some a -> p a = false -> p a' = true ->
  (length l <= cnt p l + (if s then 1 else 0))%nat -> S (cnt p l) = length l /\ s = true.
Proof.
  intros Hi Ha Ha' Hlen. pose proof (cnt_insert p _ _ _ a' Hi) as Hci.
  pose proof (cnt_le p (<[i := a']> l)) as Hle. rewrite length_insert in Hle.
  rewrite Ha, Ha' in Hci. destruct s; lia.
Qed.

(** If all but [i] are waiting, the list with [i] replaced is uniform. *)
Lemma Forall_replace {A} (p : A -> bool) (Q : A -> Prop) l i a b :
  l !! i = Some a -> p a = false -> S (cnt p l) = length l ->
  (forall c, p c = true -> Q c) -> Q b -> Forall Q (<[i := b]> l).
Proof.
  intros Hi Hp Hc HQ Hb. revert i Hi Hc.
  induction l as [|c l IH]; intros [|i] Hi Hc; simplify_eq/=.
  - constructor; [done|]. rewrite Hp in Hc. apply Forall_impl with (λ a, p a = true); [|done].
    apply cnt_all. lia.
  - pose proof (cnt_le p l). assert (cnt p l < length l)%nat as Hlt.
    { clear -Hi Hp. revert i Hi. induction l as [|d l IH]; intros [|i] Hi; simplify_eq/=.
      - rewrite Hp. pose proof (cnt_le p l). lia.
      - specialize (IH i Hi). destruct (p d); lia. }
    destruct (p c) eqn:Hpc; [|lia]. constructor; [by apply HQ|]. apply IH; [done|lia].
Qed.

(** ** Facts: the two phases *)

Section phases.
Context {W F : Type} `{HSy : Sys W} `{HF : F64 F} `{HB : Build}.

(** Waiting at a barrier in generation [k]. *)
Definition w_at1 (k : nat) (wk : Worker F) : bool := bool_decide (pc wk = W_b1_wait k).
Definition w_at2 (k : nat) (wk : Worker F) : bool := bool_decide (pc wk = W_b2_wait k).
Definition s_at1 (k : nat) (s : spc) : bool :=
  bool_decide (s = S_b1_wait k) || bool_decide (s = S_final_wait k).
Definition s_at2 (k : nat) (s : spc) : bool := bool_decide (s = S_b2_wait k).

(** Where the threads can be before pass [k]'s master value is out... *)
Definition w_okA (k : nat) (running : bool) (p : wpc) : Prop :=
  match p with
  | W_b2_wait l => S l = k
  | W_test | W_b1 => True
  | W_print | W_done => running = false
  | W_b1_wait l => l = k
  | _ => False
  end.
Definition s_okA (k : nat) (running : bool) (p : spc) : Prop :=
  match p with
  | S_b2_wait l => S l = k
  | S_stats | S_test | S_read | S_store _ | S_b1 | S_panicked => True
  | S_final => running = false
  | S_b1_wait l => l = k
  | S_final_wait l => l = k /\ running = false
  | _ => False
  end.
(** ... and after. *)
Definition w_okB (k : nat) (running : bool) (m : Z) (p : wpc) : Prop :=
  match p with
  | W_b1_wait l | W_b2_wait l => l = k
  | W_check | W_load | W_b2 | W_panicked => True
  | W_correct v => v = m
  | W_print | W_done => running = false
  | _ => False
  end.
Definition s_okB (k : nat) (running : bool) (p : spc) : Prop :=
  match p with
  | S_b1_wait l | S_b2_wait l => l = k
  | S_b2 => True
  | S_final_wait l => l = k /\ running = false
  | S_join | S_done => running = false
  | _ => False
  end.

Inductive phase (st : Par W F) : Prop :=
  | phase_A k :
      generation (barrier1 (shared st)) = k -> generation (barrier2 (shared st)) = k ->
      count (barrier2 (shared st)) = 0%nat ->
      count (barrier1 (shared st))
        = (cnt (w_at1 k) (workers st) + (if s_at1 k (spc_of (sampler st)) then 1 else 0))%nat ->
      Forall (λ wk, w_okA k (running (shared st)) (pc wk)) (workers st) ->
      s_okA k (running (shared st)) (spc_of (sampler st)) -> phase st
  | phase_B k :
      generation (barrier1 (shared st)) = S k -> generation (barrier2 (shared st)) = k ->
      count (barrier1 (shared st)) = 0%nat ->
      count (barrier2 (shared st))
        = (cnt (w_at2 k) (workers st) + (if s_at2 k (spc_of (sampler st)) then 1 else 0))%nat ->
      Forall (λ wk, w_okB k (running (shared st)) (master_tsf (shared st)) (pc wk)) (workers st) ->
      s_okB k (running (shared st)) (spc_of (sampler st)) -> phase st.

Lemma phase_init fs cs d w : phase (par_init (F := F) fs cs d w).
Proof.
  apply phase_A with 0%nat; simpl; try done.
  - rewrite cnt_none; [done|]. apply Forall_forall. intros wk Hwk.
    apply elem_of_lookup_zip_with in Hwk as (? & ? & ? & -> & _). done.
  - apply Forall_forall. intros wk Hwk.
    by apply elem_of_lookup_zip_with in Hwk as (? & ? & ? & -> & _).
Qed.

Lemma phase_signal (st : Par W F) :
  phase st -> phase {| shared := stop (shared st); workers := workers st; sampler := sampler st |}.
Proof.
  intros [k H1 H2 H3 H4 H5 H6|k H1 H2 H3 H4 H5 H6].
  - eapply phase_A; simpl; try done.
    + eapply Forall_impl; [exact H5|]. intros wk. simpl. by destruct (pc wk).
    + destruct (spc_of (sampler st)); simpl in *; naive_solver.
  - eapply phase_B; simpl; try done.
    + eapply Forall_impl; [exact H5|]. intros wk. simpl. by destruct (pc wk).
    + destruct (spc_of (sampler st)); simpl in *; naive_solver.
Qed.
(** A worker's move inside a phase. *)
Lemma phase_A_worker (st : Par W F) k i wk wk' sh' :
  generation (barrier1 (shared st)) = k -> generation (barrier2 (shared st)) = k ->
  count (barrier2 (shared st)) = 0%nat ->
  count (barrier1 (shared st))
    = (cnt (w_at1 k) (workers st) + (if s_at1 k (spc_of (sampler st)) then 1 else 0))%nat ->
  Forall (λ wk, w_okA k (running (shared st)) (pc wk)) (workers st) ->
  s_okA k (running (shared st)) (spc_of (sampler st)) ->
  workers st !! i = Some wk ->
  generation (barrier1 sh') = k -> barrier2 sh' = barrier2 (shared st) ->
  running sh' = running (shared st) ->
  (count (barrier1 sh') + (if w_at1 k wk then 1 else 0)
    = count (barrier1 (shared st)) + (if w_at1 k wk' then 1 else 0))%nat ->
  w_okA k (running (shared st)) (pc wk') ->
  phase {| shared := sh'; workers := <[i := wk']> (workers st); sampler := sampler st |}.
Proof.
  intros H1 H2 H3 H4 H5 H6 Hi Hg Hb Hr Hc Hok.
  apply phase_A with k; simpl; rewrite ?Hb, ?Hr; try done.
  - pose proof (cnt_insert (w_at1 k) _ _ _ wk' Hi). lia.
  - by apply Forall_insert.
Qed.

Lemma phase_B_worker (st : Par W F) k i wk wk' sh' :
  generation (barrier1 (shared st)) = S k -> generation (barrier2 (shared st)) = k ->
  count (barrier1 (shared st)) = 0%nat ->
  count (barrier2 (shared st))
    = (cnt (w_at2 k) (workers st) + (if s_at2 k (spc_of (sampler st)) then 1 else 0))%nat ->
  Forall (λ wk, w_okB k (running (shared st)) (master_tsf (shared st)) (pc wk)) (workers st) ->
  s_okB k (running (shared st)) (spc_of (sampler st)) ->
  workers st !! i = Some wk ->
  generation (barrier2 sh') = k -> barrier1 sh' = barrier1 (shared st) ->
  running sh' = running (shared st) -> master_tsf sh' = master_tsf (shared st) ->
  (count (barrier2 sh') + (if w_at2 k wk then 1 else 0)
    = count (barrier2 (shared st)) + (if w_at2 k wk' then 1 else 0))%nat ->
  w_okB k (running (shared st)) (master_tsf (shared st)) (pc wk') ->
  phase {| shared := sh'; workers := <[i := wk']> (workers st); sampler := sampler st |}.
Proof.
  intros H1 H2 H3 H4 H5 H6 Hi Hg Hb Hr Hm Hc Hok.
  apply phase_B with k; simpl; rewrite ?Hb, ?Hr, ?Hm; try done.
  - pose proof (cnt_insert (w_at2 k) _ _ _ wk' Hi). lia.
  - by apply Forall_insert.
Qed.

(** The last worker to arrive changes the phase. *)
Lemma phase_A_last (st : Par W F) k i wk wk' sh' :
  generation (barrier2 (shared st)) = k -> count (barrier2 (shared st)) = 0%nat ->
  (length (workers st)
    <= cnt (w_at1 k) (workers st) + (if s_at1 k (spc_of (sampler st)) then 1 else 0))%nat ->
  s_okA k (running (shared st)) (spc_of (sampler st)) ->
  workers st !! i = Some wk -> pc wk = W_b1 -> pc wk' = W_check ->
  sh' = with_b1 {| count := 0; generation := S k |} (shared st) ->
  phase {| shared := sh'; workers := <[i := wk']> (workers st); sampler := sampler st |}.
Proof.
  intros H2 H3 Hlen H6 Hi Hpc Hpc' ->.
  assert (w_at1 k wk = false) as Hw by (unfold w_at1; rewrite Hpc; by apply bool_decide_eq_false_2).
  assert (S (cnt (w_at1 k) (workers st)) = length (workers st) /\ s_at1 k (spc_of (sampler st)) = true)
    as [Hcnt Hs] by (by apply (full_but_one (w_at1 k) _ _ _ (at_pc (W_b1_wait k) wk) _ Hi Hw); [apply bool_decide_eq_true_2|]).
  assert (forall Q : Worker F -> Prop, (forall c, pc c = W_b1_wait k -> Q c) -> Q wk' ->
            Forall Q (<[i := wk']> (workers st))) as Hall.
  { intros Q HQ HQ'. eapply (Forall_replace (w_at1 k)); try done. intros c Hc. apply HQ.
    by apply bool_decide_eq_true_1 in Hc. }
  apply phase_B with k; simpl; try done.
  - assert (cnt (w_at2 k) (<[i:=wk']> (workers st)) = 0%nat) as ->.
    { apply cnt_none, Hall; [intros c Hc|]; unfold w_at2; apply bool_decide_eq_false_2; congruence. }
    unfold s_at1, s_at2 in *. destruct (spc_of (sampler st)); done.
  - apply Hall; [by intros c ->|by rewrite Hpc'].
  - unfold s_at1 in Hs. destruct (spc_of (sampler st)); try done.
Qed.

Lemma phase_B_last (st : Par W F) k i wk wk' sh' :
  generation (barrier1 (shared st)) = S k -> count (barrier1 (shared st)) = 0%nat ->
  (length (workers st)
    <= cnt (w_at2 k) (workers st) + (if s_at2 k (spc_of (sampler st)) then 1 else 0))%nat ->
  workers st !! i = Some wk -> pc wk = W_b2 -> pc wk' = W_test ->
  sh' = with_b2 {| count := 0; generation := S k |} (shared st) ->
  phase {| shared := sh'; workers := <[i := wk']> (workers st); sampler := sampler st |}.
Proof.
  intros H2 H3 Hlen Hi Hpc Hpc' ->.
  assert (w_at2 k wk = false) as Hw by (unfold w_at2; rewrite Hpc; by apply bool_decide_eq_false_2).
  assert (S (cnt (w_at2 k) (workers st)) = length (workers st) /\ s_at2 k (spc_of (sampler st)) = true)
    as [Hcnt Hs] by (by apply (full_but_one (w_at2 k) _ _ _ (at_pc (W_b2_wait k) wk) _ Hi Hw); [apply bool_decide_eq_true_2|]).
  apply bool_decide_eq_true_1 in Hs.
  assert (forall Q : Worker F -> Prop, (forall c, pc c = W_b2_wait k -> Q c) -> Q wk' ->
            Forall Q (<[i := wk']> (workers st))) as Hall.
  { intros Q HQ HQ'. eapply (Forall_replace (w_at2 k)); try done. intros c Hc. apply HQ.
    by apply bool_decide_eq_true_1 in Hc. }
  apply phase_A with (S k); simpl; try done.
  - assert (cnt (w_at1 (S k)) (<[i:=wk']> (workers st)) = 0%nat) as ->.
    { apply cnt_none, Hall; [intros c Hc|]; unfold w_at1; apply bool_decide_eq_false_2; congruence. }
    by rewrite Hs.
  - apply Hall; [by intros c ->|by rewrite Hpc'].
  - by rewrite Hs.
Qed.

(** The sampler as the last to arrive. *)
Lemma all_wait_1 (st : Par W F) k (Q : Worker F -> Prop) :
  (length (workers st) <= cnt (w_at1 k) (workers st))%nat ->
  (forall c, pc c = W_b1_wait k -> Q c) -> Forall Q (workers st).
Proof.
  intros Hlen HQ. pose proof (cnt_le (w_at1 k) (workers st)).
  eapply Forall_impl; [apply (cnt_all (w_at1 k)); lia|]. intros c Hc. simpl in Hc. apply HQ.
  by apply bool_decide_eq_true_1 in Hc.
Qed.
Lemma all_wait_2 (st : Par W F) k (Q : Worker F -> Prop) :
  (length (workers st) <= cnt (w_at2 k) (workers st))%nat ->
  (forall c, pc c = W_b2_wait k -> Q c) -> Forall Q (workers st).
Proof.
  intros Hlen HQ. pose proof (cnt_le (w_at2 k) (workers st)).
  eapply Forall_impl; [apply (cnt_all (w_at2 k)); lia|]. intros c Hc. simpl in Hc. apply HQ.
  by apply bool_decide_eq_true_1 in Hc.
Qed.

Lemma correct_step n i (sh sh' : Shared W F) wk wk' m :
  pc wk = W_correct m -> worker_step n i sh wk = Some (sh', wk') ->
  (exists w, sh' = with_world w sh) /\ (pc wk' = W_b2 \/ pc wk' = W_panicked).
Proof.
  unfold worker_step. intros ->.
  destruct (correct_follower _ _ _ _) as [[[r c]| |] w].
  - destruct (match r with Some (step, err) => _ | None => _ end); intros [= <- <-]; eauto.
  - intros [= <- <-]; eauto.
  - intros [= <- <-]; eauto.
Qed.

Lemma phase_worker_step (st : Par W F) i wk sh' wk' :
  phase st -> workers st !! i = Some wk ->
  worker_step (length (workers st)) i (shared st) wk = Some (sh', wk') ->
  phase {| shared := sh'; workers := <[i := wk']> (workers st); sampler := sampler st |}.
Proof.
  intros [k H1 H2 H3 H4 H5 H6|k H1 H2 H3 H4 H5 H6] Hi Hs.
  - assert (w_okA k (running (shared st)) (pc wk)) as Hok by (by eapply Forall_lookup_1 in H5).
    unfold worker_step in Hs. destruct (pc wk) eqn:Hpc; try done.
    + injection Hs as <- <-. eapply phase_A_worker; try done; unfold w_at1; rewrite ?Hpc; simpl;
        by destruct (running (shared st)).
    + unfold arrive in Hs. destruct (Nat.ltb_spec (S (count (barrier1 (shared st))))
        (length (workers st) + 1)) as [Hlt|Hge]; injection Hs as <- <-.
      * eapply phase_A_worker; try done; simpl; try done.
        unfold w_at1. rewrite Hpc. simpl. rewrite H1. bdec. lia.
      * eapply phase_A_last; try done; [|by rewrite H1]. lia.
    + simpl in Hok. subst g. rewrite bool_decide_eq_true_2 in Hs by done. done.
    + simpl in Hok. rewrite bool_decide_eq_false_2 in Hs by lia. injection Hs as <- <-.
      eapply phase_A_worker; try done; unfold w_at1; rewrite ?Hpc; by simpl.
    + simpl in Hs. injection Hs as <- <-.
      eapply phase_A_worker; try done; unfold w_at1; rewrite ?Hpc; by simpl.
  - assert (w_okB k (running (shared st)) (master_tsf (shared st)) (pc wk)) as Hok
      by (by eapply Forall_lookup_1 in H5).
    pose proof (λ m Hm, correct_step _ _ _ _ _ _ m Hm Hs) as Hcs.
    unfold worker_step in Hs. destruct (pc wk) eqn:Hpc; try done.
    + simpl in Hok. subst g. rewrite bool_decide_eq_false_2 in Hs by lia. injection Hs as <- <-.
      eapply phase_B_worker; try done; unfold w_at2; rewrite ?Hpc; by simpl.
    + injection Hs as <- <-. eapply phase_B_worker; try done; unfold w_at2; rewrite ?Hpc; simpl;
        by destruct (running (shared st)).
    + injection Hs as <- <-. eapply phase_B_worker; try done; unfold w_at2; rewrite ?Hpc; by simpl.
    + destruct (Hcs m eq_refl) as [[w ->] [Hp|Hp]];
        (eapply phase_B_worker; try done; unfold w_at2; rewrite ?Hpc, ?Hp; by simpl).
    + unfold arrive in Hs. destruct (Nat.ltb_spec (S (count (barrier2 (shared st))))
        (length (workers st) + 1)) as [Hlt|Hge]; injection Hs as <- <-.
      * eapply phase_B_worker; try done; simpl; try done.
        unfold w_at2. rewrite Hpc. simpl. rewrite H2. bdec. lia.
      * eapply phase_B_last; try done; [|by rewrite H2]. lia.
    + simpl in Hok. rewrite bool_decide_eq_true_2 in Hs by lia. done.
    + simpl in Hs. injection Hs as <- <-.
      eapply phase_B_worker; try done; unfold w_at2; rewrite ?Hpc; by simpl.
Qed.

Lemma sampler_rest_pc nap period_ns interval warn (s s' : Sampler F) (w w' : W) es :
  sampler_rest nap period_ns interval warn s w = (Done (s', es), w') -> spc_of s' = S_test.
Proof.
  unfold sampler_rest. m_unfold. intros H. repeat case_match; by simplify_eq.
Qed.

Lemma phase_sampler_step nap master period_ns interval warn (st : Par W F) e sh' s' :
  phase st ->
  sampler_step nap master period_ns interval warn (length (workers st)) e (shared st) (sampler st)
    = Some (sh', s') ->
  phase {| shared := sh'; workers := workers st; sampler := s' |}.
Proof.
  intros [k H1 H2 H3 H4 H5 H6|k H1 H2 H3 H4 H5 H6] Hs.
  - unfold sampler_step in Hs. destruct (spc_of (sampler st)) eqn:Hpc; try done;
      cbn [s_at1] in H4; simpl in H4; simpl in H6.
    1: destruct (running (shared st)) eqn:Hr; injection Hs as <- <-;
         (apply phase_A with k; simpl; rewrite ?Hr; done).
    1: repeat case_match; try discriminate; injection Hs as <- <-; (apply phase_A with k; simpl; done).
    1: injection Hs as <- <-; (apply phase_A with k; simpl; done).
    1, 5: unfold arrive in Hs; destruct (Nat.ltb_spec (S (count (barrier1 (shared st))))
        (length (workers st) + 1)) as [Hlt|Hge]; injection Hs as <- <-;
      [apply phase_A with k; simpl; rewrite ?H1; unfold s_at1; simpl;
         bdec; simpl; try done; lia
      |apply phase_B with k; simpl; try done; try lia;
        [rewrite cnt_none; [done|]|]; apply (all_wait_1 st k); try lia; intros c Hc; rewrite ?Hc;
        try done; unfold w_at2; rewrite Hc; by apply bool_decide_eq_false_2].
    + subst g. rewrite bool_decide_eq_true_2 in Hs by done. done.
    + rewrite bool_decide_eq_false_2 in Hs by lia. injection Hs as <- <-.
      apply phase_A with k; simpl; done.
    + repeat case_match; try discriminate; injection Hs as <- <-; apply phase_A with k; simpl; try done;
        erewrite sampler_rest_pc; done.
    + destruct H6 as [-> H6]. rewrite bool_decide_eq_true_2 in Hs by done. done.
  - unfold sampler_step in Hs. destruct (spc_of (sampler st)) eqn:Hpc; try done;
      cbn [s_at2] in H4; simpl in H4; simpl in H6.
    + rewrite bool_decide_eq_false_2 in Hs by lia. injection Hs as <- <-.
      apply phase_B with k; simpl; done.
    + unfold arrive in Hs. destruct (Nat.ltb_spec (S (count (barrier2 (shared st))))
        (length (workers st) + 1)) as [Hlt|Hge]; injection Hs as <- <-.
      * apply phase_B with k; simpl; rewrite ?H2; unfold s_at2; bdec; simpl; try done. lia.
      * apply phase_A with (S k); simpl; try done; try lia.
        -- rewrite cnt_none; [done|]. apply (all_wait_2 st k); [lia|]. intros c Hc.
           unfold w_at1. rewrite Hc. by apply bool_decide_eq_false_2.
        -- apply (all_wait_2 st k); [lia|]. by intros c ->.
    + rewrite bool_decide_eq_true_2 in Hs by lia. done.
    + destruct H6 as [-> H6]. rewrite bool_decide_eq_false_2 in Hs by lia. injection Hs as <- <-.
      apply phase_B with k; simpl; done.
    + destruct e; [|done]. injection Hs as <- <-. apply phase_B with k; simpl; done.
Qed.

Variables (nap : nat) (master : TsfFile) (period_ns interval warn : Z).

Lemma step_workers n a (st st' : Par W F) :
  step nap master period_ns interval warn n a st = Some st' ->
  length (workers st') = length (workers st).
Proof.
  destruct a as [| |i]; simpl.
  - by intros [= <-].
  - destruct (sampler_step _ _ _ _ _ _ _ _ _) as [[sh s]|]; simpl; [by intros [= <-]|done].
  - destruct (workers st !! i) as [wk|]; simpl; [|done].
    destruct (worker_step _ _ _ _) as [[sh wk']|]; simpl; [|done]. intros [= <-]. simpl.
    by rewrite length_insert.
Qed.

Lemma phase_step a (st st' : Par W F) :
  phase st -> step nap master period_ns interval warn (length (workers st)) a st = Some st' -> phase st'.
Proof.
  intros Hp. destruct a as [| |i]; simpl.
  - intros [= <-]. by apply phase_signal.
  - destruct (sampler_step _ _ _ _ _ _ _ _ _) as [[sh s]|] eqn:Hs; simpl; [|done].
    intros [= <-]. by eapply phase_sampler_step.
  - destruct (workers st !! i) as [wk|] eqn:Hi; simpl; [|done].
    destruct (worker_step _ _ _ _) as [[sh wk']|] eqn:Hs; simpl; [|done].
    intros [= <-]. by eapply phase_worker_step.
Qed.

(** The states the program can be in, from any state satisfying the invariant. *)
Lemma phase_reachable n (st st' : Par W F) :
  length (workers st) = n -> phase st ->
  rtc (pstep nap master period_ns interval warn n) st st' ->
  length (workers st') = n /\ phase st'.
Proof.
  intros Hl Hp Hr. induction Hr as [st|st st1 st' [a Ha] _ IH]; [done|].
  apply IH; [by rewrite (step_workers _ _ _ _ Ha)|].
  subst n. by eapply phase_step.
Qed.

(** No barrier ever holds as many waiting threads as it was made for. *)
Definition counts_ok (st : Par W F) : Prop :=
  (count (barrier1 (shared st)) <= length (workers st))%nat
  /\ (count (barrier2 (shared st)) <= length (workers st))%nat.

Lemma arrive_count n b : (count b <= n -> count (arrive (n + 1) b).1 <= n)%nat.
Proof. unfold arrive. destruct (Nat.ltb_spec (S (count b)) (n + 1)); simpl; lia. Qed.

Lemma worker_step_counts n i sh sh' (wk wk' : Worker F) :
  worker_step n i (sh : Shared W F) wk = Some (sh', wk') ->
  (barrier1 sh' = barrier1 sh \/ barrier1 sh' = (arrive (n + 1) (barrier1 sh)).1)
  /\ (barrier2 sh' = barrier2 sh \/ barrier2 sh' = (arrive (n + 1) (barrier2 sh)).1).
Proof.
  intros Hs. destruct (pc wk) eqn:Hpc;
    try (destruct (correct_step _ _ _ _ _ _ m Hpc Hs) as [[w ->] _]; by eauto);
    unfold worker_step in Hs; rewrite Hpc in Hs.
  1, 4, 5: injection Hs as <- <-; by eauto.
  1, 3: destruct (arrive _ _) as [b r]; injection Hs as <- <-; simpl; by eauto.
  1, 2: case_bool_decide; [done|]; injection Hs as <- <-; by eauto.
  all: try done.
  simpl in Hs. injection Hs as <- <-. by eauto.
Qed.

Lemma sampler_step_counts n e sh sh' (s s' : Sampler F) :
  sampler_step nap master period_ns interval warn n e (sh : Shared W F) s = Some (sh', s') ->
  (barrier1 sh' = barrier1 sh \/ barrier1 sh' = (arrive (n + 1) (barrier1 sh)).1)
  /\ (barrier2 sh' = barrier2 sh \/ barrier2 sh' = (arrive (n + 1) (barrier2 sh)).1).
Proof.
  unfold sampler_step. destruct (spc_of s).
  1, 3: intros [= <- <-]; by eauto.
  1: destruct (read_tsf _ _) as [[[v|err]| |] w]; intros [= <- <-]; by eauto.
  1, 3, 6: destruct (arrive _ _) as [b r]; intros [= <- <-]; simpl; by eauto.
  1, 2, 4: case_bool_decide; [done|]; intros [= <- <-]; by eauto.
  - destruct (sampler_rest _ _ _ _ _ _) as [[[s0 es]| |] w]; intros [= <- <-]; by eauto.
  - destruct e; [|done]. intros [= <- <-]. by eauto.
  - done.
  - done.
Qed.

Lemma counts_step n a (st st' : Par W F) :
  length (workers st) = n -> counts_ok st ->
  step nap master period_ns interval warn n a st = Some st' -> counts_ok st'.
Proof.
  intros Hn [H1 H2] Hs. pose proof (step_workers _ _ _ _ Hs) as Hl.
  unfold counts_ok. rewrite Hl, Hn in *.
  pose proof (arrive_count n _ H1). pose proof (arrive_count n _ H2).
  destruct a as [| |i]; simpl in Hs.
  - by injection Hs as <-.
  - destruct (sampler_step _ _ _ _ _ _ _ _ _) as [[sh s]|] eqn:E; simpl in Hs; [|done].
    injection Hs as <-. simpl. destruct (sampler_step_counts _ _ _ _ _ _ E) as [[-> | ->] [-> | ->]]; done.
  - destruct (workers st !! i) as [wk|] eqn:Hi; simpl in Hs; [|done].
    destruct (worker_step _ _ _ _) as [[sh wk']|] eqn:E; simpl in Hs; [|done].
    injection Hs as <-. simpl. destruct (worker_step_counts _ _ _ _ _ _ E) as [[-> | ->] [-> | ->]]; done.
Qed.

Lemma counts_reachable n (st st' : Par W F) :
  length (workers st) = n -> counts_ok st ->
  rtc (pstep nap master period_ns interval warn n) st st' -> counts_ok st'.
Proof.
  intros Hl Hp Hr. induction Hr as [st|st st1 st' [a Ha] _ IH]; [done|].
  apply IH; [by rewrite (step_workers _ _ _ _ Ha)|]. by eapply counts_step.
Qed.

(** Once the sampler has left its loop, no worker is at work, nor has one
    panicked. *)
Definition closing (s : spc) : bool :=
  match s with S_final | S_final_wait _ | S_join | S_done => true | _ => false end.
Definition idle (p : wpc) : bool :=
  match p with W_load | W_correct _ | W_b2 | W_panicked => false | _ => true end.
Definition closing_ok (st : Par W F) : Prop :=
  closing (spc_of (sampler st)) = true ->
  running (shared st) = false /\ Forall (λ wk, idle (pc wk) = true) (workers st).

Lemma worker_step_idle n i sh sh' (wk wk' : Worker F) :
  worker_step n i (sh : Shared W F) wk = Some (sh', wk') ->
  running sh' = running sh /\ master_tsf sh' = master_tsf sh
  /\ (running sh = false -> idle (pc wk) = true -> idle (pc wk') = true).
Proof.
  intros Hs. destruct (pc wk) eqn:Hpc;
    try (destruct (correct_step _ _ _ _ _ _ m Hpc Hs) as [[w ->] _]; by split_and!);
    unfold worker_step in Hs; rewrite Hpc in Hs; try done.
  1, 4, 5: injection Hs as <- <-; split_and!; try done; by intros ->.
  1, 3: destruct (arrive _ _) as [b [g|]]; injection Hs as <- <-; by split_and!.
  1, 2: case_bool_decide; [done|]; injection Hs as <- <-; by split_and!.
  simpl in Hs. injection Hs as <- <-. by split_and!.
Qed.

Lemma sampler_step_closing n e sh sh' (s s' : Sampler F) :
  sampler_step nap master period_ns interval warn n e (sh : Shared W F) s = Some (sh', s') ->
  running sh' = running sh
  /\ (closing (spc_of s') = true ->
        closing (spc_of s) = true \/ (spc_of s = S_test /\ running sh = false)).
Proof.
  unfold sampler_step. destruct (spc_of s) eqn:Hpc; try done.
  1: destruct (running sh) eqn:Hr; intros [= <- <-]; by eauto.
  1: destruct (read_tsf _ _) as [[[v|err]| |] w]; intros [= <- <-]; by split.
  1: intros [= <- <-]; by split.
  1, 3, 6: destruct (arrive _ _) as [b [g|]]; intros [= <- <-]; split; try done; by left.
  1, 2, 4: case_bool_decide; [done|]; intros [= <- <-]; split; try done; by left.
  - destruct (sampler_rest _ _ _ _ _ _) as [[[s0 es]| |] w] eqn:E; intros [= <- <-];
      split; try done. by rewrite (sampler_rest_pc _ _ _ _ _ _ _ _ _ E).
  - destruct e; [|done]. intros [= <- <-]. split; [done|by left].
Qed.

Lemma phase_A_idle k r (l : list (Worker F)) :
  Forall (λ wk, w_okA k r (pc wk)) l -> Forall (λ wk, idle (pc wk) = true) l.
Proof. intros H. eapply Forall_impl; [exact H|]. intros wk. simpl. by destruct (pc wk). Qed.

Lemma closing_step a (st st' : Par W F) :
  phase st -> closing_ok st ->
  step nap master period_ns interval warn (length (workers st)) a st = Some st' -> closing_ok st'.
Proof.
  intros Hp Hc Hs. unfold closing_ok in *. destruct a as [| |i]; simpl in Hs.
  - injection Hs as <-. simpl. intros Hcl. split; [done|]. by apply Hc.
  - destruct (sampler_step _ _ _ _ _ _ _ _ _) as [[sh s]|] eqn:E; simpl in Hs; [|done].
    injection Hs as <-. simpl. destruct (sampler_step_closing _ _ _ _ _ _ E) as [-> H].
    intros Hcl. destruct (H Hcl) as [Hcl'|[Ht Hr]]; [by apply Hc|]. split; [done|].
    destruct Hp as [k _ _ _ _ H5 _|k _ _ _ _ _ H6]; [by eapply phase_A_idle|].
    by rewrite Ht in H6.
  - destruct (workers st !! i) as [wk|] eqn:Hi; simpl in Hs; [|done].
    destruct (worker_step _ _ _ _) as [[sh wk']|] eqn:E; simpl in Hs; [|done].
    injection Hs as <-. simpl. destruct (worker_step_idle _ _ _ _ _ _ E) as (-> & _ & H).
    intros Hcl. destruct (Hc Hcl) as [Hr Hf]. split; [done|].
    apply Forall_insert; [done|]. apply H; [done|]. by eapply Forall_lookup_1 in Hf.
Qed.

Lemma closing_reachable n (st st' : Par W F) :
  length (workers st) = n -> phase st -> closing_ok st ->
  rtc (pstep nap master period_ns interval warn n) st st' -> closing_ok st'.
Proof.
  intros Hl Hp Hc Hr. induction Hr as [st|st st1 st' [a Ha] _ IH]; [done|].
  pose proof (step_workers _ _ _ _ Ha) as Hl'. subst n. rewrite <- Hl' in IH.
  apply IH; [done|by eapply phase_step|by eapply closing_step].
Qed.

Lemma init_workers fs cs d w :
  length fs = length cs -> length (workers (par_init (F := F) fs cs d w : Par W F)) = length fs.
Proof. intros Hl. simpl. rewrite length_zip_with. lia. Qed.

Lemma sampler_rest_fuel (s : Sampler F) (w : W) :
  (forall d w, (sleep_until nap d w).1 = Done tt) ->
  (sampler_rest nap period_ns interval warn s w).1 <> OutOfFuel.
Proof.
  intros Hsl. unfold sampler_rest. m_unfold.
  destruct (u64_op _ _) as [c| |] eqn:E; [|done|unfold u64_op in E; by repeat case_match].
  cbv beta iota. destruct (check_stats _ _ _ _ _) as [st es].
  pose proof (advance_deadline_fuel (sdeadline s) period_ns) as Hd.
  destruct (advance_deadline _ _) as [d| |]; [|done|done]. cbv beta iota.
  specialize (Hsl d w). destruct (sleep_until nap d w) as [o w']. simpl in Hsl. by subst o.
Qed.

(** A worker that is neither blocked nor ended can step. *)
Lemma worker_can_step n i (sh : Shared W F) (wk : Worker F) :
  (forall g, pc wk = W_b1_wait g -> generation (barrier1 sh) <> g) ->
  (forall g, pc wk = W_b2_wait g -> generation (barrier2 sh) <> g) ->
  ended wk = false -> exists r, worker_step n i sh wk = Some r.
Proof.
  intros H1 H2 He. unfold ended in He. unfold worker_step. destruct (pc wk) eqn:Hpc; try done; try by eauto.
  1, 4: destruct (arrive _ _); by eauto.
  1, 3: rewrite bool_decide_eq_false_2 by eauto; by eauto.
  destruct (correct_follower _ _ _ _) as [[[r c]| |] w]; [|by eauto..].
  destruct (match r with Some (step, err) => _ | None => _ end); by eauto.
Qed.

Lemma sampler_can_step n e (sh : Shared W F) (s : Sampler F) :
  (spc_of s = S_stats -> (sampler_rest nap period_ns interval warn s (world sh)).1 <> OutOfFuel) ->
  (forall g, spc_of s = S_b1_wait g \/ spc_of s = S_final_wait g -> generation (barrier1 sh) <> g) ->
  (forall g, spc_of s = S_b2_wait g -> generation (barrier2 sh) <> g) ->
  (spc_of s = S_join -> e = true) -> spc_of s <> S_done -> spc_of s <> S_panicked ->
  exists r, sampler_step nap master period_ns interval warn n e sh s = Some r.
Proof.
  intros Hsl H1 H2 Hj Hd Hp. unfold sampler_step. destruct (spc_of s) eqn:Hpc; try done; try by eauto.
  - destruct (read_tsf _ _) as [[[v|err]| |] w]; by eauto.
  - destruct (arrive _ _); by eauto.
  - rewrite bool_decide_eq_false_2 by eauto. by eauto.
  - destruct (arrive _ _); by eauto.
  - rewrite bool_decide_eq_false_2 by eauto. by eauto.
  - specialize (Hsl eq_refl).
    destruct (sampler_rest _ _ _ _ _ _) as [[[s' es]| |] w]; by eauto.
  - destruct (arrive _ _); by eauto.
  - rewrite bool_decide_eq_false_2 by eauto. by eauto.
  - rewrite Hj by done. by eauto.
Qed.
(** While the flag is set some thread can step. *)
Lemma running_can_step n (st : Par W F) :
  length (workers st) = n -> phase st -> counts_ok st -> running (shared st) = true ->
  (spc_of (sampler st) = S_stats ->
     (sampler_rest nap period_ns interval warn (sampler st) (world (shared st))).1 <> OutOfFuel) ->
  Forall (λ wk, pc wk <> W_panicked) (workers st) -> spc_of (sampler st) <> S_panicked ->
  exists a st', a <> Signal /\ step nap master period_ns interval warn n a st = Some st'.
Proof.
  intros Hl Hph [Hc1 Hc2] Hrun Hsl Hnp Hsp.
  assert (forall i wk, workers st !! i = Some wk -> ended wk = false ->
    (forall g, pc wk = W_b1_wait g -> generation (barrier1 (shared st)) <> g) ->
    (forall g, pc wk = W_b2_wait g -> generation (barrier2 (shared st)) <> g) ->
    exists a st', a <> Signal /\ step nap master period_ns interval warn n a st = Some st') as Hw.
  { intros i wk Hi He H1 H2. exists (TheWorker i).
    destruct (worker_can_step n i (shared st) wk H1 H2 He) as [[sh wk'] E].
    eexists. split; [done|]. simpl. rewrite Hi. simpl. by rewrite E. }
  assert ((forall g, spc_of (sampler st) = S_b1_wait g \/ spc_of (sampler st) = S_final_wait g ->
             generation (barrier1 (shared st)) <> g) ->
    (forall g, spc_of (sampler st) = S_b2_wait g -> generation (barrier2 (shared st)) <> g) ->
    spc_of (sampler st) <> S_join -> spc_of (sampler st) <> S_done ->
    exists a st', a <> Signal /\ step nap master period_ns interval warn n a st = Some st') as Hs.
  { intros H1 H2 Hj Hd. exists TheSampler.
    destruct (sampler_can_step n
                (forallb ended (workers st)) (shared st) (sampler st)) as [[sh s] E]; try done.
    eexists. split; [done|]. simpl. by rewrite E. }
  destruct Hph as [k H1 H2 H3 H4 H5 H6|k H1 H2 H3 H4 H5 H6].
  - destruct (all_or_one (w_at1 k) (workers st)) as [Hcnt|(i & wk & Hi & Hwk)].
    + assert (s_at1 k (spc_of (sampler st)) = false) as Hs1 by (destruct (s_at1 _ _); [lia|done]).
      apply orb_false_iff in Hs1 as [Hs1 Hs2]. apply bool_decide_eq_false_1 in Hs1, Hs2.
      apply Hs; try (intros E; by rewrite E in H6).
      * intros g [E|E] Hg; congruence.
      * intros g E. rewrite E in H6. simpl in H6. lia.
    + pose proof (Forall_lookup_1 _ _ _ _ H5 Hi) as Hok. cbv beta in Hok. rewrite Hrun in Hok.
      apply bool_decide_eq_false_1 in Hwk. apply (Hw i wk Hi).
      * unfold ended. by destruct (pc wk).
      * intros g E. rewrite E in Hok. simpl in Hok. by subst g.
      * intros g E. rewrite E in Hok. simpl in Hok. lia.
  - destruct (all_or_one (w_at2 k) (workers st)) as [Hcnt|(i & wk & Hi & Hwk)].
    + assert (s_at2 k (spc_of (sampler st)) = false) as Hs1 by (destruct (s_at2 _ _); [lia|done]).
      apply bool_decide_eq_false_1 in Hs1.
      apply Hs; try (intros E; rewrite E in H6; simpl in H6; congruence).
      * intros g [E|E]; rewrite E in H6; simpl in H6; lia.
      * intros g E Hg. congruence.
    + pose proof (Forall_lookup_1 _ _ _ _ H5 Hi) as Hok. cbv beta in Hok. rewrite Hrun in Hok.
      pose proof (Forall_lookup_1 _ _ _ _ Hnp Hi) as Hnpi. cbv beta in Hnpi.
      apply bool_decide_eq_false_1 in Hwk. apply (Hw i wk Hi).
      * unfold ended. by destruct (pc wk).
      * intros g E. rewrite E in Hok. simpl in Hok. lia.
      * intros g E Hg. rewrite E in Hok. simpl in Hok. congruence.
Qed.
End phases.

(** ** Facts: schedules, shutting down, and the sampler's statistics *)

Section runs.
Context {W F : Type} `{HSy : Sys W} `{HF : F64 F} `{HB : Build}.
Variables (nap : nat) (master : TsfFile) (period_ns interval warn : Z) (n : nat).

Lemma schedule_rtc l (st st' : Par W F) :
  schedule nap master period_ns interval warn n l st = Some st' ->
  rtc (pstep nap master period_ns interval warn n) st st'.
Proof.
  revert st. induction l as [|a l IH]; intros st; simpl; [by intros [= ->]|].
  destruct (step nap master period_ns interval warn n a st) as [st1|] eqn:E; simpl; [|done].
  intros H. eapply rtc_l; [by exists a|]. by apply IH.
Qed.

Definition leaving (p : wpc) : bool :=
  match p with W_check | W_print | W_done => true | _ => false end.

(** The states after a shutdown asked for while the sampler slept, every worker
    having passed its test: first the threads come to the first barrier, then
    they are let go. *)
Inductive draining (st : Par W F) : Prop :=
  | draining_wait k :
      running (shared st) = false -> generation (barrier1 (shared st)) = k ->
      spc_of (sampler st) = S_test \/ spc_of (sampler st) = S_final \/ spc_of (sampler st) = S_final_wait k ->
      count (barrier1 (shared st))
        = (cnt (w_at1 k) (workers st) + (if s_at1 k (spc_of (sampler st)) then 1 else 0))%nat ->
      (count (barrier1 (shared st)) <= length (workers st))%nat ->
      Forall (λ wk, pc wk = W_b1 \/ pc wk = W_b1_wait k) (workers st) ->
      draining st
  | draining_go :
      running (shared st) = false ->
      spc_of (sampler st) = S_join
      \/ (exists g, spc_of (sampler st) = S_final_wait g /\ g <> generation (barrier1 (shared st)))
      \/ (spc_of (sampler st) = S_done /\ Forall (λ wk, pc wk = W_done) (workers st)) ->
      Forall (λ wk, (exists g, pc wk = W_b1_wait g /\ g <> generation (barrier1 (shared st)))
                    \/ leaving (pc wk) = true) (workers st) ->
      draining st.

Definition w_weight (p : wpc) : nat :=
  match p with W_b1 => 4 | W_b1_wait _ => 3 | W_check => 2 | W_print => 1 | _ => 0 end.
Definition s_weight (p : spc) : nat :=
  match p with S_test => 4 | S_final => 3 | S_final_wait _ => 2 | S_join => 1 | _ => 0 end.
Definition weight (st : Par W F) : nat :=
  s_weight (spc_of (sampler st)) + sum_list_with (λ wk, w_weight (pc wk)) (workers st).

Lemma sum_insert (l : list (Worker F)) i wk wk' :
  l !! i = Some wk -> (w_weight (pc wk') < w_weight (pc wk))%nat ->
  (sum_list_with (λ wk, w_weight (pc wk)) (<[i := wk']> l) < sum_list_with (λ wk, w_weight (pc wk)) l)%nat.
Proof.
  revert i. induction l as [|x l IH]; intros [|i] Hi Hw; simplify_eq/=; [lia|].
  specialize (IH i Hi Hw). lia.
Qed.

Lemma s_at1_final k : s_at1 k S_test = false /\ s_at1 k S_final = false /\ s_at1 k (S_final_wait k) = true.
Proof. unfold s_at1. by bdec. Qed.

Lemma draining_sampler (st : Par W F) sh s :
  draining st ->
  sampler_step nap master period_ns interval warn (length (workers st)) (forallb ended (workers st))
    (shared st) (sampler st) = Some (sh, s) ->
  draining {| shared := sh; workers := workers st; sampler := s |}
  /\ (s_weight (spc_of s) < s_weight (spc_of (sampler st)))%nat.
Proof.
  intros Hd E. unfold sampler_step in E.
  destruct Hd as [k Hr Hg [Hp|[Hp|Hp]] Hc Hle Hf|Hr [Hp|[(g & Hp & Hn)|[Hp _]]] Hf]; rewrite Hp in E |- *.
  - rewrite Hr in E. injection E as <- <-. split; [|simpl; lia].
    apply draining_wait with k; simpl; try done; [by auto|]. by rewrite Hp in Hc.
  - rewrite Hp, (proj1 (proj2 (s_at1_final k))) in Hc. unfold arrive in E.
    destruct (Nat.ltb_spec (S (count (barrier1 (shared st)))) (length (workers st) + 1)) as [Hlt|Hge];
      injection E as <- <-; (split; [|simpl; lia]).
    + apply draining_wait with k; simpl; rewrite ?Hg; try done; [by auto| |lia].
      rewrite (proj2 (proj2 (s_at1_final k))). lia.
    + apply draining_go; simpl; [done|by left|]. apply (all_wait_1 st k); [lia|].
      intros c Hpc. left. exists k. split; [done|lia].
  - rewrite Hg, bool_decide_eq_true_2 in E by done. done.
  - destruct (forallb ended (workers st)) eqn:He; [|done]. injection E as <- <-.
    split; [|simpl; lia]. apply draining_go; simpl; [done|right; right; split; [done|]|done].
    rewrite forallb_forall in He. rewrite Forall_forall in Hf |- *. intros wk Hin.
    specialize (He wk (proj1 (list_elem_of_In _ _) Hin)). specialize (Hf wk Hin).
    unfold ended in He. destruct (pc wk); try done; by destruct Hf as [(g & ? & _)|Hf].
  - rewrite bool_decide_eq_false_2 in E by congruence. injection E as <- <-. split; [|simpl; lia].
    apply draining_go; simpl; auto.
  - done.
Qed.

(** A worker on its way out. *)
Lemma leaving_step m i (sh sh' : Shared W F) wk wk' :
  running sh = false ->
  (exists g, pc wk = W_b1_wait g /\ g <> generation (barrier1 sh)) \/ leaving (pc wk) = true ->
  worker_step m i sh wk = Some (sh', wk') ->
  running sh' = running sh /\ barrier1 sh' = barrier1 sh /\ leaving (pc wk') = true
  /\ (w_weight (pc wk') < w_weight (pc wk))%nat.
Proof.
  unfold worker_step. intros Hr Hwk E. rewrite Hr in E. destruct (pc wk) eqn:Hpc; try (by destruct Hwk as [(? & ? & _)|?]).
  - destruct Hwk as [(g' & Hg & Hne)|?]; [|done]. injection Hg as ->.
    rewrite bool_decide_eq_false_2 in E by congruence. injection E as <- <-. simpl. split_and!; done || lia.
  - injection E as <- <-. simpl. split_and!; done || lia.
  - simpl in E. injection E as <- <-. simpl. split_and!; done || lia.
Qed.

(** A worker that comes to the first barrier: if it is the last, the others
    are all there. *)
Lemma draining_arrives (st : Par W F) k i wk sh' wk' :
  running (shared st) = false -> generation (barrier1 (shared st)) = k ->
  spc_of (sampler st) = S_test \/ spc_of (sampler st) = S_final \/ spc_of (sampler st) = S_final_wait k ->
  count (barrier1 (shared st))
    = (cnt (w_at1 k) (workers st) + (if s_at1 k (spc_of (sampler st)) then 1 else 0))%nat ->
  Forall (λ wk, pc wk = W_b1 \/ pc wk = W_b1_wait k) (workers st) ->
  workers st !! i = Some wk -> pc wk = W_b1 ->
  worker_step (length (workers st)) i (shared st) wk = Some (sh', wk') ->
  draining {| shared := sh'; workers := <[i := wk']> (workers st); sampler := sampler st |}
  /\ (w_weight (pc wk') < w_weight (pc wk))%nat.
Proof.
  intros Hr Hg Hp Hc Hf Hi Hpc E. unfold worker_step in E. rewrite Hpc in E |- *. unfold arrive in E.
  assert (w_at1 k wk = false) as Hw by (unfold w_at1; rewrite Hpc; by apply bool_decide_eq_false_2).
  destruct (Nat.ltb_spec (S (count (barrier1 (shared st)))) (length (workers st) + 1)) as [Hlt|Hge];
    injection E as <- <-; (split; [|simpl; lia]).
  - assert (w_at1 k (at_pc (W_b1_wait k) wk) = true) as Hw' by (by apply bool_decide_eq_true_2).
    pose proof (cnt_insert (w_at1 k) _ _ _ (at_pc (W_b1_wait k) wk) Hi) as Hci. rewrite Hw, Hw' in Hci.
    apply draining_wait with k; simpl; rewrite ?Hg, ?length_insert; try done; [lia|lia|].
    apply Forall_insert; [done|by right].
  - destruct (full_but_one (w_at1 k) (workers st) i wk (at_pc (W_b1_wait k) wk) (s_at1 k (spc_of (sampler st))))
      as [Hn Hs]; [done|done|by apply bool_decide_eq_true_2|lia|].
    apply draining_go; simpl; [done| |].
    + right. left. exists k. split; [|lia]. destruct Hp as [E|[E|E]]; [by rewrite E in Hs..|done].
    + apply (Forall_replace (w_at1 k) _ _ _ wk); try done; [|by right].
      intros c Hcw. apply bool_decide_eq_true_1 in Hcw. left. exists k. split; [done|lia].
Qed.

Lemma draining_step a (st st' : Par W F) :
  n = length (workers st) -> draining st -> step nap master period_ns interval warn n a st = Some st' ->
  draining st' /\ (if decide (a = Signal) then st' = st else (weight st' < weight st)%nat).
Proof.
  intros -> Hd Hs. destruct a as [| |i]; simpl in Hs.
  - injection Hs as <-. rewrite decide_True by done.
    assert ({| shared := stop (shared st); workers := workers st; sampler := sampler st |} = st) as ->;
      [|done].
    destruct st as [[]]; destruct Hd as [k Hr _ _ _ _ _|Hr _ _]; simpl in *; by subst.
  - rewrite decide_False by done. unfold weight.
    destruct (sampler_step _ _ _ _ _ _ _ _ _) as [[sh s]|] eqn:E; simpl in Hs; [|done].
    injection Hs as <-. destruct (draining_sampler st sh s Hd E) as [? ?]. split; [done|simpl; lia].
  - rewrite decide_False by done. unfold weight.
    destruct (workers st !! i) as [wk|] eqn:Hi; simpl in Hs; [|done].
    destruct (worker_step _ _ _ _) as [[sh wk']|] eqn:E; simpl in Hs; [|done].
    injection Hs as <-. simpl.
    assert (draining {| shared := sh; workers := <[i := wk']> (workers st); sampler := sampler st |}
      /\ (w_weight (pc wk') < w_weight (pc wk))%nat) as [? Hw];
      [|split; [done|]; pose proof (sum_insert _ _ _ wk' Hi Hw); lia].
    destruct Hd as [k Hr Hg Hp Hc Hle Hf|Hr Hp Hf]; pose proof (Forall_lookup_1 _ _ _ _ Hf Hi) as Hwk; simpl in Hwk.
    + destruct Hwk as [Hpc|Hpc]; [by apply (draining_arrives st k i wk)|].
      unfold worker_step in E. rewrite Hpc, Hg, bool_decide_eq_true_2 in E by done. done.
    + destruct (leaving_step _ i (shared st) sh wk wk' Hr Hwk E) as (Hr' & Hb & Hin & Hw). split; [|done].
      apply draining_go; simpl; rewrite ?Hb; [by rewrite Hr'| |apply Forall_insert; [done|by right]].
      destruct Hp as [Hp|[Hp|[Hp Hdone]]]; [by auto|by auto|]. exfalso.
      assert (pc wk = W_done) as Hpc by (by eapply Forall_lookup_1 in Hdone).
      unfold worker_step in E. by rewrite Hpc in E.
Qed.

(** A worker that has not ended and waits for nothing can go on. *)
Lemma worker_goes (st : Par W F) i wk :
  workers st !! i = Some wk -> ended wk = false ->
  (forall g, pc wk = W_b1_wait g -> g <> generation (barrier1 (shared st))) -> (forall g, pc wk <> W_b2_wait g) ->
  exists a st', a <> Signal /\ step nap master period_ns interval warn (length (workers st)) a st = Some st'.
Proof.
  intros Hi He H1 H2. destruct (worker_can_step (length (workers st)) i (shared st) wk) as [[sh wk'] E].
  - intros g Hg. by apply not_eq_sym, H1.
  - intros g Hg. by destruct (H2 g).
  - done.
  - exists (TheWorker i). simpl. rewrite Hi. simpl. rewrite E. simpl. by eauto.
Qed.

Lemma draining_progress (st : Par W F) :
  n = length (workers st) -> draining st ->
  (spc_of (sampler st) = S_done /\ Forall (λ wk, pc wk = W_done) (workers st))
  \/ exists a st', a <> Signal /\ step nap master period_ns interval warn n a st = Some st'.
Proof.
  intros -> [k Hr Hg Hp Hc Hle Hf|Hr Hp Hf].
  - right. destruct Hp as [Hp|[Hp|Hp]].
    1-2: exists TheSampler; simpl; unfold sampler_step, arrive; rewrite Hp; try (destruct (Nat.ltb _ _)); simpl; by eauto.
    destruct (all_or_one (w_at1 k) (workers st)) as [Hall|(i & wk & Hi & Hw)].
    { rewrite Hp, (proj2 (proj2 (s_at1_final k))) in Hc. lia. }
    assert (pc wk = W_b1) as Hpc.
    { destruct (Forall_lookup_1 _ _ _ _ Hf Hi) as [?|Hpc]; [done|]. by apply bool_decide_eq_false in Hw. }
    apply (worker_goes st i wk); [done|unfold ended; by rewrite Hpc|by rewrite Hpc..].
  - destruct Hp as [Hp|[(g & Hp & Hn)|[Hp Hd]]]; [| |by left]; right.
    2:{ exists TheSampler. simpl. unfold sampler_step. rewrite Hp, bool_decide_eq_false_2 by congruence. simpl. by eauto. }
    destruct (forallb ended (workers st)) eqn:He.
    { exists TheSampler. simpl. unfold sampler_step. rewrite Hp, He. simpl. by eauto. }
    apply not_true_iff_false in He. rewrite forallb_forall in He.
    destruct (decide (Forall (λ wk, ended wk = true) (workers st))) as [Hall|Hne].
    { exfalso. apply He. intros wk Hin. rewrite Forall_forall in Hall. by apply Hall, list_elem_of_In. }
    apply not_Forall_Exists in Hne; [|apply _]. apply Exists_exists in Hne as (wk & Hin & Hwk).
    apply list_elem_of_lookup in Hin as [i Hi].
    pose proof (Forall_lookup_1 _ _ _ _ Hf Hi) as Hok. simpl in Hok.
    apply (worker_goes st i wk); [done|by apply not_true_is_false| |].
    + intros g Hg. destruct Hok as [(g' & Hg' & Hn)|Hok]; [congruence|by rewrite Hg in Hok].
    + intros g Hg. destruct Hok as [(g' & Hg' & Hn)|Hok]; [congruence|by rewrite Hg in Hok].
Qed.

(** *** A worker that the shutdown finds before its test

    It leaves without coming to the first barrier, for which the sampler then
    waits for ever. *)
Definition left_out (p : wpc) : bool :=
  match p with W_b2_wait _ | W_test | W_print | W_done => true | _ => false end.

#[local] Instance past_test_dec (p : wpc) : Decision (p = W_b1 \/ exists g, p = W_b1_wait g).
Proof. destruct p; first [left; by left|left; right; by eexists|right; by intros [|[]]]. Defined.

Definition hung (i : nat) (st : Par W F) : Prop :=
  running (shared st) = false
  /\ (spc_of (sampler st) = S_test \/ spc_of (sampler st) = S_final
      \/ spc_of (sampler st) = S_final_wait (generation (barrier1 (shared st))))
  /\ exists wk, workers st !! i = Some wk /\ left_out (pc wk) = true.

Lemma two_missing {A} (p : A -> bool) (l : list A) i j a b c :
  i <> j -> l !! i = Some a -> l !! j = Some b -> p a = false -> p b = false -> p c = true ->
  (cnt p l + 2 <= length l)%nat.
Proof.
  intros Hne Hi Hj Ha Hb Hc. pose proof (cnt_insert p l i a c Hi) as H1.
  pose proof (cnt_insert p (<[i := c]> l) j b c) as H2. rewrite list_lookup_insert_ne in H2 by done. specialize (H2 Hj).
  pose proof (cnt_le p (<[j := c]> (<[i := c]> l))) as H3. rewrite !length_insert in H3. rewrite Ha, Hc in H1.
  rewrite Hb, Hc in H2. lia.
Qed.

Lemma left_out_not_there k (wk : Worker F) : left_out (pc wk) = true -> w_at1 k wk = false.
Proof. intros Hl. apply bool_decide_eq_false. intros E. by rewrite E in Hl. Qed.

(** Neither barrier lets anyone go while [i] stays away. *)
Lemma hung_step i a (st st' : Par W F) :
  n = length (workers st) -> phase st -> hung i st ->
  step nap master period_ns interval warn n a st = Some st' -> hung i st'.
Proof.
  intros -> Hph (Hr & Hp & wk & Hi & Hl) Hs.
  destruct Hph as [k H1 H2 H3 H4 H5 _|k H1 _ _ _ _ H6];
    [|exfalso; destruct Hp as [E|[E|E]]; rewrite E in H6; simpl in H6; destruct H6; lia].
  pose proof (left_out_not_there k wk Hl) as Hw. rewrite H1 in Hp.
  destruct a as [| |j]; simpl in Hs.
  - injection Hs as <-. split; [done|]. split; [by rewrite <- H1 in Hp|by exists wk].
  - destruct (sampler_step _ _ _ _ _ _ _ _ _) as [[sh s]|] eqn:E; simpl in Hs; [|done]. injection Hs as <-.
    unfold sampler_step in E. destruct Hp as [Hp|[Hp|Hp]]; rewrite Hp in E.
    + rewrite Hr in E. injection E as <- <-. split; [done|]. split; [by right; left|by exists wk].
    + rewrite Hp, (proj1 (proj2 (s_at1_final k))) in H4. pose proof (cnt_insert (w_at1 k) _ _ _ (at_pc (W_b1_wait k) wk) Hi) as Hci.
      pose proof (cnt_le (w_at1 k) (<[i := at_pc (W_b1_wait k) wk]> (workers st))) as Hle. rewrite length_insert in Hle.
      assert (w_at1 k (at_pc (W_b1_wait k) wk) = true) as Hw' by (by apply bool_decide_eq_true_2). rewrite Hw, Hw' in Hci.
      unfold arrive in E. rewrite (proj2 (Nat.ltb_lt _ _)) in E by lia. injection E as <- <-.
      split; [done|]. split; [by right; right|by exists wk].
    + rewrite H1, bool_decide_eq_true_2 in E by done. done.
  - destruct (workers st !! j) as [wj|] eqn:Hj; simpl in Hs; [|done].
    destruct (worker_step _ _ _ _) as [[sh wj']|] eqn:E; simpl in Hs; [|done]. injection Hs as <-.
    assert (running sh = false /\ generation (barrier1 sh) = k /\ (left_out (pc wj) = true -> left_out (pc wj') = true))
      as (Hr' & Hg' & Hl').
    { pose proof (Forall_lookup_1 _ _ _ _ H5 Hj) as Hok. unfold worker_step in E. rewrite Hr in Hok, E.
      destruct (pc wj) eqn:Hpc; try done; [by injection E as <- <-|..].
      - assert (i <> j) as Hne by (intros ->; rewrite Hi in Hj; injection Hj as ->; by rewrite Hpc in Hl).
        assert (w_at1 k wj = false) as Hwj by (apply bool_decide_eq_false; by rewrite Hpc).
        pose proof (two_missing (w_at1 k) (workers st) i j wk wj (at_pc (W_b1_wait k) wk) Hne Hi Hj Hw Hwj
          (bool_decide_eq_true_2 _ eq_refl)) as H2m.
        unfold arrive in E. rewrite (proj2 (Nat.ltb_lt _ _)) in E by (destruct (s_at1 _ _); lia). by injection E as <- <-.
      - simpl in Hok. subst g. by rewrite H1, bool_decide_eq_true_2 in E by done.
      - simpl in Hok. rewrite bool_decide_eq_false_2 in E by lia. by injection E as <- <-.
      - simpl in E. by injection E as <- <-. }
    split; [done|]. cbn [shared sampler workers]. rewrite Hg'. split; [done|].
    destruct (decide (i = j)) as [<-|Hne].
    + exists wj'. rewrite list_lookup_insert_eq by (by eapply lookup_lt_Some). split; [done|].
      apply Hl'. rewrite Hi in Hj. by injection Hj as ->.
    + exists wk. by rewrite list_lookup_insert_ne.
Qed.

(** What reaches the log in parallel mode. *)
Definition expected (ev : log_event F) : Prop :=
  match ev with
  | MasterReadFailed _ => True
  | Reported (StatsLine label _ _ _ _ _) => exists i, label = lit "follower-" ++ dec (Z.of_nat i)
  | _ => False
  end.
Definition silent (st : Par W F) : Prop :=
  sampler_stats (sampler st) = stats_new /\ Forall expected (out (shared st)).

Lemma check_stats_empty cycle :
  f_lt (f_of_Z warn) (f_of_Z 0 : F) = false ->
  check_stats (stats_new : WelfordStats F) cycle interval warn (lit "sync") = (stats_new, []).
Proof.
  intros Hw. unfold check_stats. destruct (_ && _); [|done]. simpl. unfold rms. simpl.
  by rewrite Hw, andb_false_r.
Qed.

Lemma sampler_rest_silent (s s' : Sampler F) (w w' : W) es :
  f_lt (f_of_Z warn) (f_of_Z 0 : F) = false -> sampler_stats s = stats_new ->
  sampler_rest nap period_ns interval warn s w = (Done (s', es), w') ->
  sampler_stats s' = stats_new /\ es = [].
Proof.
  intros Hw Hs. unfold sampler_rest. m_unfold. rewrite Hs.
  destruct (u64_op _ _) as [c| |]; [|done|done]. cbv beta iota.
  rewrite check_stats_empty by done. intros H. repeat case_match; by simplify_eq.
Qed.

Lemma silent_step a (st st' : Par W F) :
  f_lt (f_of_Z warn) (f_of_Z 0 : F) = false -> silent st ->
  step nap master period_ns interval warn n a st = Some st' -> silent st'.
Proof.
  intros Hw [Hs Ho] H. destruct a as [| |i]; simpl in H.
  - by injection H as <-.
  - destruct (sampler_step _ _ _ _ _ _ _ _ _) as [[sh s]|] eqn:E; simpl in H; [|done].
    injection H as <-. unfold silent. simpl.
    assert (sampler_stats s = stats_new /\ exists es, out sh = out (shared st) ++ es /\ Forall expected es)
      as (? & es & -> & ?); [|by rewrite Forall_app].
    assert (forall sh' s', out sh' = out (shared st) -> sampler_stats s' = sampler_stats (sampler st) ->
      Some (sh', s') = Some (sh, s) ->
      sampler_stats s = stats_new /\ exists es, out sh = out (shared st) ++ es /\ Forall expected es) as Hd.
    { intros sh' s' H1 H2 [= <- <-]. split; [congruence|]. exists []. by rewrite app_nil_r. }
    unfold sampler_step in E. destruct (spc_of (sampler st)); try done;
      try (eapply Hd; [| |exact E]; done); try (case_bool_decide; [done|]; eapply Hd; [| |exact E]; done);
      try (destruct (arrive _ _); eapply Hd; [| |exact E]; done).
    + destruct (read_tsf _ _) as [[[v|err]| |] w]; try (eapply Hd; [| |exact E]; done).
      injection E as <- <-. split; [done|]. exists [MasterReadFailed err]. split; [done|]. by repeat constructor.
    + destruct (sampler_rest _ _ _ _ _ _) as [[[s' es]| |] w] eqn:Er; try done;
        [|eapply Hd; [| |exact E]; done].
      injection E as <- <-. apply sampler_rest_silent in Er as [Hs' ->]; [|done|done].
      split; [done|]. exists []. split; [done|constructor].
    + destruct (forallb _ _); [|done]. eapply Hd; [| |exact E]; done.
  - destruct (workers st !! i) as [wk|] eqn:Hi; simpl in H; [|done].
    destruct (worker_step _ _ _ _) as [[sh wk']|] eqn:E; simpl in H; [|done].
    injection H as <-. unfold silent. simpl. split; [done|].
    assert (forall sh' wk1, out sh' = out (shared st) -> Some (sh', wk1) = Some (sh, wk') ->
      Forall expected (out sh)) as Hd by (by intros sh' wk1 -> [= <- <-] || (intros sh' wk1 H1 [= <- <-]; by rewrite H1)).
    destruct (pc wk) eqn:Hpc;
      try (destruct (correct_step _ _ _ _ _ _ m Hpc E) as [[w ->] _]; done);
      unfold worker_step in E; rewrite Hpc in E; try done;
      try (eapply Hd; [|exact E]; done); try (case_bool_decide; [done|]; eapply Hd; [|exact E]; done);
      try (destruct (arrive _ _); eapply Hd; [|exact E]; done).
    simpl in E. injection E as <- <-. simpl. apply Forall_app. split; [done|].
    destruct (0 <? Stats.n _); simpl; [|constructor]. constructor; [|constructor]. by exists i.
Qed.
End runs.

(** ** Properties *)

Section parallel_properties.
Context {W F : Type} `{HSy : Sys W} `{HF : F64 F} `{HB : Build}.
Variables (nap : nat) (master : TsfFile) (period_ns interval warn : Z).
Variables (fs : list TsfFile) (cs : list (Controller F)) (d : timespec) (w0 : W).
Hypothesis Hlen : length fs = length cs.

(** The states [run_parallel] can reach. *)
Definition reachable (st : Par W F) : Prop :=
  rtc (pstep nap master period_ns interval warn (length fs)) (par_init fs cs d w0) st.

Lemma reachable_inv st :
  reachable st -> length (workers st) = length fs /\ phase st /\ counts_ok st /\ closing_ok st.
Proof using Hlen.
  intros Hr. pose proof (init_workers fs cs d w0 Hlen) as Hl.
  destruct (phase_reachable nap master period_ns interval warn (length fs) _ _ Hl (phase_init _ _ _ _) Hr).
  split_and!; try done.
  - eapply counts_reachable; [exact Hl| |exact Hr]. split; simpl; lia.
  - eapply closing_reachable; [exact Hl|apply phase_init| |exact Hr]. intros Hc. done.
Qed.

(** C5: whatever the interleaving, the value a worker corrects towards is the
    one the sampler last published, and while any worker is between the two
    barriers the sampler neither reads the master nor publishes. *)
Theorem workers_use_published_value (st : Par W F) (i : nat) (wk : Worker F) :
  reachable st -> workers st !! i = Some wk ->
  (forall m, pc wk = W_correct m -> m = master_tsf (shared st))
  /\ (pc wk ∈ [W_check; W_load; W_b2] \/ (exists m, pc wk = W_correct m) ->
      spc_of (sampler st) <> S_read /\ forall v, spc_of (sampler st) <> S_store v).
Proof using Hlen.
  intros Hr Hi. destruct (reachable_inv st Hr) as (_ & [k _ _ _ _ H5 H6|k _ _ _ _ H5 H6] & _).
  - assert (w_okA k (running (shared st)) (pc wk)) as Hok by (by eapply Forall_lookup_1 in H5).
    split; [by intros m Hm; rewrite Hm in Hok|].
    intros [Hin|[m Hm]]; [|by rewrite Hm in Hok].
    rewrite !elem_of_cons in Hin. destruct Hin as [Hp|[Hp|[Hp|Hin]]]; try (by rewrite Hp in Hok).
    by apply elem_of_nil in Hin.
  - assert (w_okB k (running (shared st)) (master_tsf (shared st)) (pc wk)) as Hok
      by (by eapply Forall_lookup_1 in H5).
    split; [by intros m Hm; rewrite Hm in Hok|]. intros _.
    split; [|intros v]; intros E; by rewrite E in H6.
Qed.

(** Until the flag is cleared the threads cannot deadlock: as long as no
    thread has panicked and sleeps end, some thread can take a step. *)
Theorem no_deadlock_while_running (st : Par W F) :
  reachable st -> running (shared st) = true ->
  (forall d w, (sleep_until nap d w).1 = Done tt) ->
  Forall (λ wk, pc wk <> W_panicked) (workers st) -> spc_of (sampler st) <> S_panicked ->
  exists a st', a <> Signal /\ step nap master period_ns interval warn (length fs) a st = Some st'.
Proof using Hlen.
  intros Hr Hrun Hsl Hnp Hsp. destruct (reachable_inv st Hr) as (Hl & Hph & Hc & _).
  apply running_can_step; try done. intros _. by apply sampler_rest_fuel.
Qed.

(** Once a worker has panicked, [run_parallel] never returns: the worker
    will not arrive at the second barrier, and clearing the flag does not
    help. *)
Theorem worker_panic_never_returns (st st' : Par W F) (i : nat) (wk : Worker F) :
  reachable st -> workers st !! i = Some wk -> pc wk = W_panicked ->
  rtc (pstep nap master period_ns interval warn (length fs)) st st' ->
  spc_of (sampler st') <> S_join /\ spc_of (sampler st') <> S_done.
Proof using Hlen.
  intros Hr Hi Hp Hrun.
  assert (exists wk', workers st' !! i = Some wk' /\ pc wk' = W_panicked) as (wk' & Hi' & Hp').
  { clear Hr. revert wk Hi Hp. induction Hrun as [st|st st1 st' [a Ha] _ IH]; intros wk Hi Hp; [by eauto|].
    destruct a as [| |j]; simpl in Ha.
    - injection Ha as <-. by eapply IH.
    - destruct (sampler_step _ _ _ _ _ _ _ _ _) as [[sh s]|]; simpl in Ha; [|done].
      injection Ha as <-. by eapply IH.
    - destruct (workers st !! j) as [wj|] eqn:Hj; simpl in Ha; [|done].
      destruct (worker_step _ _ _ _) as [[sh wj']|] eqn:E; simpl in Ha; [|done].
      injection Ha as <-. destruct (decide (j = i)) as [->|Hne].
      + rewrite Hi in Hj. injection Hj as <-. unfold worker_step in E. by rewrite Hp in E.
      + eapply IH; [|exact Hp]. simpl. by rewrite list_lookup_insert_ne. }
  assert (reachable st') as Hr' by (unfold reachable in *; by etrans).
  destruct (reachable_inv st' Hr') as (_ & _ & _ & Hcl).
  split; intros E; destruct Hcl as [_ Hf]; try (by rewrite E);
    (assert (idle (pc wk') = true) by (by eapply Forall_lookup_1 in Hf)); by rewrite Hp' in *.
Qed.

(** C14: a shutdown whose signal has come by the time the sampler, back from its
    sleep, tests the flag.  If by then every worker has passed its own test, the
    shutdown works in every interleaving: every step brings the end nearer, and
    until [run_parallel] has joined every worker some thread can take one.  If a
    worker has not, as one that had not yet been woken from the second barrier,
    it leaves without coming to the first one, and in no interleaving does the
    sampler ever get to join the workers. *)
Theorem graceful_shutdown (st st' : Par W F) :
  reachable st -> running (shared st) = false -> spc_of (sampler st) = S_test ->
  rtc (pstep nap master period_ns interval warn (length fs)) st st' ->
  (Forall (λ wk, pc wk = W_b1 \/ exists g, pc wk = W_b1_wait g) (workers st) ->
     (forall a st'', a <> Signal -> step nap master period_ns interval warn (length fs) a st' = Some st'' ->
        (weight st'' < weight st')%nat)
     /\ ((spc_of (sampler st') = S_done /\ Forall (λ wk, pc wk = W_done) (workers st'))
         \/ exists a st'', a <> Signal
              /\ step nap master period_ns interval warn (length fs) a st' = Some st''))
  /\ (~ Forall (λ wk, pc wk = W_b1 \/ exists g, pc wk = W_b1_wait g) (workers st) ->
     spc_of (sampler st') <> S_join /\ spc_of (sampler st') <> S_done).
Proof using Hlen.
  intros Hr Hrun Hs Hsteps. destruct (reachable_inv st Hr) as (Hl & Hph & Hco & _).
  assert (phase st) as Hph0 by done.
  destruct Hph as [k H1 H2 H3 H4 H5 _|k _ _ _ _ _ H6]; [|by rewrite Hs in H6]. split; intros Hw.
  - assert (draining st) as Hd.
    { apply draining_wait with k; try done; [by left|by destruct Hco|].
      rewrite Forall_forall in Hw, H5 |- *. intros wk Hin. destruct (Hw wk Hin) as [?|[g Hg]]; [by left|right].
      specialize (H5 wk Hin). rewrite Hg in H5 |- *. simpl in H5. congruence. }
    assert (length (workers st') = length fs /\ draining st') as [Hl' Hd'].
    { clear -Hd Hsteps Hl. induction Hsteps as [st|st st1 st' [a Ha] _ IH]; [done|].
      apply IH; [by rewrite (step_workers _ _ _ _ _ _ _ _ _ Ha)|].
      by destruct (draining_step _ _ _ _ _ _ _ _ _ (eq_sym Hl) Hd Ha). }
    split.
    + intros a st'' Hne Ha. destruct (draining_step _ _ _ _ _ _ _ _ _ (eq_sym Hl') Hd' Ha) as [_ H].
      by rewrite decide_False in H.
    + by apply draining_progress.
  - assert (exists i, hung i st) as [i Hh].
    { apply not_Forall_Exists in Hw; [|intros wk; apply past_test_dec].
      apply Exists_exists in Hw as (wk & Hin & Hwk). apply list_elem_of_lookup in Hin as [i Hi]. exists i.
      split; [done|]. split; [by left|]. exists wk. split; [done|].
      pose proof (Forall_lookup_1 _ _ _ _ H5 Hi) as Hok. simpl in Hok. cbv [compose] in Hwk. destruct (pc wk); try done; destruct Hwk; [by left|by right; eexists]. }
    assert (hung i st') as (_ & Hp & _); [|by destruct Hp as [E|[E|E]]; rewrite E].
    clear -Hh Hsteps Hl Hph0. induction Hsteps as [st|st st1 st' [a Ha] _ IH]; [done|].
    apply IH; [by rewrite (step_workers _ _ _ _ _ _ _ _ _ Ha)|rewrite <- Hl in Ha; by eapply phase_step|].
    by eapply hung_step.
Qed.

(** The statistics and the RMS warning never appear in parallel mode: the
    sampler's accumulator, the only one checked every [stats_interval], is
    never updated.  All that is reported while the threads run is failed
    master reads; each worker's statistics appear once, at its end. *)
Theorem parallel_never_reports (st : Par W F) :
  f_lt (f_of_Z warn) (f_of_Z 0 : F) = false -> reachable st ->
  sampler_stats (sampler st) = stats_new /\ Forall expected (out (shared st)).
Proof using Type.
  intros Hw Hr. assert (silent (par_init (W := W) fs cs d w0)) as H0 by (split; simpl; [done|constructor]).
  unfold reachable in Hr. revert H0. generalize (par_init (W := W) fs cs d w0), Hr. clear Hr.
  intros st0 Hr. induction Hr as [st|st st1 st' [a Ha] _ IH]; intros H0; [done|].
  apply IH. by eapply silent_step.
Qed.
End parallel_properties.

Section one_follower.
Context {W F : Type} `{HSy : Sys W} `{HF : F64 F} `{HB : Build}.
Variables (nap : nat) (master f : TsfFile) (period_ns interval warn : Z) (c : Controller F) (d : timespec).

(** One step of a run, by the given actor. *)
Ltac go Hr a :=
  eapply rtc_l; [exists a; cbn; unfold sampler_step, worker_step; cbn; rewrite ?Hr; reflexivity|].

Notation steps := (rtc (pstep nap master period_ns interval warn 1)).

(** C13: a shutdown requested between the two barriers can deadlock, with any
    master that can be read: the worker sees the cleared flag and leaves, and
    the sampler waits for it at the second barrier for ever. *)
Theorem shutdown_deadlock (w w1 : W) (r : result Z io_error) :
  read_tsf master w = (Done r, w1) ->
  exists st, steps (par_init [f] [c] d w) st
    /\ running (shared st) = false /\ spc_of (sampler st) = S_b2_wait 0
    /\ map pc (workers st) = [W_done]
    /\ forall st', pstep nap master period_ns interval warn 1 st st' -> st' = st.
Proof using Type.
  intros Hr. destruct r as [v|e]; eexists; (split; [do 2 go Hr TheSampler|]).
  1: go Hr TheSampler.
  1, 3: go Hr TheSampler; do 2 go Hr (TheWorker 0); go Hr Signal; do 2 go Hr (TheWorker 0);
        do 2 go Hr TheSampler; apply rtc_refl.
  all: split_and!; [done..|]; intros st' [[| |[|i]] Ha]; cbn in Ha; simplify_eq; done.
Qed.

(** When the sampler's first read fails, the worker is let go all the same
    and corrects its follower towards zero, the value the shared variable was
    made with; [run_single] skips such a pass. *)
Theorem failed_read_corrects_to_zero (w w1 : W) (e : io_error) :
  read_tsf master w = (Done (Err e), w1) ->
  exists st, steps (par_init [f] [c] d w) st
    /\ map pc (workers st) = [W_correct 0] /\ world (shared st) = w1
    /\ out (shared st) = [MasterReadFailed e].
Proof using Type.
  intros Hr. eexists. split.
  - do 3 go Hr TheSampler. do 4 go Hr (TheWorker 0). apply rtc_refl.
  - done.
Qed.
End one_follower.

(** ** Witnesses *)

Lemma sim_sleeps d w : (@sleep_until Sim _ release_x86 1 d w).1 = Done tt.
Proof.
  destruct (sys_clock_nanosleep (tv_sec d, tv_nsec d) (w : Sim)) as [r w'] eqn:E.
  rewrite (@sleep_until_x86 Sim _ release_x86 0 d w r w'); [done|done| |done].
  simpl in E. unfold sim_nanosleep in E. injection E as <- _.
  destruct (naps w) as [|z l]; [lia|].
  destruct (Z.leb_spec (-4095) z), (Z.ltb_spec z 0); simpl; lia.
Qed.

Definition ctl (max : Z) : Controller spec_float := controller_new 1000000 max false.
Definition demo (max : Z) : Par Sim spec_float :=
  par_init [file 4; file 5] [ctl max; ctl max] {| tv_sec := 0; tv_nsec := 5000000 |} two_followers.
Definition demo_run (max : Z) (l : list actor) : Par Sim spec_float :=
  default (demo max) (@schedule Sim spec_float _ _ release_x86 1 (file 3) 10000000 0 50 (length [file 4; file 5]) l (demo max)).

Lemma demo_reachable max l :
  is_Some (@schedule Sim spec_float _ _ release_x86 1 (file 3) 10000000 0 50 (length [file 4; file 5]) l (demo max)) ->
  @reachable Sim spec_float _ _ release_x86 1 (file 3) 10000000 0 50 [file 4; file 5]
    [ctl max; ctl max] {| tv_sec := 0; tv_nsec := 5000000 |} two_followers (demo_run max l).
Proof.
  intros [st Hst]. unfold demo_run. rewrite Hst. simpl. unfold reachable. by eapply schedule_rtc.
Qed.

(** Up to the point at which worker 1 has the value and worker 0 has not. *)
Definition to_correct : list actor :=
  [TheSampler; TheSampler; TheSampler; TheSampler; TheWorker 0; TheWorker 0; TheWorker 1; TheWorker 1;
   TheWorker 1; TheWorker 1; TheSampler].

Lemma workers_use_published_value_witness :
  (pc <$> workers (demo_run 200 to_correct)) = [W_b1_wait 0; W_correct 1005000]
  /\ (forall m, W_correct 1005000 = W_correct m -> m = master_tsf (shared (demo_run 200 to_correct))).
Proof.
  split; [vm_compute; reflexivity|].
  assert (exists wk, workers (demo_run 200 to_correct) !! 1%nat = Some wk /\ pc wk = W_correct 1005000)
    as (wk & Hi & Hp) by (vm_compute; eexists; split; reflexivity).
  pose proof (@workers_use_published_value Sim spec_float _ _ release_x86 1 (file 3) 10000000 0 50
    [file 4; file 5] [ctl 200; ctl 200] {| tv_sec := 0; tv_nsec := 5000000 |} two_followers
    eq_refl (demo_run 200 to_correct) 1 wk) as H.
  destruct H as [H _]; [apply demo_reachable; vm_compute; eexists; reflexivity|exact Hi|].
  intros m Hm. apply H. rewrite Hp. exact Hm.
Defined.

Lemma no_deadlock_while_running_witness :
  exists a st', a <> Signal
    /\ @step Sim spec_float _ _ release_x86 1 (file 3) 10000000 0 50 (length [file 4; file 5]) a (demo_run 200 to_correct) = Some st'.
Proof.
  apply (@no_deadlock_while_running Sim spec_float _ _ release_x86 1 (file 3) 10000000 0 50
    [file 4; file 5] [ctl 200; ctl 200] {| tv_sec := 0; tv_nsec := 5000000 |} two_followers eq_refl
    (demo_run 200 to_correct)).
  - apply demo_reachable. vm_compute. eexists. reflexivity.
  - vm_compute. reflexivity.
  - apply sim_sleeps.
  - assert (map pc (workers (demo_run 200 to_correct)) = [W_b1_wait 0; W_correct 1005000]) as Hp
      by (vm_compute; reflexivity).
    apply Forall_forall. intros wk Hin Hpk.
    apply list_elem_of_In, (in_map pc) in Hin. rewrite Hp, Hpk in Hin.
    destruct Hin as [Hin|[Hin|[]]]; discriminate.
  - vm_compute. discriminate.
Defined.

(** A negative bound makes [clamp] panic. *)
Lemma worker_panic_never_returns_witness :
  (pc <$> workers (demo_run (-1) (to_correct ++ [TheWorker 1]))) = [W_b1_wait 0; W_panicked]
  /\ spc_of (sampler (demo_run (-1) (to_correct ++ [TheWorker 1; Signal]))) <> S_done.
Proof.
  split; [vm_compute; reflexivity|].
  assert (exists wk, workers (demo_run (-1) (to_correct ++ [TheWorker 1])) !! 1%nat = Some wk
    /\ pc wk = W_panicked) as (wk & Hi & Hp) by (vm_compute; eexists; split; reflexivity).
  apply (@worker_panic_never_returns Sim spec_float _ _ release_x86 1 (file 3) 10000000 0 50
    [file 4; file 5] [ctl (-1); ctl (-1)] {| tv_sec := 0; tv_nsec := 5000000 |} two_followers eq_refl
    (demo_run (-1) (to_correct ++ [TheWorker 1]))
    (demo_run (-1) (to_correct ++ [TheWorker 1; Signal])) 1 wk).
  - apply demo_reachable. vm_compute. eexists. reflexivity.
  - exact Hi.
  - exact Hp.
  - eapply rtc_l; [|apply rtc_refl]. exists Signal. vm_compute. reflexivity.
Defined.

(** One whole pass; then the flag is cleared while both workers wait. *)
Definition one_pass : list actor :=
  to_correct ++ [TheWorker 0; TheWorker 0; TheWorker 0; TheWorker 1; TheWorker 0; TheWorker 1; TheSampler;
   TheWorker 0; TheWorker 1; TheWorker 0; TheWorker 0; TheWorker 1; TheWorker 1].

(** The flag is cleared while both workers wait for the next value, ... *)
Definition in_time : list actor := one_pass ++ [Signal; TheSampler; TheSampler].
(** ... or while the sampler sleeps and the second worker has not been woken. *)
Definition too_early : list actor :=
  to_correct ++ [TheWorker 0; TheWorker 0; TheWorker 0; TheWorker 1; TheWorker 0; TheWorker 1; TheSampler;
   TheWorker 0; TheSampler; TheSampler; Signal].
Definition too_late : list actor :=
  too_early ++ [TheWorker 1; TheWorker 1; TheWorker 0; TheSampler; TheSampler; TheWorker 0; TheWorker 1].

Lemma graceful_shutdown_witness :
  (spc_of (sampler (demo_run 200 in_time)) = S_test
   /\ forall a st'', a <> Signal ->
       @step Sim spec_float _ _ release_x86 1 (file 3) 10000000 0 50 (length [file 4; file 5]) a
         (demo_run 200 in_time) = Some st'' -> (weight st'' < weight (demo_run 200 in_time))%nat)
  /\ map pc (workers (demo_run 200 too_early)) = [W_test; W_b2_wait 0]
  /\ map pc (workers (demo_run 200 too_late)) = [W_done; W_done]
  /\ spc_of (sampler (demo_run 200 too_late)) <> S_done.
Proof.
  pose proof (@graceful_shutdown Sim spec_float _ _ release_x86 1 (file 3) 10000000 0 50
    [file 4; file 5] [ctl 200; ctl 200] {| tv_sec := 0; tv_nsec := 5000000 |} two_followers eq_refl) as H.
  split; [split; [vm_compute; reflexivity|]|split; [vm_compute; reflexivity|split; [vm_compute; reflexivity|]]].
  - apply (H (demo_run 200 in_time) (demo_run 200 in_time)).
    + apply demo_reachable. vm_compute. eexists. reflexivity.
    + vm_compute. reflexivity.
    + vm_compute. reflexivity.
    + apply rtc_refl.
    + assert (map pc (workers (demo_run 200 in_time)) = [W_b1_wait 1; W_b1_wait 1]) as Hp by (vm_compute; reflexivity).
      apply Forall_forall. intros wk Hin. right. exists 1%nat.
      apply list_elem_of_In, (in_map pc) in Hin. rewrite Hp in Hin.
      destruct Hin as [Hin|[Hin|[]]]; symmetry; exact Hin.
  - apply (H (demo_run 200 too_early) (demo_run 200 too_late)).
    + apply demo_reachable. vm_compute. eexists. reflexivity.
    + vm_compute. reflexivity.
    + vm_compute. reflexivity.
    + apply (schedule_rtc 1 (file 3) 10000000 0 50 (length [file 4; file 5])
        [TheWorker 1; TheWorker 1; TheWorker 0; TheSampler; TheSampler; TheWorker 0; TheWorker 1]).
      vm_compute. reflexivity.
    + intros Hf. assert (map pc (workers (demo_run 200 too_early)) = [W_test; W_b2_wait 0]) as Hp by (vm_compute; reflexivity).
      assert (exists wk, workers (demo_run 200 too_early) !! 1%nat = Some wk /\ pc wk = W_b2_wait 0) as (wk & Hi & Hpc)
        by (vm_compute; eexists; split; reflexivity).
      destruct (Forall_lookup_1 _ _ _ _ Hf Hi) as [E|[g E]]; rewrite Hpc in E; discriminate.
Defined.

Lemma parallel_never_reports_witness :
  sampler_stats (sampler (demo_run 200 (one_pass ++ [TheSampler; TheSampler]))) = stats_new.
Proof.
  apply (@parallel_never_reports Sim spec_float _ _ release_x86 1 (file 3) 10000000 0 50
    [file 4; file 5] [ctl 200; ctl 200] {| tv_sec := 0; tv_nsec := 5000000 |} two_followers
    (demo_run 200 (one_pass ++ [TheSampler; TheSampler]))).
  - vm_compute. reflexivity.
  - apply demo_reachable. vm_compute. eexists. reflexivity.
Defined.

Lemma shutdown_deadlock_witness :
  exists st : Par Sim spec_float, spc_of (sampler st) = S_b2_wait 0 /\ map pc (workers st) = [W_done].
Proof.
  destruct (@shutdown_deadlock Sim spec_float _ _ release_x86 1 (file 3) (file 4) 10000000 0 50 (ctl 200)
    {| tv_sec := 0; tv_nsec := 5000000 |} two_followers (tick two_followers) (Ok 1005000))
    as (st & _ & _ & Hs & Hw & _); [vm_compute; reflexivity|].
  exists st. split; [exact Hs|exact Hw].
Defined.

Lemma failed_read_corrects_to_zero_witness :
  exists st : Par Sim spec_float, map pc (workers st) = [W_correct 0]
    /\ out (shared st) = [MasterReadFailed (OsError 5)].
Proof.
  destruct (@failed_read_corrects_to_zero Sim spec_float _ _ release_x86 1 (file 3) (file 4) 10000000 0 50
    (ctl 200) {| tv_sec := 0; tv_nsec := 5000000 |} (failing [-5]) (tick (failing [-5])) (OsError 5))
    as (st & _ & Hw & _ & Ho); [vm_compute; reflexivity|].
  exists st. split; [exact Hw|exact Ho].
Defined.
