(* ===== verification/ParallelSync.v ===== *)
(** * Convergence of the parallel loop (src/bin/tsf_sync_debugfs/threading.rs)

    [Parallel]'s threads on a steady machine: in every interleaving each pass
    through the barriers brings every follower closer to the master, and while
    the flag is set passes keep being made.  There are no definitions of the
    program here; the facts are about those of [Parallel]. *)

From Stdlib Require Import SpecFloat.
From stdpp Require Import list gmap.
From S2P Require Import Prelude Ints Text Hex Sys Sim Debugfs Floats Control Stats Rt Threading Parallel.

(** ** The invariant *)

Section converge.
Context {W F : Type} `{HSy : Sys W} `{HTs : !TsfFiles W} `{HSt : !Steady W} `{HF : F64 F} `{HB : Build}.
Variables (fds : list Z) (lat l max b : Z).
Variables (nap : nat) (master : TsfFile) (period_ns interval warn : Z).
Variable n : nat.                     (* the number of followers *)

Implicit Types (wk : Worker F) (st : Par W F) (sh : Shared W F).

Definition the_lag (w : W) wk : Z := lag w (fd master) (fd (follower wk)).

(** What [K] completed passes have made of a follower. *)
Definition close (K : nat) (w : W) wk : Prop := within (b - Z.of_nat K * (max - l)) l (the_lag w wk).

(** A worker that has made its correction of pass [K] and not left it. *)
Definition corrected (K : nat) wk : bool :=
  match pc wk with W_b2 => true | W_b2_wait g => bool_decide (g = K) | _ => false end.

(** [v] is a value the master had a short time ago, [c] corrections having
    been made since. *)
Definition fresh (v : Z) (w : W) (c : nat) : Prop :=
  exists tm, v = as_u64 (base w (fd master) + tm) /\ tm <= clk w /\ clk w - tm <= (1 + 2 * Z.of_nat c) * lat.

Definition passes_done st : nat := generation (barrier2 (shared st)).

(** Between reading the master and the second barrier the value is fresh. *)
Definition sampled st : Prop :=
  let c := cnt (corrected (passes_done st)) (workers st) in
  match spc_of (sampler st) with
  | S_store v => fresh v (world (shared st)) c
  | S_b1 | S_b1_wait _ | S_b2 => fresh (master_tsf (shared st)) (world (shared st)) c
  | S_b2_wait g => g = passes_done st -> fresh (master_tsf (shared st)) (world (shared st)) c
  | _ => True
  end.

Definition can_use (f : TsfFile) : Prop := fd f ∈ fds /\ pread_ok f = true.

Record converging st : Prop := {
  c_phase : phase st;
  c_closing : closing_ok st;
  c_counts : counts_ok st;
  c_len : length (workers st) = n;
  c_steady : steady fds lat (world (shared st));
  c_distinct : NoDup (fd master :: (fd ∘ follower <$> workers st));
  c_usable : Forall (λ wk, can_use (follower wk) /\ plain max (controller wk)) (workers st);
  c_close : Forall (close (passes_done st) (world (shared st))) (workers st);
  c_corrected : Forall (λ wk, corrected (passes_done st) wk = true ->
                          close (S (passes_done st)) (world (shared st)) wk) (workers st);
  c_sampled : sampled st;
  c_alive : Forall (λ wk, pc wk <> W_panicked) (workers st) /\ spc_of (sampler st) <> S_panicked;
}.

Hypothesis release : overflow_checks = false.
Hypothesis Hmax : in_i64 max /\ l < max.
Hypothesis Hl : l = (1 + 2 * Z.of_nat n) * lat.
Hypothesis Hrange : l + Z.max l b <= 9223372036854.
Hypothesis Hmaster : can_use master.

Lemma lat_nonneg w : steady fds lat w -> 0 <= lat.
Proof.
  intros Hs. destruct (read_tsf_steady master fds lat w Hs) as (? & ? & _ & ? & ? & _); [apply Hmaster..|]. lia.
Qed.

Lemma close_S K w wk : close (S K) w wk -> close K w wk.
Proof. unfold close, within. lia. Qed.

Lemma the_lag_same w w' wk : base w' = base w -> the_lag w' wk = the_lag w wk.
Proof. intros E. unfold the_lag, lag. by rewrite E. Qed.

Lemma close_same K w w' wk : base w' = base w -> close K w wk -> close K w' wk.
Proof. intros E. unfold close. by rewrite (the_lag_same w w'). Qed.

Lemma fresh_same v w c c' : fresh v w c -> (c <= c')%nat -> 0 <= lat -> fresh v w c'.
Proof. intros (tm & ? & ? & ?) Hc Hlat. exists tm. split_and!; try done. nia. Qed.

(** *** A worker's step *)

(** A step that is not a correction: the world is untouched, and the worker
    either keeps its standing in the pass or, the last to arrive, ends it. *)
Lemma worker_step_quiet k i sh sh' wk wk' :
  worker_step k i sh wk = Some (sh', wk') -> (forall m, pc wk <> W_correct m) ->
  world sh' = world sh /\ master_tsf sh' = master_tsf sh
  /\ follower wk' = follower wk /\ controller wk' = controller wk /\ pc wk' <> W_panicked
  /\ (generation (barrier2 sh') = generation (barrier2 sh)
        /\ corrected (generation (barrier2 sh)) wk' = corrected (generation (barrier2 sh)) wk
      \/ pc wk = W_b2 /\ pc wk' = W_test /\ generation (barrier2 sh') = S (generation (barrier2 sh))
         /\ (k <= count (barrier2 sh))%nat).
Proof.
  intros Hs Hnc. unfold worker_step in Hs. unfold corrected.
  destruct (pc wk) eqn:Hpc; try done.
  - injection Hs as <- <-. split_and!; try done; [by destruct (running sh)|left; by destruct (running sh)].
  - destruct (arrive _ _) as [b' [g|]]; injection Hs as <- <-; split_and!; try done; by left.
  - case_bool_decide; [done|]. injection Hs as <- <-. split_and!; try done; by left.
  - injection Hs as <- <-. split_and!; try done; [by destruct (running sh)|left; by destruct (running sh)].
  - injection Hs as <- <-. split_and!; try done; by left.
  - by destruct (Hnc m).
  - unfold arrive in Hs. destruct (Nat.ltb_spec (S (count (barrier2 sh))) (k + 1)) as [Hlt|Hge];
      injection Hs as <- <-; split_and!; try done; [left; split; [done|]; simpl; by apply bool_decide_eq_true_2|].
    right. split_and!; try done. lia.
  - case_bool_decide as Hg; [done|]. injection Hs as <- <-. split_and!; try done.
    left. split; [done|]. simpl. symmetry. apply bool_decide_eq_false_2. congruence.
  - simpl in Hs. injection Hs as <- <-. split_and!; try done; by left.
Qed.

(** A correction towards a fresh value. *)
Lemma worker_step_correct k i sh sh' wk wk' m c K :
  pc wk = W_correct m -> worker_step k i sh wk = Some (sh', wk') ->
  steady fds lat (world sh) -> can_use (follower wk) -> plain max (controller wk) ->
  fd (follower wk) <> fd master -> fresh m (world sh) c -> (c < n)%nat -> close K (world sh) wk ->
  exists w', sh' = with_world w' sh /\ pc wk' = W_b2 /\ follower wk' = follower wk /\ controller wk' = controller wk
    /\ steady fds lat w' /\ (forall f, f <> fd (follower wk) -> base w' f = base (world sh) f)
    /\ close (S K) w' wk' /\ fresh m w' (S c).
Proof.
  intros Hpc Hs Hst [Hin Hpr] (Hk & Hkp & Hcm) Hne (tm & -> & Htm & Hel) Hc Hcl.
  pose proof (lat_nonneg _ Hst) as Hlat.
  assert (0 <= Z.of_nat K * (max - l)) as HK by nia.
  assert (clk (world sh) - tm + 2 * lat <= l) as Htime by nia.
  destruct (correct_follower_steady (follower wk) (controller wk) fds lat (world sh)
              (as_u64 (base (world sh) (fd master) + tm)) (base (world sh) (fd master)) tm l
              (b - Z.of_nat K * (max - l)))
    as (stp & raw & w' & Hr & Hs' & Hclk & Hoth & Hw); try done; rewrite ?Hcm; try apply Hmax; [lia|].
  unfold worker_step in Hs. rewrite Hpc, Hr in Hs. cbv beta iota in Hs.
  destruct (stats_update_release release (wstats wk) raw stp) as [s' Hst']. rewrite Hst' in Hs. injection Hs as <- <-.
  exists w'. split_and!; try done; cbn [follower].
  - unfold close, the_lag, lag. cbn [follower]. rewrite Hoth by congruence.
    replace (b - Z.of_nat (S K) * (max - l)) with (b - Z.of_nat K * (max - l) - (max - l)) by lia. by rewrite Hcm in Hw.
  - exists tm. rewrite Hoth by congruence. split_and!; try done; nia.
Qed.

(** The last arrival at the second barrier: everybody else is waiting there. *)
Lemma second_barrier_full st i wk :
  phase st -> workers st !! i = Some wk -> pc wk = W_b2 -> (length (workers st) <= count (barrier2 (shared st)))%nat ->
  spc_of (sampler st) = S_b2_wait (passes_done st)
  /\ forall j wk', j <> i -> workers st !! j = Some wk' -> pc wk' = W_b2_wait (passes_done st).
Proof.
  unfold passes_done. intros [k H1 H2 H3 H4 H5 H6|k H1 H2 H3 H4 H5 H6] Hi Hpc Hlen.
  { pose proof (Forall_lookup_1 _ _ _ _ H5 Hi) as Hok. simpl in Hok. by rewrite Hpc in Hok. }
  rewrite H2. assert (w_at2 k wk = false) as Hw by (unfold w_at2; rewrite Hpc; by apply bool_decide_eq_false_2).
  destruct (full_but_one (w_at2 k) _ _ _ (at_pc (W_b2_wait k) wk) _ Hi Hw (bool_decide_eq_true_2 _ eq_refl)
              ltac:(rewrite <- H4; exact Hlen)) as [Hcnt Hs].
  split; [by apply bool_decide_eq_true_1 in Hs|]. intros j wk' Hj Hj'.
  pose proof (Forall_replace (w_at2 k) (λ c, pc c = W_b2_wait k) _ _ _ (at_pc (W_b2_wait k) wk) Hi Hw Hcnt
                (λ c, bool_decide_eq_true_1 _) eq_refl) as Hall.
  eapply (Forall_lookup_1 _ _ j wk' Hall). by rewrite list_lookup_insert_ne.
Qed.

Lemma followers_insert (l0 : list (Worker F)) i wk wk' :
  l0 !! i = Some wk -> follower wk' = follower wk -> fd ∘ follower <$> <[i := wk']> l0 = fd ∘ follower <$> l0.
Proof.
  intros Hi Hf. rewrite list_fmap_insert. apply list_insert_id. rewrite list_lookup_fmap, Hi. simpl. by rewrite Hf.
Qed.

(** The rest of what has to be shown of a worker's step. *)
Lemma converging_insert st i wk sh' wk' :
  converging st -> workers st !! i = Some wk ->
  let st' := {| shared := sh'; workers := <[i := wk']> (workers st); sampler := sampler st |} in
  phase st' -> closing_ok st' -> counts_ok st' ->
  steady fds lat (world sh') -> follower wk' = follower wk -> controller wk' = controller wk -> pc wk' <> W_panicked ->
  Forall (close (generation (barrier2 sh')) (world sh')) (<[i := wk']> (workers st)) ->
  Forall (λ wk, corrected (generation (barrier2 sh')) wk = true ->
            close (S (generation (barrier2 sh'))) (world sh') wk) (<[i := wk']> (workers st)) ->
  sampled st' -> converging st'.
Proof.
  intros [] Hi st' Hp Hc Hn Hst Hf Hctl Hal Hcl Hco Hsa.
  split; try done.
  - simpl. by rewrite length_insert.
  - simpl. by rewrite (followers_insert _ _ _ _ Hi Hf).
  - simpl. apply Forall_insert; [done|]. rewrite Hf, Hctl. by apply (Forall_lookup_1 _ _ _ _ c_usable0 Hi).
  - simpl. split; [|apply c_alive0]. apply Forall_insert; [apply c_alive0|done].
Qed.

Lemma quiet_converging st i wk sh' wk' :
  converging st -> workers st !! i = Some wk -> worker_step n i (shared st) wk = Some (sh', wk') ->
  (forall m, pc wk <> W_correct m) ->
  let st' := {| shared := sh'; workers := <[i := wk']> (workers st); sampler := sampler st |} in
  phase st' -> closing_ok st' -> counts_ok st' -> converging st'.
Proof.
  intros Hcv Hi Hs Hnc st' Hp Hc Hn.
  destruct (worker_step_quiet _ _ _ _ _ _ Hs Hnc) as (Hw & Hm & Hf & Hctl & Hal & Hpass).
  pose proof Hcv as [Hph _ _ Hlen Hst _ Hus Hcl Hco Hsa _].
  pose proof (Forall_lookup_1 _ _ _ _ Hcl Hi) as Hcli.
  assert (forall K, close K (world (shared st)) wk -> close K (world sh') wk') as Hkeep.
  { intros K. unfold close, the_lag. by rewrite Hw, Hf. }
  destruct Hpass as [[Hg Hcor]|(Hpc & Hpc' & Hg & Hfull)].
  - apply (converging_insert st i wk); try done; rewrite ?Hg, ?Hw; try done.
    + apply Forall_insert; [done|]. rewrite <- Hw. by apply Hkeep.
    + apply Forall_insert; [done|]. rewrite Hcor. intros Hcor'. rewrite <- Hw. apply Hkeep. by apply (Forall_lookup_1 _ _ _ _ Hco Hi).
    + unfold sampled, passes_done. cbn [sampler shared workers]. rewrite Hg, Hw, Hm.
      pose proof (cnt_insert (corrected (generation (barrier2 (shared st)))) _ _ _ wk' Hi) as Hcnt.
      rewrite Hcor in Hcnt. replace (cnt _ (<[i:=wk']> _)) with
        (cnt (corrected (generation (barrier2 (shared st)))) (workers st)) by lia. exact Hsa.
  - rewrite <- Hlen in Hfull. destruct (second_barrier_full st i wk Hph Hi Hpc Hfull) as [Hsp Hoth].
    apply (converging_insert st i wk); try done; rewrite ?Hg, ?Hw; try done.
    + apply Forall_lookup_2. intros j c Hj.
      apply list_lookup_insert_Some in Hj as [(-> & <- & _)|[Hji Hj]].
      * rewrite <- Hw. apply Hkeep. apply (Forall_lookup_1 _ _ _ _ Hco Hi). unfold corrected. by rewrite Hpc.
      * apply (Forall_lookup_1 _ _ _ _ Hco Hj). unfold corrected.
        rewrite (Hoth j c) by done. by apply bool_decide_eq_true_2.
    + apply Forall_lookup_2. intros j c Hj. unfold corrected.
      apply list_lookup_insert_Some in Hj as [(-> & <- & _)|[Hji Hj]]; [by rewrite Hpc'|].
      rewrite (Hoth j c) by done. rewrite bool_decide_eq_false_2 by (unfold passes_done; lia). done.
    + unfold sampled, passes_done. cbn [sampler shared]. rewrite Hsp, Hg. unfold passes_done. lia.
Qed.

Lemma distinct_from_master st i wk :
  converging st -> workers st !! i = Some wk -> fd (follower wk) <> fd master.
Proof.
  intros [_ _ _ _ _ [Hnin _]%NoDup_cons _ _ _ _ _] Hi E. apply Hnin. rewrite <- E.
  apply list_elem_of_fmap. exists wk. split; [done|]. by eapply list_elem_of_lookup_2.
Qed.
Lemma distinct_workers st i j wk wk' :
  converging st -> workers st !! i = Some wk -> workers st !! j = Some wk' -> i <> j ->
  fd (follower wk') <> fd (follower wk).
Proof.
  intros [_ _ _ _ _ [_ Hnd]%NoDup_cons _ _ _ _ _] Hi Hj Hne E. apply Hne.
  eapply NoDup_lookup; [exact Hnd|by rewrite list_lookup_fmap, Hi|rewrite list_lookup_fmap, Hj]. simpl. by rewrite E.
Qed.

(** While a worker corrects, the sampler is at the second barrier or on its
    way there, and the value is fresh. *)
Lemma correcting_fresh st i wk m :
  converging st -> workers st !! i = Some wk -> pc wk = W_correct m ->
  m = master_tsf (shared st) /\ (forall v, spc_of (sampler st) <> S_store v)
  /\ fresh m (world (shared st)) (cnt (corrected (passes_done st)) (workers st))
  /\ (cnt (corrected (passes_done st)) (workers st) < n)%nat.
Proof.
  intros [Hph Hcl _ Hlen _ _ _ _ _ Hsa _] Hi Hpc.
  assert (cnt (corrected (passes_done st)) (workers st) < n)%nat as Hlt.
  { pose proof (cnt_insert (corrected (passes_done st)) _ _ _ (at_pc W_b2 wk) Hi) as Hci.
    pose proof (cnt_le (corrected (passes_done st)) (<[i := at_pc W_b2 wk]> (workers st))) as Hle.
    rewrite length_insert, Hlen in Hle. unfold corrected in Hci at 2 4. rewrite Hpc in Hci. simpl in Hci. lia. }
  assert (closing (spc_of (sampler st)) = false) as Hno.
  { destruct (closing (spc_of (sampler st))) eqn:E; [|done]. destruct (Hcl E) as [_ Hidle].
    pose proof (Forall_lookup_1 _ _ _ _ Hidle Hi) as H. simpl in H. by rewrite Hpc in H. }
  destruct Hph as [k H1 H2 H3 H4 H5 H6|k H1 H2 H3 H4 H5 H6].
  - pose proof (Forall_lookup_1 _ _ _ _ H5 Hi) as Hok. simpl in Hok. by rewrite Hpc in Hok.
  - pose proof (Forall_lookup_1 _ _ _ _ H5 Hi) as Hok. simpl in Hok. rewrite Hpc in Hok. simpl in Hok. subst m.
    split; [done|]. split; [by intros v E; rewrite E in H6|]. split; [|done].
    unfold sampled in Hsa. destruct (spc_of (sampler st)) eqn:Hsp; try done. apply Hsa. simpl in H6. unfold passes_done. congruence.
Qed.

Lemma correct_converging st i wk sh' wk' m :
  converging st -> workers st !! i = Some wk -> worker_step n i (shared st) wk = Some (sh', wk') ->
  pc wk = W_correct m ->
  let st' := {| shared := sh'; workers := <[i := wk']> (workers st); sampler := sampler st |} in
  phase st' -> closing_ok st' -> counts_ok st' -> converging st'.
Proof.
  intros Hcv Hi Hs Hpc st' Hp Hc Hn.
  destruct (correcting_fresh st i wk m Hcv Hi Hpc) as (Hm & Hnost & Hfr & Hlt).
  pose proof (distinct_from_master st i wk Hcv Hi) as Hne.
  pose proof Hcv as [Hph _ _ Hlen Hst _ Hus Hcl Hco Hsa _].
  destruct (Forall_lookup_1 _ _ _ _ Hus Hi) as [Hu Hpl].
  destruct (worker_step_correct n i (shared st) sh' wk wk' m _ (passes_done st) Hpc Hs Hst Hu Hpl Hne Hfr Hlt
              (Forall_lookup_1 _ _ _ _ Hcl Hi)) as (w' & -> & Hpc' & Hf & Hctl & Hst' & Hoth & Hcl' & Hfr').
  assert (forall K j c, j <> i -> workers st !! j = Some c -> close K (world (shared st)) c -> close K w' c) as Hkeep.
  { intros K j c Hj Hjc. unfold close, the_lag, lag. rewrite (Hoth (fd master)) by done.
    rewrite Hoth; [done|]. by eapply (distinct_workers st i j). }
  apply (converging_insert st i wk); try done; cbn [with_world barrier2 world].
  - by rewrite Hpc'.
  - apply Forall_lookup_2. intros j c Hj. apply list_lookup_insert_Some in Hj as [(-> & <- & _)|[Hji Hj]].
    + by apply close_S.
    + eapply Hkeep; [done|exact Hj|]. by apply (Forall_lookup_1 _ _ _ _ Hcl Hj).
  - apply Forall_lookup_2. intros j c Hj Hcor. apply list_lookup_insert_Some in Hj as [(-> & <- & _)|[Hji Hj]]; [done|].
    eapply Hkeep; [done|exact Hj|]. by apply (Forall_lookup_1 _ _ _ _ Hco Hj).
  - assert (cnt (corrected (passes_done st)) (<[i := wk']> (workers st))
            = S (cnt (corrected (passes_done st)) (workers st))) as Hcnt.
    { pose proof (cnt_insert (corrected (passes_done st)) _ _ _ wk' Hi) as Hci.
      unfold corrected in Hci at 2 4. rewrite Hpc, Hpc' in Hci. simpl in Hci. lia. }
    unfold sampled, passes_done. cbn [sampler shared with_world barrier2 workers world master_tsf].
    unfold passes_done in Hcnt. rewrite Hcnt. rewrite <- Hm.
    destruct (spc_of (sampler st)) eqn:Hsp; try done. by destruct (Hnost v).
Qed.

(** *** The sampler's step *)

Lemma sampler_rest_steady (s : Sampler F) w :
  steady fds lat w ->
  exists s' es w', sampler_rest (S nap) period_ns interval warn s w = (Done (s', es), w')
    /\ steady fds lat w' /\ base w' = base w.
Proof.
  intros Hs. unfold sampler_rest. m_unfold. unfold u64_op. rewrite release.
  destruct (decide (in_u64 (scycle s + 1))); cbv beta iota;
    (destruct (check_stats _ _ _ _ _) as [st es]; destruct (advance_deadline_release (sdeadline s) period_ns release) as [d ->];
     cbv beta iota; destruct (sys_clock_nanosleep (tv_sec d, tv_nsec d) w) as [r w'] eqn:Hn;
     destruct (steady_sleep _ _ _ _ _ _ Hs Hn) as (-> & _ & Hb & Hs'); rewrite (sleep_until_done _ _ _ _ Hn); by eauto 10).
Qed.

(** What has to be shown of a sampler's step. *)
Lemma converging_replace st sh' (s' : Sampler F) :
  converging st ->
  let st' := {| shared := sh'; workers := workers st; sampler := s' |} in
  phase st' -> closing_ok st' -> counts_ok st' ->
  steady fds lat (world sh') -> base (world sh') = base (world (shared st)) -> spc_of s' <> S_panicked ->
  generation (barrier2 sh') = passes_done st
    \/ generation (barrier2 sh') = S (passes_done st)
       /\ Forall (λ wk, pc wk = W_b2_wait (passes_done st)) (workers st) ->
  sampled st' -> converging st'.
Proof.
  intros [] st' Hp Hc Hn Hst Hb Hal Hg Hsa.
  assert (forall K (P : Worker F -> Prop), Forall (λ wk, P wk -> close K (world (shared st)) wk) (workers st) ->
            Forall (λ wk, P wk -> close K (world sh') wk) (workers st)) as Hkeep.
  { intros K P Hf. eapply Forall_impl; [exact Hf|]. intros wk H HP. eapply close_same; [exact Hb|]. by apply H. }
  destruct Hg as [Hg|[Hg Hw]].
  - split; try done; unfold passes_done; cbn [st' shared workers]; rewrite ?Hg.
    + eapply Forall_impl; [exact c_close0|]. intros wk. by apply close_same.
    + by apply Hkeep.
    + split; [apply c_alive0|done].
  - split; try done; unfold passes_done; cbn [st' shared workers]; rewrite ?Hg.
    + apply Forall_lookup_2. intros j c Hj. eapply close_same; [exact Hb|].
      apply (Forall_lookup_1 _ _ _ _ c_corrected0 Hj). unfold corrected.
      rewrite (Forall_lookup_1 _ _ _ _ Hw Hj). by apply bool_decide_eq_true_2.
    + eapply Forall_impl; [exact Hw|]. intros c Hpc. simpl in Hpc. unfold corrected. rewrite Hpc.
      rewrite bool_decide_eq_false_2 by lia. done.
    + split; [apply c_alive0|done].
Qed.

Lemma phase_B_all_wait st k :
  count (barrier2 (shared st)) = (cnt (w_at2 k) (workers st) + (if s_at2 k (spc_of (sampler st)) then 1 else 0))%nat ->
  spc_of (sampler st) = S_b2 -> (length (workers st) <= count (barrier2 (shared st)))%nat ->
  Forall (λ wk, pc wk = W_b2_wait k) (workers st).
Proof.
  intros H4 Hsp Hlen. rewrite Hsp in H4. unfold s_at2 in H4. rewrite bool_decide_eq_false_2 in H4 by done.
  apply (all_wait_2 st k); [lia|done].
Qed.

Lemma sampler_converging st e sh' s' :
  converging st ->
  sampler_step (S nap) master period_ns interval warn n e (shared st) (sampler st) = Some (sh', s') ->
  let st' := {| shared := sh'; workers := workers st; sampler := s' |} in
  phase st' -> closing_ok st' -> counts_ok st' -> converging st'.
Proof.
  intros Hcv Hs st' Hp Hc Hn. pose proof Hcv as [Hph _ _ Hlen Hst _ _ _ _ Hsa [_ Hal]].
  pose proof (lat_nonneg _ Hst) as Hlat.
  unfold sampler_step in Hs. unfold sampled in Hsa. destruct (spc_of (sampler st)) eqn:Hsp; try done.
  - injection Hs as <- <-. apply converging_replace; try done; [by destruct (running (shared st))|by left|].
    unfold sampled. cbn [sampler spc_of s_at]. by destruct (running (shared st)).
  - destruct (read_tsf_steady master fds lat (world (shared st)) Hst) as (t & w' & Hr & Ht & Hel & Hb & Hst');
      [apply Hmaster..|].
    rewrite Hr in Hs. injection Hs as <- <-. apply converging_replace; try done; [by left|].
    unfold sampled. cbn [sampler spc_of s_at shared with_world world workers]. exists t. rewrite Hb. split_and!; try done; [lia|nia].
  - injection Hs as <- <-. apply converging_replace; try done; by left.
  - unfold arrive in Hs. destruct (_ <? _)%nat; injection Hs as <- <-; (apply converging_replace; try done; by left).
  - case_bool_decide; [done|]. injection Hs as <- <-. apply converging_replace; try done; by left.
  - unfold arrive in Hs. destruct (Nat.ltb_spec (S (count (barrier2 (shared st)))) (n + 1)) as [Hlt|Hge];
      injection Hs as <- <-; (apply converging_replace; try done); [by left|by intros _|].
    right. split; [done|]. destruct Hph as [k H1 H2 H3 H4 H5 H6|k H1 H2 H3 H4 H5 H6]; [by rewrite Hsp in H6|].
    unfold passes_done. rewrite H2. apply (phase_B_all_wait st k); try done. lia.
  - case_bool_decide; [done|]. injection Hs as <- <-. apply converging_replace; try done; by left.
  - destruct (sampler_rest_steady (sampler st) (world (shared st)) Hst) as (s2 & es & w' & Hr & Hst' & Hb).
    rewrite Hr in Hs. injection Hs as <- <-. pose proof (sampler_rest_pc _ _ _ _ _ _ _ _ _ Hr) as Hpc.
    apply converging_replace; try done; [by rewrite Hpc|by left|]. unfold sampled. cbn [sampler]. by rewrite Hpc.
  - unfold arrive in Hs. destruct (_ <? _)%nat; injection Hs as <- <-; (apply converging_replace; try done; by left).
  - case_bool_decide; [done|]. injection Hs as <- <-. apply converging_replace; try done; by left.
  - destruct e; [|done]. injection Hs as <- <-. apply converging_replace; try done; by left.
Qed.

(** ** Every step *)

Lemma converging_step a st st' :
  converging st -> step (S nap) master period_ns interval warn n a st = Some st' -> converging st'.
Proof.
  intros Hcv Hs. pose proof Hcv as [Hph Hcl Hct Hlen _ _ _ _ _ _ _].
  assert (phase st' /\ closing_ok st' /\ counts_ok st') as (Hph' & Hcl' & Hct').
  { rewrite <- Hlen in Hs. split_and!; [by eapply phase_step|by eapply closing_step|eapply counts_step; [reflexivity|exact Hct|exact Hs]]. }
  destruct a as [| |i]; simpl in Hs.
  - injection Hs as <-. destruct Hcv. by split.
  - destruct (sampler_step _ _ _ _ _ _ _ _ _) as [[sh s]|] eqn:E; simpl in Hs; [|done].
    injection Hs as <-. by eapply sampler_converging.
  - destruct (workers st !! i) as [wk|] eqn:Hi; simpl in Hs; [|done].
    destruct (worker_step _ _ _ _) as [[sh wk']|] eqn:E; simpl in Hs; [|done]. injection Hs as <-.
    assert ((exists m, pc wk = W_correct m) \/ ~ exists m, pc wk = W_correct m) as [[m Hm]|Hnc]
      by (destruct (pc wk); (by left; eexists) || (right; by intros [? ?])).
    + by eapply correct_converging.
    + eapply quiet_converging; try done. intros m Hm. apply Hnc. by exists m.
Qed.

(** *** Progress

    Every thread's position in the run, eight places a pass; a wait is in the
    pass of its generation. *)
Definition w_place (K : nat) (p : wpc) : nat :=
  match p with
  | W_test => 8 * K | W_b1 => 8 * K + 1 | W_b1_wait g => 8 * g + 2 | W_check => 8 * K + 3 | W_load => 8 * K + 4
  | W_correct _ => 8 * K + 5 | W_b2 | W_panicked => 8 * K + 6 | W_b2_wait g => 8 * g + 7
  | W_print | W_done => 8 * K
  end.
Definition s_place (K : nat) (p : spc) : nat :=
  match p with
  | S_stats => 8 * K | S_test => 8 * K + 1 | S_read => 8 * K + 2 | S_store _ | S_panicked => 8 * K + 3
  | S_b1 => 8 * K + 4 | S_b1_wait g => 8 * g + 5 | S_b2 => 8 * K + 6 | S_b2_wait g => 8 * g + 7
  | _ => 8 * K
  end.
Definition place st : nat :=
  s_place (passes_done st) (spc_of (sampler st))
  + sum_list_with (λ wk, w_place (passes_done st) (pc wk)) (workers st).

Lemma sum_place_insert (f g : Worker F -> nat) (l0 : list (Worker F)) i wk wk' :
  l0 !! i = Some wk -> (forall c, f c <= g c)%nat -> (f wk < g wk')%nat ->
  (sum_list_with f l0 < sum_list_with g (<[i := wk']> l0))%nat.
Proof.
  intros Hi Hle Hlt.
  assert (forall l1 : list (Worker F), sum_list_with f l1 <= sum_list_with g l1)%nat as Hs.
  { induction l1 as [|c l1 IH]; simpl; [lia|]. specialize (Hle c). lia. }
  revert i Hi. induction l0 as [|c l0 IH]; intros [|i] Hi; simplify_eq/=.
  - specialize (Hs l0). lia.
  - specialize (IH i Hi). specialize (Hle c). lia.
Qed.

Lemma w_place_mono K K' p : (K <= K' -> w_place K p <= w_place K' p)%nat.
Proof. destruct p; simpl; lia. Qed.
Lemma s_place_mono K K' p : (K <= K' -> s_place K p <= s_place K' p)%nat.
Proof. destruct p; simpl; lia. Qed.

Lemma worker_place st i wk sh' wk' :
  phase st -> running (shared st) = true -> workers st !! i = Some wk ->
  worker_step n i (shared st) wk = Some (sh', wk') ->
  (passes_done st <= generation (barrier2 sh')
   /\ w_place (passes_done st) (pc wk) < w_place (generation (barrier2 sh')) (pc wk'))%nat.
Proof.
  intros Hph Hrun Hi Hs. unfold passes_done.
  assert (exists k, generation (barrier2 (shared st)) = k /\
    (generation (barrier1 (shared st)) = k /\ w_okA k true (pc wk)
     \/ w_okB k true (master_tsf (shared st)) (pc wk))) as (k & Hk & Hok).
  { destruct Hph as [k H1 H2 _ _ H5 _|k H1 H2 _ _ H5 _]; exists k; (split; [done|]);
      pose proof (Forall_lookup_1 _ _ _ _ H5 Hi) as H; cbv beta in H; rewrite Hrun in H; eauto. }
  pose proof (λ m Hm, correct_step _ _ _ _ _ _ m Hm Hs) as Hcs.
  unfold worker_step in Hs. rewrite Hk. destruct (pc wk) eqn:Hpc; try done.
  - rewrite Hrun in Hs. injection Hs as <- <-. simpl. lia.
  - unfold arrive in Hs. destruct Hok as [[Hg _]|[]].
    destruct (_ <? _)%nat; injection Hs as <- <-; simpl; lia.
  - case_bool_decide; [done|]. injection Hs as <- <-. simpl. destruct Hok as [[? ?]|?]; simpl in *; lia.
  - rewrite Hrun in Hs. injection Hs as <- <-. simpl. lia.
  - injection Hs as <- <-. simpl. lia.
  - destruct (Hcs m eq_refl) as [[w ->] [Hp|Hp]]; rewrite Hp; simpl; lia.
  - unfold arrive in Hs. destruct (_ <? _)%nat; injection Hs as <- <-; simpl; lia.
  - case_bool_decide; [done|]. injection Hs as <- <-. simpl. destruct Hok as [[? ?]|?]; simpl in *; lia.
  - destruct Hok as [[_ Hok]|Hok]; simpl in Hok; done.
Qed.

Lemma sampler_place st e sh' s' :
  phase st -> running (shared st) = true ->
  sampler_step (S nap) master period_ns interval warn n e (shared st) (sampler st) = Some (sh', s') ->
  (passes_done st <= generation (barrier2 sh')
   /\ s_place (passes_done st) (spc_of (sampler st)) < s_place (generation (barrier2 sh')) (spc_of s'))%nat.
Proof.
  intros Hph Hrun Hs. unfold passes_done.
  assert (exists k, generation (barrier2 (shared st)) = k /\
    (generation (barrier1 (shared st)) = k /\ s_okA k true (spc_of (sampler st)) \/ s_okB k true (spc_of (sampler st))))
    as (k & Hk & Hok).
  { rewrite <- Hrun. destruct Hph as [k H1 H2 _ _ _ H6|k H1 H2 _ _ _ H6]; exists k; by eauto. }
  unfold sampler_step in Hs. rewrite Hk. destruct (spc_of (sampler st)) eqn:Hsp; try done; try (by destruct Hok as [[_ Hok]|Hok]).
  - rewrite Hrun in Hs. injection Hs as <- <-. simpl. lia.
  - destruct (read_tsf _ _) as [[[v|er]| |] w]; injection Hs as <- <-; simpl; lia.
  - injection Hs as <- <-. simpl. lia.
  - destruct Hok as [[Hg _]|[]]. unfold arrive in Hs. destruct (_ <? _)%nat; injection Hs as <- <-; simpl; lia.
  - case_bool_decide; [done|]. injection Hs as <- <-. simpl. destruct Hok as [[? ?]|?]; simpl in *; lia.
  - unfold arrive in Hs. destruct (_ <? _)%nat; injection Hs as <- <-; simpl; lia.
  - case_bool_decide; [done|]. injection Hs as <- <-. simpl. destruct Hok as [[? ?]|?]; simpl in *; lia.
  - destruct (sampler_rest _ _ _ _ _ _) as [[[s2 es]| |] w] eqn:E; [|injection Hs as <- <-; simpl; lia|done].
    injection Hs as <- <-. rewrite (sampler_rest_pc _ _ _ _ _ _ _ _ _ E). simpl. lia.
  - by destruct Hok as [(_ & _ & Hok)|[_ Hok]].
Qed.

(** A step of a thread moves it, and leaves the flag alone. *)
Lemma place_step a st st' :
  phase st -> running (shared st) = true -> length (workers st) = n -> a <> Signal ->
  step (S nap) master period_ns interval warn n a st = Some st' ->
  running (shared st') = true /\ (place st < place st')%nat.
Proof.
  intros Hph Hrun Hlen Ha Hs. unfold place. destruct a as [| |i]; simpl in Hs; [done|..].
  - destruct (sampler_step _ _ _ _ _ _ _ _ _) as [[sh s]|] eqn:E; simpl in Hs; [|done]. injection Hs as <-.
    destruct (sampler_step_closing _ _ _ _ _ _ _ _ _ _ _ E) as [Hr _].
    destruct (sampler_place _ _ _ _ Hph Hrun E) as [Hle Hlt]. split; [simpl; congruence|].
    unfold passes_done in *. cbn [shared workers sampler].
    assert (forall l0 : list (Worker F), sum_list_with (λ wk, w_place (generation (barrier2 (shared st))) (pc wk)) l0
              <= sum_list_with (λ wk, w_place (generation (barrier2 sh)) (pc wk)) l0)%nat as Hsum.
    { induction l0 as [|c l0 IH]; simpl; [lia|]. pose proof (w_place_mono _ _ (pc c) Hle). lia. }
    specialize (Hsum (workers st)). lia.
  - destruct (workers st !! i) as [wk|] eqn:Hi; simpl in Hs; [|done].
    destruct (worker_step _ _ _ _) as [[sh wk']|] eqn:E; simpl in Hs; [|done]. injection Hs as <-.
    destruct (worker_step_idle _ _ _ _ _ _ E) as [Hr _].
    destruct (worker_place _ _ _ _ _ Hph Hrun Hi E) as [Hle Hlt]. split; [simpl; congruence|].
    unfold passes_done in *. cbn [shared workers sampler].
    pose proof (s_place_mono _ _ (spc_of (sampler st)) Hle).
    pose proof (sum_place_insert (λ c, w_place (generation (barrier2 (shared st))) (pc c))
                  (λ c, w_place (generation (barrier2 sh)) (pc c)) _ _ _ wk' Hi
                  (λ c, w_place_mono _ _ (pc c) Hle) Hlt). lia.
Qed.

(** No thread is more than a pass ahead. *)
Lemma place_bound st :
  phase st -> running (shared st) = true ->
  (place st <= S (length (workers st)) * (8 * passes_done st + 7))%nat.
Proof.
  intros Hph Hrun. unfold place.
  assert (forall K (l0 : list (Worker F)), Forall (λ c, w_place K (pc c) <= 8 * K + 7)%nat l0 ->
            sum_list_with (λ c, w_place K (pc c)) l0 <= length l0 * (8 * K + 7))%nat as Hsum.
  { intros K l0. induction 1 as [|c l0 Hc _ IH]; simpl in *; lia. }
  assert (Forall (λ c, w_place (passes_done st) (pc c) <= 8 * passes_done st + 7)%nat (workers st)
          /\ s_place (passes_done st) (spc_of (sampler st)) <= 8 * passes_done st + 7)%nat as [Hw Hs].
  { unfold passes_done. destruct Hph as [k _ -> _ _ H5 H6|k _ -> _ _ H5 H6]; (split;
      [eapply Forall_impl; [exact H5|]; intros c; cbv beta; destruct (pc c); simpl; lia
      |destruct (spc_of (sampler st)); simpl in *; lia]). }
  specialize (Hsum _ _ Hw). lia.
Qed.

Lemma step_followers k a st st' :
  step (S nap) master period_ns interval warn k a st = Some st' -> follower <$> workers st' = follower <$> workers st.
Proof.
  intros Hs. destruct a as [| |i]; simpl in Hs.
  - by injection Hs as <-.
  - destruct (sampler_step _ _ _ _ _ _ _ _ _) as [[sh s]|] eqn:E; simpl in Hs; [|done]. by injection Hs as <-.
  - destruct (workers st !! i) as [wk|] eqn:Hi; simpl in Hs; [|done].
    destruct (worker_step _ _ _ _) as [[sh wk']|] eqn:E; simpl in Hs; [|done]. injection Hs as <-. simpl.
    rewrite list_fmap_insert. apply list_insert_id. rewrite list_lookup_fmap, Hi. simpl. f_equal.
    unfold worker_step in E. destruct (pc wk); repeat case_match; by simplify_eq/=.
Qed.

(** *** Runs *)

Lemma run_converging acts st st' :
  converging st -> schedule (S nap) master period_ns interval warn n acts st = Some st' ->
  converging st' /\ follower <$> workers st' = follower <$> workers st.
Proof.
  revert st. induction acts as [|a acts IH]; intros st Hcv Hs; simpl in Hs; [by injection Hs as <-|].
  destruct (step _ _ _ _ _ _ a st) as [st1|] eqn:E; simpl in Hs; [|done].
  destruct (IH st1 (converging_step _ _ _ Hcv E) Hs) as [? Hf]. split; [done|].
  by rewrite Hf, (step_followers _ _ _ _ E).
Qed.

Lemma run_progress acts st st' :
  converging st -> running (shared st) = true -> Forall (λ a, a <> Signal) acts ->
  schedule (S nap) master period_ns interval warn n acts st = Some st' ->
  running (shared st') = true /\ (place st + length acts <= place st')%nat.
Proof.
  revert st. induction acts as [|a acts IH]; intros st Hcv Hrun Hns Hs; simpl in Hs.
  { injection Hs as <-. simpl. split; [done|lia]. }
  destruct (step _ _ _ _ _ _ a st) as [st1|] eqn:E; simpl in Hs; [|done]. apply Forall_cons_iff in Hns as [Ha Hns].
  destruct (place_step _ _ _ (c_phase _ Hcv) Hrun (c_len _ Hcv) Ha E) as [Hrun1 Hlt].
  destruct (IH st1 (converging_step _ _ _ Hcv E) Hrun1 Hns Hs) as [? ?]. split; [done|]. simpl. lia.
Qed.

Lemma converging_can_step st :
  converging st -> running (shared st) = true ->
  exists a st', a <> Signal /\ step (S nap) master period_ns interval warn n a st = Some st'.
Proof.
  intros [] Hrun. apply running_can_step; try done; try apply c_alive0. intros _.
  by destruct (sampler_rest_steady (sampler st) _ c_steady0) as (? & ? & ? & -> & _).
Qed.

Lemma converging_init fs cs d w :
  length fs = n -> length cs = n -> steady fds lat w -> Forall can_use fs -> Forall (plain max) cs ->
  NoDup (fd <$> master :: fs) -> 0 <= b -> Forall (λ f, Z.abs (lag w (fd master) (fd f)) <= b) fs ->
  converging (par_init fs cs d w) /\ follower <$> workers (par_init (F := F) fs cs d w) = fs.
Proof.
  intros Hfs Hcs Hst Hus Hpl Hnd Hb Hlag.
  assert (follower <$> workers (par_init (F := F) fs cs d w) = fs) as Hf.
  { simpl. clear -Hfs Hcs. revert cs n Hfs Hcs. induction fs as [|f fs IH]; intros [|c cs] n0 ?; simpl in *; try done; [lia|].
    intros Hcs. f_equal. by eapply (IH cs (pred n0)); lia. }
  split; [|exact Hf]. split; try done.
  - apply phase_init.
  - split; simpl; lia.
  - rewrite <- Hfs. apply init_workers. lia.
  - rewrite list_fmap_compose, Hf. exact Hnd.
  - apply Forall_lookup_2. intros i wk (f & c & -> & Hfi & Hci)%lookup_zip_with_Some. split.
    + by apply (Forall_lookup_1 _ _ _ _ Hus Hfi).
    + by apply (Forall_lookup_1 _ _ _ _ Hpl Hci).
  - apply Forall_lookup_2. intros i wk (f & c & -> & Hfi & Hci)%lookup_zip_with_Some.
    pose proof (Forall_lookup_1 _ _ _ _ Hlag Hfi) as H. unfold close, the_lag, within. cbn in *. lia.
  - apply Forall_lookup_2. by intros i wk (f & c & -> & _)%lookup_zip_with_Some.
  - split; [|done]. apply Forall_lookup_2. by intros i wk (f & c & -> & _)%lookup_zip_with_Some.
Qed.
End converge.

(** What holds of a run of the parallel loop from its beginning. *)
Definition in_step {W F} `{HSy : Sys W} `{HTs : !TsfFiles W} `{HF : F64 F} `{HB : Build}
    (nap : nat) (master : TsfFile) (fs : list TsfFile) (period_ns interval warn l max b : Z)
    (acts : list actor) (st : Par W F) : Prop :=
  let rounds := Z.of_nat (generation (barrier2 (shared st))) in
  Forall (λ f, Z.abs (lag (world (shared st)) (fd master) (fd f)) <= Z.max l (b - rounds * (max - l))) fs
  /\ (b <= rounds * (max - l) -> Forall (λ f, 0 <= lag (world (shared st)) (fd master) (fd f) <= l) fs)
  /\ Forall (λ wk, pc wk <> W_panicked) (workers st) /\ spc_of (sampler st) <> S_panicked
  /\ (Forall (λ a, a <> Signal) acts ->
        Z.of_nat (length acts) < 8 * (1 + Z.of_nat (length fs)) * (rounds + 1)
        /\ exists a st', a <> Signal /\ step nap master period_ns interval warn (length fs) a st = Some st').

Section runs.
Context {W F : Type} `{HSy : Sys W} `{HTs : !TsfFiles W} `{HSt : !Steady W} `{HF : F64 F} `{HB : Build}.

Lemma run_in_step (fds : list Z) (lat max b : Z) (nap : nat) (master : TsfFile) (fs : list TsfFile)
    (cs : list (Controller F)) (period_ns interval warn : Z) (d : timespec) (w : W) (acts : list actor) (st : Par W F) :
  let l := (1 + 2 * Z.of_nat (length fs)) * lat in
  overflow_checks = false -> in_i64 max -> l < max -> 0 <= b -> l + Z.max l b <= 9223372036854 ->
  steady fds lat w -> length cs = length fs -> can_use fds master -> Forall (can_use fds) fs ->
  NoDup (fd <$> master :: fs) -> Forall (plain max) cs ->
  Forall (λ f, Z.abs (lag w (fd master) (fd f)) <= b) fs ->
  schedule (S nap) master period_ns interval warn (length fs) acts (par_init fs cs d w) = Some st ->
  in_step (S nap) master fs period_ns interval warn l max b acts st.
Proof.
  intros l Ho Hm Hlm H0 Hb Hst Hlen Hu Hus Hnd Hpl Hlag Hs.
  destruct (converging_init fds lat l max b master (length fs) fs cs d w eq_refl Hlen
              Hst Hus Hpl Hnd H0 Hlag) as [Hinit Hf].
  destruct (run_converging fds lat l max b nap master period_ns interval warn (length fs) Ho (conj Hm Hlm) eq_refl Hb Hu
              acts _ _ Hinit Hs) as [Hcv Hf'].
  pose proof (lat_nonneg fds lat l b master (length fs) Hu w Hst) as Hlat. assert (0 <= l) as Hl0 by (subst l; nia).
  assert (Forall (λ f, within (b - Z.of_nat (generation (barrier2 (shared st))) * (max - l)) l
                         (lag (world (shared st)) (fd master) (fd f))) fs) as Hw.
  { rewrite <- Hf, <- Hf'. apply Forall_fmap. exact (c_close fds lat l max b master (length fs) st Hcv). }
  unfold in_step. split_and!; try apply (c_alive fds lat l max b master (length fs) st Hcv).
  - eapply Forall_impl; [exact Hw|]. unfold within. intros f Hr. cbv beta in Hr. lia.
  - intros Hk. eapply Forall_impl; [exact Hw|]. unfold within. intros f Hr. cbv beta in Hr. lia.
  - intros Hns.
    destruct (run_progress fds lat l max b nap master period_ns interval warn (length fs) Ho (conj Hm Hlm) eq_refl Hb Hu
                acts _ _ Hinit eq_refl Hns Hs) as [Hrun Hpl'].
    split; [|by eapply (converging_can_step fds lat l max b)].
    pose proof (place_bound l b (length fs) st (c_phase fds lat l max b master (length fs) st Hcv) Hrun) as Hbd.
    rewrite (c_len fds lat l max b master (length fs) st Hcv) in Hbd. unfold passes_done in Hbd. nia.
Qed.
End runs.

(** ** Properties *)

(** C2: the parallel loop converges in every interleaving.  In a release build
    at the default gain, while the files answer within [lat] microseconds and the
    counters do not drift, after any sequence of steps of the threads (and of the signal) no thread has
    panicked, and every follower is off by at most what it was at the beginning
    less, for each completed pass, the margin of the bound over the length [l]
    of a pass; from some pass on it is behind the master by between 0 and [l].
    And until the flag is cleared passes are completed whatever the scheduler
    does: some thread can always step, and no more than eight steps of each
    thread fit into a pass. *)
Theorem parallel_converges {W F} `{HSy : Sys W} `{HTs : !TsfFiles W} `{HSt : !Steady W} `{HF : F64 F} `{HB : Build}
    (fds : list Z) (lat max b : Z) (nap : nat) (master : TsfFile) (fs : list TsfFile)
    (cs : list (Controller F)) (period_ns interval warn : Z) (d : timespec) (w : W) (acts : list actor) (st : Par W F) :
  let l := (1 + 2 * Z.of_nat (length fs)) * lat in
  overflow_checks = false -> in_i64 max -> l < max -> 0 <= b -> l + Z.max l b <= 9223372036854 ->
  steady fds lat w -> length cs = length fs -> can_use fds master -> Forall (can_use fds) fs ->
  NoDup (fd <$> master :: fs) -> Forall (plain max) cs ->
  Forall (λ f, Z.abs (lag w (fd master) (fd f)) <= b) fs ->
  schedule (S nap) master period_ns interval warn (length fs) acts (par_init fs cs d w) = Some st ->
  in_step (S nap) master fs period_ns interval warn l max b acts st.
Proof. apply run_in_step. Qed.

(** A pass of the simulated machine, from all threads at the beginning of their
    loops to there again. *)
Definition a_pass : list actor :=
  replicate 4 TheSampler ++ replicate 2 (TheWorker 0) ++ replicate 6 (TheWorker 1) ++ replicate 5 (TheWorker 0)
  ++ replicate 3 TheSampler ++ [TheWorker 0; TheWorker 1].

Lemma parallel_converges_witness :
  exists st, @schedule Sim spec_float _ _ release_x86 1 (file 3) 10000000 0 50 2 (a_pass ++ a_pass) (demo 200) = Some st
    /\ Forall (λ f, 0 <= lag (world (shared st)) 3 (fd f) <= 10) [file 4; file 5].
Proof.
  destruct (@schedule Sim spec_float _ _ release_x86 1 (file 3) 10000000 0 50 2 (a_pass ++ a_pass) (demo 200)) as [st|] eqn:E;
    [|vm_compute in E; discriminate].
  exists st. split; [reflexivity|].
  assert (generation (barrier2 (shared st)) = 2%nat) as Hg by (vm_compute in E; injection E as <-; reflexivity).
  destruct (@parallel_converges Sim spec_float _ _ _ _ release_x86 [3; 4; 5] 2 200 300 0 (file 3) [file 4; file 5]
              [ctl 200; ctl 200] 10000000 0 50 {| tv_sec := 0; tv_nsec := 5000000 |} two_followers (a_pass ++ a_pass) st)
    as (_ & Hc & _); try reflexivity; try exact E.
  - unfold in_i64. lia.
  - lia.
  - simpl. lia.
  - split; [reflexivity|]. split; [reflexivity|]. split; [simpl; lia|]. split; [|constructor].
    repeat constructor; eexists; reflexivity.
  - split; [apply (bool_decide_unpack _); vm_compute; reflexivity|reflexivity].
  - repeat constructor; apply (bool_decide_unpack _); vm_compute; reflexivity.
  - apply (bool_decide_unpack _). vm_compute. reflexivity.
  - repeat constructor.
  - apply (bool_decide_unpack _). vm_compute. reflexivity.
  - rewrite Hg in Hc. apply Hc. simpl. lia.
Defined.
