(* ===== verification/SyncMode.v ===== *)
(** * Synchronisation modes and the character device's structures
    (src/sync_mode.rs, and their kernel side in kernel/tsf_ptp_uapi.h)

    The three modes, and the packed little-endian layout of a snapshot (56
    bytes) and of an adjustment (12 bytes). *)

From S2P Require Import Prelude Ints Text.

(** ** Definitions *)

Inductive SyncMode := Ptp | Kernel | Iouring.

#[export] Instance SyncMode_eq_dec : EqDecision SyncMode.
Proof. solve_decision. Defined.

Definition as_kernel_param (self : SyncMode) : Z :=
  match self with Ptp => 0 | Kernel => 1 | Iouring => 2 end.

(** [Display] *)
Definition mode_fmt (self : SyncMode) : str :=
  match self with Ptp => lit "ptp" | Kernel => lit "kernel" | Iouring => lit "iouring" end.

Record TsfSnapshot := {
  card_index : Z;
  phy_name_len : Z;
  phy_name : list Z;   (* [u8; 32] *)
  tsf_ns : Z;
  mono_ns : Z;
}.

Record TsfAdjustment := {
  adj_card_index : Z;
  delta_ns : Z;
}.

(** The bytes of an integer, least significant first. *)
Fixpoint le_bytes (n : nat) (z : Z) : list Z :=
  match n with O => [] | S n => z mod 256 :: le_bytes n (z / 256) end.
Fixpoint le_value (bs : list Z) : Z :=
  match bs with [] => 0 | b :: bs => b + 256 * le_value bs end.

Definition SNAPSHOT_SIZE : nat := 56.
Definition ADJ_SIZE : nat := 12.

(** The memory of a [#[repr(C, packed)]] value, and the value read from memory. *)
Definition snapshot_bytes (s : TsfSnapshot) : list Z :=
  le_bytes 4 (card_index s) ++ le_bytes 4 (phy_name_len s) ++ phy_name s
    ++ le_bytes 8 (as_u64 (tsf_ns s)) ++ le_bytes 8 (as_u64 (mono_ns s)).
Definition snapshot_read (bs : list Z) : TsfSnapshot := {|
  card_index := le_value (take 4 bs);
  phy_name_len := le_value (take 4 (drop 4 bs));
  phy_name := take 32 (drop 8 bs);
  tsf_ns := as_i64 (le_value (take 8 (drop 40 bs)));
  mono_ns := as_i64 (le_value (take 8 (drop 48 bs)));
|}.

Definition adjustment_bytes (a : TsfAdjustment) : list Z :=
  le_bytes 4 (adj_card_index a) ++ le_bytes 8 (as_u64 (delta_ns a)).
Definition adjustment_read (bs : list Z) : TsfAdjustment := {|
  adj_card_index := le_value (take 4 bs);
  delta_ns := as_i64 (le_value (take 8 (drop 4 bs)));
|}.

(** The values Rust's field types can hold. *)
Definition snapshot_wf (s : TsfSnapshot) : Prop :=
  in_u32 (card_index s) /\ in_u32 (phy_name_len s) /\ length (phy_name s) = 32%nat
  /\ in_i64 (tsf_ns s) /\ in_i64 (mono_ns s).
Definition adjustment_wf (a : TsfAdjustment) : Prop :=
  in_u32 (adj_card_index a) /\ in_i64 (delta_ns a).

(** Consecutive structures in a buffer. *)
Fixpoint chunks {A} (size : nat) (read : list Z -> A) (count : nat) (buf : list Z) : list A :=
  match count with
  | O => []
  | S c => read (take size buf) :: chunks size read c (drop size buf)
  end.

(** ** Facts *)

Lemma length_le_bytes n z : length (le_bytes n z) = n.
Proof. revert z. induction n as [|n IH]; intros z; simpl; [done|]. by rewrite IH. Qed.

Lemma le_value_bytes n z : 0 <= z < 256 ^ Z.of_nat n -> le_value (le_bytes n z) = z.
Proof.
  revert z. induction n as [|n IH]; intros z Hz; simpl.
  - rewrite Z.pow_0_r in Hz. lia.
  - rewrite Nat2Z.inj_succ, Z.pow_succ_r in Hz by lia.
    rewrite IH; [|split; [apply Z.div_pos; lia|apply Z.div_lt_upper_bound; lia]].
    pose proof (Z.div_mod z 256). lia.
Qed.

Lemma length_snapshot_bytes s : length (phy_name s) = 32%nat -> length (snapshot_bytes s) = SNAPSHOT_SIZE.
Proof. intros Hn. unfold snapshot_bytes. rewrite !length_app, !length_le_bytes, Hn. done. Qed.
Lemma length_adjustment_bytes a : length (adjustment_bytes a) = ADJ_SIZE.
Proof. unfold adjustment_bytes. by rewrite length_app, !length_le_bytes. Qed.

(** Reading a field that follows [pre] and precedes [post]. *)
Lemma field {A} (pre fld post : list A) p n :
  length pre = p -> length fld = n -> take n (drop p (pre ++ fld ++ post)) = fld.
Proof. intros <- <-. rewrite drop_app_length. apply take_app_length. Qed.

Lemma snapshot_fields (b1 b2 b3 b4 b5 rest : list Z) :
  length b1 = 4%nat -> length b2 = 4%nat -> length b3 = 32%nat -> length b4 = 8%nat -> length b5 = 8%nat ->
  let l := (b1 ++ b2 ++ b3 ++ b4 ++ b5) ++ rest in
  take 4 l = b1 /\ take 4 (drop 4 l) = b2 /\ take 32 (drop 8 l) = b3
  /\ take 8 (drop 40 l) = b4 /\ take 8 (drop 48 l) = b5.
Proof.
  intros H1 H2 H3 H4 H5 l. subst l. rewrite <- !app_assoc. split_and!.
  - rewrite <- (drop_0 (b1 ++ _)). by apply (field []).
  - by apply field.
  - rewrite (app_assoc b1). apply field; [rewrite length_app; lia|done].
  - rewrite (app_assoc b1), (app_assoc (b1 ++ b2)). apply field; [rewrite !length_app; lia|done].
  - rewrite (app_assoc b1), (app_assoc (b1 ++ b2)), (app_assoc ((b1 ++ b2) ++ b3)).
    apply field; [rewrite !length_app; lia|done].
Qed.

Lemma le_value_u32 z : in_u32 z -> le_value (le_bytes 4 z) = z.
Proof. intros Hz. apply le_value_bytes. unfold in_u32 in Hz. lia. Qed.
Lemma le_value_i64 z : in_i64 z -> as_i64 (le_value (le_bytes 8 (as_u64 z))) = z.
Proof.
  intros Hz. rewrite le_value_bytes by (pose proof (as_u64_range z); unfold in_u64 in *; lia).
  by apply as_i64_as_u64.
Qed.

Lemma snapshot_read_bytes s rest : snapshot_wf s -> snapshot_read (snapshot_bytes s ++ rest) = s.
Proof.
  intros (Hc & Hl & Hn & Ht & Hm). unfold snapshot_read, snapshot_bytes.
  destruct (snapshot_fields (le_bytes 4 (card_index s)) (le_bytes 4 (phy_name_len s)) (phy_name s)
    (le_bytes 8 (as_u64 (tsf_ns s))) (le_bytes 8 (as_u64 (mono_ns s))) rest) as (E1 & E2 & E3 & E4 & E5);
    try apply length_le_bytes; [done|].
  rewrite E1, E2, E3, E4, E5, !le_value_u32, !le_value_i64 by done. by destruct s.
Qed.

Lemma adjustment_read_bytes a rest : adjustment_wf a -> adjustment_read (adjustment_bytes a ++ rest) = a.
Proof.
  intros (Hc & Hd). unfold adjustment_read, adjustment_bytes.
  assert (forall b1 b2 : list Z, length b1 = 4%nat -> length b2 = 8%nat ->
    take 4 ((b1 ++ b2) ++ rest) = b1 /\ take 8 (drop 4 ((b1 ++ b2) ++ rest)) = b2) as Hf.
  { intros b1 b2 H1 H2. rewrite <- app_assoc. split; [|by apply field].
    rewrite <- (drop_0 (b1 ++ _)). by apply (field []). }
  destruct (Hf (le_bytes 4 (adj_card_index a)) (le_bytes 8 (as_u64 (delta_ns a)))) as [E1 E2];
    try apply length_le_bytes.
  rewrite E1, E2, le_value_u32, le_value_i64 by done. by destruct a.
Qed.

(** Reading back an array of structures. *)
Lemma chunks_concat {A} (size : nat) (enc : A -> list Z) (read : list Z -> A) (wf : A -> Prop) l rest :
  (forall a, wf a -> length (enc a) = size) -> (forall a, wf a -> read (enc a) = a) ->
  Forall wf l -> chunks size read (length l) (flat_map enc l ++ rest) = l.
Proof.
  intros Hlen Hrd. induction 1 as [|a l Ha _ IH]; [done|]. simpl.
  rewrite <- app_assoc. rewrite take_app_length', drop_app_length' by (symmetry; by apply Hlen).
  by rewrite Hrd, IH.
Qed.

Lemma length_mjoin_enc {A} (size : nat) (enc : A -> list Z) (wf : A -> Prop) l :
  (forall a, wf a -> length (enc a) = size) -> Forall wf l ->
  length (flat_map enc l) = (length l * size)%nat.
Proof.
  intros Hlen. induction 1 as [|a l Ha _ IH]; [done|]. simpl. rewrite length_app, Hlen by done. lia.
Qed.

(** The device's structures survive the trip through a buffer. *)
Lemma snapshots_round_trip l rest :
  Forall snapshot_wf l ->
  chunks SNAPSHOT_SIZE snapshot_read (length l) (flat_map snapshot_bytes l ++ rest) = l.
Proof.
  apply (chunks_concat SNAPSHOT_SIZE snapshot_bytes snapshot_read).
  - intros a (_ & _ & Hn & _). by apply length_snapshot_bytes.
  - intros a Ha. rewrite <- (app_nil_r (snapshot_bytes a)). by apply snapshot_read_bytes.
Qed.
Lemma adjustments_round_trip l rest :
  Forall adjustment_wf l ->
  chunks ADJ_SIZE adjustment_read (length l) (flat_map adjustment_bytes l ++ rest) = l.
Proof.
  apply (chunks_concat ADJ_SIZE adjustment_bytes adjustment_read).
  - intros a _. apply length_adjustment_bytes.
  - intros a Ha. rewrite <- (app_nil_r (adjustment_bytes a)). by apply adjustment_read_bytes.
Qed.
