(* ===== verification/Chardev.v ===== *)
(** * The kernel side of /dev/tsf_sync (kernel/tsf_ptp.c)

    The character device's read and write handlers over the module's list of
    cards.  A card's hardware counter is a microsecond counter with an offset
    from the machine's clock.  Time passes before each access to a counter, by
    the delays of a list; the driver's calls themselves take none. *)

From S2P Require Import Prelude Ints Text SyncMode.

(** ** Definitions *)

Record Card := {
  c_phy : list Z;     (* phy_name, without its terminator *)
  c_vif : bool;       (* whether an interface is up *)
  c_set : bool;       (* whether the driver has set_tsf *)
  c_base : Z;         (* the hardware counter's offset from the clock *)
  c_last_offset : Z;  (* last_offset_ns, sync_count and sync_error_count: mode B's statistics *)
  c_sync_count : Z;
  c_sync_errors : Z;
}.

(** A card that mode B has not touched. *)
Definition fresh_card (phy : list Z) (vif set : bool) (base : Z) : Card :=
  {| c_phy := phy; c_vif := vif; c_set := set; c_base := base; c_last_offset := 0; c_sync_count := 0;
     c_sync_errors := 0 |}.
Definition with_base (b : Z) (c : Card) : Card :=
  {| c_phy := c_phy c; c_vif := c_vif c; c_set := c_set c; c_base := b; c_last_offset := c_last_offset c;
     c_sync_count := c_sync_count c; c_sync_errors := c_sync_errors c |}.

Record KState := {
  cards : list Card;        (* cards_list *)
  adjtime_threshold : Z;    (* adjtime_threshold_ns *)
  k_now : Z;                (* CLOCK_MONOTONIC, in microseconds *)
  adjtime_skip_count : Z;
  adjtime_apply_count : Z;
  sync_primary : list Z;    (* the parameters of mode B, and its counters *)
  sync_interval_ms : Z;
  global_sync_count : Z;
  global_sync_error_count : Z;
}.

Definition k_get_tsf (k : KState) (c : Card) : Z := as_u64 (c_base c + k_now k).
Definition k_set_tsf (v : Z) (k : KState) (c : Card) : Card :=
  if c_set c then with_base (v - k_now k) c else c.

(** Updates of the list and clock, of the threshold counters, and of mode B's. *)
Definition with_cards_now (cs : list Card) (now : Z) (k : KState) : KState :=
  {| cards := cs; adjtime_threshold := adjtime_threshold k; k_now := now;
     adjtime_skip_count := adjtime_skip_count k; adjtime_apply_count := adjtime_apply_count k;
     sync_primary := sync_primary k; sync_interval_ms := sync_interval_ms k;
     global_sync_count := global_sync_count k; global_sync_error_count := global_sync_error_count k |}.
Definition add_counts (skip apply : Z) (k : KState) : KState :=
  {| cards := cards k; adjtime_threshold := adjtime_threshold k; k_now := k_now k;
     adjtime_skip_count := adjtime_skip_count k + skip; adjtime_apply_count := adjtime_apply_count k + apply;
     sync_primary := sync_primary k; sync_interval_ms := sync_interval_ms k;
     global_sync_count := global_sync_count k; global_sync_error_count := global_sync_error_count k |}.
Definition add_sync (done errors : Z) (k : KState) : KState :=
  {| cards := cards k; adjtime_threshold := adjtime_threshold k; k_now := k_now k;
     adjtime_skip_count := adjtime_skip_count k; adjtime_apply_count := adjtime_apply_count k;
     sync_primary := sync_primary k; sync_interval_ms := sync_interval_ms k;
     global_sync_count := global_sync_count k + done;
     global_sync_error_count := global_sync_error_count k + errors |}.
Definition with_cards (cs : list Card) (k : KState) : KState := with_cards_now cs (k_now k) k.
Definition inc_skip (k : KState) : KState := add_counts 1 0 k.
Definition inc_apply (k : KState) : KState := add_counts 0 1 k.

(** Time passes. *)
Definition k_elapse (d : Z) (k : KState) : KState :=
  with_cards_now (cards k) (k_now k + Z.abs d) k.

(** One element of the array the read handler fills ([kcalloc] zeroes it), its
    counter read at [k] and its time at [k']. *)
Definition k_snapshot (k k' : KState) (i : nat) (c : Card) : TsfSnapshot := {|
  card_index := Z.of_nat i;
  phy_name_len := Z.of_nat (length (c_phy c));
  phy_name := take 32 (c_phy c ++ replicate 32 0);
  tsf_ns := if c_vif c then as_i64 (as_i64 (k_get_tsf k c) * 1000) else 0;
  mono_ns := if c_vif c then as_i64 (k_now k' * 1000) else 0;
|}.

Definition read_card (i : nat) (c : Card) (ds : list Z) (k : KState) : TsfSnapshot * (list Z * KState) :=
  if c_vif c then
    let k1 := k_elapse (hd 0 ds) k in
    let k2 := k_elapse (hd 0 (tail ds)) k1 in
    (k_snapshot k1 k2 i c, (tail (tail ds), k2))
  else (k_snapshot k k i c, (ds, k)).

(** The loop over the list. *)
Fixpoint read_cards (i : nat) (cs : list Card) (ds : list Z) (k : KState) : list TsfSnapshot * KState :=
  match cs with
  | [] => ([], k)
  | c :: cs =>
      let '(s, (ds, k)) := read_card i c ds k in
      let '(ss, k) := read_cards (S i) cs ds k in
      (s :: ss, k)
  end.

Definition tsf_sync_chardev_read (count : nat) (ds : list Z) (k : KState) : (Z * list Z) * KState :=
  match cards k with
  | [] => ((0, []), k)
  | cs =>
      let '(snaps, k) := read_cards 0 cs ds k in
      let bytes := flat_map snapshot_bytes snaps in
      let ret := Nat.min count (length bytes) in
      ((Z.of_nat ret, take ret bytes), k)
  end.

(** The position at which the walk along the list stops: at the card asked
    for, or past the last one. *)
Fixpoint k_walk (cs : list Card) (idx target : Z) : Z :=
  match cs with
  | [] => idx
  | _ :: cs => if idx =? target then idx else k_walk cs (idx + 1) target
  end.

(** One adjustment.  When the walk stops past the last card, [card] is not a
    card but the list's head, and using it is undefined behaviour ([Panic]). *)
Definition k_adjust (a : TsfAdjustment) (ds : list Z) (k : KState) : outcome (list Z * KState) :=
  let delta := delta_ns a in
  let abs_delta := if delta <? 0 then as_i64 (- delta) else delta in
  if (0 <? adjtime_threshold k) && (abs_delta <? adjtime_threshold k) then Done (ds, inc_skip k)
  else
    let idx := k_walk (cards k) 0 (adj_card_index a) in
    if negb (idx =? adj_card_index a) then Done (ds, k)
    else
      match cards k !! Z.to_nat idx with
      | None => Panic
      | Some c =>
          if c_vif c then
            let k1 := k_elapse (hd 0 ds) k in
            let tsf := k_get_tsf k1 c in
            let k2 := k_elapse (hd 0 (tail ds)) k1 in
            let c' := k_set_tsf (as_u64 (tsf + Z.quot delta 1000)) k2 c in
            Done (tail (tail ds), inc_apply (with_cards (<[Z.to_nat idx := c']> (cards k2)) k2))
          else Done (ds, k)
      end.

Fixpoint k_adjust_all (l : list TsfAdjustment) (ds : list Z) (k : KState) : outcome (list Z * KState) :=
  match l with
  | [] => Done (ds, k)
  | a :: l => '(ds, k) ← k_adjust a ds k; k_adjust_all l ds k
  end.

Definition tsf_sync_chardev_write (buf : list Z) (ds : list Z) (k : KState) : outcome Z * KState :=
  match length buf with
  | O => (Done 0, k)
  | _ =>
      let num_adjs := (length buf / ADJ_SIZE)%nat in
      match num_adjs with
      | O => (Done (-22), k)
      | _ =>
          match k_adjust_all (chunks ADJ_SIZE adjustment_read num_adjs buf) ds k with
          | Done (_, k') => (Done (Z.of_nat (num_adjs * ADJ_SIZE)), k')
          | Panic => (Panic, k)
          | OutOfFuel => (OutOfFuel, k)
          end
      end
  end.

(** ** Facts *)

(** A card as the driver registers it: a name of at most 31 bytes. *)
Definition card_wf (c : Card) : Prop := (length (c_phy c) <= 31)%nat.

(** What a list of delays adds to the clock. *)
Definition total (ds : list Z) : Z := foldr (λ d s, Z.abs d + s) 0 ds.
Lemma total_step ds : total ds = Z.abs (hd 0 ds) + total (tail ds) /\ 0 <= total (tail ds).
Proof.
  assert (forall l, 0 <= total l) as Hp by (induction l; simpl; lia).
  destruct ds as [|d ds]; simpl; [lia|]. split; [lia|apply Hp].
Qed.
Lemma total_pos ds : 0 <= total ds.
Proof. destruct (total_step ds). lia. Qed.
Lemma total_app ds1 ds2 : total (ds1 ++ ds2) = total ds1 + total ds2.
Proof. induction ds1 as [|d ds1 IH]; simpl; lia. Qed.

(** The largest counter, in microseconds, whose nanoseconds fit a signed word. *)
Definition MAX_US : Z := 9223372036854775.

(** The element for card [c] at position [i], its counter read at time [t]. *)
Definition snapshot_at (t : Z) (i : nat) (c : Card) (s : TsfSnapshot) : Prop :=
  card_index s = Z.of_nat i /\ phy_name_len s = Z.of_nat (length (c_phy c))
  /\ phy_name s = take 32 (c_phy c ++ replicate 32 0)
  /\ tsf_ns s = (if c_vif c then as_i64 (as_i64 (as_u64 (c_base c + t)) * 1000) else 0)
  /\ in_i64 (mono_ns s).

Lemma snapshot_at_wf t i c s :
  snapshot_at t i c s -> card_wf c -> Z.of_nat i < 4294967296 -> snapshot_wf s.
Proof.
  unfold card_wf. intros (H1 & H2 & H3 & H4 & H5) Hc Hi. unfold snapshot_wf.
  rewrite H1, H2, H3, H4, length_take, length_app, length_replicate. unfold in_u32.
  split_and!; try lia; try done; destruct (c_vif c); try apply as_i64_range; unfold in_i64; lia.
Qed.

(** The state [k] at the later time [now]. *)
Definition at_time (now : Z) (k : KState) : KState := with_cards_now (cards k) now k.
Lemma at_time_at_time t t' k : at_time t (at_time t' k) = at_time t k.
Proof. done. Qed.
Lemma at_time_id k : at_time (k_now k) k = k.
Proof. by destruct k. Qed.
Lemma k_elapse_at_time d k : k_elapse d k = at_time (k_now k + Z.abs d) k.
Proof. done. Qed.

Lemma read_card_spec i c ds k s ds' k' :
  read_card i c ds k = (s, (ds', k')) ->
  exists t, k' = at_time (k_now k') k /\ k_now k <= t <= k_now k' /\ k_now k' + total ds' <= k_now k + total ds
    /\ snapshot_at t i c s.
Proof.
  unfold read_card. destruct (total_step ds) as [H1 _], (total_step (tail ds)) as [H2 _].
  destruct (c_vif c) eqn:Hv; intros [= <- <- <-].
  - exists (k_now (k_elapse (hd 0 ds) k)). split; [done|]. cbn [k_elapse with_cards_now k_now].
    split; [lia|]. split; [lia|]. unfold snapshot_at, k_snapshot. cbn [card_index phy_name_len phy_name tsf_ns mono_ns].
    rewrite Hv. split_and!; first [done|apply as_i64_range].
  - exists (k_now k). rewrite at_time_id. split; [done|]. split; [lia|]. split; [lia|].
    unfold snapshot_at, k_snapshot. cbn [card_index phy_name_len phy_name tsf_ns mono_ns]. rewrite Hv.
    split_and!; first [done|unfold in_i64; lia].
Qed.

(** What a read of the whole list sees: each card at some time of the call. *)
Lemma read_cards_spec i cs ds k ss k' :
  read_cards i cs ds k = (ss, k') ->
  k' = at_time (k_now k') k /\ k_now k <= k_now k' <= k_now k + total ds /\ length ss = length cs
  /\ forall j c, cs !! j = Some c -> exists s t, ss !! j = Some s /\ k_now k <= t <= k_now k' /\ snapshot_at t (i + j) c s.
Proof.
  revert i ds k ss. induction cs as [|c cs IH]; intros i ds k ss; cbn [read_cards].
  { intros [= <- <-]. rewrite at_time_id. pose proof (total_pos ds). split_and!; try done; lia. }
  destruct (read_card i c ds k) as [s [ds1 k1]] eqn:E1. destruct (read_cards (S i) cs ds1 k1) as [ss1 k2] eqn:E2.
  intros [= <- <-]. destruct (read_card_spec _ _ _ _ _ _ _ E1) as (t & Hk1 & Ht & Hd & Hs).
  destruct (IH _ _ _ _ E2) as (Hk2 & Hn & Hl & Hj). rewrite Hk1, at_time_at_time in Hk2.
  pose proof (total_pos ds1). split; [done|]. split; [lia|]. split; [simpl; lia|]. intros [|j] c' Hc'; simpl in Hc'.
  - injection Hc' as <-. exists s, t. rewrite Nat.add_0_r. split; [done|]. split; [lia|done].
  - destruct (Hj j c' Hc') as (s' & t' & ? & ? & ?). exists s', t'. replace (i + S j)%nat with (S i + j)%nat by lia.
    split; [done|]. split; [lia|done].
Qed.

Lemma k_walk_spec cs idx target :
  0 <= idx <= target ->
  k_walk cs idx target = Z.min target (idx + Z.of_nat (length cs)).
Proof.
  revert idx. induction cs as [|c cs IH]; intros idx Hi; cbn [k_walk length]; [lia|].
  destruct (Z.eqb_spec idx target) as [->|Hne]; [lia|]. rewrite IH by lia. lia.
Qed.

(** The position found for a card of the list. *)
Lemma k_walk_found k a c :
  cards k !! Z.to_nat (adj_card_index a) = Some c -> 0 <= adj_card_index a ->
  k_walk (cards k) 0 (adj_card_index a) = adj_card_index a.
Proof. intros Hc Hi. apply lookup_lt_Some in Hc. rewrite k_walk_spec, Z.min_l by lia. done. Qed.

Lemma k_abs_delta d : in_i64 (- d) -> (if d <? 0 then as_i64 (- d) else d) = Z.abs d.
Proof. intros Hd. rewrite as_i64_id by done. zbool; lia. Qed.

(** What an adjustment by [delta] nanoseconds makes of a card, its counter
    read and set between [lo] and [hi]. *)
Definition adjusted (threshold delta lo hi : Z) (c c' : Card) : Prop :=
  if c_vif c && (threshold <=? Z.abs delta)
  then exists t1 t2, lo <= t1 <= t2 /\ t2 <= hi
       /\ c' = if c_set c then with_base (as_u64 (as_u64 (c_base c + t1) + Z.quot delta 1000) - t2) c else c
  else c' = c.

Lemma adjusted_mono threshold delta lo hi lo' hi' c c' :
  lo' <= lo -> hi <= hi' -> adjusted threshold delta lo hi c c' -> adjusted threshold delta lo' hi' c c'.
Proof.
  unfold adjusted. intros H1 H2. destruct (_ && _); [|done]. intros (t1 & t2 & ? & ? & ?).
  exists t1, t2. split; [lia|]. split; [lia|done].
Qed.

(** An adjustment of a card of the list: to that card and to no other. *)
Lemma k_adjust_card a ds k c :
  cards k !! Z.to_nat (adj_card_index a) = Some c -> 0 <= adj_card_index a -> in_i64 (- delta_ns a) ->
  exists ds' k' c', k_adjust a ds k = Done (ds', k')
    /\ cards k' = <[Z.to_nat (adj_card_index a) := c']> (cards k)
    /\ adjusted (adjtime_threshold k) (delta_ns a) (k_now k) (k_now k') c c'
    /\ k_now k <= k_now k' /\ k_now k' + total ds' <= k_now k + total ds
    /\ adjtime_threshold k' = adjtime_threshold k.
Proof.
  intros Hc Hi Hd. unfold k_adjust, adjusted. rewrite k_abs_delta by done.
  destruct (total_step ds) as [H1 _], (total_step (tail ds)) as [H2 _].
  destruct (Z.leb_spec (adjtime_threshold k) (Z.abs (delta_ns a))) as [Ht|Ht].
  - rewrite (proj2 (Z.ltb_ge (Z.abs _) _)) by done. rewrite andb_false_r, (k_walk_found k a c) by done.
    rewrite Z.eqb_refl. cbn [negb]. rewrite Hc. destruct (c_vif c) eqn:Hv; cbn [andb].
    + eexists _, _, _. split; [reflexivity|]. split; [reflexivity|].
      cbn [inc_apply add_counts with_cards with_cards_now k_elapse k_now adjtime_threshold].
      split; [|split; [lia|split; [lia|done]]].
      exists (k_now k + Z.abs (hd 0 ds)), (k_now k + Z.abs (hd 0 ds) + Z.abs (hd 0 (tail ds))).
      split; [lia|]. split; [lia|]. unfold k_set_tsf. by destruct (c_set c).
    + exists ds, k, c. rewrite list_insert_id by done. split_and!; try done; lia.
  - rewrite (proj2 (Z.ltb_lt 0 _)), (proj2 (Z.ltb_lt (Z.abs _) _)) by lia. cbn [andb]. rewrite andb_false_r.
    exists ds, (inc_skip k), c. rewrite list_insert_id by done. cbn [inc_skip add_counts cards k_now adjtime_threshold].
    split_and!; try done; lia.
Qed.

(** Writing one adjustment. *)
Lemma write_one_adjustment k ds i delta :
  0 <= i <= 4294967295 -> in_i64 delta ->
  tsf_sync_chardev_write (adjustment_bytes {| adj_card_index := i; delta_ns := delta |}) ds k
  = match k_adjust {| adj_card_index := i; delta_ns := delta |} ds k with
    | Done (_, k') => (Done 12, k') | Panic => (Panic, k) | OutOfFuel => (OutOfFuel, k) end.
Proof.
  intros Hi Hd. unfold tsf_sync_chardev_write.
  pose proof (adjustments_round_trip [{| adj_card_index := i; delta_ns := delta |}] []) as Hrt.
  rewrite length_adjustment_bytes. cbn [length flat_map] in Hrt. rewrite !app_nil_r in Hrt.
  change (ADJ_SIZE / ADJ_SIZE)%nat with 1%nat.
  rewrite Hrt by (constructor; [split; simpl; unfold in_u32; [lia|done]|constructor]).
  cbn [k_adjust_all]. by destruct (k_adjust _ ds k) as [[ds' k']| |].
Qed.

(** ** Properties *)

(** C30: an adjustment whose index is the number of cards, as one made from a
    snapshot taken before the last card was removed, passes the index check
    and is applied to the list's head taken for a card. *)
Theorem write_past_last_card (k : KState) (ds : list Z) (delta : Z) :
  in_i64 delta -> in_i64 (- delta) -> adjtime_threshold k <= Z.abs delta ->
  Z.of_nat (length (cards k)) <= 4294967295 ->
  (tsf_sync_chardev_write
     (adjustment_bytes {| adj_card_index := Z.of_nat (length (cards k)); delta_ns := delta |}) ds k).1
  = Panic
  /\ forall i, Z.of_nat (length (cards k)) < i <= 4294967295 ->
     tsf_sync_chardev_write (adjustment_bytes {| adj_card_index := i; delta_ns := delta |}) ds k = (Done 12, k).
Proof.
  intros Hd Hd' Ht Hn.
  assert (forall i, Z.of_nat (length (cards k)) <= i <= 4294967295 ->
    k_adjust {| adj_card_index := i; delta_ns := delta |} ds k
    = if decide (i = Z.of_nat (length (cards k))) then Panic else Done (ds, k)) as Ha.
  { intros i Hi. unfold k_adjust. cbn [delta_ns adj_card_index]. rewrite k_abs_delta by done.
    rewrite (proj2 (Z.ltb_ge (Z.abs _) _)) by done. rewrite andb_false_r.
    rewrite k_walk_spec, Z.min_r by lia. rewrite Z.add_0_l. case_decide as Hi'.
    - subst i. rewrite Z.eqb_refl. simpl. rewrite Nat2Z.id. by rewrite lookup_ge_None_2.
    - by rewrite (proj2 (Z.eqb_neq _ i)) by lia. }
  split.
  - rewrite write_one_adjustment by (lia || done). by rewrite Ha, decide_True by lia.
  - intros i Hi. rewrite write_one_adjustment by (lia || done). rewrite Ha by lia. by rewrite decide_False by lia.
Qed.

Definition demo_kernel : KState :=
  {| cards := [fresh_card (lit "phy0") true true 1000000; fresh_card (lit "phy1") true true 999000];
     adjtime_threshold := 5000; k_now := 50; adjtime_skip_count := 0; adjtime_apply_count := 0;
     sync_primary := []; sync_interval_ms := 10; global_sync_count := 0; global_sync_error_count := 0 |}.

Lemma write_past_last_card_witness :
  (tsf_sync_chardev_write (adjustment_bytes {| adj_card_index := 2; delta_ns := 70000 |}) [3] demo_kernel).1
  = Panic.
Proof.
  apply (write_past_last_card demo_kernel [3] 70000).
  - unfold in_i64. lia.
  - unfold in_i64. lia.
  - simpl. lia.
  - simpl. lia.
Defined.
