(* ===== verification/IoUring.v ===== *)
(** * The io_uring synchroniser (src/iouring_sync.rs)

    Mode C in user space: read every card's snapshot, compute each one's
    distance from the primary, write the adjustments.  The io_uring crate and
    the device are parameters; an instance puts the module's character device
    behind them. *)

From S2P Require Import Prelude Ints Text Sys Debugfs SyncMode Chardev.

(** ** Definitions *)

Definition MAX_CARDS : nat := 128.

(** A submission: a read of so many bytes, or a write of these. *)
Inductive Sqe := ReadE (len : Z) | WriteE (buf : list Z).

(** The ring, the device file and the daemon's flag.  A completion carries the
    result and, for a read, the bytes stored in the buffer. *)
Class Uring (W : Type) := {
  dev_open : W -> result unit io_error * W;
  ring_new : Z -> W -> result unit io_error * W;
  ring_push : Sqe -> W -> bool * W;
  ring_submit_and_wait : M W (result unit io_error);
  ring_next : W -> option (Z * list Z) * W;
  dev_read : nat -> W -> result (list Z) io_error * W;
  thread_sleep : Z -> W -> W;
  uring_running : W -> bool * W;
}.

Record SyncStats := {
  cards_read : Z;
  adjustments_applied : Z;
  adjustments_skipped : Z;
  max_offset_ns : Z;
}.

Record IoUringSyncer := {
  primary_index : Z;
  threshold_ns : Z;
  interval : Z;          (* milliseconds *)
}.

Section iouring.
Context {W : Type} `{Uring W} `{Build}.

Definition syncer_new (primary_index threshold_ns interval : Z) : M W (result IoUringSyncer io_error) :=
  _ ←? act dev_open;
  _ ←? act (ring_new 8);
  mret (Ok {| primary_index := primary_index; threshold_ns := threshold_ns; interval := interval |}).

(** Submit one entry and take the next completion. *)
Definition ring_run (e : Sqe) : M W (result (Z * list Z) io_error) :=
  pushed ← act (ring_push e);
  if negb (pushed : bool) then mret (Err (Other (lit "io_uring submission full")))
  else
    _ ←? ring_submit_and_wait;
    cqe ← act ring_next;
    match cqe with
    | None => mret (Err (Other (lit "no io_uring completion")))
    | Some r => mret (Ok r)
    end.

(** The loop over the structures read; more than [MAX_CARDS] of them would be
    read from outside the buffer ([Panic]). *)
Definition read_snapshots : M W (result (list TsfSnapshot) io_error) :=
  let buf := replicate (SNAPSHOT_SIZE * MAX_CARDS) 0 in
  '(bytes_read, data) ←? ring_run (ReadE (Z.of_nat (length buf)));
  if bytes_read <? 0 then mret (Err (OsError (- bytes_read)))
  else
    let count := (Z.to_nat bytes_read / SNAPSHOT_SIZE)%nat in
    if (MAX_CARDS <? count)%nat then lift Panic
    else mret (Ok (chunks SNAPSHOT_SIZE snapshot_read count (fill buf data))).

Definition write_adjustments (adjustments : list TsfAdjustment) : M W (result unit io_error) :=
  '(r, _) ←? ring_run (WriteE (flat_map adjustment_bytes adjustments));
  if r <? 0 then mret (Err (OsError (- r))) else mret (Ok tt).

(** The loop over the snapshots. *)
Fixpoint compute (primary_index primary_tsf threshold_ns : Z) (snaps : list TsfSnapshot)
    (adjs : list TsfAdjustment) (stats : SyncStats) : outcome (list TsfAdjustment * SyncStats) :=
  match snaps with
  | [] => Done (adjs, stats)
  | snap :: rest =>
      if card_index snap =? primary_index
      then compute primary_index primary_tsf threshold_ns rest adjs stats
      else
        delta ← i64_op overflow_checks (primary_tsf - tsf_ns snap);
        abs_delta ← (if delta <? 0 then i64_op overflow_checks (- delta) else Done delta);
        let max_offset := if max_offset_ns stats <? abs_delta then abs_delta else max_offset_ns stats in
        if threshold_ns <? abs_delta then
          n ← u32_op overflow_checks (adjustments_applied stats + 1);
          compute primary_index primary_tsf threshold_ns rest
            (adjs ++ [{| adj_card_index := card_index snap; delta_ns := delta |}])
            {| cards_read := cards_read stats; adjustments_applied := n;
               adjustments_skipped := adjustments_skipped stats; max_offset_ns := max_offset |}
        else
          n ← u32_op overflow_checks (adjustments_skipped stats + 1);
          compute primary_index primary_tsf threshold_ns rest adjs
            {| cards_read := cards_read stats; adjustments_applied := adjustments_applied stats;
               adjustments_skipped := n; max_offset_ns := max_offset |}
  end.

Definition sync_once (self : IoUringSyncer) : M W (result SyncStats io_error) :=
  snapshots ←? read_snapshots;
  let stats := {| cards_read := as_u32 (Z.of_nat (length snapshots)); adjustments_applied := 0;
                  adjustments_skipped := 0; max_offset_ns := 0 |} in
  match snapshots with
  | [] => mret (Ok stats)
  | _ =>
      match find (λ s, card_index s =? primary_index self) snapshots with
      | None => mret (Ok stats)
      | Some s =>
          '(adjustments, stats) ← lift (compute (primary_index self) (tsf_ns s) (threshold_ns self)
                                          snapshots [] stats);
          match adjustments with
          | [] => mret (Ok stats)
          | _ => _ ←? write_adjustments adjustments; mret (Ok stats)
          end
      end
  end.

(** [run]: the results of the cycles, in order, are what is logged. *)
Fixpoint run (fuel : nat) (self : IoUringSyncer) (log : list (result SyncStats io_error))
    : M W (list (result SyncStats io_error)) :=
  match fuel with
  | O => lift OutOfFuel
  | S f =>
      running ← act uring_running;
      if running : bool then
        r ← sync_once self;
        _ ← act (λ w, (tt, thread_sleep (interval self) w));
        run f self (log ++ [r])
      else mret log
  end.

(** [trim_end_matches('\0')] *)
Definition trim_nul (bs : list Z) : list Z :=
  reverse ((fix go l := match l with 0 :: l' => go l' | _ => l end) (reverse bs)).

(** A name as the bytes of its UTF-8 text; [utf8] decides whether bytes are
    valid UTF-8. *)
Definition snapshot_name (utf8 : list Z -> bool) (snap : TsfSnapshot) : list Z :=
  let bytes := take (Nat.min (Z.to_nat (phy_name_len snap)) 32) (phy_name snap) in
  trim_nul (if utf8 bytes then bytes else []).

Definition find_primary_index (utf8 : list Z -> bool) (primary_phy : list Z) : M W (result Z io_error) :=
  let buf := replicate (SNAPSHOT_SIZE * MAX_CARDS) 0 in
  _ ←? act dev_open;
  data ←? act (dev_read (length buf));
  let snaps := chunks SNAPSHOT_SIZE snapshot_read (length data / SNAPSHOT_SIZE)%nat (fill buf data) in
  match find (λ s, bool_decide (snapshot_name utf8 s = primary_phy)) snaps with
  | Some s => mret (Ok (card_index s))
  | None => mret (Err (NotFound (lit "primary phy '" ++ primary_phy ++ lit "' not found in /dev/tsf_sync")))
  end.
End iouring.

(** ** Facts: the computation *)

Definition offset_of (primary_tsf : Z) (s : TsfSnapshot) : Z := primary_tsf - tsf_ns s.

(** The adjustments of a cycle: every card but the primary that is further
    from it than the threshold, by its whole distance. *)
Definition plan (primary primary_tsf threshold : Z) (snaps : list TsfSnapshot) : list TsfAdjustment :=
  flat_map (λ s, if card_index s =? primary then []
                 else if threshold <? Z.abs (offset_of primary_tsf s)
                 then [{| adj_card_index := card_index s; delta_ns := offset_of primary_tsf s |}] else []) snaps.

Definition secondaries (primary : Z) (snaps : list TsfSnapshot) : list TsfSnapshot :=
  filter (λ s, card_index s <> primary) snaps.

Definition max_offset (primary primary_tsf : Z) (snaps : list TsfSnapshot) : Z :=
  foldl (λ m s, Z.max m (Z.abs (offset_of primary_tsf s))) 0 (secondaries primary snaps).

Lemma compute_done `{Build} primary primary_tsf threshold snaps adjs stats :
  Forall (λ s, in_i64 (offset_of primary_tsf s) /\ in_i64 (- offset_of primary_tsf s)) snaps ->
  0 <= adjustments_applied stats -> 0 <= adjustments_skipped stats ->
  adjustments_applied stats + adjustments_skipped stats + Z.of_nat (length snaps) <= 4294967295 ->
  compute primary primary_tsf threshold snaps adjs stats =
  Done (adjs ++ plan primary primary_tsf threshold snaps,
        {| cards_read := cards_read stats;
           adjustments_applied := adjustments_applied stats
             + Z.of_nat (length (plan primary primary_tsf threshold snaps));
           adjustments_skipped := adjustments_skipped stats
             + Z.of_nat (length (secondaries primary snaps))
             - Z.of_nat (length (plan primary primary_tsf threshold snaps));
           max_offset_ns := foldl (λ m s, Z.max m (Z.abs (offset_of primary_tsf s)))
             (max_offset_ns stats) (secondaries primary snaps) |}).
Proof.
  intros Hall. revert adjs stats. induction Hall as [|s snaps [Hi Hi'] _ IH]; intros adjs stats Ha Hs Hn.
  { simpl. rewrite app_nil_r. destruct stats; simpl. f_equal. f_equal. f_equal; lia. }
  cbn [length] in Hn. cbn [compute]. unfold secondaries.
  rewrite filter_cons. fold (secondaries primary snaps).
  unfold plan. cbn [flat_map]. fold (plan primary primary_tsf threshold snaps).
  destruct (Z.eqb_spec (card_index s) primary) as [E|E].
  { rewrite decide_False by tauto. rewrite app_nil_l. apply IH; lia. }
  rewrite decide_True by done. fold (offset_of primary_tsf s).
  rewrite i64_op_in by done. cbn [mbind outcome_bind].
  assert ((if offset_of primary_tsf s <? 0 then i64_op overflow_checks (- offset_of primary_tsf s)
           else Done (offset_of primary_tsf s)) = Done (Z.abs (offset_of primary_tsf s))) as ->.
  { destruct (Z.ltb_spec (offset_of primary_tsf s) 0); [rewrite i64_op_in by done|]; f_equal; lia. }
  cbn [mbind outcome_bind].
  assert (forall m, (if m <? Z.abs (offset_of primary_tsf s) then Z.abs (offset_of primary_tsf s) else m)
          = Z.max m (Z.abs (offset_of primary_tsf s))) as Hmax by (intros m; zbool; lia).
  destruct (Z.ltb_spec threshold (Z.abs (offset_of primary_tsf s))).
  - rewrite u32_op_in by (unfold in_u32; lia). cbn [mbind outcome_bind].
    rewrite IH by (cbn [adjustments_applied adjustments_skipped]; lia).
    cbn [adjustments_applied adjustments_skipped cards_read max_offset_ns].
    rewrite <- app_assoc, Hmax. rewrite !length_app. cbn [length foldl app].
    f_equal. f_equal. f_equal; lia.
  - rewrite u32_op_in by (unfold in_u32; lia). cbn [mbind outcome_bind].
    rewrite IH by (cbn [adjustments_applied adjustments_skipped]; lia).
    cbn [adjustments_applied adjustments_skipped cards_read max_offset_ns].
    rewrite Hmax, app_nil_l. cbn [length foldl]. f_equal. f_equal. f_equal; lia.
Qed.

(** ** The module behind the ring *)

Record KWorld := {
  kst : KState;
  pending : list Sqe;
  completions : list (Z * list Z);
  delays : list (list Z);   (* what passes during the next calls of the device, in microseconds *)
  kflags : list bool;
}.

Definition k_exec (e : Sqe) (ds : list Z) (k : KState) : outcome (Z * list Z) * KState :=
  match e with
  | ReadE n => let '(r, k') := tsf_sync_chardev_read (Z.to_nat n) ds k in (Done r, k')
  | WriteE buf =>
      match tsf_sync_chardev_write buf ds k with
      | (Done r, k') => (Done (r, []), k')
      | (Panic, k') => (Panic, k')
      | (OutOfFuel, k') => (OutOfFuel, k')
      end
  end.

Definition k_submit : M KWorld (result unit io_error) := λ w,
  match pending w with
  | [] => (Done (Ok tt), w)
  | e :: es =>
      let '(o, k') := k_exec e (hd [] (delays w)) (kst w) in
      (match o with Done _ => Done (Ok tt) | Panic => Panic | OutOfFuel => OutOfFuel end,
       {| kst := k'; pending := es;
          completions := completions w ++ (match o with Done r => [r] | _ => [] end);
          delays := tail (delays w); kflags := kflags w |})
  end.

#[export] Instance kworld_uring : Uring KWorld := {|
  dev_open := λ w, (Ok tt, w);
  ring_new := λ _ w, (Ok tt, w);
  ring_push := λ e w, (true, {| kst := kst w; pending := pending w ++ [e]; completions := completions w;
                                delays := delays w; kflags := kflags w |});
  ring_submit_and_wait := k_submit;
  ring_next := λ w, (head (completions w), {| kst := kst w; pending := pending w;
                       completions := tail (completions w); delays := delays w; kflags := kflags w |});
  dev_read := λ n w, let '((_, data), k') := tsf_sync_chardev_read n (hd [] (delays w)) (kst w) in
                     (Ok data, {| kst := k'; pending := pending w; completions := completions w;
                                  delays := tail (delays w); kflags := kflags w |});
  thread_sleep := λ ms w, {| kst := k_elapse (ms * 1000) (kst w); pending := pending w;
                             completions := completions w; delays := delays w; kflags := kflags w |};
  uring_running := λ w, (default false (head (kflags w)),
                         {| kst := kst w; pending := pending w; completions := completions w;
                            delays := delays w; kflags := tail (kflags w) |});
|}.

(** A kernel world between two requests. *)
Definition at_rest (k : KState) (dss : list (list Z)) (fl : list bool) : KWorld :=
  {| kst := k; pending := []; completions := []; delays := dss; kflags := fl |}.

Lemma ring_run_kernel e k dss fl :
  ring_run e (at_rest k dss fl) =
  match k_exec e (hd [] dss) k with
  | (Done r, k') => (Done (Ok r), at_rest k' (tail dss) fl)
  | (Panic, k') => (Panic, at_rest k' (tail dss) fl)
  | (OutOfFuel, k') => (OutOfFuel, at_rest k' (tail dss) fl)
  end.
Proof.
  unfold ring_run. m_unfold. cbn [ring_push ring_submit_and_wait ring_next kworld_uring].
  unfold k_submit. simpl. by destruct (k_exec e _ _) as [[r| |] k'].
Qed.

(** A read with a buffer for all cards gives all snapshots. *)
Lemma chardev_read_all ds k ss k' :
  Forall card_wf (cards k) -> (length (cards k) <= MAX_CARDS)%nat -> read_cards 0 (cards k) ds k = (ss, k') ->
  tsf_sync_chardev_read (SNAPSHOT_SIZE * MAX_CARDS) ds k
  = ((Z.of_nat (length (flat_map snapshot_bytes ss)), flat_map snapshot_bytes ss), k')
  /\ Forall snapshot_wf ss /\ length (flat_map snapshot_bytes ss) = (length ss * SNAPSHOT_SIZE)%nat
  /\ length ss = length (cards k).
Proof.
  intros Hwf Hlen E. destruct (read_cards_spec _ _ _ _ _ _ E) as (_ & _ & Hl & Hj).
  assert (Forall snapshot_wf ss) as Hs.
  { apply Forall_lookup_2. intros j s Hsj. destruct (lookup_lt_is_Some_2 (cards k) j) as [c Hc];
      [rewrite <- Hl; by eapply lookup_lt_Some|].
    destruct (Hj j c Hc) as (s' & t & Hs' & _ & Hat). rewrite Hsj in Hs'. injection Hs' as <-.
    eapply snapshot_at_wf; [exact Hat|by eapply Forall_lookup_1 in Hwf|].
    apply lookup_lt_Some in Hc. unfold MAX_CARDS in Hlen. lia. }
  assert (length (flat_map snapshot_bytes ss) = (length ss * SNAPSHOT_SIZE)%nat) as Hb
    by (apply (length_mjoin_enc SNAPSHOT_SIZE _ snapshot_wf); [intros a Ha; apply length_snapshot_bytes, Ha|done]).
  split_and!; try done. unfold tsf_sync_chardev_read.
  destruct (cards k) as [|c cs]; [by injection E as <- <-|]. rewrite E.
  rewrite Nat.min_r by (rewrite Hb, Hl; unfold SNAPSHOT_SIZE in *; lia). by rewrite take_ge by lia.
Qed.

Lemma read_snapshots_kernel k dss fl ss k' :
  Forall card_wf (cards k) -> (length (cards k) <= MAX_CARDS)%nat ->
  read_cards 0 (cards k) (hd [] dss) k = (ss, k') ->
  read_snapshots (at_rest k dss fl) = (Done (Ok ss), at_rest k' (tail dss) fl) /\ Forall snapshot_wf ss.
Proof.
  intros Hwf Hlen E. destruct (chardev_read_all _ _ _ _ Hwf Hlen E) as (Hr & Hs & Hb & Hl). split; [|done].
  unfold read_snapshots, try_bind, mbind, M_bind. rewrite ring_run_kernel.
  cbn [k_exec]. rewrite length_replicate, Nat2Z.id, Hr. cbn [mbind M_bind].
  rewrite (proj2 (Z.ltb_ge _ 0)) by lia. rewrite Nat2Z.id, Hb, Nat.div_mul by done.
  rewrite (proj2 (Nat.ltb_ge MAX_CARDS _)) by lia. m_unfold.
  do 3 f_equal. unfold fill. by apply snapshots_round_trip.
Qed.

(** ** Facts: a whole cycle over the module *)

(** A card and its snapshot, and the card after the write, its counter read
    and set between [lo] and [hi]. *)
Definition cycle_card (primary primary_tsf threshold kernel_threshold lo hi : Z) (c : Card) (s : TsfSnapshot) (c' : Card) : Prop :=
  let delta := offset_of primary_tsf s in
  if (card_index s =? primary) || negb (threshold <? Z.abs delta) then c' = c
  else adjusted kernel_threshold delta lo hi c c'.

Lemma cycle_card_mono primary P thr kthr lo hi lo' hi' c s c' :
  lo' <= lo -> hi <= hi' -> cycle_card primary P thr kthr lo hi c s c' -> cycle_card primary P thr kthr lo' hi' c s c'.
Proof. unfold cycle_card. intros H1 H2. destruct (_ || _); [done|]. by apply adjusted_mono. Qed.

Lemma k_adjust_all_plan primary P thr suf ss pre ds k :
  cards k = pre ++ suf -> length ss = length suf ->
  (forall j s, ss !! j = Some s -> card_index s = Z.of_nat (length pre + j)) ->
  Forall (λ s, in_i64 (- offset_of P s)) ss ->
  exists ds' k' suf', k_adjust_all (plan primary P thr ss) ds k = Done (ds', k')
    /\ cards k' = pre ++ suf'
    /\ Forall3 (cycle_card primary P thr (adjtime_threshold k) (k_now k) (k_now k')) suf ss suf'
    /\ k_now k <= k_now k' /\ k_now k' + total ds' <= k_now k + total ds
    /\ adjtime_threshold k' = adjtime_threshold k.
Proof.
  revert ss pre ds k. induction suf as [|c suf IH]; intros [|s ss] pre ds k Hk Hl Hidx Hr; try done.
  { exists ds, k, []. do 2 (split; [done|]). split; [constructor|]. split_and!; lia || done. }
  apply Forall_cons_iff in Hr as [Hd Hr]. pose proof (Hidx 0%nat s eq_refl) as Hi. rewrite Nat.add_0_r in Hi.
  assert (forall ds2 k2 c2, cards k2 = pre ++ c2 :: suf -> adjtime_threshold k2 = adjtime_threshold k ->
    k_now k <= k_now k2 -> k_now k2 + total ds2 <= k_now k + total ds ->
    cycle_card primary P thr (adjtime_threshold k) (k_now k) (k_now k2) c s c2 ->
    exists ds' k' suf', k_adjust_all (plan primary P thr ss) ds2 k2 = Done (ds', k')
    /\ cards k' = pre ++ suf'
    /\ Forall3 (cycle_card primary P thr (adjtime_threshold k) (k_now k) (k_now k')) (c :: suf) (s :: ss) suf'
    /\ k_now k <= k_now k' /\ k_now k' + total ds' <= k_now k + total ds
    /\ adjtime_threshold k' = adjtime_threshold k) as Hrest.
  { intros ds2 k2 c2 H1 H2 H3 H4 H5.
    destruct (IH ss (pre ++ [c2]) ds2 k2) as (ds' & k' & suf' & Ha & Hc & HF & Hn & Ht & Hth).
    - by rewrite H1, <- app_assoc.
    - by injection Hl.
    - intros j s' Hj. rewrite length_app. simpl. rewrite (Hidx (S j) s' Hj). lia.
    - done.
    - exists ds', k', (c2 :: suf'). rewrite H2 in HF. split; [done|]. split; [by rewrite Hc, <- app_assoc|].
      split; [|split; [lia|split; [lia|congruence]]]. constructor.
      + eapply cycle_card_mono; [| |exact H5]; lia.
      + eapply Forall3_impl; [exact HF|]. intros x y z. apply cycle_card_mono; lia. }
  assert (plan primary P thr (s :: ss) = (if card_index s =? primary then []
      else if thr <? Z.abs (offset_of P s)
           then [{| adj_card_index := card_index s; delta_ns := offset_of P s |}] else []) ++ plan primary P thr ss) as -> by done.
  unfold cycle_card in Hrest at 1. destruct (card_index s =? primary) eqn:Ep; cbn [orb app] in *.
  { apply (Hrest ds k c); try done; lia. }
  destruct (thr <? Z.abs (offset_of P s)) eqn:Et; cbn [negb app] in *; [|apply (Hrest ds k c); try done; lia].
  cbn [k_adjust_all].
  destruct (k_adjust_card {| adj_card_index := card_index s; delta_ns := offset_of P s |} ds k c)
    as (ds2 & k2 & c2 & Ha & Hc2 & Hadj & Hn2 & Ht2 & Hth2); cbn [adj_card_index delta_ns] in *; try done.
  { by rewrite Hi, Nat2Z.id, Hk, list_lookup_middle. }
  { lia. }
  rewrite Ha. cbn [mbind outcome_bind]. apply (Hrest ds2 k2 c2); try done.
  rewrite Hc2, Hi, Nat2Z.id, Hk. rewrite insert_app_r_alt by done. by rewrite Nat.sub_diag.
Qed.

(** A card's counter, when its interface is up, is for [d] microseconds in the
    range in which its value in nanoseconds fits the snapshot. *)
Definition card_range (k : KState) (d : Z) (c : Card) : Prop :=
  c_vif c = true -> 0 <= c_base c + k_now k /\ c_base c + k_now k + d <= MAX_US.

(** A snapshot's value is that of the counter when it was read, or zero. *)
Lemma snapshot_tsf k d t i c s :
  card_range k d c -> snapshot_at t i c s -> k_now k <= t <= k_now k + d ->
  tsf_ns s = 1000 * (if c_vif c then c_base c + t else 0) /\ 0 <= tsf_ns s <= 1000 * MAX_US.
Proof.
  unfold card_range, MAX_US. intros Hr (_ & _ & _ & -> & _) Ht. destruct (c_vif c); [|split; lia].
  specialize (Hr eq_refl). rewrite as_u64_id by (int_unfold; lia).
  rewrite (as_i64_id (c_base c + t)) by (int_unfold; lia). rewrite as_i64_id by (int_unfold; lia). lia.
Qed.

Lemma find_index (ss : list TsfSnapshot) p s :
  (forall j s, ss !! j = Some s -> card_index s = Z.of_nat j) -> ss !! p = Some s ->
  find (λ s, card_index s =? Z.of_nat p) ss = Some s.
Proof.
  assert (forall off (ss : list TsfSnapshot) p s, (forall j s, ss !! j = Some s -> card_index s = Z.of_nat (off + j)) ->
    ss !! p = Some s -> find (λ s, card_index s =? Z.of_nat (off + p)) ss = Some s) as H; [|by apply (H 0%nat)].
  clear. intros off ss. revert off. induction ss as [|s' ss IH]; intros off [|p] s Hidx Hp; try done; cbn [find].
  - injection Hp as ->. by rewrite (Hidx 0%nat s eq_refl), Z.eqb_refl.
  - rewrite (Hidx 0%nat s' eq_refl), (proj2 (Z.eqb_neq _ _)) by lia.
    replace (off + S p)%nat with (S off + p)%nat by lia. apply IH; [|done].
    intros j x Hj. rewrite (Hidx (S j) x Hj). lia.
Qed.

(** The base the others are brought to by a cycle that begins at [k]: the
    primary's, or, when the primary is down, that of a counter that starts from
    zero as the cycle begins. *)
Definition target_base (k : KState) (primary : Card) : Z :=
  if c_vif primary then c_base primary else - k_now k.

(** What a cycle that takes [late] microseconds makes of a card, when the
    others are brought to base [b]: one that is down or read-only keeps its
    counter; any other either keeps it, or gets one that is off by no more than
    the cycle's time, and in the end it is off by no more than the larger of the
    two thresholds and that time.  If no time passes it is set exactly, when it
    is out of both thresholds, or kept. *)
Definition settled (b threshold kernel_threshold late : Z) (c c' : Card) : Prop :=
  c' = with_base (c_base c') c /\ 0 <= late
  /\ (c_base c' = c_base c \/ Z.abs (c_base c' - b) <= late)
  /\ (late = 0 -> c_base c' = if c_vif c && c_set c && (threshold <? 1000 * Z.abs (b - c_base c))
                                && (kernel_threshold <=? 1000 * Z.abs (b - c_base c))
                             then b else c_base c)
  /\ if c_vif c && c_set c then 1000 * Z.abs (c_base c' - b) <= Z.max threshold (kernel_threshold - 1) + 1000 * late
     else c_base c' = c_base c.

Lemma with_base_id c : with_base (c_base c) c = c.
Proof. by destruct c. Qed.

Lemma settled_kept b thr kthr late c :
  0 <= late -> (c_vif c && c_set c = true ->
    1000 * Z.abs (b - c_base c) <= Z.max thr (kthr - 1) + 1000 * late
    /\ (late = 0 -> 1000 * Z.abs (b - c_base c) <= thr \/ 1000 * Z.abs (b - c_base c) < kthr)) ->
  settled b thr kthr late c c.
Proof.
  intros Hl Hk. split; [by rewrite with_base_id|]. split; [done|]. split; [by left|].
  destruct (c_vif c && c_set c); cbn [andb]; [|done]. destruct (Hk eq_refl) as [H1 H2]. split; [|lia].
  intros H0. specialize (H2 H0). zbool; try done; lia.
Qed.

Lemma cycle_card_settled primary b tp thr kthr n0 n1 n2 tc i c s c' :
  0 <= thr -> n0 <= tp <= n1 -> n1 <= n2 -> 0 <= b + tp <= MAX_US ->
  (c_vif c = true -> 0 <= c_base c + n0 /\ c_base c + n2 <= MAX_US) ->
  snapshot_at tc i c s -> n0 <= tc <= n1 -> card_index s <> primary ->
  tsf_ns s = 1000 * (if c_vif c then c_base c + tc else 0) ->
  cycle_card primary (1000 * (b + tp)) thr kthr n1 n2 c s c' -> settled b thr kthr (n2 - n0) c c'.
Proof.
  unfold MAX_US. intros H0 Htp Hn Hb Hr Hat Htc Hne Hs Hc. unfold cycle_card, offset_of in Hc. rewrite Hs in Hc.
  rewrite (proj2 (Z.eqb_neq _ _) Hne) in Hc. cbn [orb] in Hc.
  destruct (c_vif c) eqn:Hv; cycle 1.
  { assert (c' = c) as -> by (destruct (negb _); [done|]; unfold adjusted in Hc; by rewrite Hv in Hc).
    apply settled_kept; [lia|by rewrite Hv]. }
  specialize (Hr eq_refl). set (delta := 1000 * (b + tp) - 1000 * (c_base c + tc)) in *.
  destruct (Z.ltb_spec thr (Z.abs delta)) as [Ht|Ht]; cbn [negb] in Hc.
  2:{ subst c'. apply settled_kept; [lia|]. intros _. lia. }
  unfold adjusted in Hc. rewrite Hv in Hc. cbn [andb] in Hc.
  destruct (Z.leb_spec kthr (Z.abs delta)) as [Hk|Hk].
  2:{ subst c'. apply settled_kept; [lia|]. intros _. lia. }
  destruct Hc as (t1 & t2 & H1 & H2 & ->). destruct (c_set c) eqn:Hset.
  2:{ apply settled_kept; [lia|]. by rewrite Hset, andb_false_r. }
  assert (Z.quot delta 1000 = b + tp - (c_base c + tc)) as ->.
  { replace delta with ((b + tp - (c_base c + tc)) * 1000) by (subst delta; lia). by rewrite Z.quot_mul. }
  rewrite (as_u64_id (c_base c + t1)) by (int_unfold; lia). rewrite as_u64_id by (int_unfold; lia).
  unfold settled. cbn [with_base c_base]. rewrite Hv, Hset. cbn [andb]. split; [by destruct c|].
  split; [lia|]. split; [right; lia|]. split; [|lia]. intros Hl.
  rewrite (proj2 (Z.ltb_lt _ _)) by lia. rewrite (proj2 (Z.leb_le _ _)) by lia. cbn [andb]. lia.
Qed.

Lemma plan_wf primary primary_tsf threshold snaps :
  Forall (λ s, in_i64 (offset_of primary_tsf s) /\ in_i64 (- offset_of primary_tsf s)) snaps ->
  Forall snapshot_wf snaps -> Forall adjustment_wf (plan primary primary_tsf threshold snaps).
Proof.
  intros Ho Hs. induction Hs as [|s snaps (Hc & _) _ IH]; [constructor|].
  apply Forall_cons_iff in Ho as [[Hi _] Ho]. unfold plan. cbn [flat_map].
  fold (plan primary primary_tsf threshold snaps). apply Forall_app. split; [|by apply IH].
  destruct (_ =? _); [constructor|]. destruct (_ <? _); [|constructor]. constructor; [by split|constructor].
Qed.

Lemma compute_done_zero `{Build} primary primary_tsf threshold snaps :
  Forall (λ s, in_i64 (offset_of primary_tsf s) /\ in_i64 (- offset_of primary_tsf s)) snaps ->
  Z.of_nat (length snaps) <= 4294967295 ->
  exists stats, compute primary primary_tsf threshold snaps []
      {| cards_read := as_u32 (Z.of_nat (length snaps)); adjustments_applied := 0;
         adjustments_skipped := 0; max_offset_ns := 0 |}
      = Done (plan primary primary_tsf threshold snaps, stats)
    /\ cards_read stats = Z.of_nat (length snaps).
Proof.
  intros Hall Hn. rewrite compute_done by (done || (simpl; lia)).
  eexists. split; [reflexivity|]. cbn [cards_read]. apply as_u32_id. unfold in_u32. lia.
Qed.

(** A cycle that has read and computed. *)
Lemma sync_once_eq {W} `{Uring W} `{Build} self (w w1 : W) snaps s adjs stats :
  read_snapshots w = (Done (Ok snaps), w1) ->
  find (λ s, card_index s =? primary_index self) snaps = Some s ->
  compute (primary_index self) (tsf_ns s) (threshold_ns self) snaps []
    {| cards_read := as_u32 (Z.of_nat (length snaps)); adjustments_applied := 0;
       adjustments_skipped := 0; max_offset_ns := 0 |} = Done (adjs, stats) ->
  sync_once self w =
  match adjs with
  | [] => mret (Ok stats)
  | _ => _ ←? write_adjustments adjs; mret (Ok stats)
  end w1.
Proof.
  intros Hr Hf Hc. unfold sync_once. unfold try_bind at 1, mbind at 1, M_bind at 1. rewrite Hr.
  destruct snaps as [|s0 sn]; [done|]. rewrite Hf. unfold mbind, M_bind, lift.
  rewrite Hc. by destruct adjs.
Qed.

(** Writing adjustments to the module applies them in order. *)
Lemma write_adjustments_kernel adjs k dss fl ds' k' :
  Forall adjustment_wf adjs -> adjs <> [] ->
  k_adjust_all adjs (hd [] dss) k = Done (ds', k') ->
  write_adjustments adjs (at_rest k dss fl) = (Done (Ok tt), at_rest k' (tail dss) fl).
Proof.
  intros Hwf Hne Hadj. unfold write_adjustments. unfold try_bind, mbind, M_bind.
  rewrite ring_run_kernel. cbn [k_exec].
  assert (length (flat_map adjustment_bytes adjs) = (length adjs * ADJ_SIZE)%nat) as Hl
    by (apply (length_mjoin_enc ADJ_SIZE _ adjustment_wf); [intros a _; apply length_adjustment_bytes|done]).
  assert (tsf_sync_chardev_write (flat_map adjustment_bytes adjs) (hd [] dss) k
          = (Done (Z.of_nat (length adjs * ADJ_SIZE)), k')) as ->.
  { unfold tsf_sync_chardev_write. rewrite Hl, Nat.div_mul by done.
    destruct adjs as [|a adjs]; [done|]. cbn [length Nat.mul]. cbn [Nat.add ADJ_SIZE].
    rewrite <- (app_nil_r (flat_map adjustment_bytes (a :: adjs))).
    change (S (length adjs)) with (length (a :: adjs)).
    by rewrite adjustments_round_trip, Hadj by done. }
  cbn [mbind M_bind]. by rewrite (proj2 (Z.ltb_ge _ 0)) by lia.
Qed.

Lemma write_adjustments_run {A} (stats : A) adjs k dss fl ds' k' :
  Forall adjustment_wf adjs -> adjs <> [] ->
  k_adjust_all adjs (hd [] dss) k = Done (ds', k') ->
  (match adjs with
   | [] => mret (Ok stats)
   | _ => _ ←? write_adjustments adjs; mret (Ok stats)
   end : M KWorld (result A io_error)) (at_rest k dss fl)
  = (Done (Ok stats), at_rest k' (tail dss) fl).
Proof.
  intros Hwf Hne Hadj. destruct adjs as [|a adjs]; [done|].
  unfold try_bind, mbind, M_bind. by erewrite write_adjustments_kernel.
Qed.

(** The calls of the device that a cycle makes, and the time they take. *)
Definition takes (k k' : KState) (dss dss' : list (list Z)) : Prop :=
  k_now k <= k_now k'
  /\ (dss' = tail dss /\ k_now k' <= k_now k + total (hd [] dss)
      \/ dss' = tail (tail dss) /\ k_now k' <= k_now k + total (hd [] dss) + total (hd [] (tail dss))).
Definition cycle_time (dss : list (list Z)) : Z := total (hd [] dss) + total (hd [] (tail dss)).

(** What a cycle leaves of the cards. *)
Definition cycle_result (self : IoUringSyncer) (p : nat) (primary : Card) (k k' : KState) : Prop :=
  length (cards k') = length (cards k)
  /\ forall i c, cards k !! i = Some c -> exists c', cards k' !! i = Some c'
     /\ if bool_decide (i = p) then c' = c
        else settled (target_base k primary) (threshold_ns self) (adjtime_threshold k) (k_now k' - k_now k) c c'.

Section cycle.
Context `{Build}.
Variables (self : IoUringSyncer) (k : KState) (dss : list (list Z)) (p : nat) (primary : Card).
Hypothesis Hwf : Forall card_wf (cards k).
Hypothesis Hlen : (length (cards k) <= MAX_CARDS)%nat.
Hypothesis Hp : cards k !! p = Some primary.
Hypothesis Hidx : primary_index self = Z.of_nat p.
Hypothesis Hrange : Forall (card_range k (cycle_time dss)) (cards k).
Hypothesis H0 : 0 <= threshold_ns self.

(** The read of a cycle. *)
Lemma cycle_reads ss k1 :
  read_cards 0 (cards k) (hd [] dss) k = (ss, k1) ->
  exists sp tp, ss !! p = Some sp /\ k_now k <= tp <= k_now k1
  /\ tsf_ns sp = 1000 * (target_base k primary + tp) /\ 0 <= target_base k primary + tp <= MAX_US
  /\ find (λ s, card_index s =? primary_index self) ss = Some sp
  /\ Forall (λ s, in_i64 (offset_of (tsf_ns sp) s) /\ in_i64 (- offset_of (tsf_ns sp) s)) ss
  /\ forall i c, cards k !! i = Some c -> exists s t, ss !! i = Some s /\ k_now k <= t <= k_now k1
       /\ snapshot_at t i c s /\ tsf_ns s = 1000 * (if c_vif c then c_base c + t else 0).
Proof using Hlen Hp Hidx Hrange.
  intros E. destruct (read_cards_spec _ _ _ _ _ _ E) as (_ & Hn & Hl & Hj).
  pose proof (total_pos (hd [] (tail dss))) as Ht2.
  assert (forall i c, cards k !! i = Some c -> exists s t, ss !! i = Some s /\ k_now k <= t <= k_now k1
    /\ snapshot_at t i c s /\ tsf_ns s = 1000 * (if c_vif c then c_base c + t else 0) /\ 0 <= tsf_ns s <= 1000 * MAX_US) as Hj'.
  { intros i c Hi. destruct (Hj i c Hi) as (s & t & Hs & Ht & Hat). exists s, t. split; [done|]. split; [done|]. split; [done|].
    eapply snapshot_tsf; [by apply (Forall_lookup_1 _ _ _ _ Hrange Hi)|exact Hat|unfold cycle_time; lia]. }
  destruct (Hj' p primary Hp) as (sp & t & Hsp & Ht & Hat & Hts & Hb).
  assert (exists tp, k_now k <= tp <= k_now k1 /\ tsf_ns sp = 1000 * (target_base k primary + tp)) as (tp & Htp & Htsp).
  { unfold target_base. destruct (c_vif primary); [by exists t|]. exists (k_now k). split; lia. }
  exists sp, tp. split; [done|]. split; [done|]. split; [done|]. split; [unfold MAX_US in *; lia|]. split; [|split].
  - rewrite Hidx. apply find_index; [|done]. intros j s Hs.
    destruct (lookup_lt_is_Some_2 (cards k) j) as [c Hc]; [rewrite <- Hl; by eapply lookup_lt_Some|].
    destruct (Hj j c Hc) as (s' & t' & Hs' & _ & (Hi & _)). rewrite Hs in Hs'. injection Hs' as <-. done.
  - apply Forall_lookup_2. intros j s Hs.
    destruct (lookup_lt_is_Some_2 (cards k) j) as [c Hc]; [rewrite <- Hl; by eapply lookup_lt_Some|].
    destruct (Hj' j c Hc) as (s' & t' & Hs' & _ & _ & _ & Hr). rewrite Hs in Hs'. injection Hs' as <-.
    unfold offset_of, in_i64, MAX_US in *. lia.
  - intros i c Hi. destruct (Hj' i c Hi) as (s & t' & ? & ? & ? & ? & _). by exists s, t'.
Qed.

(** What the write makes of the cards. *)
Lemma cycle_settles ss k1 sp k' cs' :
  read_cards 0 (cards k) (hd [] dss) k = (ss, k1) ->
  (exists tp, k_now k <= tp <= k_now k1 /\ tsf_ns sp = 1000 * (target_base k primary + tp)
    /\ 0 <= target_base k primary + tp <= MAX_US) -> ss !! p = Some sp ->
  (forall i c, cards k !! i = Some c -> exists s t, ss !! i = Some s /\ k_now k <= t <= k_now k1
       /\ snapshot_at t i c s /\ tsf_ns s = 1000 * (if c_vif c then c_base c + t else 0)) ->
  k_now k1 <= k_now k' -> k_now k' <= k_now k + cycle_time dss -> cards k' = cs' ->
  Forall3 (cycle_card (primary_index self) (tsf_ns sp) (threshold_ns self) (adjtime_threshold k) (k_now k1) (k_now k'))
    (cards k) ss cs' ->
  cycle_result self p primary k k'.
Proof using Hlen Hp Hidx Hrange H0.
  intros E (tp & Htp & Hts & Hb) Hsp Hall Hn1 Hn2 <- HF. split.
  { symmetry. by eapply Forall3_length_lr. }
  intros i c Hi. destruct (Hall i c Hi) as (s & t & Hs & Ht & Hat & Htsf).
  destruct (Forall3_lookup_l _ _ _ _ _ _ HF Hi) as (s' & c' & Hs' & Hc' & Hcy). rewrite Hs in Hs'. injection Hs' as <-.
  exists c'. split; [done|].
  pose proof (proj1 Hat) as Hci. destruct (decide (i = p)) as [->|Hne].
  - rewrite bool_decide_eq_true_2 by done. unfold cycle_card in Hcy. by rewrite Hci, Hidx, Z.eqb_refl in Hcy.
  - rewrite bool_decide_eq_false_2 by done. rewrite Hts in Hcy.
    eapply (cycle_card_settled _ _ tp _ _ (k_now k) (k_now k1) (k_now k') t); try done; [|rewrite Hci, Hidx; lia].
    intros Hv. pose proof (Forall_lookup_1 _ _ _ _ Hrange Hi Hv). lia.
Qed.

Lemma sync_once_cycle fl :
  exists stats k' dss', sync_once self (at_rest k dss fl) = (Done (Ok stats), at_rest k' dss' fl)
    /\ cards_read stats = Z.of_nat (length (cards k)) /\ adjtime_threshold k' = adjtime_threshold k
    /\ takes k k' dss dss' /\ cycle_result self p primary k k'.
Proof using Hwf Hlen Hp Hidx Hrange H0.
  destruct (read_cards 0 (cards k) (hd [] dss) k) as [ss k1] eqn:E.
  destruct (read_snapshots_kernel k dss fl ss k1 Hwf Hlen E) as [Hread Hswf].
  destruct (read_cards_spec _ _ _ _ _ _ E) as (Hk1 & Hn1 & Hl & Hj).
  destruct (cycle_reads ss k1 E) as (sp & tp & Hsp & Htp & Hts & Hb & Hfind & Hoff & Hall).
  destruct (compute_done_zero (primary_index self) (tsf_ns sp) (threshold_ns self) ss) as (stats & Hcomp & Hcr);
    [done|unfold MAX_CARDS in Hlen; lia|].
  erewrite sync_once_eq; [|exact Hread|exact Hfind|exact Hcomp]. exists stats.
  destruct (k_adjust_all_plan (primary_index self) (tsf_ns sp) (threshold_ns self) (cards k) ss [] (hd [] (tail dss)) k1)
    as (ds' & k' & cs' & Hadj & Hc' & HF & Hn' & Hd' & Hth').
  { by rewrite Hk1. }
  { done. }
  { intros j s Hs. destruct (lookup_lt_is_Some_2 (cards k) j) as [c Hc]; [rewrite <- Hl; by eapply lookup_lt_Some|].
    destruct (Hj j c Hc) as (s' & t' & Hs' & _ & (Hi & _)). rewrite Hs in Hs'. by injection Hs' as <-. }
  { eapply Forall_impl; [exact Hoff|]. by intros s [_ ?]. }
  rewrite Hk1 in Hth', HF. cbn [at_time with_cards_now adjtime_threshold k_now] in Hth', HF.
  pose proof (total_pos ds') as Hpos. pose proof (total_pos (hd [] (tail dss))) as Hpos2. cbn [app] in Hc'.
  assert (cycle_result self p primary k k') as Hres.
  { eapply (cycle_settles ss k1 sp k' cs'); try done; [by exists tp|unfold cycle_time; lia]. }
  destruct (decide (plan (primary_index self) (tsf_ns sp) (threshold_ns self) ss = [])) as [Hplan|Hne].
  - rewrite Hplan in *. cbn [k_adjust_all] in Hadj. injection Hadj as <- <-. exists k1, (tail dss).
    split; [reflexivity|]. split; [by rewrite Hcr, Hl|]. split; [done|]. split; [|done]. split; [lia|left]. split; [done|lia].
  - assert (Forall adjustment_wf (plan (primary_index self) (tsf_ns sp) (threshold_ns self) ss)) as Hwfp
      by (by apply plan_wf).
    erewrite write_adjustments_run; [|exact Hwfp|exact Hne|exact Hadj].
    exists k', (tail (tail dss)). split; [reflexivity|]. split; [by rewrite Hcr, Hl|]. split; [done|]. split; [|done].
    split; [lia|right]. split; [done|]. lia.
Qed.
End cycle.

(** ** Properties *)

(** A cycle computes, for the snapshots read, the adjustment of every card
    but the primary that is further from it than the threshold, by its whole
    signed distance and in the order read; it counts them and the others, and
    reports the largest distance. *)
Theorem compute_plan `{Build} (primary primary_tsf threshold : Z) (snaps : list TsfSnapshot) (n : Z) :
  Forall (λ s, in_i64 (offset_of primary_tsf s) /\ in_i64 (- offset_of primary_tsf s)) snaps ->
  Z.of_nat (length snaps) <= 4294967295 ->
  exists stats, compute primary primary_tsf threshold snaps []
      {| cards_read := n; adjustments_applied := 0; adjustments_skipped := 0; max_offset_ns := 0 |}
      = Done (plan primary primary_tsf threshold snaps, stats)
    /\ cards_read stats = n
    /\ adjustments_applied stats = Z.of_nat (length (plan primary primary_tsf threshold snaps))
    /\ adjustments_applied stats + adjustments_skipped stats = Z.of_nat (length (secondaries primary snaps))
    /\ max_offset_ns stats = max_offset primary primary_tsf snaps.
Proof.
  intros Hall Hn. rewrite compute_done by (done || (simpl; lia)).
  eexists. split; [reflexivity|]. cbn [cards_read adjustments_applied adjustments_skipped max_offset_ns].
  split_and!; try done; lia.
Qed.

(** C6: one cycle over the module's device, time passing before and between all
    accesses to counters.  It reads every card, and then every other card that
    is up and writable is off from the primary by no more than the larger
    threshold and the time the cycle took; one that was changed only by that
    time; and if it took none, exactly the cards out of both thresholds were
    changed, to the primary's counter.  The primary and the cards that are down
    or read-only are left alone.  Counters that are up must fit the snapshot's
    nanoseconds.  (When the primary's interface is down its
    snapshot reads zero, and what the others are brought to is instead a counter
    that starts from zero as the cycle begins.) *)
Theorem sync_once_aligns `{Build} (self : IoUringSyncer) (k : KState) (dss : list (list Z))
    (fl : list bool) (p : nat) (primary : Card) :
  let b := if c_vif primary then c_base primary else - k_now k in
  Forall card_wf (cards k) -> (length (cards k) <= MAX_CARDS)%nat ->
  cards k !! p = Some primary -> primary_index self = Z.of_nat p ->
  Forall (card_range k (cycle_time dss)) (cards k) -> 0 <= threshold_ns self ->
  exists stats k' dss', sync_once self (at_rest k dss fl) = (Done (Ok stats), at_rest k' dss' fl)
    /\ cards_read stats = Z.of_nat (length (cards k)) /\ length (cards k') = length (cards k)
    /\ 0 <= k_now k' - k_now k <= cycle_time dss
    /\ forall i c, cards k !! i = Some c -> exists c', cards k' !! i = Some c'
       /\ if bool_decide (i = p) then c' = c
          else settled b (threshold_ns self) (adjtime_threshold k) (k_now k' - k_now k) c c'.
Proof.
  intros b Hwf Hlen Hp Hidx Hr H0.
  destruct (sync_once_cycle self k dss p primary Hwf Hlen Hp Hidx Hr H0 fl)
    as (stats & k' & dss' & Hs & Hcr & _ & [Hn Ht] & Hl & Hc).
  exists stats, k', dss'. split; [done|]. split; [done|]. split; [done|]. split; [|exact Hc].
  pose proof (total_pos (hd [] (tail dss))). unfold cycle_time. destruct Ht as [[_ ?]|[_ ?]]; lia.
Qed.

Lemma trim_nul_id bs : last bs <> Some 0 -> trim_nul bs = bs.
Proof.
  intros Hl. unfold trim_nul. rewrite <- (reverse_involutive bs) at 2. f_equal.
  destruct (reverse bs) as [|b l] eqn:E; [done|].
  assert (bs = reverse l ++ [b]) as -> by (rewrite <- (reverse_involutive bs), E; apply reverse_cons).
  rewrite last_snoc in Hl. destruct b; done.
Qed.

(** A phy's name, as the module copies it into a snapshot and user space takes
    it out again. *)
Lemma snapshot_name_kernel utf8 t i c s :
  snapshot_at t i c s -> card_wf c -> utf8 (c_phy c) = true -> last (c_phy c) <> Some 0 ->
  snapshot_name utf8 s = c_phy c.
Proof.
  intros (_ & Hl' & Hn & _) Hw Hu Hl. unfold card_wf in Hw. unfold snapshot_name. rewrite Hl', Hn.
  rewrite Nat2Z.id, take_take, Nat.min_l, Nat.min_l by lia.
  rewrite take_app_length, Hu. by apply trim_nul_id.
Qed.

Definition named_well (utf8 : list Z -> bool) (c : Card) : Prop :=
  card_wf c /\ utf8 (c_phy c) = true /\ last (c_phy c) <> Some 0.

Lemma find_named utf8 name off cs ss :
  Forall (named_well utf8) cs -> length ss = length cs ->
  (forall j c, cs !! j = Some c -> exists s t, ss !! j = Some s /\ snapshot_at t (off + j) c s) ->
  card_index <$> find (λ s, bool_decide (snapshot_name utf8 s = name)) ss
  = (λ '(i, c), Z.of_nat (off + i)) <$> list_find (λ c, c_phy c = name) cs.
Proof.
  intros Hcs. revert off ss. induction Hcs as [|c cs (Hw & Hu & Hl) _ IH]; intros off [|s ss] Hlen Hj; try done.
  destruct (Hj 0%nat c eq_refl) as (s' & t & [= <-] & Hat). rewrite Nat.add_0_r in Hat.
  cbn [find list_find]. rewrite (snapshot_name_kernel utf8 t off c s) by done. case_bool_decide as E.
  - rewrite decide_True by done. simpl. by rewrite (proj1 Hat), Nat.add_0_r.
  - rewrite decide_False by done. rewrite (IH (S off)); [|by injection Hlen|].
    + destruct (list_find _ cs) as [[i c']|]; [|done]. simpl. by replace (off + S i)%nat with (S (off + i)) by lia.
    + intros j c' Hc'. replace (S off + j)%nat with (off + S j)%nat by lia. by apply (Hj (S j)).
Qed.

(** Looking the primary up by name finds the position of the first card of
    that name, the index the other calls use, and reports an error when there
    is none; the read takes time and changes nothing. *)
Theorem find_primary_index_spec (utf8 : list Z -> bool) (name : list Z) (k : KState) (dss : list (list Z)) (fl : list bool) :
  Forall (named_well utf8) (cards k) -> (length (cards k) <= MAX_CARDS)%nat ->
  exists now, k_now k <= now <= k_now k + total (hd [] dss)
  /\ find_primary_index utf8 name (at_rest k dss fl) =
  (Done (match list_find (λ c, c_phy c = name) (cards k) with
         | Some (i, _) => Ok (Z.of_nat i)
         | None => Err (NotFound (lit "primary phy '" ++ name ++ lit "' not found in /dev/tsf_sync"))
         end), at_rest (at_time now k) (tail dss) fl).
Proof.
  intros Hall Hlen. unfold find_primary_index. m_unfold. cbn [dev_open dev_read kworld_uring at_rest kst delays].
  rewrite length_replicate. destruct (read_cards 0 (cards k) (hd [] dss) k) as [ss k'] eqn:E.
  destruct (read_cards_spec _ _ _ _ _ _ E) as (Hk' & Hn & _ & Hj).
  destruct (chardev_read_all (hd [] dss) k ss k') as (Hr & Hs & Hb & Hl);
    [eapply Forall_impl; [exact Hall|]; by intros c (? & _)|done..|].
  exists (k_now k'). split; [done|]. rewrite Hr. cbn [fst snd]. rewrite Hb, Nat.div_mul by done.
  unfold fill. rewrite snapshots_round_trip by done. rewrite <- Hk'.
  assert (forall j c, cards k !! j = Some c -> exists s t, ss !! j = Some s /\ snapshot_at t (0 + j) c s) as Hj'.
  { intros j c Hc. destruct (Hj j c Hc) as (s & t & ? & _ & ?). by exists s, t. }
  pose proof (find_named utf8 name 0 (cards k) ss Hall Hl Hj') as Hf.
  destruct (find (λ s, bool_decide (snapshot_name utf8 s = name)) ss) as [s|],
    (list_find (λ c, c_phy c = name) (cards k)) as [[i c]|]; simpl in Hf; try done. by injection Hf as ->.
Qed.

(** ** Witnesses *)

(** A snapshot of a card with this base at time 50. *)
Definition demo_snapshot (i : nat) (base : Z) : TsfSnapshot := k_snapshot demo_kernel demo_kernel i (fresh_card [] true true base).

Lemma compute_plan_witness :
  exists stats, @compute release_x86 0 5000 100 [demo_snapshot 0 (-45); demo_snapshot 1 (-48)] []
      {| cards_read := 2; adjustments_applied := 0; adjustments_skipped := 0; max_offset_ns := 0 |}
    = Done ([{| adj_card_index := 1; delta_ns := 3000 |}], stats)
    /\ max_offset_ns stats = 3000.
Proof.
  destruct (@compute_plan release_x86 0 5000 100 [demo_snapshot 0 (-45); demo_snapshot 1 (-48)] 2)
    as (stats & H & _ & _ & _ & Hm).
  - apply (bool_decide_unpack _). vm_compute. reflexivity.
  - simpl. lia.
  - exists stats. split; [exact H|exact Hm].
Defined.

Definition demo_syncer : IoUringSyncer := {| primary_index := 0; threshold_ns := 5000; interval := 10 |}.

(** A cycle of 60 microseconds: the second card is read 3 after the first and
    set 6 after it was read again, and ends up 9 behind. *)
Lemma sync_once_aligns_witness :
  exists stats k' dss', @sync_once KWorld _ release_x86 demo_syncer (at_rest demo_kernel [[2; 1; 2]; [47; 6]] [])
      = (Done (Ok stats), at_rest k' dss' [])
    /\ c_base <$> cards k' = [1000000; 999991]
    /\ exists c', cards k' !! 1%nat = Some c' /\ 1000 * Z.abs (c_base c' - 1000000) <= 63000.
Proof.
  destruct (@sync_once_aligns release_x86 demo_syncer demo_kernel [[2; 1; 2]; [47; 6]] [] 0
              (fresh_card (lit "phy0") true true 1000000)) as (stats & k' & dss' & H & _ & _ & Ht & Hc).
  - repeat constructor; vm_compute; lia.
  - vm_compute. lia.
  - reflexivity.
  - reflexivity.
  - repeat constructor; vm_compute; congruence.
  - simpl. lia.
  - exists stats, k', dss'. split; [exact H|]. split.
    + vm_compute in H. injection H as _ <- _. vm_compute. reflexivity.
    + destruct (Hc 1%nat (fresh_card (lit "phy1") true true 999000)) as (c' & Hc' & Hs); [reflexivity|].
      exists c'. split; [exact Hc'|]. destruct Hs as (_ & _ & _ & _ & Hs).
      change (cycle_time [[2; 1; 2]; [47; 6]]) with 58 in Ht. cbn [fresh_card c_vif c_set andb demo_syncer threshold_ns] in Hs.
      change (adjtime_threshold demo_kernel) with 5000 in Hs. change (c_base (fresh_card _ _ _ 1000000)) with 1000000 in Hs. lia.
Defined.

Lemma find_primary_index_spec_witness :
  exists now, find_primary_index (λ _, true) (lit "phy1") (at_rest demo_kernel [[3; 1]] [])
  = (Done (Ok 1), at_rest (at_time now demo_kernel) [] []).
Proof.
  destruct (find_primary_index_spec (λ _, true) (lit "phy1") demo_kernel [[3; 1]] []) as (now & _ & H).
  - repeat constructor; vm_compute; try lia; congruence.
  - vm_compute. lia.
  - exists now. exact H.
Defined.
