(* ===== verification/KernelSync.v ===== *)
(** * The module's PTP clocks and its own loop (kernel/tsf_ptp.c)

    The operations of a card's PTP clock and the work function of mode B, over
    the list of cards that the character device serves too.  Time passes
    before each access to a card's counter, by the delays of a list. *)

From S2P Require Import Prelude Ints Text Sys SyncMode Chardev IoUring.

(** ** Definitions *)

Definition set_card (i : nat) (c : Card) (k : KState) : KState := with_cards (<[i := c]> (cards k)) k.

Definition ENODEV : Z := 19.

(** Writing a parameter of the loaded module; [sync_mode] belongs to [Netdev]. *)
Definition set_params (threshold : Z) (primary : list Z) (interval : Z) (k : KState) : KState :=
  {| cards := cards k; adjtime_threshold := threshold; k_now := k_now k; adjtime_skip_count := adjtime_skip_count k;
     adjtime_apply_count := adjtime_apply_count k; sync_primary := primary; sync_interval_ms := interval;
     global_sync_count := global_sync_count k; global_sync_error_count := global_sync_error_count k |}.

Inductive param_write (k : KState) : KState -> Prop :=
  | write_adjtime_threshold_ns v : in_u32 v -> param_write k (set_params v (sync_primary k) (sync_interval_ms k) k)
  | write_sync_primary v : param_write k (set_params (adjtime_threshold k) v (sync_interval_ms k) k)
  | write_sync_interval_ms v : in_u32 v -> param_write k (set_params (adjtime_threshold k) (sync_primary k) v k).

(** *** The PTP operations of the card at position [i]

    [ptp_info] lies inside the card, so that the card exists ([Panic]
    otherwise).  Times are nanoseconds; the kernel converts them from and to
    [timespec64]. *)

Definition on_card {A} (i : nat) (f : Card -> A * KState) (k : KState) : outcome A * KState :=
  match cards k !! i with
  | Some c => let '(a, k') := f c in (Done a, k')
  | None => (Panic, k)
  end.

Definition tsf_ptp_gettime (i : nat) (k : KState) : outcome (result Z Z) * KState :=
  on_card i (λ c, (if c_vif c then Ok (as_i64 (as_i64 (k_get_tsf k c) * 1000)) else Err (- ENODEV), k)) k.

Definition tsf_ptp_settime (i : nat) (ns : Z) (k : KState) : outcome Z * KState :=
  on_card i (λ c, if c_vif c then (0, set_card i (k_set_tsf (as_u64 ns / 1000) k c) k) else (- ENODEV, k)) k.

Definition below_threshold (delta_ns : Z) (k : KState) : bool :=
  (0 <? adjtime_threshold k) && ((if delta_ns <? 0 then as_i64 (- delta_ns) else delta_ns) <? adjtime_threshold k).

Definition tsf_ptp_adjtime (i : nat) (delta_ns : Z) (ds : list Z) (k : KState) : outcome Z * KState :=
  on_card i (λ c,
    if below_threshold delta_ns k then (0, inc_skip k)
    else if c_vif c then
      let k1 := k_elapse (hd 0 ds) k in
      let tsf_usec := k_get_tsf k1 c in
      let k2 := k_elapse (hd 0 (tail ds)) k1 in
      (0, inc_apply (set_card i (k_set_tsf (as_u64 (tsf_usec + Z.quot delta_ns 1000)) k2 c) k2))
    else (- ENODEV, k)) k.

(** The entries [settime64] and [adjtime] of a card's table of operations: no
    function, if the driver cannot set the counter. *)
Definition settime64_op (i : nat) (c : Card) : option (Z -> KState -> outcome Z * KState) :=
  if c_set c then Some (tsf_ptp_settime i) else None.
Definition adjtime_op (i : nat) (c : Card) : option (Z -> list Z -> KState -> outcome Z * KState) :=
  if c_set c then Some (tsf_ptp_adjtime i) else None.

Definition tsf_ptp_adjfine (i : nat) (scaled_ppm : Z) (k : KState) : outcome Z * KState :=
  on_card i (λ c, (0, k)) k.

(** The cross time stamp: the two system clocks, as functions of the machine's
    clock, read around the counter. *)
Record CrossTimestamp := { sys_monoraw : Z; sys_realtime : Z; device : Z }.

Definition tsf_ptp_getcrosststamp (raw real : Z -> Z) (d1 d2 : Z) (i : nat) (k : KState)
    : outcome (result CrossTimestamp Z) * KState :=
  on_card i (λ c,
    if c_vif c then
      let k1 := k_elapse d1 k in
      let k2 := k_elapse d2 k1 in
      (Ok {| sys_monoraw := raw (k_now k); sys_realtime := real (k_now k2);
             device := as_i64 (as_i64 (k_get_tsf k1 c) * 1000) |}, k2)
    else (Err (- ENODEV), k)) k.

(** *** Mode B *)

Definition find_primary_locked (k : KState) : option nat :=
  match sync_primary k with
  | [] => match cards k with [] => None | _ => Some O end
  | prim => fst <$> list_find (λ c, c_phy c = prim) (cards k)
  end.

Definition with_last_offset (delta_ns : Z) (c : Card) : Card :=
  {| c_phy := c_phy c; c_vif := c_vif c; c_set := c_set c; c_base := c_base c; c_last_offset := delta_ns;
     c_sync_count := c_sync_count c; c_sync_errors := c_sync_errors c |}.
Definition add_card_counts (done errors : Z) (c : Card) : Card :=
  {| c_phy := c_phy c; c_vif := c_vif c; c_set := c_set c; c_base := c_base c; c_last_offset := c_last_offset c;
     c_sync_count := c_sync_count c + done; c_sync_errors := c_sync_errors c + errors |}.

(** One secondary. *)
Definition sync_card (primary_tsf threshold : Z) (i : nat) (c : Card) (ds : list Z) (k : KState)
    : list Z * KState :=
  if negb (c_vif c) then (ds, set_card i (add_card_counts 0 1 c) k)
  else
    let k := k_elapse (hd 0 ds) k in
    let delta_ns := as_i64 (as_i64 (primary_tsf - k_get_tsf k c) * 1000) in
    let c := with_last_offset delta_ns c in
    if (threshold =? 0) || (threshold <=? (if delta_ns <? 0 then as_i64 (- delta_ns) else delta_ns)) then
      let k := k_elapse (hd 0 (tail ds)) k in
      (tail (tail ds), set_card i (add_card_counts 1 0 (k_set_tsf primary_tsf k c)) (inc_apply k))
    else (tail ds, set_card i (add_card_counts 1 0 c) (inc_skip k)).

(** The loop over the list, from position [i] on. *)
Fixpoint sync_cards (todo : nat) (primary : nat) (primary_tsf threshold : Z) (i : nat) (ds : list Z) (k : KState)
    : list Z * KState :=
  match todo with
  | O => (ds, k)
  | S todo =>
      match cards k !! i with
      | None => (ds, k)
      | Some c =>
          let '(ds, k) := if bool_decide (i = primary) then (ds, k)
                          else sync_card primary_tsf threshold i c ds k in
          sync_cards todo primary primary_tsf threshold (S i) ds k
      end
  end.

(** The work function; also the delay after which it is scheduled again. *)
Definition tsf_sync_work_fn (ds : list Z) (k : KState) : KState * Z :=
  let interval := if sync_interval_ms k =? 0 then 10 else sync_interval_ms k in
  let threshold := adjtime_threshold k in
  match find_primary_locked k with
  | None => (add_sync 0 1 k, interval)
  | Some p =>
      match cards k !! p with
      | None => (add_sync 0 1 k, interval)
      | Some primary =>
          if negb (c_vif primary) then (add_sync 0 1 k, interval)
          else
            let k := k_elapse (hd 0 ds) k in
            let primary_tsf := k_get_tsf k primary in
            let '(_, k) := sync_cards (length (cards k)) p primary_tsf threshold O (tail ds) k in
            (add_sync 1 0 k, interval)
      end
  end.

Example work_fn_demo :
  c_base <$> cards (tsf_sync_work_fn [3; 1; 1] demo_kernel).1 = [1000000; 999998]
  /\ (tsf_sync_work_fn [] demo_kernel).2 = 10.
Proof. done. Qed.

(** ** Facts *)

Lemma set_card_cards i c k : cards (set_card i c k) = <[i := c]> (cards k).
Proof. done. Qed.
Lemma set_card_now i c k : k_now (set_card i c k) = k_now k.
Proof. done. Qed.

(** What a cycle that saw the primary on base [b] makes of another card, when
    [late] microseconds pass between the reading of the primary and the end. *)
Definition synced (b threshold late : Z) (c c' : Card) : Prop :=
  c_phy c' = c_phy c /\ c_vif c' = c_vif c /\ c_set c' = c_set c /\ 0 <= late
  /\ (late = 0 -> c_base c' = if c_vif c && c_set c && ((threshold =? 0) || (threshold <=? 1000 * Z.abs (b - c_base c)))
                              then b else c_base c)
  /\ if c_vif c && c_set c then 1000 * Z.abs (c_base c' - b) <= Z.max 0 (threshold - 1) + 1000 * late
     else c_base c' = c_base c.

Lemma synced_later b threshold late late' c c' : synced b threshold late c c' -> late <= late' -> synced b threshold late' c c'.
Proof.
  intros (? & ? & ? & ? & He & Hs) Hl. do 3 (split; [done|]). split; [lia|].
  split; [intros; apply He; lia|]. destruct (c_vif c && c_set c); lia || done.
Qed.

Lemma sync_card_spec b t1 threshold i c ds k ds' k' :
  0 <= b + t1 <= MAX_US -> t1 <= k_now k -> 0 <= threshold ->
  cards k !! i = Some c -> (c_vif c = true -> 0 <= c_base c + k_now k /\ c_base c + k_now k + total ds <= MAX_US) ->
  sync_card (b + t1) threshold i c ds k = (ds', k') ->
  exists c', cards k' = <[i := c']> (cards k) /\ synced b threshold (k_now k' - t1) c c'
    /\ k_now k <= k_now k' /\ k_now k' + total ds' <= k_now k + total ds.
Proof.
  unfold MAX_US. intros Hp Ht H0 Hc Hr. unfold sync_card. destruct (c_vif c) eqn:Hv; cbn [negb].
  2:{ intros [= <- <-]. eexists. split; [done|]. cbn [set_card with_cards with_cards_now k_now].
      split; [|lia]. unfold synced. cbn [add_card_counts c_phy c_vif c_set c_base]. rewrite Hv.
      do 3 (split; [done|]). split; [lia|done]. }
  specialize (Hr eq_refl). destruct (total_step ds) as [Hd1 Hd2]. destruct (total_step (tail ds)) as [Hd3 Hd4].
  set (k1 := k_elapse (hd 0 ds) k). assert (k_now k1 = k_now k + Z.abs (hd 0 ds)) as Hk1 by done.
  assert (as_i64 (as_i64 (b + t1 - k_get_tsf k1 c) * 1000) = (b + t1 - (c_base c + k_now k1)) * 1000) as ->.
  { unfold k_get_tsf. rewrite as_u64_id by (int_unfold; lia).
    rewrite (as_i64_id (b + t1 - _)) by (int_unfold; lia). rewrite as_i64_id by (int_unfold; lia). done. }
  set (delta := (b + t1 - (c_base c + k_now k1)) * 1000).
  assert ((if delta <? 0 then as_i64 (- delta) else delta) = Z.abs delta) as ->
    by (rewrite as_i64_id by (int_unfold; lia); zbool; lia).
  set (k2 := k_elapse (hd 0 (tail ds)) k1). assert (k_now k2 = k_now k1 + Z.abs (hd 0 (tail ds))) as Hk2 by done.
  destruct ((threshold =? 0) || (threshold <=? Z.abs delta)) eqn:Happ; intros [= <- <-]; eexists; (split; [done|]);
    cbn [set_card with_cards with_cards_now inc_apply inc_skip add_counts k_now].
  - split; [|lia]. unfold synced, k_set_tsf. cbn [c_set with_last_offset].
    destruct (c_set c) eqn:Hs; cbn [with_base with_last_offset add_card_counts c_phy c_vif c_set c_base];
      rewrite Hv; do 3 (split; [done|]); (split; [lia|]); cbn [andb]; [|done]. split; [|lia].
    intros Hl. assert (delta = 1000 * (b - c_base c)) as Hd by (subst delta; lia).
    assert (Z.abs delta = 1000 * Z.abs (b - c_base c)) as Ha by lia. rewrite <- Ha, Happ. lia.
  - split; [|lia]. unfold synced. cbn [with_last_offset add_card_counts c_phy c_vif c_set c_base]. rewrite Hv.
    do 3 (split; [done|]). split; [lia|]. cbn [andb]. destruct (c_set c); [|done]. split.
    + intros Hl. assert (delta = 1000 * (b - c_base c)) as Hd by (subst delta; lia).
      assert (Z.abs delta = 1000 * Z.abs (b - c_base c)) as Ha by lia. by rewrite <- Ha, Happ.
    + apply orb_false_iff in Happ as [Hz Hlt]. lia.
Qed.

Lemma sync_cards_spec p b t1 threshold todo i ds k ds' k' :
  0 <= b + t1 <= MAX_US -> t1 <= k_now k -> 0 <= threshold -> length (cards k) = (i + todo)%nat ->
  (forall j c, (i <= j)%nat -> cards k !! j = Some c -> c_vif c = true ->
     0 <= c_base c + k_now k /\ c_base c + k_now k + total ds <= MAX_US) ->
  sync_cards todo p (b + t1) threshold i ds k = (ds', k') ->
  length (cards k') = length (cards k) /\ k_now k <= k_now k' /\ k_now k' + total ds' <= k_now k + total ds
  /\ forall j c, cards k !! j = Some c -> exists c', cards k' !! j = Some c'
     /\ if bool_decide (j < i)%nat || bool_decide (j = p) then c' = c
        else synced b threshold (k_now k' - t1) c c'.
Proof.
  revert i ds k. induction todo as [|todo IH]; intros i ds k Hp Ht H0 Hlen Hr; cbn [sync_cards].
  { intros [= <- <-]. split; [done|]. split; [lia|]. split; [lia|]. intros j c Hj. exists c. split; [done|].
    pose proof (lookup_lt_Some _ _ _ Hj). by rewrite bool_decide_eq_true_2 by lia. }
  destruct (lookup_lt_is_Some_2 (cards k) i) as [c Hc]; [lia|]. rewrite Hc.
  destruct (decide (i = p)) as [->|Hne].
  - rewrite bool_decide_eq_true_2 by done. intros E.
    destruct (IH (S p) ds k) as (Hl & Hn & Hd & Hj); try done; [lia|intros j c' Hj; apply Hr; lia|].
    split; [done|]. split; [done|]. split; [done|]. intros j c' Hc'. destruct (Hj j c' Hc') as (c2 & Hc2 & Hs). exists c2.
    split; [done|]. destruct (decide (j = p)) as [->|Hjp].
    + rewrite (bool_decide_eq_true_2 (p = p)) in Hs |- * by done. rewrite orb_true_r in *. done.
    + rewrite (bool_decide_eq_false_2 (j = p)) in Hs |- * by done. rewrite orb_false_r in *.
      rewrite (bool_decide_ext (j < S p)%nat (j < p)%nat) in Hs by lia. done.
  - rewrite bool_decide_eq_false_2 by done.
    destruct (sync_card (b + t1) threshold i c ds k) as [ds1 k1] eqn:E1. intros E.
    destruct (sync_card_spec b t1 threshold i c ds k ds1 k1) as (c1 & Hk1 & Hs1 & Hn1 & Hd1); try done;
      [by apply (Hr i)|].
    destruct (IH (S i) ds1 k1) as (Hl & Hn & Hd & Hj); try done; [lia| | |].
    + rewrite Hk1, length_insert. lia.
    + intros j c' Hij Hc' Hv'. rewrite Hk1, list_lookup_insert_ne in Hc' by lia.
      destruct (Hr j c') as [? ?]; [lia|done|done|]. lia.
    + rewrite Hk1, length_insert in Hl. split; [done|]. split; [lia|]. split; [lia|]. intros j c' Hc'.
      destruct (decide (j = i)) as [->|Hji].
      * rewrite Hc in Hc'. injection Hc' as <-.
        destruct (Hj i c1) as (c2 & Hc2 & Hs2);
          [rewrite Hk1; apply list_lookup_insert_eq; by eapply lookup_lt_Some|].
        rewrite bool_decide_eq_true_2 in Hs2 by lia. simpl in Hs2. subst c2. exists c1. split; [done|].
        rewrite bool_decide_eq_false_2, bool_decide_eq_false_2 by (done || lia). simpl.
        eapply synced_later; [exact Hs1|lia].
      * destruct (Hj j c') as (c2 & Hc2 & Hs2); [by rewrite Hk1, list_lookup_insert_ne by done|].
        exists c2. split; [done|]. by rewrite (bool_decide_ext (j < S i)%nat (j < i)%nat) in Hs2 by lia.
Qed.

Lemma sync_cards_globals todo p T threshold i ds k :
  global_sync_count (sync_cards todo p T threshold i ds k).2 = global_sync_count k
  /\ global_sync_error_count (sync_cards todo p T threshold i ds k).2 = global_sync_error_count k.
Proof.
  revert i ds k. induction todo as [|todo IH]; intros i ds k; [done|]. cbn [sync_cards].
  destruct (cards k !! i) as [c|]; [|done]. destruct (bool_decide (i = p)); [apply IH|].
  destruct (sync_card T threshold i c ds k) as [ds1 k1] eqn:E.
  destruct (IH (S i) ds1 k1) as [-> ->]. revert E. unfold sync_card.
  destruct (negb (c_vif c)); [by intros [= <- <-]|]. cbv zeta. by case_match; intros [= <- <-].
Qed.

Lemma find_primary_lookup k p : find_primary_locked k = Some p -> is_Some (cards k !! p).
Proof.
  unfold find_primary_locked. destruct (sync_primary k) as [|z prim].
  - destruct (cards k) as [|c cs]; [done|]. intros [= <-]. by exists c.
  - rewrite fmap_Some. intros ([i c] & Hf & ->). apply list_find_Some in Hf as [Hf _]. by exists c.
Qed.

(** A cycle of mode B that finds its primary up. *)
Lemma work_fn_up ds k p primary :
  find_primary_locked k = Some p -> cards k !! p = Some primary -> c_vif primary = true ->
  0 <= adjtime_threshold k ->
  Forall (λ c, c_vif c = true -> 0 <= c_base c + k_now k /\ c_base c + k_now k + total ds <= MAX_US) (cards k) ->
  exists k', tsf_sync_work_fn ds k = (add_sync 1 0 k', if sync_interval_ms k =? 0 then 10 else sync_interval_ms k)
    /\ global_sync_count k' = global_sync_count k /\ global_sync_error_count k' = global_sync_error_count k
    /\ k_now k + Z.abs (hd 0 ds) <= k_now k' /\ k_now k' <= k_now k + total ds
    /\ forall i c, cards k !! i = Some c -> exists c', cards k' !! i = Some c'
       /\ if bool_decide (i = p) then c' = c
          else synced (c_base primary) (adjtime_threshold k) (k_now k' - (k_now k + Z.abs (hd 0 ds))) c c'.
Proof.
  intros Hf Hp Hv H0 Hr. unfold tsf_sync_work_fn. rewrite Hf, Hp, Hv. cbn [negb]. cbv zeta.
  set (k1 := k_elapse (hd 0 ds) k). destruct (total_step ds) as [Ht1 Ht2].
  assert (k_now k1 = k_now k + Z.abs (hd 0 ds)) as Hk1 by done. assert (cards k1 = cards k) as Hc1 by done.
  destruct (Forall_lookup_1 _ _ _ _ Hr Hp Hv) as [Hb1 Hb2].
  assert (k_get_tsf k1 primary = c_base primary + k_now k1) as ->
    by (unfold k_get_tsf; apply as_u64_id; unfold MAX_US in *; int_unfold; lia).
  destruct (sync_cards _ p _ _ 0 (tail ds) k1) as [ds' k'] eqn:E. exists k'. split; [done|].
  destruct (sync_cards_globals (length (cards k1)) p (c_base primary + k_now k1) (adjtime_threshold k) 0 (tail ds) k1)
    as [Hg1 Hg2]. rewrite E in Hg1, Hg2. split; [exact Hg1|]. split; [exact Hg2|].
  destruct (sync_cards_spec p (c_base primary) (k_now k1) (adjtime_threshold k) (length (cards k1)) 0 (tail ds) k1 ds' k')
    as (_ & Hn & Hd & Hj); try done; [lia| |].
  - intros j c _ Hj Hvj. destruct (Forall_lookup_1 _ _ _ _ Hr Hj Hvj). lia.
  - destruct (total_step ds') as [Ht3 Ht4]. split; [lia|]. split; [lia|exact Hj].
Qed.

(** ** Properties *)

(** C11: one cycle of mode B.  Without a primary that is up only the error is
    counted.  Otherwise the primary is left alone and every other card that is
    up and writable ends up within the threshold of the primary's counter, but
    for the time that passed since the primary was read; down and read-only
    cards keep their counters.  The work is always scheduled again. *)
Theorem mode_b_cycle (ds : list Z) (k : KState) :
  0 <= adjtime_threshold k -> 0 <= sync_interval_ms k ->
  Forall (λ c, c_vif c = true -> 0 <= c_base c + k_now k /\ c_base c + k_now k + total ds <= MAX_US) (cards k) ->
  0 < (tsf_sync_work_fn ds k).2 /\
  match find_primary_locked k ≫= λ p, cards k !! p with
  | Some primary =>
      if c_vif primary then
        let k' := (tsf_sync_work_fn ds k).1 in
        let late := k_now k' - (k_now k + Z.abs (hd 0 ds)) in
        global_sync_count k' = global_sync_count k + 1
        /\ global_sync_error_count k' = global_sync_error_count k /\ 0 <= late
        /\ forall i c, cards k !! i = Some c -> exists c', cards k' !! i = Some c'
             /\ if bool_decide (find_primary_locked k = Some i) then c' = c
                else synced (c_base primary) (adjtime_threshold k) late c c'
      else (tsf_sync_work_fn ds k).1 = add_sync 0 1 k
  | None => (tsf_sync_work_fn ds k).1 = add_sync 0 1 k
  end.
Proof.
  intros H0 Hi Hr. destruct (find_primary_locked k) as [p|] eqn:Hf; cbn [mbind option_bind].
  2:{ unfold tsf_sync_work_fn. rewrite Hf. cbv zeta. cbn [fst snd]. split; [zbool; lia|done]. }
  destruct (find_primary_lookup k p Hf) as [primary Hp]. rewrite Hp. destruct (c_vif primary) eqn:Hv.
  2:{ unfold tsf_sync_work_fn. rewrite Hf, Hp, Hv. cbv zeta. cbn [negb fst snd]. split; [zbool; lia|done]. }
  destruct (work_fn_up ds k p primary) as (k' & -> & Hg1 & Hg2 & Hn & _ & Hj); try done. cbn [fst snd].
  split; [zbool; lia|]. cbn [add_sync global_sync_count global_sync_error_count k_now cards].
  split; [lia|]. split; [lia|]. split; [lia|]. intros i c Hc. destruct (Hj i c Hc) as (c' & Hc' & Hs).
  exists c'. split; [done|]. rewrite (bool_decide_ext (Some p = Some i) (i = p)); [done|]. split; congruence.
Qed.

Lemma mode_b_cycle_witness :
  exists c', cards (tsf_sync_work_fn [3; 1; 1] demo_kernel).1 !! 1%nat = Some c'
    /\ synced 1000000 5000 2 (fresh_card (lit "phy1") true true 999000) c'.
Proof.
  destruct (mode_b_cycle [3; 1; 1] demo_kernel) as [_ H].
  - simpl. lia.
  - simpl. lia.
  - repeat constructor; vm_compute; intuition congruence.
  - destruct H as (_ & _ & _ & H). destruct (H 1%nat (fresh_card (lit "phy1") true true 999000)) as (c' & Hc & Hs);
      [reflexivity|]. exists c'. split; [exact Hc|exact Hs].
Defined.

(** C28: an adjustment written to /dev/tsf_sync does to the module exactly what
    [tsf_ptp_adjtime] does for that card, whatever the amount, whatever time
    passes before the counter's read and its setting, skipped or
    applied; but [adjtime] reports a card that is down, the device says that
    all was written.  A card whose driver cannot set its counter has no
    [adjtime]; written to the device, the adjustment is counted, and no card changes. *)
Theorem chardev_write_is_adjtime (k : KState) (i : nat) (c : Card) (delta : Z) (ds : list Z) :
  cards k !! i = Some c -> Z.of_nat i <= 4294967295 -> in_i64 delta ->
  exists r k', tsf_ptp_adjtime i delta ds k = (Done r, k')
    /\ tsf_sync_chardev_write (adjustment_bytes {| adj_card_index := Z.of_nat i; delta_ns := delta |}) ds k = (Done 12, k')
    /\ (r = 0 \/ r = - ENODEV /\ k' = k /\ c_vif c = false)
    /\ (if c_set c then adjtime_op i c = Some (tsf_ptp_adjtime i) else adjtime_op i c = None /\ cards k' = cards k).
Proof.
  intros Hc Hu Hd. pose proof (lookup_lt_Some _ _ _ Hc) as Hi. rewrite write_one_adjustment by (lia || done).
  unfold tsf_ptp_adjtime, adjtime_op, on_card. rewrite Hc. unfold k_adjust, below_threshold. cbn [delta_ns adj_card_index].
  destruct (_ && _); [eexists _, _; split_and!; [done|done|by left|by destruct (c_set c)]|].
  rewrite k_walk_spec, Z.min_l, Z.eqb_refl, Nat2Z.id, Hc by lia. cbn [negb].
  destruct (c_vif c) eqn:Hv; eexists _, _; split_and!; try done; [by left| |by right|by destruct (c_set c)].
  unfold k_set_tsf. destruct (c_set c); [done|]. split; [done|]. by apply list_insert_id.
Qed.

Lemma chardev_write_is_adjtime_witness :
  exists k', tsf_ptp_adjtime 1 (-7000) [4; 2] demo_kernel = (Done 0, k')
    /\ tsf_sync_chardev_write (adjustment_bytes {| adj_card_index := 1; delta_ns := -7000 |}) [4; 2] demo_kernel = (Done 12, k')
    /\ c_base <$> cards k' = [1000000; 998991].
Proof.
  destruct (chardev_write_is_adjtime demo_kernel 1 (fresh_card (lit "phy1") true true 999000) (-7000) [4; 2])
    as (r & k' & Ha & Hw & _); [reflexivity|lia|unfold in_i64; lia|].
  exists k'. vm_compute in Ha. injection Ha as Hr Hk. rewrite <- Hk in *. split; [vm_compute; reflexivity|].
  split; [exact Hw|vm_compute; reflexivity].
Defined.

(** C17: modes B and C compared, one cycle of each, with the same threshold,
    the same primary, and no time passing.  If the primary is up the kernel's
    loop and the io_uring thread leave every card's counter on the same base,
    provided no card is off by exactly the threshold, which B corrects and C
    does not.  If it is down they differ: B touches no card, and C sets to zero
    the counter of every other card that is up, writable and above the threshold. *)
Theorem modes_b_and_c_agree `{Build} (self : IoUringSyncer) (k : KState) (fl : list bool) (p : nat) (primary : Card) :
  Forall card_wf (cards k) -> (length (cards k) <= MAX_CARDS)%nat ->
  find_primary_locked k = Some p -> primary_index self = Z.of_nat p -> cards k !! p = Some primary ->
  0 <= adjtime_threshold k -> threshold_ns self = adjtime_threshold k -> Forall (card_range k 0) (cards k) ->
  (c_vif primary = true -> 0 < adjtime_threshold k ->
   Forall (λ c, 1000 * Z.abs (c_base primary - c_base c) <> adjtime_threshold k) (cards k)) ->
  exists stats k' dss', sync_once self (at_rest k [] fl) = (Done (Ok stats), at_rest k' dss' fl)
    /\ if c_vif primary
       then forall i, (i < length (cards k))%nat ->
              c_base <$> cards k' !! i = c_base <$> cards (tsf_sync_work_fn [] k).1 !! i
       else cards (tsf_sync_work_fn [] k).1 = cards k
            /\ forall i c, cards k !! i = Some c -> exists c', cards k' !! i = Some c'
                 /\ c_base c' + k_now k = if bool_decide (i <> p) && c_vif c && c_set c
                                               && (adjtime_threshold k <? 1000 * (c_base c + k_now k))
                                            then 0 else c_base c + k_now k.
Proof.
  intros Hwf Hlen Hf Hidx Hp H0 Ht Hr Hne.
  destruct (sync_once_cycle self k [] p primary Hwf Hlen Hp Hidx Hr ltac:(lia) fl)
    as (stats & k1 & dss' & Hs & _ & _ & Htk & Hl & Hc). exists stats, k1, dss'. split; [done|].
  assert (k_now k1 - k_now k = 0) as Hn by (destruct Htk as [? [[_ ?]|[_ ?]]]; simpl in *; lia).
  rewrite Hn, Ht in Hc. unfold target_base in Hc. destruct (c_vif primary) eqn:Hv.
  - specialize (Hne eq_refl). destruct (work_fn_up [] k p primary) as (k' & -> & _ & _ & Hn' & Hd & Hj); try done.
    intros i Hi. destruct (lookup_lt_is_Some_2 _ _ Hi) as [c Hci].
    destruct (Hc i c Hci) as (c1 & Hc1 & Hs1). destruct (Hj i c Hci) as (c2 & Hc2 & Hs2).
    cbn [fst add_sync cards]. rewrite Hc1, Hc2. simpl. f_equal. destruct (decide (i = p)) as [Hip|Hip].
    { rewrite bool_decide_eq_true_2 in Hs1, Hs2 by done. congruence. }
    rewrite bool_decide_eq_false_2 in Hs1, Hs2 by done.
    destruct Hs1 as (_ & _ & _ & He1 & _), Hs2 as (_ & _ & _ & _ & He2 & _). simpl in Hd, He2.
    rewrite He1, He2 by lia.
    assert (0 < adjtime_threshold k -> 1000 * Z.abs (c_base primary - c_base c) <> adjtime_threshold k) as Hnc
      by (intros Hpos; exact (Forall_lookup_1 _ _ _ _ (Hne Hpos) Hci)).
    destruct (c_vif c), (c_set c); cbn [andb]; try done.
    set (d := 1000 * Z.abs (c_base primary - c_base c)) in *.
    destruct (Z.eqb_spec (adjtime_threshold k) 0); destruct (Z.ltb_spec (adjtime_threshold k) d);
      destruct (Z.leb_spec (adjtime_threshold k) d); cbn [andb orb]; try done; lia.
  - assert ((tsf_sync_work_fn [] k).1 = add_sync 0 1 k) as -> by (unfold tsf_sync_work_fn; by rewrite Hf, Hp, Hv).
    split; [done|]. intros i c Hci. destruct (Hc i c Hci) as (c1 & Hc1 & Hs1). exists c1. split; [done|].
    destruct (decide (i = p)) as [Hip|Hip].
    { rewrite bool_decide_eq_true_2 in Hs1 by done. rewrite bool_decide_eq_false_2 by tauto. by subst c1. }
    rewrite bool_decide_eq_false_2 in Hs1 by done. rewrite bool_decide_eq_true_2 by done. cbn [andb].
    destruct Hs1 as (_ & _ & _ & He1 & _). rewrite He1 by lia.
    pose proof (Forall_lookup_1 _ _ _ _ Hr Hci) as Hcr. unfold card_range in Hcr.
    destruct (c_vif c), (c_set c); cbn [andb]; try done. specialize (Hcr eq_refl).
    replace (Z.abs (- k_now k - c_base c)) with (c_base c + k_now k) by lia.
    destruct (Z.ltb_spec (adjtime_threshold k) (1000 * (c_base c + k_now k)));
      destruct (Z.leb_spec (adjtime_threshold k) (1000 * (c_base c + k_now k))); cbn [andb]; lia.
Qed.

(** The demonstration kernel with its first card's interface down. *)
Definition demo_primary_down : KState := set_card 0 (fresh_card (lit "phy0") false true 1000000) demo_kernel.

Lemma modes_b_and_c_agree_witness :
  (exists stats k' dss', @sync_once KWorld _ release_x86 demo_syncer (at_rest demo_kernel [] []) = (Done (Ok stats), at_rest k' dss' [])
    /\ c_base <$> cards k' !! 1%nat = Some 1000000)
  /\ exists stats k' dss' c', @sync_once KWorld _ release_x86 demo_syncer (at_rest demo_primary_down [] []) = (Done (Ok stats), at_rest k' dss' [])
    /\ cards k' !! 1%nat = Some c' /\ c_base c' + 50 = 0.
Proof.
  split.
  - destruct (@modes_b_and_c_agree release_x86 demo_syncer demo_kernel [] 0 (fresh_card (lit "phy0") true true 1000000))
      as (stats & k' & dss' & Hs & Hb); try reflexivity.
    + repeat constructor; vm_compute; lia.
    + vm_compute. lia.
    + simpl. lia.
    + repeat constructor; vm_compute; congruence.
    + intros _ _. repeat constructor; vm_compute; congruence.
    + exists stats, k', dss'. split; [exact Hs|]. simpl in Hb. rewrite (Hb 1%nat) by lia. vm_compute. reflexivity.
  - destruct (@modes_b_and_c_agree release_x86 demo_syncer demo_primary_down [] 0 (fresh_card (lit "phy0") false true 1000000))
      as (stats & k' & dss' & Hs & Hb); try reflexivity.
    + repeat constructor; vm_compute; lia.
    + vm_compute. lia.
    + simpl. lia.
    + repeat constructor; vm_compute; congruence.
    + discriminate.
    + simpl in Hb. destruct Hb as [_ Hb].
      destruct (Hb 1%nat (fresh_card (lit "phy1") true true 999000)) as (c' & Hc' & Hz); [reflexivity|].
      exists stats, k', dss', c'. split; [exact Hs|]. split; [exact Hc'|exact Hz].
Defined.
