(* ===== verification/Netdev.v ===== *)
(** * The life of the module's cards (kernel/tsf_ptp.c)

    Probing, the notifier of network devices, hot plugging, and the module's
    loading and unloading, as a state machine driven by the networking core.
    Using memory that is not what the code takes it for, or that was freed, is
    [Panic].  Allocation succeeds. *)

From stdpp Require Import sets.
From S2P Require Import Prelude Ints Text.

(** ** Definitions *)

(** A wireless device as cfg80211 knows it: whether mac80211 drives it, and
    then whether the driver has get_tsf. *)
Record Wiphy := { w_mac80211 : bool; w_get_tsf : bool }.

(** A network device; a wireless one has a wiphy. *)
Record NetDev := { nd_id : nat; nd_wiphy : option nat; nd_up : bool }.

(** A card of [cards_list]: the wiphy of its hw, its vif (by the network
    device it is part of), and its PTP clock. *)
Record PtpCard := { pc_wiphy : nat; pc_vif : option nat; pc_clock : nat }.

(** The delayed work of mode B. *)
Inductive Work := Uninitialised | NotPending | Pending.

Record NWorld := {
  devs : list NetDev;             (* the network devices, in order *)
  mcards : list PtpCard;          (* cards_list *)
  clocks : list nat;              (* the registered PTP clocks *)
  next_clock : nat;
  register_fails : list bool;     (* the next calls of ptp_clock_register *)
  sync_mode : Z;                  (* the writable parameter *)
  work : Work;
  chardev_registered : bool;
}.

Definition with_devs (l : list NetDev) (s : NWorld) : NWorld :=
  {| devs := l; mcards := mcards s; clocks := clocks s; next_clock := next_clock s;
     register_fails := register_fails s; sync_mode := sync_mode s; work := work s;
     chardev_registered := chardev_registered s |}.
Definition with_mcards (l : list PtpCard) (s : NWorld) : NWorld :=
  {| devs := devs s; mcards := l; clocks := clocks s; next_clock := next_clock s;
     register_fails := register_fails s; sync_mode := sync_mode s; work := work s;
     chardev_registered := chardev_registered s |}.
Definition with_sync (wk : Work) (reg : bool) (s : NWorld) : NWorld :=
  {| devs := devs s; mcards := mcards s; clocks := clocks s; next_clock := next_clock s;
     register_fails := register_fails s; sync_mode := sync_mode s; work := wk; chardev_registered := reg |}.

Definition with_mode (v : Z) (s : NWorld) : NWorld :=
  {| devs := devs s; mcards := mcards s; clocks := clocks s; next_clock := next_clock s;
     register_fails := register_fails s; sync_mode := v; work := work s;
     chardev_registered := chardev_registered s |}.

Definition EOPNOTSUPP : Z := 95.
Definition EEXIST : Z := 17.

Section module.
Variable wiphy_info : nat -> Wiphy.

Definition find_card_by_wiphy_locked (w : nat) (s : NWorld) : option (nat * PtpCard) :=
  list_find (λ c, pc_wiphy c = w) (mcards s).

(** [ptp_clock_register]: the number of the new clock, or nothing. *)
Definition ptp_clock_register (s : NWorld) : option nat * NWorld :=
  let fails := hd false (register_fails s) in
  (if fails then None else Some (next_clock s),
   {| devs := devs s; mcards := mcards s;
      clocks := if fails : bool then clocks s else clocks s ++ [next_clock s];
      next_clock := if fails : bool then next_clock s else S (next_clock s);
      register_fails := tail (register_fails s); sync_mode := sync_mode s; work := work s;
      chardev_registered := chardev_registered s |}).

(** The private data of a wiphy that mac80211 does not drive is not an
    [ieee80211_local]; and when the registration fails [card->ptp_clock] is
    read after [kfree(card)], whose outcome is undefined: the error, if the memory
    still holds it, and then no card. *)
Definition tsf_ptp_probe (w : nat) : M NWorld Z := λ s,
  if negb (w_mac80211 (wiphy_info w)) then (Panic, s)
  else if negb (w_get_tsf (wiphy_info w)) then (Done (- EOPNOTSUPP), s)
  else match find_card_by_wiphy_locked w s with
       | Some _ => (Done (- EEXIST), s)
       | None =>
           match ptp_clock_register s with
           | (None, s) => (Panic, s)
           | (Some n, s) =>
               (Done 0, with_mcards (mcards s ++ [{| pc_wiphy := w; pc_vif := None; pc_clock := n |}]) s)
           end
       end.

Definition tsf_ptp_try_hotplug_probe (w : nat) : M NWorld unit :=
  found ← gets (find_card_by_wiphy_locked w);
  match found with
  | Some _ => mret tt
  | None => _ ← tsf_ptp_probe w; mret tt
  end.

(** [ptp_clock_unregister] and [kfree]. *)
Definition tsf_ptp_remove (c : PtpCard) (s : NWorld) : NWorld :=
  {| devs := devs s; mcards := mcards s; clocks := filter (λ n, n <> pc_clock c) (clocks s);
     next_clock := next_clock s; register_fails := register_fails s; sync_mode := sync_mode s;
     work := work s; chardev_registered := chardev_registered s |}.

Definition uses_wiphy (w : nat) (d : NetDev) : bool := bool_decide (nd_wiphy d = Some w).

Definition tsf_ptp_try_hotplug_remove (w : nat) (s : NWorld) : NWorld :=
  if existsb (uses_wiphy w) (devs s) then s
  else match find_card_by_wiphy_locked w s with
       | Some (i, c) => tsf_ptp_remove c (with_mcards (take i (mcards s) ++ drop (S i) (mcards s)) s)
       | None => s
       end.

(** What happens to the vif of the card of [w], if there is one. *)
Definition set_vif (w : nat) (f : option nat -> option nat) (s : NWorld) : NWorld :=
  match find_card_by_wiphy_locked w s with
  | Some (i, c) =>
      with_mcards (<[i := {| pc_wiphy := pc_wiphy c; pc_vif := f (pc_vif c); pc_clock := pc_clock c |}]> (mcards s)) s
  | None => s
  end.
Definition vif_up (id : nat) (v : option nat) : option nat := match v with None => Some id | Some _ => v end.
Definition vif_down (id : nat) (v : option nat) : option nat := if bool_decide (v = Some id) then None else v.

Inductive netdev_event := NETDEV_REGISTER | NETDEV_UP | NETDEV_DOWN | NETDEV_UNREGISTER.

Definition tsf_ptp_netdev_event (event : netdev_event) (dev : NetDev) : M NWorld unit :=
  match nd_wiphy dev with
  | None => mret tt
  | Some w =>
      match event with
      | NETDEV_REGISTER => tsf_ptp_try_hotplug_probe w
      | NETDEV_UP => act (λ s, (tt, set_vif w (vif_up (nd_id dev)) s))
      | NETDEV_DOWN => act (λ s, (tt, set_vif w (vif_down (nd_id dev)) s))
      | NETDEV_UNREGISTER =>
          act (λ s, (tt, tsf_ptp_try_hotplug_remove w (set_vif w (vif_down (nd_id dev)) s)))
      end
  end.

(** The loops over the network devices at load time. *)
Fixpoint discover_from (l : list NetDev) (count : Z) : M NWorld Z :=
  match l with
  | [] => mret count
  | d :: l =>
      match nd_wiphy d with
      | None => discover_from l count
      | Some w => r ← tsf_ptp_probe w; discover_from l (if r =? 0 then count + 1 else count)
      end
  end.
Definition tsf_ptp_discover_from_netdevs : M NWorld Z := l ← gets devs; discover_from l 0.

Fixpoint scan_from (l : list NetDev) (s : NWorld) : NWorld :=
  match l with
  | [] => s
  | d :: l =>
      match nd_wiphy d with
      | Some w => scan_from l (if nd_up d then set_vif w (vif_up (nd_id d)) s else s)
      | None => scan_from l s
      end
  end.
Definition tsf_ptp_scan_existing_vifs (s : NWorld) : NWorld := scan_from (devs s) s.

(** Registering a notifier replays to it the events of the devices that are
    there; removing it plays their going down and away, the devices staying in
    the list. *)
Fixpoint replay_up (l : list NetDev) : M NWorld unit :=
  match l with
  | [] => mret tt
  | d :: l =>
      _ ← tsf_ptp_netdev_event NETDEV_REGISTER d;
      _ ← (if nd_up d then tsf_ptp_netdev_event NETDEV_UP d else mret tt);
      replay_up l
  end.
Fixpoint replay_down (l : list NetDev) : M NWorld unit :=
  match l with
  | [] => mret tt
  | d :: l =>
      _ ← (if nd_up d then tsf_ptp_netdev_event NETDEV_DOWN d else mret tt);
      _ ← tsf_ptp_netdev_event NETDEV_UNREGISTER d;
      replay_down l
  end.

Definition start_sync (chardev_fails : bool) (s : NWorld) : NWorld :=
  if sync_mode s =? 1 then with_sync Pending (chardev_registered s) s
  else if sync_mode s =? 2 then with_sync (work s) (negb chardev_fails) s
  else s.

(** Loading; the answer is the number of clocks it reports. *)
Definition tsf_ptp_init (chardev_fails : bool) : M NWorld Z :=
  _ ← (l ← gets devs; replay_up l);
  count ← tsf_ptp_discover_from_netdevs;
  _ ← act (λ s, (tt, tsf_ptp_scan_existing_vifs s));
  _ ← act (λ s, (tt, start_sync chardev_fails s));
  mret count.

(** Cancelling work that was never initialised is undefined. *)
Definition stop_sync : M NWorld unit := λ s,
  if sync_mode s =? 1 then
    match work s with
    | Uninitialised => (Panic, s)
    | _ => (Done tt, with_sync NotPending (chardev_registered s) s)
    end
  else if sync_mode s =? 2 then (Done tt, with_sync (work s) false s)
  else (Done tt, s).

Fixpoint remove_all (l : list PtpCard) (s : NWorld) : NWorld :=
  match l with
  | [] => s
  | c :: l => remove_all l (tsf_ptp_remove c (with_mcards l s))
  end.

Definition tsf_ptp_exit : M NWorld unit :=
  _ ← stop_sync;
  _ ← (l ← gets devs; replay_down l);
  act (λ s, (tt, remove_all (mcards s) s)).

(** *** The networking core

    A step is a device that appears, goes up, goes down or disappears: the core
    changes its list and calls the notifier.  A device that goes up or down
    changes its flag; one that disappears is down and already out of the
    list. *)
Definition set_up (id : nat) (up : bool) (d : NetDev) : NetDev :=
  if bool_decide (nd_id d = id) then {| nd_id := nd_id d; nd_wiphy := nd_wiphy d; nd_up := up |} else d.

Inductive core_step : NWorld -> NWorld -> Prop :=
  | core_register s s' d :
      nd_id d ∉ nd_id <$> devs s -> nd_up d = false ->
      tsf_ptp_netdev_event NETDEV_REGISTER d (with_devs (devs s ++ [d]) s) = (Done tt, s') -> core_step s s'
  | core_up s s' d :
      d ∈ devs s -> nd_up d = false ->
      tsf_ptp_netdev_event NETDEV_UP d (with_devs (set_up (nd_id d) true <$> devs s) s) = (Done tt, s') -> core_step s s'
  | core_down s s' d :
      d ∈ devs s -> nd_up d = true ->
      tsf_ptp_netdev_event NETDEV_DOWN d (with_devs (set_up (nd_id d) false <$> devs s) s) = (Done tt, s') -> core_step s s'
  | core_unregister s s' d :
      d ∈ devs s -> nd_up d = false ->
      tsf_ptp_netdev_event NETDEV_UNREGISTER d
        (with_devs (filter (λ d', nd_id d' <> nd_id d) (devs s)) s) = (Done tt, s') -> core_step s s'.

(** The machine before the module is loaded. *)
Definition unloaded (s : NWorld) : Prop :=
  mcards s = [] /\ clocks s = [] /\ work s = Uninitialised /\ chardev_registered s = false /\ NoDup (nd_id <$> devs s).

(** The states of the loaded module; its parameter may be written at any time. *)
Inductive loaded : NWorld -> Prop :=
  | loaded_init s s' chardev_fails count :
      unloaded s -> tsf_ptp_init chardev_fails s = (Done count, s') -> loaded s'
  | loaded_step s s' : loaded s -> core_step s s' -> loaded s'
  | loaded_param s v : loaded s -> loaded (with_mode v s).
End module.

(** ** Facts *)

(** What holds of the list of cards when the wiphys [W] have been announced and
    the devices up are [U] (number and wiphy). *)
Record Inv (info : nat -> Wiphy) (W : nat -> Prop) (U : nat -> nat -> Prop) (s : NWorld) : Prop := {
  inv_mac : forall w, W w -> w_mac80211 (info w) = true;
  inv_nodup : NoDup (pc_wiphy <$> mcards s);
  inv_clocks : clocks s = pc_clock <$> mcards s;
  inv_clocks_nodup : NoDup (clocks s);
  inv_fresh : Forall (λ n, (n < next_clock s)%nat) (clocks s);
  inv_cards : forall w, w ∈ pc_wiphy <$> mcards s <-> w_get_tsf (info w) = true /\ W w;
  inv_vif : forall c id, c ∈ mcards s -> pc_vif c = Some id -> U id (pc_wiphy c);
}.

Lemma find_card_Some (w : nat) (s : NWorld) i c :
  find_card_by_wiphy_locked w s = Some (i, c) -> mcards s !! i = Some c /\ pc_wiphy c = w.
Proof. unfold find_card_by_wiphy_locked. rewrite list_find_Some. tauto. Qed.
Lemma find_card_None (w : nat) (s : NWorld) : find_card_by_wiphy_locked w s = None <-> w ∉ pc_wiphy <$> mcards s.
Proof.
  unfold find_card_by_wiphy_locked. rewrite list_find_None, Forall_forall. split.
  - intros Hf (c & -> & Hc)%list_elem_of_fmap. by apply (Hf c).
  - intros Hn c Hc <-. apply Hn, list_elem_of_fmap. by exists c.
Qed.

Lemma set_vif_fields (w : nat) f (s : NWorld) :
  devs (set_vif w f s) = devs s /\ clocks (set_vif w f s) = clocks s /\ next_clock (set_vif w f s) = next_clock s
  /\ work (set_vif w f s) = work s /\ sync_mode (set_vif w f s) = sync_mode s
  /\ chardev_registered (set_vif w f s) = chardev_registered s
  /\ pc_wiphy <$> mcards (set_vif w f s) = pc_wiphy <$> mcards s
  /\ pc_clock <$> mcards (set_vif w f s) = pc_clock <$> mcards s.
Proof.
  unfold set_vif. destruct (find_card_by_wiphy_locked w s) as [[i c]|] eqn:Hf; [|done].
  apply find_card_Some in Hf as [Hi _]. split_and!; try done; cbn [mcards with_mcards];
    rewrite list_fmap_insert; apply list_insert_id; by rewrite list_lookup_fmap, Hi.
Qed.

Section facts.
Context {info : nat -> Wiphy}.
Implicit Types (s : NWorld) (W : nat -> Prop) (U : nat -> nat -> Prop).

Lemma Inv_weaken W W' U U' s :
  Inv info W U s -> (forall w, W' w <-> W w) -> (forall i w, U i w -> U' i w) -> Inv info W' U' s.
Proof.
  intros [H1 H2 H3 H4 H5 H6 H7] HW HU. split; try done.
  - intros w Hw. by apply H1, HW.
  - intros w. rewrite HW. apply H6.
  - eauto.
Qed.

(** Changes that do not touch the cards and clocks. *)
Lemma Inv_same W U s s' :
  mcards s' = mcards s -> clocks s' = clocks s -> next_clock s' = next_clock s -> Inv info W U s -> Inv info W U s'.
Proof. intros E1 E2 E3 [H1 H2 H3 H4 H5 H6 H7]. split; rewrite ?E1, ?E2, ?E3; done. Qed.

(** A probe that returns. *)
Lemma probe_inv W U w s r s' :
  Inv info W U s -> tsf_ptp_probe info w s = (Done r, s') ->
  Inv info (λ w', W w' \/ w' = w) U s' /\ devs s' = devs s /\ (W w -> s' = s /\ r <> 0).
Proof.
  intros HI. unfold tsf_ptp_probe. destruct (w_mac80211 (info w)) eqn:Hm; [|done]. cbn [negb].
  destruct (w_get_tsf (info w)) eqn:Hg; cbn [negb].
  2:{ intros [= <- <-]. split; [|by unfold EOPNOTSUPP; auto with lia]. destruct HI as [H1 H2 H3 H4 H5 H6 H7].
      split; try done; [intros w' [Hw'| ->]; auto|]. intros w'. rewrite H6. split; [naive_solver|].
      intros [Hg' [?| ->]]; [done|congruence]. }
  destruct (find_card_by_wiphy_locked w s) as [[i c]|] eqn:Hf.
  { intros [= <- <-]. split; [|by unfold EEXIST; auto with lia]. apply find_card_Some in Hf as [Hi Hc].
    eapply Inv_weaken; [exact HI| |done]. intros w'. split; [|by left]. intros [?| ->]; [done|].
    apply (inv_cards _ _ _ _ HI). apply list_elem_of_fmap. exists c. split; [done|]. by eapply list_elem_of_lookup_2. }
  apply find_card_None in Hf. unfold ptp_clock_register. destruct (hd false (register_fails s)); [done|].
  intros [= <- <-]. cbn [devs with_mcards]. split; [|split; [done|]].
  - destruct HI as [H1 H2 H3 H4 H5 H6 H7]. split; cbn [mcards clocks next_clock with_mcards].
    + intros w' [Hw'| ->]; auto.
    + rewrite fmap_app. simpl. apply NoDup_app. split; [done|]. split; [|apply NoDup_singleton].
      intros x Hx ->%list_elem_of_singleton. done.
    + rewrite fmap_app. simpl. by rewrite H3.
    + apply NoDup_app. split; [done|]. split; [|apply NoDup_singleton].
      intros x Hx ->%list_elem_of_singleton. rewrite Forall_forall in H5. specialize (H5 _ Hx). lia.
    + apply Forall_app. split; [|constructor; [lia|constructor]]. eapply Forall_impl; [exact H5|]. simpl. lia.
    + intros w'. rewrite fmap_app, elem_of_app, H6. simpl. rewrite list_elem_of_singleton. naive_solver.
    + intros c id [Hc| ->%list_elem_of_singleton]%elem_of_app; [by apply H7|done].
  - intros Hw. exfalso. apply Hf, (inv_cards _ _ _ _ HI). done.
Qed.

Lemma set_vif_inv W U U' w f s :
  Inv info W U s -> (forall i w', U i w' -> w' <> w -> U' i w') ->
  (forall v id, (forall i, v = Some i -> U i w) -> f v = Some id -> U' id w) -> Inv info W U' (set_vif w f s).
Proof.
  intros HI HU Hf. destruct (set_vif_fields w f s) as (_ & E1 & E2 & _ & _ & _ & E3 & E4).
  destruct HI as [H1 H2 H3 H4 H5 H6 H7]. split; rewrite ?E1, ?E2, ?E3, ?E4; try done.
  intros c id Hc Hv. unfold set_vif in Hc. destruct (find_card_by_wiphy_locked w s) as [[i c0]|] eqn:Hfind.
  - apply find_card_Some in Hfind as [Hi Hw]. cbn [mcards with_mcards] in Hc.
    apply list_elem_of_lookup in Hc as [j Hj]. apply list_lookup_insert_Some in Hj as [(-> & <- & _)|[Hne Hj]].
    + simpl in *. subst w. apply (Hf (pc_vif c0)); [|done]. intros k Hk. apply H7; [|done].
      by eapply list_elem_of_lookup_2.
    + apply HU; [apply H7; [by eapply list_elem_of_lookup_2|done]|]. intros E. apply Hne.
      eapply (NoDup_lookup (pc_wiphy <$> mcards s)); [done|rewrite list_lookup_fmap, Hi; simpl; by rewrite Hw|].
      by rewrite list_lookup_fmap, Hj; simpl; rewrite E.
  - apply find_card_None in Hfind. apply HU; [by apply H7|]. intros E. apply Hfind. rewrite <- E.
    apply list_elem_of_fmap. by exists c.
Qed.

Lemma vif_up_inv W U w id s : Inv info W U s -> U id w -> Inv info W U (set_vif w (vif_up id) s).
Proof.
  intros HI HU. eapply set_vif_inv; [exact HI|done|]. intros [v|] id' Hv; simpl; intros [= <-]; auto.
Qed.
Lemma vif_down_inv W U U' w id s :
  Inv info W U s -> (forall i w', U i w' -> ~ (i = id /\ w' = w) -> U' i w') ->
  Inv info W U' (set_vif w (vif_down id) s).
Proof.
  intros HI HU. eapply set_vif_inv; [exact HI| |].
  - intros i w' Hi Hne. apply HU; [done|]. by intros [_ ?].
  - intros v id' Hv. unfold vif_down. case_bool_decide; [done|]. intros ->. apply HU; [auto|]. intros [-> _]. done.
Qed.

Lemma filter_all {A} (P : A -> Prop) `{!forall x, Decision (P x)} (l : list A) : Forall P l -> filter P l = l.
Proof. induction 1 as [|x l Hx _ IH]; [done|]. by rewrite filter_cons_True, IH. Qed.

(** Taking a card out of the list. *)
Lemma hotplug_remove_inv W U w s :
  Inv info W U s ->
  Inv info (λ w', W w' /\ (w' = w -> existsb (uses_wiphy w) (devs s) = true)) U (tsf_ptp_try_hotplug_remove w s)
  /\ devs (tsf_ptp_try_hotplug_remove w s) = devs s.
Proof.
  intros HI. unfold tsf_ptp_try_hotplug_remove. destruct (existsb (uses_wiphy w) (devs s)) eqn:He.
  { split; [|done]. eapply Inv_weaken; [exact HI|naive_solver|done]. }
  destruct (find_card_by_wiphy_locked w s) as [[i c]|] eqn:Hf.
  - split; [|done]. apply find_card_Some in Hf as [Hi Hw]. destruct HI as [H1 H2 H3 H4 H5 H6 H7].
    pose proof (take_drop_middle _ _ _ Hi) as Hmid.
    set (a := take i (mcards s)) in *. set (b := drop (S i) (mcards s)) in *.
    rewrite <- Hmid in H2, H3, H6, H7. rewrite !fmap_app, !fmap_cons in *.
    rewrite H3 in *. split; cbn [mcards clocks next_clock tsf_ptp_remove with_mcards].
    + intros w' [Hw' _]. auto.
    + rewrite fmap_app. apply NoDup_app in H2 as (Ha & Hab & Hb). apply NoDup_cons in Hb as [Hb1 Hb2].
      apply NoDup_app. split; [done|]. split; [|done]. intros x Hx. specialize (Hab x Hx). set_solver.
    + rewrite H3, fmap_app, filter_app, filter_cons_False by auto.
      apply NoDup_app in H4 as (Ha & Hab & Hb). apply NoDup_cons in Hb as [Hb1 Hb2].
      f_equal; apply filter_all; apply Forall_forall; intros x Hx ->; [|done].
      apply (Hab _ Hx). by left.
    + rewrite H3. by apply NoDup_filter.
    + rewrite H3. rewrite Forall_forall in *. intros x Hx. apply list_elem_of_filter in Hx as [_ Hx]. by apply H5.
    + intros w'. specialize (H6 w'). rewrite fmap_app. rewrite elem_of_app, elem_of_cons in H6. rewrite elem_of_app.
      apply NoDup_app in H2 as (Ha & Hab & Hb). apply NoDup_cons in Hb as [Hb1 Hb2]. rewrite Hw in *. split.
      * intros Hin. assert (w' <> w) as Hne.
        { intros ->. destruct Hin as [Hin|Hin]; [|done]. apply (Hab _ Hin). by left. }
        destruct H6 as [H6 _]. destruct H6 as [? ?]; [tauto|]. naive_solver.
      * intros (Hg & HW & Hne). assert (w' <> w) by (intros ->; by discriminate (Hne eq_refl)).
        destruct H6 as [_ H6]. specialize (H6 (conj Hg HW)). naive_solver.
    + intros c' id Hc'. apply H7. set_solver.
  - split; [|done]. apply find_card_None in Hf. destruct HI as [H1 H2 H3 H4 H5 H6 H7]. split; try done.
    + intros w' [Hw' _]. auto.
    + intros w'. rewrite H6. split; [|tauto]. intros [Hg HW]. split; [done|]. split; [done|]. intros ->.
      exfalso. apply Hf, H6. done.
Qed.
End facts.

(** ** The reachable states *)

Definition announced (s : NWorld) (w : nat) : Prop := exists d, d ∈ devs s /\ nd_wiphy d = Some w.
Definition running (s : NWorld) (id w : nat) : Prop :=
  exists d, d ∈ devs s /\ nd_id d = id /\ nd_up d = true /\ nd_wiphy d = Some w.

Section reachable.
Context {info : nat -> Wiphy}.
Implicit Types (s : NWorld) (W : nat -> Prop) (U : nat -> nat -> Prop).

Lemma probe_bind_inv W U w s u s' :
  Inv info W U s -> tsf_ptp_try_hotplug_probe info w s = (Done u, s') ->
  Inv info (λ w', W w' \/ w' = w) U s' /\ devs s' = devs s.
Proof.
  intros HI. unfold tsf_ptp_try_hotplug_probe, gets, mbind, M_bind.
  destruct (find_card_by_wiphy_locked w s) as [[i c]|] eqn:Hf.
  - intros [= <- <-]. split; [|done]. apply find_card_Some in Hf as [Hi Hc].
    eapply Inv_weaken; [exact HI| |done]. intros w'. split; [|by left]. intros [?| ->]; [done|].
    apply (inv_cards _ _ _ _ HI). apply list_elem_of_fmap. exists c. split; [done|]. by eapply list_elem_of_lookup_2.
  - destruct (tsf_ptp_probe info w s) as [[r| |] s1] eqn:E; [|done..]. intros [= <- <-].
    by destruct (probe_inv W U w s r s1 HI E) as (? & ? & _).
Qed.

(** The replay of the devices that are there. *)
Lemma replay_up_inv l W s u s' :
  Inv info W (running s) s -> l ⊆ devs s -> replay_up info l s = (Done u, s') ->
  Inv info (λ w, W w \/ exists d, d ∈ l /\ nd_wiphy d = Some w) (running s') s' /\ devs s' = devs s.
Proof.
  revert W s. induction l as [|d l IH]; intros W s HI Hl; cbn [replay_up].
  { intros [= <- <-]. split; [|done]. eapply Inv_weaken; [exact HI| |done]. set_solver. }
  unfold mbind, M_bind. destruct (tsf_ptp_netdev_event info NETDEV_REGISTER d s) as [[u1| |] s1] eqn:E1; [|done..].
  assert (Inv info (λ w, W w \/ nd_wiphy d = Some w) (running s1) s1 /\ devs s1 = devs s) as [HI1 Hd1].
  { unfold tsf_ptp_netdev_event in E1. destruct (nd_wiphy d) as [w|] eqn:Hw.
    - destruct (probe_bind_inv W (running s) w s u1 s1 HI E1) as [HI1 Hd1]. split; [|done].
      unfold running. rewrite Hd1. eapply Inv_weaken; [exact HI1|naive_solver|done].
    - injection E1 as _ <-. split; [|done]. eapply Inv_weaken; [exact HI|naive_solver|done]. }
  destruct ((if nd_up d then tsf_ptp_netdev_event info NETDEV_UP d else mret tt) s1) as [[u2| |] s2] eqn:E2; [|done..].
  assert (Inv info (λ w, W w \/ nd_wiphy d = Some w) (running s2) s2 /\ devs s2 = devs s) as [HI2 Hd2].
  { destruct (nd_up d) eqn:Hup; [|by injection E2 as _ <-].
    unfold tsf_ptp_netdev_event in E2. destruct (nd_wiphy d) as [w|] eqn:Hw; [|by injection E2 as _ <-].
    injection E2 as _ <-. destruct (set_vif_fields w (vif_up (nd_id d)) s1) as (Hds & _).
    split; [|congruence]. unfold running. rewrite Hds. apply vif_up_inv; [done|].
    exists d. rewrite Hd1. set_solver. }
  intros E3. destruct (IH _ s2 HI2 ltac:(rewrite Hd2; set_solver) E3) as [HI3 Hd3].
  split; [|congruence]. eapply Inv_weaken; [exact HI3| |done]. set_solver.
Qed.

(** After the replay every wiphy is known, and discovering finds nothing. *)
Lemma discover_known W U l count s c s' :
  Inv info W U s -> (forall d w, d ∈ l -> nd_wiphy d = Some w -> W w) ->
  discover_from info l count s = (Done c, s') -> c = count /\ s' = s.
Proof.
  intros HI Hl. revert count. induction l as [|d l IH]; intros count; cbn [discover_from].
  { by intros [= <- <-]. }
  assert (forall d w, d ∈ l -> nd_wiphy d = Some w -> W w) as Hl' by (intros d' w Hd'; apply Hl; set_solver).
  destruct (nd_wiphy d) as [w|] eqn:Hw; [|by apply IH].
  unfold mbind, M_bind. destruct (tsf_ptp_probe info w s) as [[r| |] s1] eqn:E; [|done..].
  destruct (probe_inv W U w s r s1 HI E) as (_ & _ & Hk).
  destruct (Hk (Hl d w (list_elem_of_here _ _) Hw)) as [-> Hr].
  rewrite (proj2 (Z.eqb_neq r 0)) by done. by apply IH.
Qed.

Lemma scan_inv W l s : Inv info W (running s) s -> l ⊆ devs s ->
  Inv info W (running (scan_from l s)) (scan_from l s) /\ devs (scan_from l s) = devs s.
Proof.
  revert s. induction l as [|d l IH]; intros s HI Hl; [done|]. cbn [scan_from].
  destruct (nd_wiphy d) as [w|] eqn:Hw; [|apply IH; [done|set_solver]].
  destruct (nd_up d) eqn:Hup; [|apply IH; [done|set_solver]].
  destruct (set_vif_fields w (vif_up (nd_id d)) s) as (Hds & _).
  destruct (IH (set_vif w (vif_up (nd_id d)) s)) as [HI2 Hd2].
  - unfold running. rewrite Hds. apply vif_up_inv; [done|]. exists d. set_solver.
  - rewrite Hds. set_solver.
  - split; [done|congruence].
Qed.

(** None of this touches the synchronisation or the devices. *)
Definition sync_part (s : NWorld) : Z * Work * bool := (sync_mode s, work s, chardev_registered s).

Lemma event_same e d s : sync_part (tsf_ptp_netdev_event info e d s).2 = sync_part s /\ devs (tsf_ptp_netdev_event info e d s).2 = devs s.
Proof.
  assert (forall w f s', sync_part (set_vif w f s') = sync_part s' /\ devs (set_vif w f s') = devs s') as Hv.
  { intros w f s'. destruct (set_vif_fields w f s') as (? & _ & _ & ? & ? & ? & _). unfold sync_part. split; congruence. }
  assert (forall w s', sync_part (tsf_ptp_probe info w s').2 = sync_part s' /\ devs (tsf_ptp_probe info w s').2 = devs s') as Hp.
  { intros w s'. unfold tsf_ptp_probe, ptp_clock_register. by repeat case_match; simplify_eq. }
  unfold tsf_ptp_netdev_event. destruct (nd_wiphy d) as [w|]; [|done]. destruct e; [| | |]; try apply Hv.
  - unfold tsf_ptp_try_hotplug_probe, gets, mbind, M_bind. destruct (find_card_by_wiphy_locked w s); [done|].
    specialize (Hp w s). by destruct (tsf_ptp_probe info w s) as [[] ?].
  - unfold act. cbn [snd]. unfold tsf_ptp_try_hotplug_remove. destruct (Hv w (vif_down (nd_id d)) s) as [<- <-].
    by repeat case_match.
Qed.

Lemma replay_up_same l s : sync_part (replay_up info l s).2 = sync_part s /\ devs (replay_up info l s).2 = devs s.
Proof.
  revert s. induction l as [|d l IH]; intros s; [done|]. cbn [replay_up]. unfold mbind, M_bind.
  destruct (event_same NETDEV_REGISTER d s) as [<- <-].
  destruct (tsf_ptp_netdev_event info NETDEV_REGISTER d s) as [[u| |] s1]; [|done..]. cbn [snd].
  destruct (nd_up d); [|apply IH].
  destruct (event_same NETDEV_UP d s1) as [<- <-].
  destruct (tsf_ptp_netdev_event info NETDEV_UP d s1) as [[u2| |] s2]; [apply IH|done..].
Qed.

Lemma scan_same l s : sync_part (scan_from l s) = sync_part s.
Proof.
  revert s. induction l as [|d l IH]; intros s; [done|]. cbn [scan_from].
  destruct (nd_wiphy d) as [w|]; [|apply IH]. rewrite IH. destruct (nd_up d); [|done].
  destruct (set_vif_fields w (vif_up (nd_id d)) s) as (_ & _ & _ & ? & ? & ? & _). unfold sync_part. congruence.
Qed.

Lemma Inv_unloaded s : unloaded s -> Inv info (λ _, False) (running s) s.
Proof.
  intros (E1 & E2 & _). split; rewrite ?E1, ?E2; simpl; try done; try constructor; set_solver.
Qed.

Lemma start_sync_cards b s :
  devs (start_sync b s) = devs s /\ mcards (start_sync b s) = mcards s /\ clocks (start_sync b s) = clocks s
  /\ next_clock (start_sync b s) = next_clock s.
Proof. unfold start_sync. by repeat case_match. Qed.

(** The loading of the module. *)
Lemma init_spec chardev_fails s count s' :
  unloaded s -> tsf_ptp_init info chardev_fails s = (Done count, s') ->
  count = 0 /\ devs s' = devs s /\ Inv info (announced s') (running s') s'
  /\ exists s2, s' = start_sync chardev_fails s2 /\ sync_part s2 = sync_part s.
Proof.
  intros Hu. unfold tsf_ptp_init, tsf_ptp_discover_from_netdevs, gets, act, mbind, M_bind, mret, M_ret.
  destruct (replay_up_same (devs s) s) as [Hsync _].
  destruct (replay_up info (devs s) s) as [[u| |] s1] eqn:E1; [|done..]. cbn [snd] in Hsync.
  destruct (replay_up_inv (devs s) (λ _, False) s u s1 (Inv_unloaded s Hu) (reflexivity _) E1) as [HI Hd].
  rewrite Hd. destruct (discover_from info (devs s) 0 s1) as [[c| |] s1'] eqn:E2; [|done..].
  intros [= <- <-].
  destruct (discover_known _ _ (devs s) 0 s1 c s1' HI) with (2 := E2) as [-> ->]; [naive_solver|].
  unfold tsf_ptp_scan_existing_vifs. destruct (scan_inv _ (devs s1) s1 HI (reflexivity _)) as [HI2 Hd2].
  set (s2 := scan_from (devs s1) s1) in *.
  destruct (start_sync_cards chardev_fails s2) as (F1 & F2 & F3 & F4).
  split; [done|]. split; [congruence|]. split.
  - eapply Inv_same; [done..|]. unfold running, announced. rewrite F1.
    eapply Inv_weaken; [exact HI2| |done]. intros w. rewrite Hd2, Hd. naive_solver.
  - exists s2. split; [done|]. unfold s2. by rewrite scan_same.
Qed.

(** *** The steps of the networking core *)

Definition LInv (s : NWorld) : Prop := NoDup (nd_id <$> devs s) /\ Inv info (announced s) (running s) s.

Lemma nodup_id (l : list NetDev) (d d' : NetDev) : NoDup (nd_id <$> l) -> d ∈ l -> d' ∈ l -> nd_id d = nd_id d' -> d = d'.
Proof.
  intros Hn [i Hi]%list_elem_of_lookup [j Hj]%list_elem_of_lookup E.
  assert (i = j) as ->; [|congruence].
  eapply (NoDup_lookup (nd_id <$> l)); [done|by rewrite list_lookup_fmap, Hi|].
  rewrite list_lookup_fmap, Hj. simpl. by f_equal.
Qed.

Lemma set_up_ids id b (l : list NetDev) : nd_id <$> (set_up id b <$> l) = nd_id <$> l.
Proof. rewrite <- list_fmap_compose. apply list_fmap_ext. intros i d _. unfold compose, set_up. by case_bool_decide. Qed.
Lemma set_up_announced id b s w : announced (with_devs (set_up id b <$> devs s) s) w <-> announced s w.
Proof.
  unfold announced. cbn [devs with_devs]. split.
  - intros (d & (d0 & -> & Hd)%list_elem_of_fmap & Hw). exists d0. split; [done|]. revert Hw. unfold set_up. by case_bool_decide.
  - intros (d & Hd & Hw). exists (set_up id b d). split; [by apply list_elem_of_fmap_2|]. unfold set_up. by case_bool_decide.
Qed.
Lemma set_up_running id b s i w :
  running (with_devs (set_up id b <$> devs s) s) i w <->
  (i <> id /\ running s i w) \/ (i = id /\ b = true /\ exists d, d ∈ devs s /\ nd_id d = id /\ nd_wiphy d = Some w).
Proof.
  unfold running. cbn [devs with_devs]. split.
  - intros (d & (d0 & -> & Hd)%list_elem_of_fmap & Hi & Hu & Hw). revert Hi Hu Hw. unfold set_up.
    case_bool_decide; cbn; naive_solver.
  - intros [[Hne (d & Hd & Hi & Hu & Hw)]|(-> & -> & d & Hd & Hi & Hw)].
    + exists (set_up id b d). split; [by apply list_elem_of_fmap_2|]. unfold set_up. rewrite bool_decide_false by congruence. done.
    + exists (set_up id true d). split; [by apply list_elem_of_fmap_2|]. unfold set_up. by rewrite bool_decide_true.
Qed.

(** A changed list of devices, before the notifier runs. *)
Lemma with_devs_inv W U l s : Inv info W U s -> Inv info W U (with_devs l s).
Proof. by apply Inv_same. Qed.

Lemma register_inv s s' d :
  LInv s -> nd_id d ∉ nd_id <$> devs s -> nd_up d = false ->
  tsf_ptp_netdev_event info NETDEV_REGISTER d (with_devs (devs s ++ [d]) s) = (Done tt, s') -> LInv s'.
Proof.
  intros [Hn HI] Hid Hup E. pose proof (event_same NETDEV_REGISTER d (with_devs (devs s ++ [d]) s)) as [_ Hd].
  rewrite E in Hd. cbn [snd devs with_devs] in Hd. unfold LInv, announced, running. rewrite Hd. split.
  { rewrite fmap_app. apply NoDup_app. split; [done|]. split; [|apply NoDup_singleton].
    intros i Hi ->%list_elem_of_singleton. done. }
  apply (with_devs_inv _ _ (devs s ++ [d])) in HI. unfold tsf_ptp_netdev_event in E.
  assert (Inv info (λ w, announced s w \/ nd_wiphy d = Some w) (running s) s') as HI'.
  { destruct (nd_wiphy d) as [w|] eqn:Hw.
    - destruct (probe_bind_inv _ _ w _ tt s' HI E) as [HI1 _]. eapply Inv_weaken; [exact HI1|naive_solver|done].
    - injection E as <-. eapply Inv_weaken; [exact HI|naive_solver|done]. }
  eapply Inv_weaken; [exact HI'| |].
  - intros w. unfold announced. setoid_rewrite elem_of_app. setoid_rewrite list_elem_of_singleton. naive_solver.
  - intros i w (d' & Hd' & Hr). exists d'. by rewrite elem_of_app; auto.
Qed.

Lemma up_inv s s' d :
  LInv s -> d ∈ devs s ->
  tsf_ptp_netdev_event info NETDEV_UP d (with_devs (set_up (nd_id d) true <$> devs s) s) = (Done tt, s') -> LInv s'.
Proof.
  intros [Hn HI] Hin E. set (s1 := with_devs (set_up (nd_id d) true <$> devs s) s) in *.
  assert (Inv info (announced s1) (running s1) s1) as HI1.
  { apply with_devs_inv. eapply Inv_weaken; [exact HI|apply set_up_announced|]. intros i w Hr. apply set_up_running.
    destruct (decide (i = nd_id d)) as [->|]; [right|by left]. destruct Hr as (d' & ? & ? & _ & ?). eauto 6. }
  pose proof (event_same NETDEV_UP d s1) as [_ Hd]. rewrite E in Hd. cbn [snd] in Hd.
  unfold LInv, announced, running. rewrite Hd. split; [subst s1; cbn [devs with_devs]; by rewrite set_up_ids|].
  unfold tsf_ptp_netdev_event in E. destruct (nd_wiphy d) as [w|] eqn:Hw; injection E as <-; [|exact HI1].
  apply vif_up_inv; [exact HI1|]. apply set_up_running. right. eauto 6.
Qed.

Lemma down_inv s s' d :
  LInv s -> d ∈ devs s ->
  tsf_ptp_netdev_event info NETDEV_DOWN d (with_devs (set_up (nd_id d) false <$> devs s) s) = (Done tt, s') -> LInv s'.
Proof.
  intros [Hn HI] Hin E. set (s1 := with_devs (set_up (nd_id d) false <$> devs s) s) in *.
  assert (Inv info (announced s1) (running s) s1) as HI1.
  { apply with_devs_inv. eapply Inv_weaken; [exact HI|apply set_up_announced|done]. }
  pose proof (event_same NETDEV_DOWN d s1) as [_ Hd]. rewrite E in Hd. cbn [snd] in Hd.
  unfold LInv, announced, running. rewrite Hd. split; [subst s1; cbn [devs with_devs]; by rewrite set_up_ids|].
  assert (forall i w, running s i w -> ~ (i = nd_id d /\ nd_wiphy d = Some w) -> running s1 i w) as Hrun.
  { intros i w Hr Hx. apply set_up_running. left. split; [|done]. intros ->. destruct Hr as (d' & Hd' & E' & _ & Hw').
    apply Hx. split; [done|]. by rewrite (nodup_id _ d d' Hn Hin Hd'). }
  unfold tsf_ptp_netdev_event in E. destruct (nd_wiphy d) as [w|] eqn:Hw; injection E as <-.
  - eapply vif_down_inv; [exact HI1|]. intros i w' Hr Hne. apply Hrun; [done|]. naive_solver.
  - eapply Inv_weaken; [exact HI1|done|]. intros i w Hr. apply Hrun; naive_solver.
Qed.

Lemma existsb_uses w s : existsb (uses_wiphy w) (devs s) = true <-> announced s w.
Proof.
  rewrite existsb_exists. unfold announced, uses_wiphy. split; intros (d & Hd & Hw); exists d.
  - by rewrite list_elem_of_In, bool_decide_eq_true in *.
  - by rewrite <- list_elem_of_In, bool_decide_eq_true.
Qed.

Lemma unregister_inv s s' d :
  LInv s -> d ∈ devs s -> nd_up d = false ->
  tsf_ptp_netdev_event info NETDEV_UNREGISTER d
    (with_devs (filter (λ d', nd_id d' <> nd_id d) (devs s)) s) = (Done tt, s') -> LInv s'.
Proof.
  intros [Hn HI] Hin Hup E. set (s1 := with_devs (filter (λ d', nd_id d' <> nd_id d) (devs s)) s) in *.
  assert (devs s1 = filter (λ d', nd_id d' <> nd_id d) (devs s)) as Hd1 by done.
  pose proof (event_same NETDEV_UNREGISTER d s1) as [_ Hd]. rewrite E in Hd. cbn [snd] in Hd.
  assert (forall i w, running s i w -> running s1 i w) as Hrun.
  { intros i w (d' & Hd' & E' & Hu' & Hw'). exists d'. rewrite Hd1, list_elem_of_filter. split_and!; try done.
    intros Eid. rewrite (nodup_id _ d' d Hn Hd' Hin Eid) in Hu'. congruence. }
  assert (forall w, announced s1 w -> announced s w) as Hsub.
  { intros w (d' & Hd' & Hw'). rewrite Hd1, list_elem_of_filter in Hd'. exists d'. naive_solver. }
  assert (forall w, announced s w -> nd_wiphy d <> Some w -> announced s1 w) as Hsup.
  { intros w (d' & Hd' & Hw') Hne. exists d'. rewrite Hd1, list_elem_of_filter. split_and!; try done.
    intros Eid. rewrite (nodup_id _ d' d Hn Hd' Hin Eid) in Hw'. congruence. }
  assert (Inv info (announced s) (running s1) s1) as HI1.
  { apply with_devs_inv. by eapply Inv_weaken; [exact HI| |]. }
  unfold LInv, announced, running. rewrite Hd. split.
  { rewrite Hd1. eapply sublist_NoDup; [exact Hn|]. apply fmap_sublist, sublist_filter. }
  unfold tsf_ptp_netdev_event in E. destruct (nd_wiphy d) as [w|] eqn:Hw; injection E as <-.
  - assert (Inv info (announced s) (running s1) (set_vif w (vif_down (nd_id d)) s1)) as HI2 by (by eapply vif_down_inv; [exact HI1|]).
    destruct (hotplug_remove_inv _ _ w _ HI2) as [HI3 _]. destruct (set_vif_fields w (vif_down (nd_id d)) s1) as (Hds & _).
    eapply Inv_weaken; [exact HI3| |done]. intros w'. rewrite Hds, existsb_uses. split.
    + intros Ha. split; [by apply Hsub|]. by intros ->.
    + intros [Ha Hw']. destruct (decide (w' = w)) as [->|Hne]; [by apply Hw'|]. apply Hsup; [done|congruence].
  - eapply Inv_weaken; [exact HI1| |done]. intros w. split; [apply Hsub|]. intros Ha. apply Hsup; [done|congruence].
Qed.
Lemma step_inv s s' : LInv s -> core_step info s s' -> LInv s'.
Proof.
  intros H Hstep. revert H. inversion Hstep; subst; intros HL.
  - by eapply register_inv.
  - by eapply up_inv.
  - by eapply down_inv.
  - by eapply unregister_inv.
Qed.

Lemma loaded_inv s : loaded info s -> LInv s.
Proof.
  induction 1 as [s s' b count Hu E|s s' _ IH Hs|s v _ [IH1 IH2]].
  - destruct (init_spec b s count s' Hu E) as (_ & Hd & HI & _). split; [|done]. rewrite Hd. by destruct Hu as (_ & _ & _ & _ & ?).
  - by eapply step_inv.
  - split; [done|]. by eapply Inv_same; [| | |exact IH2].
Qed.

(** *** When nothing is undefined *)

Definition trouble_free (s : NWorld) : Prop := Forall (λ f : bool, f = false) (register_fails s).

Lemma probe_returns w s : w_mac80211 (info w) = true -> trouble_free s ->
  exists r s', tsf_ptp_probe info w s = (Done r, s') /\ trouble_free s'.
Proof.
  intros Hm Ht. unfold tsf_ptp_probe. rewrite Hm. cbn [negb]. destruct (w_get_tsf (info w)); cbn [negb]; [|eauto].
  destruct (find_card_by_wiphy_locked w s); [eauto|]. unfold ptp_clock_register, trouble_free in *.
  destruct (register_fails s) as [|[] fs]; cbn.
  - by eexists _, _.
  - by apply Forall_cons_iff in Ht as [? _].
  - apply Forall_cons_iff in Ht as [_ Ht]. by eexists _, _.
Qed.

Lemma set_vif_trouble w f s : trouble_free s -> trouble_free (set_vif w f s).
Proof. unfold set_vif. by case_match; [case_match|]. Qed.

Lemma replay_up_returns l s :
  (forall d w, d ∈ l -> nd_wiphy d = Some w -> w_mac80211 (info w) = true) -> trouble_free s ->
  exists s', replay_up info l s = (Done tt, s') /\ trouble_free s'.
Proof.
  revert s. induction l as [|d l IH]; intros s Hl Ht; [by exists s|]. cbn [replay_up].
  assert (forall s, trouble_free s -> exists s', tsf_ptp_netdev_event info NETDEV_REGISTER d s = (Done tt, s') /\ trouble_free s') as Hr.
  { clear s Ht. intros s Ht. unfold tsf_ptp_netdev_event. destruct (nd_wiphy d) as [w|] eqn:Hw; [|by exists s].
    unfold tsf_ptp_try_hotplug_probe, gets, mbind, M_bind. destruct (find_card_by_wiphy_locked w s); [by exists s|].
    destruct (probe_returns w s (Hl d w (list_elem_of_here _ _) Hw) Ht) as (r & s' & -> & ?). by exists s'. }
  destruct (Hr s Ht) as (s1 & E1 & Ht1). rewrite (bind_done _ _ _ _ _ E1).
  assert (exists s2, (if nd_up d then tsf_ptp_netdev_event info NETDEV_UP d else mret tt) s1 = (Done tt, s2) /\ trouble_free s2) as (s2 & E2 & Ht2).
  { destruct (nd_up d); [|by exists s1]. unfold tsf_ptp_netdev_event. destruct (nd_wiphy d); [|by exists s1].
    eexists. split; [reflexivity|]. by apply set_vif_trouble. }
  rewrite (bind_done _ _ _ _ _ E2). apply IH; [|done]. intros d' w' Hd'. apply Hl. by right.
Qed.

Lemma discover_returns l count s :
  (forall d w, d ∈ l -> nd_wiphy d = Some w -> w_mac80211 (info w) = true) -> trouble_free s ->
  exists c s', discover_from info l count s = (Done c, s').
Proof.
  revert count s. induction l as [|d l IH]; intros count s Hl Ht; cbn [discover_from]; [by exists count, s|].
  assert (forall d w, d ∈ l -> nd_wiphy d = Some w -> w_mac80211 (info w) = true) as Hl' by (intros d' w' Hd'; apply Hl; by right).
  destruct (nd_wiphy d) as [w|] eqn:Hw; [|by apply IH].
  destruct (probe_returns w s (Hl d w (list_elem_of_here _ _) Hw) Ht) as (r & s1 & E & Ht1).
  rewrite (bind_done _ _ _ _ _ E). by apply IH.
Qed.

(** *** Unloading *)

Lemma replay_down_returns l W U s :
  Inv info W U s ->
  exists s', replay_down info l s = (Done tt, s') /\ sync_part s' = sync_part s /\
             exists W', Inv info W' (λ _ _, True) s'.
Proof.
  intros HI. assert (exists W, Inv info W (λ _ _, True) s) as [W0 H0] by (exists W; by eapply Inv_weaken; [exact HI| |]).
  clear W U HI. revert W0 s H0. induction l as [|d l IH]; intros W s HI.
  { exists s. split_and!; [done..|]. by exists W. }
  cbn [replay_down].
  assert (exists s1, (if nd_up d then tsf_ptp_netdev_event info NETDEV_DOWN d else mret tt) s = (Done tt, s1)
                     /\ sync_part s1 = sync_part s /\ Inv info W (λ _ _, True) s1) as (s1 & E1 & Hs1 & HI1).
  { destruct (nd_up d); [|by exists s]. destruct (event_same NETDEV_DOWN d s) as [Hs _]. revert Hs.
    unfold tsf_ptp_netdev_event. destruct (nd_wiphy d) as [w|]; [|by exists s]. intros Hs.
    eexists. split; [reflexivity|]. split; [exact Hs|]. by eapply vif_down_inv; [exact HI|]. }
  rewrite (bind_done _ _ _ _ _ E1). destruct (event_same NETDEV_UNREGISTER d s1) as [Hs _]. revert Hs.
  unfold tsf_ptp_netdev_event at 1 2. destruct (nd_wiphy d) as [w|].
  - intros Hs. unfold act at 1. erewrite bind_done by reflexivity. rewrite <- Hs1, <- Hs. cbn [snd act].
    destruct (hotplug_remove_inv (info := info) W (λ _ _, True) w (set_vif w (vif_down (nd_id d)) s1)) as [HI2 _].
    { by eapply vif_down_inv; [exact HI1|]. }
    by apply (IH _ _ HI2).
  - intros _. erewrite bind_done by reflexivity. rewrite <- Hs1. by apply (IH W).
Qed.

Lemma remove_all_spec l s : NoDup (pc_clock <$> l) -> clocks s = pc_clock <$> l -> mcards s = l ->
  mcards (remove_all l s) = [] /\ clocks (remove_all l s) = [] /\ sync_part (remove_all l s) = sync_part s.
Proof.
  revert s. induction l as [|c l IH]; intros s Hn Hc Hm; [done|]. cbn [remove_all].
  rewrite fmap_cons in *. apply NoDup_cons in Hn as [Hnot Hn].
  destruct (IH (tsf_ptp_remove c (with_mcards l s))) as (E1 & E2 & E3); try done.
  cbn [tsf_ptp_remove with_mcards clocks]. rewrite Hc, filter_cons_False by auto.
  apply filter_all, Forall_forall. by intros x Hx ->.
Qed.
End reachable.

(** ** What holds of the loaded module *)

(** C12: In every state of the loaded module, however the devices come and go
    and whatever is written to its parameter, and as long as no registration of a
    clock has failed, there is exactly one card for
    every wiphy that has a network device and can read its TSF, and none for
    any other; the registered clocks are those of the cards, in order and all
    different; and a captured vif belongs to a device of the card's wiphy that
    is there and up, so that the timer never reads the TSF of an interface that
    is down. *)
Theorem cards_of_devices info s :
  loaded info s ->
  (forall w, w ∈ pc_wiphy <$> mcards s <-> w_get_tsf (info w) = true /\ exists d, d ∈ devs s /\ nd_wiphy d = Some w)
  /\ NoDup (pc_wiphy <$> mcards s) /\ clocks s = pc_clock <$> mcards s /\ NoDup (clocks s)
  /\ (forall c id, c ∈ mcards s -> pc_vif c = Some id ->
        exists d, d ∈ devs s /\ nd_id d = id /\ nd_up d = true /\ nd_wiphy d = Some (pc_wiphy c)).
Proof. intros [_ [H1 H2 H3 H4 H5 H6 H7]]%loaded_inv. split_and!; try done. Qed.

(** C29: Loading succeeds when mac80211 drives the wireless devices and the
    clocks can be registered, and it always reports that no clock was
    registered: registering the notifier has already announced every device,
    so the discovery that counts finds each wiphy known. *)
Theorem init_reports_zero info chardev_fails s :
  unloaded s -> trouble_free s ->
  (forall d w, d ∈ devs s -> nd_wiphy d = Some w -> w_mac80211 (info w) = true) ->
  exists s', tsf_ptp_init info chardev_fails s = (Done 0, s') /\ devs s' = devs s
  /\ (forall w, w ∈ pc_wiphy <$> mcards s' <-> w_get_tsf (info w) = true /\ announced s w)
  /\ length (clocks s') = length (mcards s').
Proof.
  intros Hu Ht Hm. destruct (tsf_ptp_init info chardev_fails s) as [o s'] eqn:E.
  assert (exists c, o = Done c) as [c ->].
  { revert E. unfold tsf_ptp_init, tsf_ptp_discover_from_netdevs, gets, act, mbind, M_bind.
    destruct (replay_up_returns (devs s) s Hm Ht) as (s1 & E1 & Ht1). rewrite E1.
    destruct (replay_up_same (info := info) (devs s) s) as [_ Hd]. rewrite E1 in Hd. cbn [snd] in Hd. rewrite Hd.
    destruct (discover_returns (devs s) 0 s1 Hm Ht1) as (c & s2 & ->). intros [= <- _]. by exists c. }
  destruct (init_spec chardev_fails s c s' Hu E) as (-> & Hd & HI & _). exists s'. split_and!; try done.
  - intros w. rewrite (inv_cards _ _ _ _ HI). unfold announced. by rewrite Hd.
  - by rewrite (inv_clocks _ _ _ _ HI), length_fmap.
Qed.

(** When the interface a card has captured goes down the card is left
    without one, although other interfaces of the same wiphy stay up: the next
    one is captured only when it goes up again. *)
Theorem second_interface_lost info s s' c d :
  loaded info s -> c ∈ mcards s -> pc_vif c = Some (nd_id d) -> d ∈ devs s -> nd_up d = true ->
  tsf_ptp_netdev_event info NETDEV_DOWN d (with_devs (set_up (nd_id d) false <$> devs s) s) = (Done tt, s') ->
  (exists c', c' ∈ mcards s' /\ pc_wiphy c' = pc_wiphy c /\ pc_vif c' = None)
  /\ (forall id, id <> nd_id d -> running s id (pc_wiphy c) -> running s' id (pc_wiphy c)).
Proof.
  intros [Hn HI]%loaded_inv Hc Hv Hd _ E.
  destruct (inv_vif _ _ _ _ HI c _ Hc Hv) as (d' & Hd' & Eid & _ & Hw).
  rewrite (nodup_id _ d' d Hn Hd' Hd Eid) in Hw. unfold tsf_ptp_netdev_event in E. rewrite Hw in E. injection E as <-.
  set (s1 := with_devs _ s). split.
  - unfold set_vif. destruct (find_card_by_wiphy_locked (pc_wiphy c) s1) as [[i c0]|] eqn:Hf.
    + apply find_card_Some in Hf as [Hi Hw0]. change (mcards s1) with (mcards s) in Hi. assert (c0 = c) as ->.
      { apply list_elem_of_lookup in Hc as [j Hj]. assert (i = j) as ->; [|by rewrite Hj in Hi; simplify_eq].
        eapply (NoDup_lookup (pc_wiphy <$> mcards s)); [by apply HI|by rewrite list_lookup_fmap, Hi|].
        rewrite list_lookup_fmap, Hj. simpl. by f_equal. }
      eexists. split; [eapply list_elem_of_lookup_2; cbn [mcards with_mcards]; apply list_lookup_insert_eq; by eapply lookup_lt_Some|].
      split; [done|]. cbn. rewrite Hv. unfold vif_down. by rewrite bool_decide_true.
    + apply find_card_None in Hf. destruct Hf. apply list_elem_of_fmap. by exists c.
  - intros id Hne Hr. destruct (set_vif_fields (pc_wiphy c) (vif_down (nd_id d)) s1) as (Hds & _).
    unfold running. rewrite Hds. apply (set_up_running (info := info)). by left.
Qed.

(** C20: Unloading decides what to stop by the parameter's value at that time,
    which root may have changed since loading.  Every card and clock always
    goes; but the delayed work of mode B stays queued (to run in memory that is
    no longer there) unless the parameter is still 1, the misc device stays
    registered unless it is still 2, and a parameter set to 1 after loading in
    another mode cancels work that was never initialised. *)
Theorem exit_by_current_parameter info s :
  loaded info s ->
  (sync_mode s = 1 /\ work s = Uninitialised /\ (tsf_ptp_exit info s).1 = Panic)
  \/ exists s', tsf_ptp_exit info s = (Done tt, s') /\ mcards s' = [] /\ clocks s' = []
     /\ (work s' = Pending <-> work s = Pending /\ sync_mode s <> 1)
     /\ (chardev_registered s' = true <-> chardev_registered s = true /\ sync_mode s <> 2).
Proof.
  intros [_ HI]%loaded_inv. unfold tsf_ptp_exit.
  assert (forall s1, mcards s1 = mcards s -> clocks s1 = clocks s -> next_clock s1 = next_clock s -> stop_sync s = (Done tt, s1) ->
    exists s', tsf_ptp_exit info s = (Done tt, s') /\ mcards s' = [] /\ clocks s' = [] /\ sync_part s' = sync_part s1) as Hrest.
  { intros s1 E1 E2 E3 E. unfold tsf_ptp_exit. rewrite (bind_done _ _ _ _ _ E). unfold gets, act, mbind, M_bind.
    apply (Inv_same _ _ s s1 E1 E2 E3) in HI. destruct (replay_down_returns (devs s1) _ _ s1 HI) as (s2 & -> & Hs & W & HI2).
    eexists. split; [reflexivity|]. rewrite <- Hs. apply remove_all_spec; [|by apply HI2|done].
    rewrite <- (inv_clocks _ _ _ _ HI2). by apply HI2. }
  unfold tsf_ptp_exit in Hrest. unfold stop_sync in *. destruct (Z.eqb_spec (sync_mode s) 1) as [E1|E1].
  - destruct (work s) eqn:Hw; [left|right..].
    + split_and!; [done..|]. unfold mbind, M_bind. by rewrite E1, Hw.
    + destruct (Hrest (with_sync NotPending (chardev_registered s) s)) as (s' & -> & ? & ? & [= Em Ew Er]); [done..|].
      exists s'. rewrite Ew, Er, E1. split_and!; [done..|naive_solver|]. split; [done|]. naive_solver.
    + destruct (Hrest (with_sync NotPending (chardev_registered s) s)) as (s' & -> & ? & ? & [= Em Ew Er]); [done..|].
      exists s'. rewrite Ew, Er, E1. split_and!; [done..|naive_solver|]. split; [done|]. naive_solver.
  - right. destruct (Z.eqb_spec (sync_mode s) 2) as [E2|E2].
    + destruct (Hrest (with_sync (work s) false s)) as (s' & -> & ? & ? & [= Em Ew Er]); [done..|].
      exists s'. rewrite Ew, Er, E2. split_and!; [done..|naive_solver|]. naive_solver.
    + destruct (Hrest s) as (s' & -> & ? & ? & [= Em Ew Er]); [done..|].
      exists s'. rewrite Ew, Er. naive_solver.
Qed.

(** *** A machine with two interfaces on one radio, and a wired device *)

Definition radio (w : nat) : Wiphy := {| w_mac80211 := true; w_get_tsf := true |}.
Definition wlan0 : NetDev := {| nd_id := 2; nd_wiphy := Some 0%nat; nd_up := true |}.
Definition wlan1 : NetDev := {| nd_id := 3; nd_wiphy := Some 0%nat; nd_up := true |}.
Definition eth0 : NetDev := {| nd_id := 1; nd_wiphy := None; nd_up := true |}.
Definition machine (mode : Z) : NWorld :=
  {| devs := [eth0; wlan0; wlan1]; mcards := []; clocks := []; next_clock := 0; register_fails := [];
     sync_mode := mode; work := Uninitialised; chardev_registered := false |}.
Definition card0 : PtpCard := {| pc_wiphy := 0; pc_vif := Some 2%nat; pc_clock := 0 |}.
Definition machine_loaded : NWorld := (tsf_ptp_init radio false (machine 1)).2.

Lemma machine_unloaded mode : unloaded (machine mode).
Proof. repeat split; try reflexivity. apply (bool_decide_unpack (NoDup [1; 2; 3]%nat)). reflexivity. Qed.
Lemma machine_is_loaded : loaded radio machine_loaded.
Proof. apply (loaded_init radio (machine 1) _ false 0); [apply machine_unloaded|]. vm_compute. reflexivity. Qed.

Lemma cards_of_devices_witness : loaded radio machine_loaded /\ NoDup (pc_wiphy <$> mcards machine_loaded).
Proof. split; [apply machine_is_loaded|]. apply (cards_of_devices radio machine_loaded), machine_is_loaded. Defined.

Lemma init_reports_zero_witness : exists s', tsf_ptp_init radio false (machine 2) = (Done 0, s') /\ mcards s' = [card0].
Proof.
  destruct (init_reports_zero radio false (machine 2)) as (s' & E & _).
  - apply machine_unloaded.
  - constructor.
  - reflexivity.
  - exists s'. split; [exact E|]. vm_compute in E. by injection E as <-.
Defined.

Definition one_down : NWorld :=
  (tsf_ptp_netdev_event radio NETDEV_DOWN wlan0 (with_devs (set_up 2 false <$> devs machine_loaded) machine_loaded)).2.
Lemma second_interface_lost_witness :
  running one_down 3 0 /\ exists c', c' ∈ mcards one_down /\ pc_vif c' = None.
Proof.
  destruct (second_interface_lost radio machine_loaded one_down card0 wlan0 machine_is_loaded) as [(c' & Hc & _ & Hv) Hr].
  - vm_compute. left.
  - reflexivity.
  - vm_compute. right. left.
  - reflexivity.
  - vm_compute. reflexivity.
  - split; [|by exists c']. apply Hr; [done|]. exists wlan1. split; [vm_compute; right; right; left|done].
Defined.

(** Loaded in mode B, and the parameter then set to 0. *)
Lemma exit_by_current_parameter_witness :
  exists s', tsf_ptp_exit radio (with_mode 0 machine_loaded) = (Done tt, s') /\ work s' = Pending.
Proof.
  destruct (exit_by_current_parameter radio (with_mode 0 machine_loaded)) as [(H & _)|(s' & E & _ & _ & Hw & _)].
  - apply loaded_param, machine_is_loaded.
  - discriminate H.
  - exists s'. split; [exact E|]. apply Hw. split; [reflexivity|discriminate].
Defined.
