(* ===== verification/Module.v ===== *)
(** * The module as one system (kernel/tsf_ptp.c)

    [Netdev] follows which cards there are and which interface each has;
    [Chardev] and [KernelSync] what the clocks, the device and the timer do with
    the cards' counters.  Here they work on one state: a counter belongs to a
    radio and survives its card, the statistics belong to a card and go with it.
    There are no definitions of the program here. *)

From stdpp Require Import sets.
From S2P Require Import Prelude Ints Text Sys SyncMode Chardev IoUring KernelSync Netdev.

(** ** The joint state *)

Section whole.
Variable info : nat -> Wiphy.
Variable name : nat -> list Z.       (* of the phy *)
Variable can_set : nat -> bool.      (* whether the driver has set_tsf *)

(** The list of cards and devices; the counter of each radio, as an offset from
    the machine's clock; the statistics of each card, by the number of its
    clock; and the rest of the module's state. *)
Record Module := {
  net : NWorld;
  counter : nat -> Z;
  counts : nat -> Z * Z * Z;
  rest : KState;
}.

Definition seen_card (m : Module) (c : PtpCard) : Card :=
  {| c_phy := name (pc_wiphy c); c_vif := bool_decide (pc_vif c <> None); c_set := can_set (pc_wiphy c);
     c_base := counter m (pc_wiphy c); c_last_offset := (counts m (pc_clock c)).1.1;
     c_sync_count := (counts m (pc_clock c)).1.2; c_sync_errors := (counts m (pc_clock c)).2 |}.

(** What an operation on the cards sees, *)
Definition view (m : Module) : KState := with_cards (seen_card m <$> mcards (net m)) (rest m).

(** and where its result goes. *)
Definition at_card {A} (P : PtpCard -> Prop) `{!forall c, Decision (P c)} (f : Card -> A) (d : A) (m : Module) (k : KState) : A :=
  match list_find P (mcards (net m)) with
  | Some (i, _) => from_option f d (cards k !! i)
  | None => d
  end.
Definition store (k : KState) (m : Module) : Module :=
  {| net := net m;
     counter := λ w, at_card (λ c, pc_wiphy c = w) c_base (counter m w) m k;
     counts := λ n, at_card (λ c, pc_clock c = n) (λ c, (c_last_offset c, c_sync_count c, c_sync_errors c)) (counts m n) m k;
     rest := with_cards [] k |}.

(** An operation of the module on its cards. *)
Inductive cards_op (s : NWorld) : KState -> KState -> Prop :=
  | op_elapse k d : cards_op s k (k_elapse d k)
  | op_work k ds : work s = Pending -> cards_op s k (tsf_sync_work_fn ds k).1
  | op_read k count ds : chardev_registered s = true -> cards_op s k (tsf_sync_chardev_read count ds k).2
  | op_write k buf ds r k' :
      chardev_registered s = true -> tsf_sync_chardev_write buf ds k = (Done r, k') -> cards_op s k k'
  | op_adjtime k i c adjtime delta ds r k' :
      cards k !! i = Some c -> adjtime_op i c = Some adjtime -> adjtime delta ds k = (Done r, k') -> cards_op s k k'
  | op_settime k i c settime64 ns r k' :
      cards k !! i = Some c -> settime64_op i c = Some settime64 -> settime64 ns k = (Done r, k') -> cards_op s k k'.

Definition with_net (s : NWorld) (m : Module) : Module :=
  {| net := s; counter := counter m; counts := counts m; rest := rest m |}.
Definition with_rest (k : KState) (m : Module) : Module :=
  {| net := net m; counter := counter m; counts := counts m; rest := k |}.

(** The states of the loaded module: its operations, the networking core and
    writes to the parameters, in any order. *)
Inductive reachable : Module -> Prop :=
  | reachable_loaded m : loaded info (net m) -> cards (rest m) = [] -> reachable m
  | reachable_op m k : reachable m -> cards_op (net m) (view m) k -> reachable (store k m)
  | reachable_net m s : reachable m -> core_step info (net m) s -> reachable (with_net s m)
  | reachable_mode m v : reachable m -> reachable (with_net (with_mode v (net m)) m)
  | reachable_params m k : reachable m -> param_write (rest m) k -> reachable (with_rest k m).

(** ** Facts *)

Lemma reachable_net_loaded m : reachable m -> loaded info (net m).
Proof.
  induction 1 as [m Hl _|m k _ IH _|m s _ IH Hs|m v _ IH|m k _ IH _]; [done|done| |by apply loaded_param|done].
  by eapply loaded_step.
Qed.

(** Operations keep which card is which. *)
Definition same_card (c c' : Card) : Prop := c_phy c' = c_phy c /\ c_vif c' = c_vif c /\ c_set c' = c_set c.

#[local] Instance same_card_refl : Reflexive same_card.
Proof. by intros c. Qed.
#[local] Instance same_card_trans : Transitive same_card.
Proof. intros a b c (?&?&?) (?&?&?). repeat split; congruence. Qed.

Definition same_cards (k k' : KState) : Prop := Forall2 same_card (cards k) (cards k').

#[local] Instance same_cards_refl : Reflexive same_cards.
Proof. intros k. unfold same_cards. reflexivity. Qed.
#[local] Instance same_cards_trans : Transitive same_cards.
Proof. intros a b c. unfold same_cards. by transitivity (cards b). Qed.

Lemma same_cards_eq k k' : cards k' = cards k -> same_cards k k'.
Proof. intros E. unfold same_cards. by rewrite E. Qed.

Ltac same := by apply same_cards_eq.

Lemma same_cards_insert i c c' k k' :
  cards k !! i = Some c -> same_card c c' -> cards k' = <[i := c']> (cards k) -> same_cards k k'.
Proof.
  intros Hi Hs E. unfold same_cards. rewrite E. rewrite <- (list_insert_id (cards k) i c) at 1 by done.
  apply Forall2_insert; [reflexivity|done].
Qed.

Lemma same_card_set v k c : same_card c (k_set_tsf v k c).
Proof. unfold k_set_tsf. by destruct (c_set c). Qed.

Lemma on_card_same {A} i (f : Card -> A * KState) k r k' :
  (forall c, cards k !! i = Some c -> same_cards k (f c).2) -> on_card i f k = (Done r, k') -> same_cards k k'.
Proof.
  unfold on_card. intros Hf. destruct (cards k !! i) as [c|] eqn:Hi; [|done]. specialize (Hf c eq_refl).
  destruct (f c) as [a k1]. by intros [= <- <-].
Qed.

Lemma k_adjust_same a ds k ds' k' : k_adjust a ds k = Done (ds', k') -> same_cards k k'.
Proof.
  unfold k_adjust. destruct (_ && _); [intros [= _ <-]; same|]. destruct (negb _); [intros [= _ <-]; same|].
  destruct (cards k !! Z.to_nat _) as [c|] eqn:Hi; [|done]. destruct (c_vif c); intros [= _ <-]; [|same].
  eapply same_cards_insert; [exact Hi| |reflexivity]; apply same_card_set.
Qed.

Lemma k_adjust_all_same l ds k ds' k' : k_adjust_all l ds k = Done (ds', k') -> same_cards k k'.
Proof.
  revert ds k. induction l as [|a l IH]; intros ds k; cbn [k_adjust_all]; [intros [= _ <-]; same|].
  destruct (k_adjust a ds k) as [[ds1 k1]| |] eqn:E; cbn [mbind outcome_bind]; [|done..]. intros H.
  transitivity k1; [by eapply k_adjust_same|by eapply IH].
Qed.

Lemma chardev_read_same count ds k : same_cards k (tsf_sync_chardev_read count ds k).2.
Proof.
  unfold tsf_sync_chardev_read. destruct (cards k) as [|c cs] eqn:E; [same|]. rewrite <- E.
  destruct (read_cards 0 (cards k) ds k) as [ss k'] eqn:Er. destruct (read_cards_spec _ _ _ _ _ _ Er) as (-> & _). same.
Qed.

Lemma chardev_write_same buf ds k r k' : tsf_sync_chardev_write buf ds k = (Done r, k') -> same_cards k k'.
Proof.
  unfold tsf_sync_chardev_write. destruct (length buf); [intros [= _ <-]; same|].
  destruct (S _ / ADJ_SIZE)%nat; [intros [= _ <-]; same|].
  destruct (k_adjust_all _ ds k) as [[ds' k1]| |] eqn:E; [|done..]. intros [= _ <-]. by eapply k_adjust_all_same.
Qed.

Lemma sync_card_same T threshold i c ds k : cards k !! i = Some c -> same_cards k (sync_card T threshold i c ds k).2.
Proof.
  intros Hi. unfold sync_card. destruct (negb (c_vif c)); [by eapply same_cards_insert; [exact Hi| |reflexivity]|]. cbv zeta.
  case_match; (eapply same_cards_insert; [exact Hi| |reflexivity]); [|done].
  transitivity (with_last_offset (as_i64 (as_i64 (T - k_get_tsf (k_elapse (hd 0 ds) k) c) * 1000)) c); [done|].
  etransitivity; [apply same_card_set|done].
Qed.

Lemma sync_cards_same todo p T threshold i ds k : same_cards k (sync_cards todo p T threshold i ds k).2.
Proof.
  revert i ds k. induction todo as [|todo IH]; intros i ds k; cbn [sync_cards]; [same|].
  destruct (cards k !! i) as [c|] eqn:Hi; [|same]. destruct (bool_decide (i = p)); [apply IH|].
  pose proof (sync_card_same T threshold i c ds k Hi) as Hs.
  destruct (sync_card T threshold i c ds k) as [ds1 k1]. transitivity k1; [exact Hs|apply IH].
Qed.

Lemma work_fn_same ds k : same_cards k (tsf_sync_work_fn ds k).1.
Proof.
  unfold tsf_sync_work_fn. destruct (find_primary_locked k) as [p|]; [|same].
  destruct (cards k !! p) as [c|]; [|same]. destruct (negb (c_vif c)); [same|]. cbv zeta.
  pose proof (sync_cards_same (length (cards (k_elapse (hd 0 ds) k))) p (k_get_tsf (k_elapse (hd 0 ds) k) c)
                (adjtime_threshold k) 0 (tail ds) (k_elapse (hd 0 ds) k)) as Hs.
  destruct (sync_cards _ _ _ _ _ _ _) as [ds' k']. exact Hs.
Qed.

Lemma cards_op_same s k k' : cards_op s k k' -> same_cards k k'.
Proof.
  intros [k0 d|k0 ds _|k0 count ds _|k0 buf ds r k1 _ E|k0 i c f delta ds r k1 _ Hop E|k0 i c f ns r k1 _ Hop E].
  - same.
  - apply work_fn_same.
  - apply chardev_read_same.
  - by eapply chardev_write_same.
  - unfold adjtime_op in Hop. destruct (c_set c); [|done]. injection Hop as <-.
    eapply on_card_same; [|exact E]. intros c' Hi. destruct (below_threshold delta k0); [same|].
    destruct (c_vif c'); [|same]. eapply same_cards_insert; [exact Hi| |reflexivity]; apply same_card_set.
  - unfold settime64_op in Hop. destruct (c_set c); [|done]. injection Hop as <-.
    eapply on_card_same; [|exact E]. intros c' Hi. cbv beta. destruct (c_vif c'); [|same].
    eapply same_cards_insert; [exact Hi| |reflexivity]; apply same_card_set.
Qed.

(** *** What is stored is seen again

    It takes the invariant of [Netdev]: no two cards share a radio or a clock. *)
Lemma at_card_at {A B} (g : PtpCard -> B) `{!EqDecision B} (f : Card -> A) d m k i c c' :
  NoDup (g <$> mcards (net m)) -> mcards (net m) !! i = Some c -> cards k !! i = Some c' ->
  at_card (λ c0, g c0 = g c) f d m k = f c'.
Proof.
  intros Hn Hi Hi'. unfold at_card. assert (list_find (λ c0, g c0 = g c) (mcards (net m)) = Some (i, c)) as ->.
  { apply list_find_Some. split; [done|]. split; [done|]. intros j y Hj Hlt Hg. assert (j = i) as ->; [|lia].
    eapply (NoDup_lookup (g <$> mcards (net m))); [done|by rewrite list_lookup_fmap, Hj|].
    rewrite list_lookup_fmap, Hi. simpl. by f_equal. }
  by rewrite Hi'.
Qed.

Lemma at_card_none {A} P `{!forall c, Decision (P c)} (f : Card -> A) d m k :
  Forall (λ c, ~ P c) (mcards (net m)) -> at_card P f d m k = d.
Proof. intros Hf. unfold at_card. by rewrite (proj2 (list_find_None _ _) Hf). Qed.

Lemma view_lookup m i c : mcards (net m) !! i = Some c -> cards (view m) !! i = Some (seen_card m c).
Proof. intros Hi. cbn [view with_cards with_cards_now cards]. by rewrite list_lookup_fmap, Hi. Qed.

Lemma view_store_same m k : loaded info (net m) -> same_cards (view m) k -> view (store k m) = k.
Proof.
  intros Hl Hs. destruct (loaded_inv _ Hl) as [_ HI].
  assert (seen_card (store k m) <$> mcards (net m) = cards k) as Hc.
  { apply list_eq. intros i. rewrite list_lookup_fmap. pose proof (proj1 (Forall2_lookup _ _ _) Hs i) as HF. cbn [view with_cards with_cards_now cards] in HF. rewrite list_lookup_fmap in HF.
    destruct (mcards (net m) !! i) as [c|] eqn:Hi; cbn [fmap option_fmap option_map] in *; inversion HF as [x c' Hx E1 E2|E1 E2]; [|done].
    f_equal. unfold seen_card, store. cbn [counter counts].
    rewrite (at_card_at pc_wiphy _ _ m k i c c'), (at_card_at pc_clock _ _ m k i c c') by (done || apply HI
      || (rewrite <- (inv_clocks _ _ _ _ HI); apply HI)).
    destruct Hx as (H1 & H2 & H3). destruct c'. simpl in *. by subst. }
  unfold view. cbn [store net rest]. rewrite Hc. by destruct k.
Qed.

Lemma view_store m k : reachable m -> cards_op (net m) (view m) k -> view (store k m) = k.
Proof. intros Hr Ho. apply view_store_same; [by apply reachable_net_loaded|by eapply cards_op_same]. Qed.

(** *** The timer and the radios *)

(** The counters of the cards with an interface stay in range for [d] microseconds. *)
Definition counters_ok (d : Z) (m : Module) : Prop :=
  Forall (λ c, pc_vif c <> None -> 0 <= counter m (pc_wiphy c) + k_now (rest m)
    /\ counter m (pc_wiphy c) + k_now (rest m) + d <= MAX_US) (mcards (net m)).

Definition tick (ds : list Z) (m : Module) : Module := store (tsf_sync_work_fn ds (view m)).1 m.

Lemma tick_counter ds m i c :
  loaded info (net m) -> mcards (net m) !! i = Some c ->
  c_base <$> cards (tsf_sync_work_fn ds (view m)).1 !! i = Some (counter (tick ds m) (pc_wiphy c)).
Proof.
  intros Hl Hi. destruct (loaded_inv _ Hl) as [_ HI].
  pose proof (proj1 (Forall2_lookup _ _ _) (work_fn_same ds (view m)) i) as HF. rewrite (view_lookup _ _ _ Hi) in HF.
  destruct (cards (tsf_sync_work_fn ds (view m)).1 !! i) as [c'|] eqn:Hi'; inversion HF. simpl. f_equal. symmetry.
  unfold tick, store. cbn [counter]. by apply (at_card_at pc_wiphy _ _ m _ i c c'); [apply HI| |].
Qed.

(** A tick with a primary that has an interface. *)
Lemma tick_radios ds m p pc :
  reachable m -> find_primary_locked (view m) = Some p -> mcards (net m) !! p = Some pc -> pc_vif pc <> None ->
  0 <= adjtime_threshold (rest m) -> counters_ok (total ds) m ->
  exists late, 0 <= late <= total ds
    /\ (forall w, w ∉ pc_wiphy <$> mcards (net m) -> counter (tick ds m) w = counter m w)
    /\ counter (tick ds m) (pc_wiphy pc) = counter m (pc_wiphy pc)
    /\ forall c, c ∈ mcards (net m) -> c <> pc ->
         if bool_decide (pc_vif c <> None) && can_set (pc_wiphy c)
         then 1000 * Z.abs (counter (tick ds m) (pc_wiphy c) - counter m (pc_wiphy pc))
              <= Z.max 0 (adjtime_threshold (rest m) - 1) + 1000 * late
         else counter (tick ds m) (pc_wiphy c) = counter m (pc_wiphy c).
Proof.
  intros Hr%reachable_net_loaded Hf Hp Hv H0 Hok.
  destruct (work_fn_up ds (view m) p (seen_card m pc)) as (k' & Ew & _ & _ & Hn & Hd & Hj); try done;
    [by apply view_lookup|by apply bool_decide_eq_true_2| |].
  { cbn [view with_cards with_cards_now cards]. apply Forall_fmap. eapply Forall_impl; [exact Hok|].
    intros c Hc Hvc. apply Hc. by apply bool_decide_eq_true in Hvc. }
  set (late := k_now k' - (k_now (view m) + Z.abs (hd 0 ds))) in *. exists late.
  split; [cbn [view with_cards with_cards_now k_now] in *; lia|]. split.
  { intros w Hw. unfold tick, store. cbn [counter]. apply at_card_none, Forall_forall. intros c Hc <-.
    apply Hw. by apply list_elem_of_fmap_2. }
  assert (forall i c, mcards (net m) !! i = Some c ->
    if bool_decide (i = p) then counter (tick ds m) (pc_wiphy c) = counter m (pc_wiphy c)
    else exists c', c_base c' = counter (tick ds m) (pc_wiphy c)
         /\ synced (counter m (pc_wiphy pc)) (adjtime_threshold (rest m)) late (seen_card m c) c') as Hall.
  { intros i c Hi. pose proof (tick_counter ds m i c Hr Hi) as Ht. rewrite Ew in Ht. cbn [fst add_sync cards] in Ht.
    destruct (Hj i _ (view_lookup m i c Hi)) as (c' & Hc' & Hs). rewrite Hc' in Ht. apply (inj Some) in Ht.
    case_bool_decide; [by rewrite <- Ht, Hs|by exists c']. }
  split; [specialize (Hall p pc Hp); by rewrite bool_decide_eq_true_2 in Hall|].
  intros c [i Hi]%list_elem_of_lookup Hne. specialize (Hall i c Hi).
  rewrite bool_decide_eq_false_2 in Hall by congruence.
  destruct Hall as (c' & <- & _ & _ & _ & _ & _ & Hs). exact Hs.
Qed.

(** An interface that goes up is captured, if the card of its wiphy has none. *)
Lemma up_captured m s d w :
  reachable m -> d ∈ devs (net m) -> nd_wiphy d = Some w -> w_get_tsf (info w) = true ->
  tsf_ptp_netdev_event info NETDEV_UP d (with_devs (set_up (nd_id d) true <$> devs (net m)) (net m)) = (Done tt, s) ->
  work s = work (net m) /\ exists c, c ∈ mcards s /\ pc_wiphy c = w /\ pc_vif c <> None.
Proof.
  intros Hr%reachable_net_loaded Hd Hw Hg E. destruct (loaded_inv _ Hr) as [_ HI].
  unfold tsf_ptp_netdev_event in E. rewrite Hw in E. injection E as <-.
  set (s1 := with_devs _ (net m)). destruct (set_vif_fields w (vif_up (nd_id d)) s1) as (_ & _ & _ & Hwork & _).
  split; [exact Hwork|]. unfold set_vif. destruct (find_card_by_wiphy_locked w s1) as [[i c]|] eqn:Hf.
  - apply find_card_Some in Hf as [Hi Hc].
    exists {| pc_wiphy := pc_wiphy c; pc_vif := vif_up (nd_id d) (pc_vif c); pc_clock := pc_clock c |}.
    split; [|split; [exact Hc|]].
    + eapply list_elem_of_lookup_2. cbn [mcards with_mcards]. apply list_lookup_insert_eq. by eapply lookup_lt_Some.
    + cbn [pc_vif]. unfold vif_up. by destruct (pc_vif c).
  - apply find_card_None in Hf. destruct Hf. apply (inv_cards _ _ _ _ HI). split; [done|]. by exists d.
Qed.
End whole.

(** ** Properties *)

(** C10: whatever has happened to the module since it was loaded, when a network
    interface goes up on a radio whose TSF can be read and set, the next tick of mode B's
    timer, if the primary it finds is up, brings that radio's counter to the primary's, within the threshold
    and the time the tick takes.  The primary's counter stays, and so does every counter of a radio
    without a card; and the state after the tick, in which every card sees
    exactly what the work function left for it, is one from which this holds again. *)
Theorem interface_up_synchronises info name can_set (m : Module) (s : NWorld) (d : NetDev) (w : nat) (ds : list Z)
    (p : nat) (pc : PtpCard) :
  let m1 := with_net s m in
  let m2 := tick name can_set ds m1 in
  reachable info name can_set m -> d ∈ devs (net m) -> nd_up d = false ->
  nd_wiphy d = Some w -> w_get_tsf (info w) = true -> can_set w = true -> work (net m) = Pending ->
  tsf_ptp_netdev_event info NETDEV_UP d (with_devs (set_up (nd_id d) true <$> devs (net m)) (net m)) = (Done tt, s) ->
  find_primary_locked (view name can_set m1) = Some p -> mcards s !! p = Some pc -> pc_vif pc <> None ->
  w <> pc_wiphy pc -> 0 <= adjtime_threshold (rest m) -> counters_ok (total ds) m1 ->
  reachable info name can_set m2 /\ view name can_set m2 = (tsf_sync_work_fn ds (view name can_set m1)).1
  /\ (forall w', w' ∉ pc_wiphy <$> mcards s -> counter m2 w' = counter m w')
  /\ counter m2 (pc_wiphy pc) = counter m (pc_wiphy pc)
  /\ exists late, 0 <= late <= total ds
     /\ 1000 * Z.abs (counter m2 w - counter m2 (pc_wiphy pc)) <= Z.max 0 (adjtime_threshold (rest m) - 1) + 1000 * late.
Proof.
  intros m1 m2 Hr Hd Hup Hw Hg Hset Hwork E Hf Hp Hv Hne H0 Hok.
  assert (reachable info name can_set m1) as Hr1
    by (apply reachable_net; [done|]; by apply (core_up info (net m) s d)).
  destruct (up_captured info name can_set m s d w Hr Hd Hw Hg E) as (Hws & c & Hc & Hcw & Hcv).
  assert (cards_op (net m1) (view name can_set m1) (tsf_sync_work_fn ds (view name can_set m1)).1) as Hop
    by (apply op_work; cbn [m1 net with_net]; congruence).
  split; [by apply reachable_op|]. split; [by eapply view_store|].
  destruct (tick_radios info name can_set ds m1 p pc) as (late & Hl & Hrest & Hprim & Hall); try done.
  split; [exact Hrest|]. split; [exact Hprim|]. exists late. split; [done|].
  specialize (Hall c Hc ltac:(congruence)). rewrite bool_decide_eq_true_2, Hcw, Hset in Hall by done.
  fold m2 in Hall, Hprim. by rewrite Hprim.
Qed.

(** ** Witnesses: two radios, the second one's interface going up *)

Definition wlan2 : NetDev := {| nd_id := 4; nd_wiphy := Some 1%nat; nd_up := false |}.
Definition before_loading : NWorld :=
  {| devs := [eth0; wlan0; wlan2]; mcards := []; clocks := []; next_clock := 0; register_fails := [];
     sync_mode := 1; work := Uninitialised; chardev_registered := false |}.
Definition two_radios : NWorld := (tsf_ptp_init radio false before_loading).2.
Definition two_up : NWorld :=
  (tsf_ptp_netdev_event radio NETDEV_UP wlan2 (with_devs (set_up 4 true <$> devs two_radios) two_radios)).2.
Definition running_module : Module :=
  {| net := two_radios; counter := λ w, if (w =? 0)%nat then 1000000 else 999000; counts := λ _, (0, 0, 0);
     rest := with_cards [] demo_kernel |}.

Lemma running_module_reachable : reachable radio (λ _, []) (λ _, true) running_module.
Proof.
  apply reachable_loaded; [|done]. apply (loaded_init radio before_loading _ false 0); [|vm_compute; reflexivity].
  repeat split; try reflexivity. apply (bool_decide_unpack (NoDup [1; 2; 4]%nat)). reflexivity.
Qed.

Lemma interface_up_synchronises_witness :
  let m2 := tick (λ _, []) (λ _, true) [3; 1; 1] (with_net two_up running_module) in
  reachable radio (λ _, []) (λ _, true) m2 /\ counter m2 1 = 999998 /\ Z.abs (counter m2 1 - counter m2 0) <= 100.
Proof.
  intros m2.
  destruct (interface_up_synchronises radio (λ _, []) (λ _, true) running_module two_up wlan2 1 [3; 1; 1] 0
              {| pc_wiphy := 0; pc_vif := Some 2%nat; pc_clock := 0 |}) as (Hr & _ & _ & _ & late & Hl & Hd).
  - apply running_module_reachable.
  - vm_compute. right. right. left.
  - reflexivity.
  - reflexivity.
  - reflexivity.
  - reflexivity.
  - vm_compute. reflexivity.
  - vm_compute. reflexivity.
  - vm_compute. reflexivity.
  - vm_compute. reflexivity.
  - discriminate.
  - done.
  - simpl. lia.
  - repeat constructor; vm_compute; congruence.
  - split; [exact Hr|]. split; [vm_compute; reflexivity|].
    cbn [rest running_module with_cards with_cards_now adjtime_threshold demo_kernel total foldr pc_wiphy] in Hl, Hd.
    fold m2 in Hd. lia.
Defined.
