(* ===== verification/ModeB.v ===== *)
(** * Mode B over time (kernel/tsf_ptp.c)

    The timer's ticks among everything else that happens to the loaded module:
    time, reads of the device, devices that come and go, writes to the
    parameters.  There are no definitions of the program here. *)

From stdpp Require Import sets relations.
From S2P Require Import Prelude Ints Text Sys SyncMode Chardev IoUring KernelSync Netdev Module.

(** ** Runs in which only the timer sets counters *)

Section mode_b.
Variable info : nat -> Wiphy.
Variable name : nat -> list Z.
Variable can_set : nat -> bool.
(** The primary's radio, the largest threshold, the longest tick. *)
Variables (wp : nat) (threshold late : Z).

(** The primary that a tick finds, if it is up, is the one of radio [wp]. *)
Definition primary_is (m : Module) : Prop :=
  forall p pc, find_primary_locked (view name can_set m) = Some p -> mcards (net m) !! p = Some pc ->
    pc_vif pc <> None -> pc_wiphy pc = wp.

Inductive quiet_step : Module -> Module -> Prop :=
  | quiet_tick m ds :
      work (net m) = Pending -> primary_is m -> total ds <= late -> counters_ok (total ds) m ->
      quiet_step m (tick name can_set ds m)
  | quiet_time m d : quiet_step m (store (k_elapse d (view name can_set m)) m)
  | quiet_devices m s : core_step info (net m) s -> quiet_step m (with_net s m)
  | quiet_mode m v : quiet_step m (with_net (with_mode v (net m)) m)
  | quiet_params m k :
      param_write (rest m) k -> adjtime_threshold k <= threshold -> quiet_step m (with_rest k m)
  | quiet_read m count ds :
      chardev_registered (net m) = true ->
      quiet_step m (store (tsf_sync_chardev_read count ds (view name can_set m)).2 m).

(** A radio that is off from the primary's by less than the threshold, but for
    the length of a tick. *)
Definition near (m : Module) (w : nat) : Prop :=
  1000 * Z.abs (counter m w - counter m wp) <= Z.max 0 (threshold - 1) + 1000 * late.

(** ** Facts *)

Lemma quiet_reachable m m' :
  reachable info name can_set m -> quiet_step m m' -> reachable info name can_set m'.
Proof.
  intros Hr Hq. revert Hr.
  destruct Hq as [m0 ds Hw _ _ _|m0 d|m0 s Hs|m0 v|m0 k Hk _|m0 count ds Hreg]; intros Hr.
  - apply reachable_op; [done|]. by apply op_work.
  - apply reachable_op; [done|]. apply op_elapse.
  - by apply reachable_net.
  - by apply reachable_mode.
  - by apply reachable_params.
  - apply reachable_op; [done|]. by apply op_read.
Qed.

Lemma at_card_same m (f : Card -> Z) (g : nat -> Z) k w :
  (forall i c, mcards (net m) !! i = Some c -> f <$> cards k !! i = Some (g (pc_wiphy c))) ->
  at_card (λ c, pc_wiphy c = w) f (g w) m k = g w.
Proof.
  intros Hk. unfold at_card. destruct (list_find _ _) as [[i c]|] eqn:Hf; [|done].
  apply list_find_Some in Hf as (Hi & <- & _). specialize (Hk i c Hi).
  by destruct (cards k !! i); [injection Hk as Hk|].
Qed.

Lemma kept_counter m k w : cards k = cards (view name can_set m) -> counter (store k m) w = counter m w.
Proof.
  intros E. cbn [store counter]. apply at_card_same. intros i c Hi. rewrite E. by rewrite (view_lookup _ _ _ _ _ Hi).
Qed.

Lemma chardev_read_keeps count ds k :
  cards (tsf_sync_chardev_read count ds k).2 = cards k
  /\ adjtime_threshold (tsf_sync_chardev_read count ds k).2 = adjtime_threshold k.
Proof.
  unfold tsf_sync_chardev_read. destruct (cards k) as [|c cs] eqn:E; [by rewrite ?E|]. rewrite <- E.
  destruct (read_cards 0 (cards k) ds k) as [ss k'] eqn:Er. by destruct (read_cards_spec _ _ _ _ _ _ Er) as (-> & _).
Qed.

(** A tick that finds no primary that is up sets nothing. *)
Lemma idle_tick m ds w :
  ~ (exists p pc, find_primary_locked (view name can_set m) = Some p /\ mcards (net m) !! p = Some pc /\ pc_vif pc <> None) ->
  counter (tick name can_set ds m) w = counter m w.
Proof.
  intros Hno. assert ((tsf_sync_work_fn ds (view name can_set m)).1 = add_sync 0 1 (view name can_set m)) as E.
  { unfold tsf_sync_work_fn. destruct (find_primary_locked (view name can_set m)) as [p|] eqn:Hp; [|done].
    destruct (cards (view name can_set m) !! p) as [c|] eqn:Hc; [|done].
    cbn [view with_cards with_cards_now cards] in Hc. rewrite list_lookup_fmap in Hc.
    destruct (mcards (net m) !! p) as [pc|] eqn:Hpc; [|done]. injection Hc as <-. cbn [seen_card c_vif].
    rewrite bool_decide_eq_false_2; [done|]. intros Hv. apply Hno. by exists p, pc. }
  unfold tick. rewrite E. by apply kept_counter.
Qed.

Lemma sync_cards_threshold todo p T thr i ds k :
  adjtime_threshold (sync_cards todo p T thr i ds k).2 = adjtime_threshold k.
Proof.
  revert i ds k. induction todo as [|todo IH]; intros i ds k; [done|]. cbn [sync_cards].
  destruct (cards k !! i) as [c|]; [|done]. destruct (bool_decide (i = p)); [apply IH|].
  assert (adjtime_threshold (sync_card T thr i c ds k).2 = adjtime_threshold k) as <-
    by (unfold sync_card; cbv zeta; by repeat case_match).
  destruct (sync_card T thr i c ds k) as [ds1 k1]. apply IH.
Qed.

Lemma tick_threshold m ds : adjtime_threshold (rest (tick name can_set ds m)) = adjtime_threshold (rest m).
Proof.
  unfold tick. cbn [store rest with_cards with_cards_now adjtime_threshold]. unfold tsf_sync_work_fn.
  destruct (find_primary_locked _) as [p|]; [|done]. destruct (cards _ !! p) as [c|]; [|done].
  destruct (negb (c_vif c)); [done|]. cbv zeta.
  pose proof (sync_cards_threshold (length (cards (k_elapse (hd 0 ds) (view name can_set m)))) p
    (k_get_tsf (k_elapse (hd 0 ds) (view name can_set m)) c) (adjtime_threshold (view name can_set m)) 0 (tail ds)
    (k_elapse (hd 0 ds) (view name can_set m))) as Ht.
  destruct (sync_cards _ _ _ _ _ _ _) as [ds' k']. exact Ht.
Qed.

Hypothesis Hlate : 0 <= late.

Lemma near_refl m : near m wp.
Proof. unfold near. rewrite Z.sub_diag. simpl. lia. Qed.

Lemma near_same m m' w : (forall w, counter m' w = counter m w) -> near m w -> near m' w.
Proof. unfold near. intros Hs. by rewrite !Hs. Qed.

Lemma idle_near m ds :
  ~ (exists p pc, find_primary_locked (view name can_set m) = Some p /\ mcards (net m) !! p = Some pc /\ pc_vif pc <> None) ->
  counter (tick name can_set ds m) wp = counter m wp /\ (forall w, near m w -> near (tick name can_set ds m) w).
Proof.
  intros Hno. assert (forall w, counter (tick name can_set ds m) w = counter m w) as Hs by (intros w; by apply idle_tick).
  split; [done|]. intros w. by apply near_same.
Qed.

(** A tick with the primary up: its counter stays, every radio that was near
    stays near, and every radio with an interface becomes so. *)
Lemma tick_near m ds p pc :
  reachable info name can_set m -> 0 <= adjtime_threshold (rest m) <= threshold ->
  total ds <= late -> counters_ok (total ds) m ->
  find_primary_locked (view name can_set m) = Some p -> mcards (net m) !! p = Some pc -> pc_vif pc <> None ->
  pc_wiphy pc = wp ->
  counter (tick name can_set ds m) wp = counter m wp
  /\ (forall w, near m w -> near (tick name can_set ds m) w)
  /\ forall c, c ∈ mcards (net m) -> pc_vif c <> None -> can_set (pc_wiphy c) = true ->
       near (tick name can_set ds m) (pc_wiphy c).
Proof.
  intros Hr Ht Hd Hok Hf Hp Hv Hw.
  destruct (tick_radios info name can_set ds m p pc Hr Hf Hp Hv) as (l & Hl & Hno & Hprim & Hall); [lia|done|].
  rewrite Hw in *. split; [done|].
  assert (forall c, c ∈ mcards (net m) -> pc_vif c <> None -> can_set (pc_wiphy c) = true ->
            near (tick name can_set ds m) (pc_wiphy c)) as Hup.
  { intros c Hc Hcv Hcs. destruct (decide (pc_wiphy c = wp)) as [->|Hne]; [apply near_refl|].
    specialize (Hall c Hc ltac:(congruence)). rewrite bool_decide_eq_true_2, Hcs in Hall by done.
    cbn [andb] in Hall. unfold near. rewrite Hprim. lia. }
  split; [|done]. intros w Hnear.
  destruct (decide (w ∈ pc_wiphy <$> mcards (net m))) as [(c & -> & Hc)%list_elem_of_fmap|Hnot].
  - destruct (decide (pc_wiphy c = wp)) as [E|Hne]; [rewrite E; apply near_refl|].
    pose proof (Hall c Hc ltac:(congruence)) as Hc'.
    destruct (bool_decide (pc_vif c <> None) && can_set (pc_wiphy c)) eqn:E; unfold near in *; rewrite Hprim; [lia|].
    by rewrite Hc'.
  - unfold near in *. by rewrite Hprim, (Hno w Hnot).
Qed.

Lemma quiet_near m m' :
  reachable info name can_set m -> 0 <= adjtime_threshold (rest m) <= threshold -> quiet_step m m' ->
  0 <= adjtime_threshold (rest m') <= threshold /\ counter m' wp = counter m wp /\ (forall w, near m w -> near m' w).
Proof.
  intros Hr Ht Hq. revert Hr Ht.
  destruct Hq as [m0 ds Hw Hpr Hd Hok|m0 d|m0 s Hs|m0 v|m0 k Hk Hle|m0 count ds Hreg]; intros Hr Ht.
  - split; [by rewrite tick_threshold|].
    assert (counter (tick name can_set ds m0) wp = counter m0 wp
      /\ (forall w, near m0 w -> near (tick name can_set ds m0) w)) as [? ?]; [|done].
    destruct (find_primary_locked (view name can_set m0)) as [p|] eqn:Hf;
      [|apply idle_near; intros (p' & pc' & Hf' & _); congruence].
    destruct (mcards (net m0) !! p) as [pc|] eqn:Hp;
      [|apply idle_near; intros (p' & pc' & Hf' & Hp' & _); congruence].
    destruct (decide (pc_vif pc = None)) as [Hv|Hv];
      [apply idle_near; intros (p' & pc' & Hf' & Hp' & Hv'); congruence|].
    destruct (tick_near m0 ds p pc) as (? & ? & _); try done. by eapply Hpr.
  - split; [done|]. split; [by apply kept_counter|]. intros w. apply near_same. intros w'. by apply kept_counter.
  - done.
  - done.
  - split; [|done]. split; [|done]. unfold in_u32 in Hk. destruct Hk as [v [? _]|v|v _]; [done|apply Ht..].
  - destruct (chardev_read_keeps count ds (view name can_set m0)) as [Hc Hth].
    split; [cbn [store rest with_cards with_cards_now adjtime_threshold]; by rewrite Hth|].
    split; [by apply kept_counter|]. intros w. apply near_same. intros w'. by apply kept_counter.
Qed.

Lemma quiet_run_near m m' :
  reachable info name can_set m -> 0 <= adjtime_threshold (rest m) <= threshold -> rtc quiet_step m m' ->
  reachable info name can_set m' /\ counter m' wp = counter m wp /\ (forall w, near m w -> near m' w).
Proof.
  intros Hr Ht Hs. induction Hs as [m|m m1 m2 Hq _ IH]; [done|].
  destruct (quiet_near m m1 Hr Ht Hq) as (Ht1 & Hc1 & Hn1).
  destruct IH as (Hr2 & Hc2 & Hn2); [by eapply quiet_reachable|done|].
  split; [done|]. split; [congruence|]. auto.
Qed.
End mode_b.

(** ** Properties *)

(** C8: mode B over time.  Every radio that has an interface and can be set
    when a tick finds its primary is synchronised by that tick, and from then
    on for ever, through any further ticks, time, reads of the device, devices
    that come, go, go up or down, and writes of the parameters that keep
    [adjtime_threshold_ns] at or below [threshold]: its counter stays within
    that threshold and the length of a tick of the primary's, which itself is
    never changed; as long as no tick finds another radio up as its primary, and
    nothing but the ticks sets a counter, neither adjustments written to the
    device nor the operations of the PTP clocks. *)
Theorem mode_b_stays_synchronised info name can_set (wp : nat) (threshold late : Z) (m m' : Module) (ds : list Z)
    (p : nat) (pc : PtpCard) :
  reachable info name can_set m -> work (net m) = Pending -> 0 <= adjtime_threshold (rest m) <= threshold ->
  total ds <= late -> counters_ok (total ds) m ->
  find_primary_locked (view name can_set m) = Some p -> mcards (net m) !! p = Some pc -> pc_vif pc <> None ->
  pc_wiphy pc = wp ->
  rtc (quiet_step info name can_set wp threshold late) (tick name can_set ds m) m' ->
  reachable info name can_set m' /\ counter m' wp = counter m wp
  /\ forall c, c ∈ mcards (net m) -> pc_vif c <> None -> can_set (pc_wiphy c) = true ->
       1000 * Z.abs (counter m' (pc_wiphy c) - counter m' wp) <= Z.max 0 (threshold - 1) + 1000 * late.
Proof.
  intros Hr Hwork Ht Hd Hok Hf Hp Hv Hw Hs.
  assert (0 <= late) as Hl by (pose proof (total_pos ds); lia).
  destruct (tick_near info name can_set wp threshold late Hl m ds p pc) as (Hc1 & _ & Hn1); try done.
  assert (reachable info name can_set (tick name can_set ds m)) as Hr1 by (apply reachable_op; [done|by apply op_work]).
  destruct (quiet_run_near info name can_set wp threshold late Hl (tick name can_set ds m) m' Hr1) as (Hr' & Hc' & Hn');
    [by rewrite tick_threshold|done|].
  split; [done|]. split; [congruence|]. intros c Hc Hcv Hcs. by apply Hn', Hn1.
Qed.

(** ** Witnesses *)

(** The second radio's interface comes up and is synchronised; then it goes
    down again and time passes. *)
Definition both_up : Module := with_net two_up running_module.
Definition gone_down : NWorld :=
  (tsf_ptp_netdev_event radio NETDEV_DOWN (set_up 4 true wlan2)
     (with_devs (set_up 4 false <$> devs two_up) two_up)).2.

Lemma both_up_reachable : reachable radio (λ _, []) (λ _, true) both_up.
Proof.
  apply reachable_net; [apply running_module_reachable|].
  apply (core_up radio two_radios two_up wlan2); [|done|vm_compute; reflexivity].
  vm_compute. right. right. left.
Qed.

Lemma mode_b_stays_synchronised_witness :
  exists m', counter m' 0 = 1000000 /\ 1000 * Z.abs (counter m' 1 - counter m' 0) <= 9999
    /\ adjtime_threshold (rest m') = 100
    /\ find_card_by_wiphy_locked 1 (net m') = Some (1%nat, {| pc_wiphy := 1; pc_vif := None; pc_clock := 1 |}).
Proof.
  set (m1 := tick (λ _, []) (λ _, true) [3; 1; 1] both_up).
  set (m2 := with_net gone_down m1).
  set (m3 := with_rest (set_params 100 (sync_primary (rest m2)) (sync_interval_ms (rest m2)) (rest m2)) m2).
  set (m4 := store (k_elapse 700 (view (λ _, []) (λ _, true) m3)) m3).
  exists m4.
  destruct (mode_b_stays_synchronised radio (λ _, []) (λ _, true) 0 5000 5 both_up m4 [3; 1; 1] 0
              {| pc_wiphy := 0; pc_vif := Some 2%nat; pc_clock := 0 |}) as (_ & Hp & Hall).
  - apply both_up_reachable.
  - vm_compute. reflexivity.
  - vm_compute. split; congruence.
  - vm_compute. congruence.
  - repeat constructor; vm_compute; congruence.
  - vm_compute. reflexivity.
  - vm_compute. reflexivity.
  - discriminate.
  - reflexivity.
  - eapply rtc_l; [|eapply rtc_l; [|eapply rtc_l; [|apply rtc_refl]]].
    + apply (quiet_devices radio (λ _, []) (λ _, true) 0 5000 5 m1 gone_down).
      apply (core_down radio two_up gone_down (set_up 4 true wlan2)); [|reflexivity|vm_compute; reflexivity].
      vm_compute. right. right. left.
    + apply (quiet_params radio (λ _, []) (λ _, true) 0 5000 5 m2).
      * apply (write_adjtime_threshold_ns (rest m2) 100). split; discriminate.
      * vm_compute. congruence.
    + apply quiet_time.
  - split; [exact Hp|]. split; [|split; vm_compute; reflexivity].
    apply (Hall {| pc_wiphy := 1; pc_vif := Some 4%nat; pc_clock := 1 |}).
    + vm_compute. right. left.
    + discriminate.
    + reflexivity.
Defined.
