(* ===== verification/Locking.v ===== *)
(** * The locks of the module (kernel/tsf_ptp.c)

    Every entry point of the module as the sequence of locks it takes and
    releases and of the shared state it touches in between, and threads that run
    such sequences concurrently.  Which branches an entry point takes is given
    by its arguments, so that what is shown holds whatever it finds. *)

From stdpp Require Import relations.
From S2P Require Import Prelude Ints Text Netdev.

(** ** Definitions *)

(** [rtnl_lock], [cards_lock], the [lock] of a card (named by its clock), and
    the lock of a wiphy. *)
Inductive lock := Rtnl | CardsLock | CardLock (card : nat) | WiphyLock (w : nat).
#[export] Instance lock_eq_dec : EqDecision lock.
Proof. solve_decision. Defined.

(** "Lock ordering: cards_lock, card->lock, wiphy_lock", as the comment before
    the timer has it and as every function takes them (the comment at the top of
    the file has the last two the other way round); rtnl comes first. *)
Definition rank (k : lock) : nat :=
  match k with Rtnl => 0 | CardsLock => 1 | CardLock _ => 2 | WiphyLock _ => 3 end.

(** The shared state: the network devices, [cards_list], the [vif] of a card,
    and the TSF of a radio. *)
Inductive resource := Devices | CardsList | Vif (card : nat) | Hardware (w : nat).

(** Which lock protects what. *)
Definition guard (r : resource) : lock :=
  match r with Devices => Rtnl | CardsList => CardsLock | Vif c => CardLock c | Hardware w => WiphyLock w end.

Inductive lock_act := Lock (k : lock) | Unlock (k : lock) | Use (r : resource).

Definition section (k : lock) (body : list lock_act) : list lock_act := Lock k :: body ++ [Unlock k].

(** The access to a card's hardware under its lock, with [n] calls of the
    driver; none when the card has no interface. *)
Definition vif_section (n : nat) (c : PtpCard) : list lock_act :=
  section (CardLock (pc_clock c))
    (Use (Vif (pc_clock c)) ::
     match pc_vif c with
     | Some _ => section (WiphyLock (pc_wiphy c)) (replicate n (Use (Hardware (pc_wiphy c))))
     | None => []
     end).

Definition gettime_locks (c : PtpCard) : list lock_act := vif_section 1 c.
Definition settime_locks (c : PtpCard) : list lock_act := vif_section 1 c.
Definition adjtime_locks (below : bool) (c : PtpCard) : list lock_act := if below then [] else vif_section 2 c.
Definition getcrosststamp_locks (c : PtpCard) : list lock_act := vif_section 1 c.

(** A walk along [cards_list]. *)
Definition cards_section : list lock_act := section CardsLock [Use CardsList].

(** How a probe ends: at once, at the check for a known wiphy, at the
    registration of the clock, or with the card in the list. *)
Inductive probe_end := NoGetTsf | Known | NoClock | Added.
Definition probe_locks (e : probe_end) : list lock_act :=
  match e with
  | NoGetTsf => []
  | Known | NoClock => cards_section
  | Added => cards_section ++ cards_section
  end.

Definition hotplug_probe_locks (tracked : bool) (e : probe_end) : list lock_act :=
  cards_section ++ if tracked then [] else probe_locks e.
Definition hotplug_remove_locks (still : bool) : list lock_act :=
  Use Devices :: if still then [] else cards_section.

(** Setting or clearing the [vif] of the card of a wiphy, if it has one. *)
Definition vif_switch (c : option PtpCard) : list lock_act :=
  section CardsLock
    (Use CardsList ::
     match c with Some c => section (CardLock (pc_clock c)) [Use (Vif (pc_clock c))] | None => [] end).

(** What a call of the notifier finds. *)
Record EventArgs := { a_card : option PtpCard; a_tracked : bool; a_probe : probe_end; a_still : bool }.

Definition netdev_event_locks (e : netdev_event) (a : EventArgs) : list lock_act :=
  match e with
  | NETDEV_REGISTER => hotplug_probe_locks (a_tracked a) (a_probe a)
  | NETDEV_UP | NETDEV_DOWN => vif_switch (a_card a)
  | NETDEV_UNREGISTER => vif_switch (a_card a) ++ hotplug_remove_locks (a_still a)
  end.

(** The work function: the primary, if there is one, and the other cards, each
    with whether it is adjusted. *)
Definition sync_work_locks (primary : option PtpCard) (others : list (PtpCard * bool)) : list lock_act :=
  section CardsLock
    (Use CardsList ::
     match primary with
     | None => []
     | Some p =>
         vif_section 1 p ++
         match pc_vif p with
         | None => []
         | Some _ => flat_map (λ '(c, adjusted), Use CardsList :: vif_section (if adjusted : bool then 2 else 1) c) others
         end
     end).

Definition chardev_read_locks (cards : list PtpCard) : list lock_act :=
  section CardsLock (Use CardsList :: flat_map (λ c, Use CardsList :: vif_section 1 c) cards).

(** Per adjustment: below the threshold, no such card, or the card. *)
Inductive target := Below | Absent | At (c : PtpCard).
Definition chardev_write_locks (l : list target) : list lock_act :=
  match l with
  | [] => []
  | _ => section CardsLock (flat_map (λ t, match t with
                                           | Below => []
                                           | Absent => [Use CardsList]
                                           | At c => Use CardsList :: vif_section 2 c
                                           end) l)
  end.

(** Loading and unloading; the notifier is registered and removed under rtnl,
    which replays the events of the devices that are there. *)
Definition init_locks (replay : list (netdev_event * EventArgs)) (found : list probe_end)
    (up : list (option PtpCard)) : list lock_act :=
  section Rtnl (flat_map (λ '(e, a), netdev_event_locks e a) replay)
  ++ section Rtnl (Use Devices :: flat_map probe_locks found ++ Use Devices :: flat_map vif_switch up).
Definition exit_locks (replay : list (netdev_event * EventArgs)) (cards : nat) : list lock_act :=
  section Rtnl (flat_map (λ '(e, a), netdev_event_locks e a) replay)
  ++ Lock CardsLock :: concat (replicate cards [Use CardsList; Unlock CardsLock; Lock CardsLock]) ++ [Unlock CardsLock].

(** What enters the module. *)
Inductive entry :=
  | Gettime (c : PtpCard) | Settime (c : PtpCard) | Adjtime (below : bool) (c : PtpCard)
  | Getcrosststamp (c : PtpCard)
  | Notifier (e : netdev_event) (a : EventArgs) (under : option nat)
  | Timer (primary : option PtpCard) (others : list (PtpCard * bool))
  | ReadDevice (cards : list PtpCard) | WriteDevice (l : list target)
  | Init (replay : list (netdev_event * EventArgs)) (found : list probe_end) (up : list (option PtpCard))
  | Exit (replay : list (netdev_event * EventArgs)) (cards : nat).

(** The networking core calls the notifier with rtnl held; when cfg80211 adds or
    removes an interface it holds the lock of the wiphy too ([under]). *)
Definition entry_locks (e : entry) : list lock_act :=
  match e with
  | Gettime c => gettime_locks c
  | Settime c => settime_locks c
  | Adjtime below c => adjtime_locks below c
  | Getcrosststamp c => getcrosststamp_locks c
  | Notifier e a under =>
      section Rtnl (match under with
                    | Some w => section (WiphyLock w) (netdev_event_locks e a)
                    | None => netdev_event_locks e a
                    end)
  | Timer p others => sync_work_locks p others
  | ReadDevice cards => chardev_read_locks cards
  | WriteDevice l => chardev_write_locks l
  | Init replay found up => init_locks replay found up
  | Exit replay n => exit_locks replay n
  end.

(** *** Threads *)

Record LThread := { held : list lock; todo : list lock_act }.

Definition enabled (ts : list LThread) (a : lock_act) : Prop :=
  match a with Lock k => Forall (λ t, k ∉ held t) ts | _ => True end.

Definition exec_act (a : lock_act) (h : list lock) : list lock :=
  match a with Lock k => k :: h | Unlock k => filter (λ k', k' <> k) h | Use _ => h end.

(** Some thread does its next action, a lock being taken when nobody has it. *)
Inductive lstep : list LThread -> list LThread -> Prop :=
  | lstep_at ts i h a l :
      ts !! i = Some {| held := h; todo := a :: l |} -> enabled ts a ->
      lstep ts (<[i := {| held := exec_act a h; todo := l |}]> ts).

Definition finished (ts : list LThread) : Prop := Forall (λ t, todo t = []) ts.

(** A thread that is about to enter the module that often. *)
Definition entering (es : list entry) : LThread := {| held := []; todo := flat_map entry_locks es |}.

(** The wiphys whose locks the callers of the notifier hold. *)
Definition caller_wiphy (e : entry) : option nat := match e with Notifier _ _ under => under | _ => None end.

(** ** Facts: discipline *)

(** A lock may be taken while another is held if it ranks above it, or if the
    other is that of a wiphy in [ws] and the lock one that the notifier takes. *)
Definition may_take (ws : list nat) (k' k : lock) : Prop :=
  (rank k' < rank k)%nat \/ k' ∈ WiphyLock <$> ws /\ (rank k = 1 \/ rank k = 2)%nat.
#[local] Instance may_take_dec ws k' k : Decision (may_take ws k' k).
Proof. apply _. Defined.

Lemma may_take_ne ws k' k : may_take ws k' k -> k' <> k.
Proof. intros [Hlt|[(w & -> & _)%list_elem_of_fmap Hk]] <-; [lia|]. simpl in Hk. lia. Qed.
Lemma may_take_cards ws k c : may_take ws k CardsLock -> may_take ws k (CardLock c).
Proof. unfold may_take. simpl. intros [?|[? _]]; [left; lia|auto]. Qed.

Section discipline.
Variable ws : list nat.

(** The locks held after the actions, when each lock may be taken, each lock
    released is held, and what is used is guarded. *)
Fixpoint run_locks (h : list lock) (l : list lock_act) : option (list lock) :=
  match l with
  | [] => Some h
  | a :: l =>
      if (match a with
          | Lock k => bool_decide (Forall (λ k', may_take ws k' k) h)
          | Unlock k => bool_decide (k ∈ h)
          | Use r => bool_decide (guard r ∈ h)
          end)
      then run_locks (exec_act a h) l else None
  end.

Definition neutral (h : list lock) (l : list lock_act) : Prop := run_locks h l = Some h.

Lemma run_locks_app h l1 l2 : run_locks h (l1 ++ l2) = run_locks h l1 ≫= λ h', run_locks h' l2.
Proof. revert h. induction l1 as [|a l1 IH]; intros h; [done|]. cbn [app run_locks]. case_match; [apply IH|done]. Qed.

Lemma neutral_nil h : neutral h [].
Proof. done. Qed.
Lemma neutral_app h l1 l2 : neutral h l1 -> neutral h l2 -> neutral h (l1 ++ l2).
Proof. unfold neutral. intros H1 H2. by rewrite run_locks_app, H1. Qed.
Lemma neutral_use h r l : guard r ∈ h -> neutral h l -> neutral h (Use r :: l).
Proof. unfold neutral. intros Hg Hl. cbn [run_locks]. by rewrite bool_decide_eq_true_2. Qed.
Lemma neutral_section h k l :
  Forall (λ k', may_take ws k' k) h -> neutral (k :: h) l -> neutral h (section k l).
Proof.
  unfold neutral, section. intros Hh Hl. cbn [run_locks exec_act]. rewrite bool_decide_eq_true_2 by done.
  rewrite run_locks_app, Hl. cbn [mbind option_bind run_locks exec_act].
  rewrite bool_decide_eq_true_2 by (by left). rewrite filter_cons_False by auto. f_equal.
  apply filter_all. eapply Forall_impl; [exact Hh|]. intros k'. apply may_take_ne.
Qed.
Lemma neutral_flat_map {A} h (f : A -> list lock_act) l : (forall x, neutral h (f x)) -> neutral h (flat_map f l).
Proof. intros Hf. induction l as [|x l IH]; [done|]. by apply neutral_app. Qed.

Create HintDb locks.
#[local] Hint Resolve neutral_nil neutral_app neutral_use neutral_section neutral_flat_map : locks.
#[local] Hint Extern 1 (Forall _ _) => repeat constructor; simpl; lia : locks.
#[local] Hint Extern 1 (_ ∈ _) => set_solver : locks.

Lemma neutral_hw h w n : WiphyLock w ∈ h -> neutral h (replicate n (Use (Hardware w))).
Proof. intros Hw. induction n as [|n IH]; [done|]. by apply neutral_use. Qed.

(** Locks held that rank below the card's lock. *)
Definition low (h : list lock) : Prop := Forall (λ k, (rank k < 2)%nat) h.

Lemma neutral_vif n c h : low h -> neutral h (vif_section n c).
Proof.
  intros Hh. unfold vif_section.
  apply neutral_section; [eapply Forall_impl; [exact Hh|]; by left|]. apply neutral_use; [by left|].
  destruct (pc_vif c); [|done]. apply neutral_section; [|apply neutral_hw; by left].
  constructor; [left; simpl; lia|]. eapply Forall_impl; [exact Hh|]. left. simpl in *. lia.
Qed.
#[local] Hint Resolve neutral_vif : locks.
#[local] Hint Extern 1 (low _) => repeat constructor; simpl; lia : locks.

(** Locks held under which [cards_lock] may be taken. *)
Definition outside (h : list lock) : Prop := Forall (λ k, may_take ws k CardsLock) h.

Lemma neutral_cards_section h : outside h -> neutral h cards_section.
Proof. intros Hh. apply neutral_section; [done|]. auto with locks. Qed.
#[local] Hint Resolve neutral_cards_section : locks.

Lemma neutral_probe h e : outside h -> neutral h (probe_locks e).
Proof. intros Hh. destruct e; cbn [probe_locks]; auto with locks. Qed.
#[local] Hint Resolve neutral_probe : locks.

Lemma neutral_vif_switch h c : outside h -> neutral h (vif_switch c).
Proof.
  intros Hh. apply neutral_section; [done|]. apply neutral_use; [by left|]. destruct c as [c|]; [|done].
  apply neutral_section; [|auto with locks]. constructor; [left; simpl; lia|].
  eapply Forall_impl; [exact Hh|]. intros k. apply may_take_cards.
Qed.
#[local] Hint Resolve neutral_vif_switch : locks.

Lemma neutral_event h e a : outside h -> Rtnl ∈ h -> neutral h (netdev_event_locks e a).
Proof.
  intros Hh Hr. destruct e; cbn [netdev_event_locks]; [|auto with locks..|].
  - apply neutral_app; [auto with locks|]. destruct (a_tracked a); auto with locks.
  - apply neutral_app; [auto with locks|]. apply neutral_use; [done|]. destruct (a_still a); auto with locks.
Qed.
Lemma outside_rtnl : outside [Rtnl].
Proof. constructor; [left; simpl; lia|constructor]. Qed.
#[local] Hint Resolve neutral_event outside_rtnl : locks.

Lemma neutral_replay l : neutral [Rtnl] (flat_map (λ '(e, a), netdev_event_locks e a) l).
Proof. apply neutral_flat_map. intros [e a]. auto with locks. Qed.
#[local] Hint Resolve neutral_replay : locks.

Lemma outside_wiphy w : w ∈ ws -> outside [WiphyLock w; Rtnl].
Proof.
  intros Hw. constructor; [right|apply outside_rtnl]. split; [by apply list_elem_of_fmap_2|by left].
Qed.

(** Every entry point keeps the discipline, for the wiphy its caller holds. *)
Lemma neutral_entry e : (forall w, caller_wiphy e = Some w -> w ∈ ws) -> neutral [] (entry_locks e).
Proof.
  intros Hw. destruct e as [c|c|below c|c|e a under|p others|cards|l|replay found up|replay n]; cbn [entry_locks];
    try (apply neutral_vif; constructor).
  - destruct below; [done|apply neutral_vif; constructor].
  - apply neutral_section; [done|]. destruct under as [w|]; [|auto with locks].
    apply neutral_section; [constructor; [left; simpl; lia|constructor]|].
    apply neutral_event; [by apply outside_wiphy, Hw|set_solver].
  - apply neutral_section; [done|]. apply neutral_use; [by left|]. destruct p as [p|]; [|done].
    apply neutral_app; [auto with locks|]. destruct (pc_vif p); [|done].
    apply neutral_flat_map. intros [c b]. apply neutral_use; [by left|auto with locks].
  - apply neutral_section; [done|]. apply neutral_use; [by left|]. apply neutral_flat_map.
    intros c. apply neutral_use; [by left|auto with locks].
  - destruct l as [|t l]; [done|]. apply neutral_section; [done|]. apply neutral_flat_map.
    intros [| |c]; [done|by apply neutral_use; [left|]|apply neutral_use; [by left|auto with locks]].
  - apply neutral_app; (apply neutral_section; [done|]); [auto with locks|].
    apply neutral_use; [by left|]. apply neutral_app; [apply neutral_flat_map; auto with locks|].
    apply neutral_use; [by left|]. apply neutral_flat_map; auto with locks.
  - apply neutral_app; [apply neutral_section; auto with locks|].
    change (neutral [] (section CardsLock (concat (replicate n [Use CardsList; Unlock CardsLock; Lock CardsLock])))).
    apply neutral_section; [done|]. clear Hw. induction n as [|n IH]; [done|]. by apply neutral_app.
Qed.

(** The head of a disciplined thread. *)
Lemma run_locks_cons h a l h' :
  run_locks h (a :: l) = Some h' ->
  run_locks (exec_act a h) l = Some h'
  /\ match a with
     | Lock k => Forall (λ k', may_take ws k' k) h
     | Unlock k => k ∈ h
     | Use r => guard r ∈ h
     end.
Proof. cbn [run_locks]. destruct a; case_bool_decide; done. Qed.
End discipline.

Definition wiphys (es : list entry) : list nat := omap caller_wiphy es.

Lemma neutral_entries es : neutral (wiphys es) [] (flat_map entry_locks es).
Proof.
  assert (forall ws l, (forall e w, e ∈ l -> caller_wiphy e = Some w -> w ∈ ws) -> neutral ws [] (flat_map entry_locks l)) as H.
  { intros ws l. induction l as [|e l IH]; intros Hw; [done|]. cbn [flat_map]. apply neutral_app.
    - apply neutral_entry. intros w. apply Hw. by left.
    - apply IH. intros e' w He. apply Hw. by right. }
  apply H. intros e w He Hw. apply list_elem_of_omap. by exists e.
Qed.

(** ** Facts: threads *)

(** Every thread has the discipline ahead of it, and no two hold one lock. *)
Record LOk (wss : list (list nat)) (ts : list LThread) : Prop := {
  lok_run : Forall2 (λ ws t, run_locks ws (held t) (todo t) = Some []) wss ts;
  lok_excl : forall i j ti tj k, ts !! i = Some ti -> ts !! j = Some tj -> k ∈ held ti -> k ∈ held tj -> i = j;
}.

Lemma lok_at wss ts i t : LOk wss ts -> ts !! i = Some t -> exists ws, wss !! i = Some ws /\ run_locks ws (held t) (todo t) = Some [].
Proof. intros [Hr _] Hi. destruct (Forall2_lookup_r _ _ _ _ _ Hr Hi) as (ws & Hw & Ht). by exists ws. Qed.

Lemma LOk_init (ess : list (list entry)) : LOk (wiphys <$> ess) (entering <$> ess).
Proof.
  split.
  - apply Forall2_fmap, Forall_Forall2_diag, Forall_forall. intros es _. apply neutral_entries.
  - intros i j ti tj k Hi _ Hk. apply list_lookup_fmap_Some in Hi as (es & -> & _). by apply not_elem_of_nil in Hk.
Qed.

Lemma exec_act_held a h k : k ∈ exec_act a h -> k ∈ h \/ a = Lock k.
Proof.
  destruct a as [k'|k'|r]; cbn [exec_act].
  - intros [->|?]%elem_of_cons; auto.
  - intros [_ ?]%list_elem_of_filter. by left.
  - by left.
Qed.

Lemma LOk_step wss ts ts' : LOk wss ts -> lstep ts ts' -> LOk wss ts'.
Proof.
  intros Hok Hs. inversion Hs as [ts0 i h a l Hi Hen]; subst ts0. subst ts'. set (t := {| held := h; todo := a :: l |}) in *.
  assert (forall j tj k, j <> i -> ts !! j = Some tj -> k ∈ held tj -> k ∉ exec_act a h) as Hnew.
  { intros j tj k Hne Hj Hk Hin. apply exec_act_held in Hin as [Hin| ->].
    - apply Hne. by eapply (lok_excl _ _ Hok j i tj t k).
    - cbn [enabled] in Hen. by apply (Forall_lookup_1 _ _ _ _ Hen Hj). }
  split.
  - destruct (lok_at _ _ _ _ Hok Hi) as (ws & Hws & Ht). cbn [held todo t] in Ht. apply run_locks_cons in Ht as [Ht _].
    rewrite <- (list_insert_id wss i ws) by done. apply Forall2_insert; [apply Hok|done].
  - intros j1 j2 t1 t2 k H1 H2 K1 K2. apply list_lookup_insert_Some in H1 as [(-> & <- & _)|[N1 H1]];
      apply list_lookup_insert_Some in H2 as [(-> & <- & _)|[N2 H2]]; [done|..]; cbn [held] in *.
    + by destruct (Hnew j2 t2 k) .
    + by destruct (Hnew j1 t1 k).
    + by eapply (lok_excl _ _ Hok).
Qed.

Lemma LOk_steps wss ts ts' : LOk wss ts -> rtc lstep ts ts' -> LOk wss ts'.
Proof. intros H Hs. induction Hs; [done|]. eauto using LOk_step. Qed.

(** Whoever waits, waits for somebody who has not finished. *)
Lemma blocked_elsewhere wss ts i h k l :
  LOk wss ts -> ts !! i = Some {| held := h; todo := Lock k :: l |} -> ~ enabled ts (Lock k) ->
  exists j hj aj lj, ts !! j = Some {| held := hj; todo := aj :: lj |} /\ k ∈ hj.
Proof.
  intros Hok Hi Hn. cbn [enabled] in Hn. apply not_Forall_Exists in Hn; [|intros t; apply _].
  apply Exists_exists in Hn as (t & Hin & Hk). apply dec_stable in Hk.
  apply list_elem_of_lookup in Hin as [j Hj]. destruct (lok_at _ _ _ _ Hok Hj) as (ws & _ & Ht).
  destruct t as [hj [|aj lj]]; cbn [held todo] in *; [|by exists j, hj, aj, lj].
  injection Ht as ->. by apply not_elem_of_nil in Hk.
Qed.

(** A thread that takes its locks out of order. *)
Definition out_of_order (t : LThread) : Prop :=
  match todo t with Lock k :: _ => ~ Forall (λ k', (rank k' < rank k)%nat) (held t) | _ => False end.
#[local] Instance out_of_order_dec t : Decision (out_of_order t).
Proof. unfold out_of_order. destruct (todo t) as [|[k| |] l]; apply _. Defined.

(** If there is none, the waiting goes from rank to rank and ends at a thread
    that can go on. *)
Lemma waiting_steps n wss ts i h a l :
  LOk wss ts -> Forall (λ t, ~ out_of_order t) ts -> ts !! i = Some {| held := h; todo := a :: l |} ->
  match a with Lock k => (3 < n + rank k)%nat | _ => True end -> exists ts', lstep ts ts'.
Proof.
  intros Hok Hord. revert i h a l. induction n as [|n IH]; intros i h a l Hi Hn.
  - destruct a as [k| |]; [destruct k; simpl in Hn; lia|eexists; by eapply lstep_at..].
  - destruct a as [k| |]; [|eexists; by eapply lstep_at..].
    destruct (decide (Forall (λ t, k ∉ held t) ts)) as [Hen|Hen]; [eexists; by eapply lstep_at|].
    destruct (blocked_elsewhere wss ts i h k l Hok Hi Hen) as (j & hj & aj & lj & Hj & Hk).
    apply (IH j hj aj lj Hj). destruct aj as [k'| |]; [|done..].
    pose proof (Forall_lookup_1 _ _ _ _ Hord Hj) as Ht. unfold out_of_order in Ht. cbn [held todo] in Ht.
    apply dec_stable in Ht. rewrite Forall_forall in Ht. specialize (Ht k Hk). lia.
Qed.

(** Out of order is only who was called under a wiphy's lock. *)
Lemma out_of_order_wiphy wss ts i t :
  LOk wss ts -> ts !! i = Some t -> out_of_order t ->
  exists ws w k l, wss !! i = Some ws /\ w ∈ ws /\ WiphyLock w ∈ held t /\ todo t = Lock k :: l
    /\ (k = CardsLock \/ exists c, k = CardLock c).
Proof.
  intros Hok Hi Ho. destruct (lok_at _ _ _ _ Hok Hi) as (ws & Hws & Ht). unfold out_of_order in Ho.
  destruct (todo t) as [|[k| |] l]; [done| |done..]. apply run_locks_cons in Ht as [_ Hm].
  apply not_Forall_Exists in Ho; [|intros k'; apply _]. apply Exists_exists in Ho as (k' & Hin & Hlt).
  rewrite Forall_forall in Hm. destruct (Hm k' Hin) as [?|[(w & -> & Hw)%list_elem_of_fmap Hk]]; [done|].
  exists ws, w, k, l. split_and!; try done. destruct k; simpl in Hk; try lia; eauto.
Qed.

Lemma LOk_progress wss ts :
  LOk wss ts -> finished ts \/ (exists ts', lstep ts ts') \/ exists i t, ts !! i = Some t /\ out_of_order t.
Proof.
  intros Hok. destruct (decide (Forall (λ t, todo t = []) ts)) as [Hf|Hf]; [by left|right].
  destruct (decide (Forall (λ t, ~ out_of_order t) ts)) as [Hord|Hord]; [left|right].
  - apply not_Forall_Exists in Hf; [|intros t; apply _]. apply Exists_exists in Hf as (t & Hin & Ht).
    apply list_elem_of_lookup in Hin as [i Hi]. destruct t as [h [|a l]]; [by destruct Ht|].
    eapply (waiting_steps 4); [done|done|exact Hi|]. destruct a; [lia|done..].
  - apply not_Forall_Exists in Hord; [|intros t; apply _]. apply Exists_exists in Hord as (t & Hin & Ht).
    apply list_elem_of_lookup in Hin as [i Hi]. exists i, t. split; [done|by apply dec_stable in Ht].
Qed.

(** What is left to do shrinks with every step. *)
Definition remaining (ts : list LThread) : nat := sum_list_with (λ t, length (todo t)) ts.

Lemma remaining_step ts ts' : lstep ts ts' -> remaining ts = S (remaining ts').
Proof.
  intros Hs. inversion Hs as [ts0 i h a l Hi _]; subst. unfold remaining. clear Hs.
  revert i Hi. induction ts as [|t ts IH]; intros [|i] Hi; [done..| |]; simpl in Hi.
  - by injection Hi as ->.
  - specialize (IH i Hi).
    change (length (todo t) + sum_list_with (λ t, length (todo t)) ts
      = S (length (todo t) + sum_list_with (λ t, length (todo t)) (<[i := {| held := exec_act a h; todo := l |}]> ts)))%nat.
    lia.
Qed.

Lemma LOk_finishes wss ts : LOk wss ts -> Forall (λ ws, ws = []) wss -> exists ts', rtc lstep ts ts' /\ finished ts'.
Proof.
  intros Hok Hno. remember (remaining ts) as n eqn:En. revert ts Hok En.
  induction n as [|n IH]; intros ts Hok En;
    (destruct (LOk_progress wss ts Hok) as [?|[[ts1 Hs]|(i & t & Hi & Ho)]];
     [by exists ts| |destruct (out_of_order_wiphy wss ts i t Hok Hi Ho) as (ws & w & k & l & Hws & Hw & _);
                     rewrite (Forall_lookup_1 _ _ _ _ Hno Hws) in Hw; by apply not_elem_of_nil in Hw]);
    pose proof (remaining_step _ _ Hs); [lia|].
  destruct (IH ts1) as (ts' & ? & ?); [by eapply LOk_step|lia|]. exists ts'. split; [|done]. by eapply rtc_l.
Qed.

(** ** Properties *)

(** C9: the module's locks.  However many threads use the clocks and the
    device, run the timer, load and unload, and call the notifier, with or
    without the lock of a wiphy held: in every interleaving, if not all are
    through and none can go on, then a caller of the notifier that holds the lock
    of its wiphy waits for [cards_lock] or the lock of a card.  Without such
    callers all can always be brought to their ends.  No run is longer than the
    actions that were left; and while a thread holds the lock of a piece of
    shared state no other thread touches it, so that an operation that keeps
    [cards_lock] has the list for itself. *)
Theorem only_wiphy_callers_deadlock (ess : list (list entry)) (ts : list LThread) :
  rtc lstep (entering <$> ess) ts ->
  (finished ts \/ (exists ts', lstep ts ts')
   \/ exists i es e a w h k l, ess !! i = Some es /\ Notifier e a (Some w) ∈ es
        /\ ts !! i = Some {| held := h; todo := Lock k :: l |} /\ WiphyLock w ∈ h
        /\ (k = CardsLock \/ exists c, k = CardLock c))
  /\ (Forall (Forall (λ e, caller_wiphy e = None)) ess -> exists ts', rtc lstep ts ts' /\ finished ts')
  /\ (forall n ts', nsteps lstep n ts ts' -> (n + remaining ts' = remaining ts)%nat)
  /\ (forall i j ti tj r l, ts !! i = Some ti -> ts !! j = Some tj -> todo tj = Use r :: l ->
        guard r ∈ held ti -> i = j).
Proof.
  intros Hs. pose proof (LOk_steps _ _ _ (LOk_init ess) Hs) as Hok. split; [|split; [|split]].
  - destruct (LOk_progress _ _ Hok) as [?|[?|(i & t & Hi & Ho)]]; [by auto..|right; right].
    destruct (out_of_order_wiphy _ _ _ _ Hok Hi Ho) as (ws & w & k & l & Hws & Hw & Hh & Ht & Hk).
    apply list_lookup_fmap_Some in Hws as (es & -> & Hes).
    apply list_elem_of_omap in Hw as (e & He & Hc). destruct e; try done. simpl in Hc. subst under.
    destruct t as [h td]. cbn [todo held] in *. subst td. by exists i, es, e, a, w, h, k, l.
  - intros Hno. eapply LOk_finishes; [exact Hok|]. apply Forall_fmap. eapply Forall_impl; [exact Hno|].
    intros es Hes. clear -Hes. induction Hes as [|e es He _ IH]; [done|]. cbn. unfold wiphys in *. cbn in *. by rewrite He.
  - intros n ts' Hn. clear Hs Hok. induction Hn as [|n x y z Hxy _ IH]; [done|].
    rewrite (remaining_step _ _ Hxy). lia.
  - intros i j ti tj r l Hi Hj Hl Hg. destruct (lok_at _ _ _ _ Hok Hj) as (ws & _ & Hr).
    rewrite Hl in Hr. apply run_locks_cons in Hr as [_ Hr]. by eapply (lok_excl _ _ Hok).
Qed.

Lemma event_locks_head e a : exists l, netdev_event_locks e a = Lock CardsLock :: l.
Proof. destruct e; by eexists. Qed.

(** One step of the thread at a known position. *)
Ltac lstep_by i :=
  eapply rtc_l; [eapply (lstep_at _ i); [reflexivity|cbn [enabled held]; repeat constructor; set_solver]|];
  cbn [exec_act insert list_insert].

(** C23: indeed the order that the source states puts the wiphy's lock last, and a
    caller that holds it when it calls the notifier, as cfg80211 does when an
    interface of the wiphy is added or removed, does not keep the order: with
    the timer in its cycle both can end up waiting for each other for ever. *)
Theorem notifier_under_wiphy_lock (e : netdev_event) (a : EventArgs) (p : PtpCard) (v : nat) (others : list (PtpCard * bool)) :
  pc_vif p = Some v ->
  let caller := section Rtnl (section (WiphyLock (pc_wiphy p)) (netdev_event_locks e a)) in
  exists ts, rtc lstep [{| held := []; todo := caller |}; {| held := []; todo := sync_work_locks (Some p) others |}] ts
    /\ ~ finished ts /\ ~ exists ts', lstep ts ts'.
Proof.
  intros Hv caller. destruct (event_locks_head e a) as [l Hl].
  assert (caller = Lock Rtnl :: Lock (WiphyLock (pc_wiphy p)) :: Lock CardsLock ::
            (l ++ [Unlock (WiphyLock (pc_wiphy p))]) ++ [Unlock Rtnl]) as -> by (unfold caller; by rewrite Hl).
  assert (exists l', sync_work_locks (Some p) others = Lock CardsLock :: Use CardsList :: Lock (CardLock (pc_clock p)) ::
            Use (Vif (pc_clock p)) :: Lock (WiphyLock (pc_wiphy p)) :: l') as [l' ->]
    by (unfold sync_work_locks, vif_section; rewrite Hv; by eexists).
  eexists. split; [|split].
  - lstep_by 0%nat. lstep_by 0%nat. do 4 lstep_by 1%nat. apply rtc_refl.
  - intros Hf. by apply Forall_cons_iff in Hf as [? _].
  - intros [ts' Hs]. inversion Hs as [ts0 i h b m Hi Hen]; subst.
    destruct i as [|[|i]]; [..|done]; injection Hi as <- <- <-; cbn [enabled] in Hen;
      rewrite !Forall_cons_iff in Hen; cbn [held] in Hen; set_solver.
Qed.

(** ** Witnesses *)

Lemma notifier_under_wiphy_lock_witness :
  exists ts, rtc lstep
    [{| held := []; todo := section Rtnl (section (WiphyLock 0) (netdev_event_locks NETDEV_REGISTER
           {| a_card := None; a_tracked := true; a_probe := Known; a_still := true |})) |};
     {| held := []; todo := sync_work_locks (Some card0) [] |}] ts
    /\ ~ exists ts', lstep ts ts'.
Proof.
  destruct (notifier_under_wiphy_lock NETDEV_REGISTER
    {| a_card := None; a_tracked := true; a_probe := Known; a_still := true |} card0 2 [] eq_refl) as (ts & Hs & _ & Hn).
  exists ts. split; [exact Hs|exact Hn].
Defined.

(** Two threads, the first having taken its card's lock. *)
Lemma only_wiphy_callers_deadlock_witness :
  exists ts', rtc lstep (<[0%nat := {| held := [CardLock 0]; todo := tail (todo (entering [Gettime card0])) |}]>
                          (entering <$> [[Gettime card0]; [Timer (Some card0) []]])) ts' /\ finished ts'.
Proof.
  apply (only_wiphy_callers_deadlock [[Gettime card0]; [Timer (Some card0) []]]).
  - eapply rtc_l; [|apply rtc_refl].
    apply (lstep_at (entering <$> [[Gettime card0]; [Timer (Some card0) []]]) 0 [] (Lock (CardLock 0))).
    + reflexivity.
    + repeat constructor; apply not_elem_of_nil.
  - repeat constructor.
Defined.
