(* ===== verification/Os.v ===== *)
(** * Files, commands and processes under tsf-sync

    What the daemon needs from the operating system, as a class: reading the
    file system, which does not change it, and running, watching and stopping
    other programs, which does.  The paths of [std::path] are computed on
    strings.  A simulated machine gives the class an instance, on which
    witnesses run. *)

From S2P Require Import Prelude Ints Text Sys.

(** ** Paths *)

Definition slash : Z := 47.

(** [Path::join] *)
Definition join (p q : str) : str :=
  match q with
  | 47 :: _ => q
  | _ => match p with
         | [] => q
         | _ => if bool_decide (last p = Some slash) then p ++ q else p ++ slash :: q
         end
  end.

(** The pieces between the separators. *)
Fixpoint split_slash (cur : str) (s : str) : list str :=
  match s with
  | [] => [reverse cur]
  | c :: s => if c =? slash then reverse cur :: split_slash [] s else split_slash (c :: cur) s
  end.

Definition significant (p : str) : bool := negb (bool_decide (p = [])) && negb (bool_decide (p = lit ".")).

(** [Path::file_name]: the last component, when it is a name. *)
Definition file_name (p : str) : option str :=
  match last (List.filter significant (split_slash [] p)) with
  | Some n => if bool_decide (n = lit "..") then None else Some n
  | None => None
  end.

(** *** [Path::parent]

    The path is taken apart from its end, as [Components::next_back] does it:
    empty pieces and "." are no components, except a "." at the very start;
    the root is not a component that has a parent. *)
Definition len_before_body (p : str) : nat :=
  match p with
  | 47 :: _ => 1
  | [46] => 1
  | 46 :: 47 :: _ => 1
  | _ => 0
  end.

(** The last piece of [s], and what is before its separator. *)
Fixpoint rsplit_slash (s : str) : str * str :=
  match s with
  | [] => ([], [])
  | c :: s' =>
      if bool_decide (slash ∈ s') then let '(a, b) := rsplit_slash s' in (c :: a, b)
      else if c =? slash then ([], s') else ([], s)
  end.
Definition component_back (start : nat) (p : str) : str * str :=
  let '(a, b) := rsplit_slash (drop start p) in (take start p ++ a, b).

Fixpoint trim_back (fuel start : nat) (p : str) : str :=
  match fuel with
  | O => p
  | S f =>
      if (length p <=? start)%nat then p
      else let '(rest, c) := component_back start p in
           if significant c then p else trim_back f start rest
  end.

Definition parent (p : str) : option str :=
  let start := len_before_body p in
  let p := trim_back (length p) start p in
  if (start <? length p)%nat then
    let rest := (component_back start p).1 in Some (trim_back (length rest) start rest)
  else if bool_decide (p = lit ".") then Some [] else None.

Example parent_tests :
  parent (lit "ptp4l") = Some [] /\ parent (lit "/usr/sbin//./ptp4l/") = Some (lit "/usr/sbin")
  /\ parent (lit "/ptp4l") = Some (lit "/") /\ parent (lit "./ptp4l") = Some (lit ".")
  /\ parent (lit "/") = None /\ parent [] = None /\ parent (lit "a/..") = Some (lit "a").
Proof. done. Qed.

Lemma split_slash_app cur p q :
  Forall (λ c, c <> slash) p -> split_slash cur (p ++ q) = split_slash (reverse p ++ cur) q.
Proof.
  revert cur. induction p as [|c p IH]; intros cur Hp; [done|].
  apply Forall_cons_iff in Hp as [Hc Hp]. simpl. rewrite (proj2 (Z.eqb_neq _ _)) by done.
  rewrite IH by done. by rewrite reverse_cons, <- app_assoc.
Qed.

(** The last component of a path that ends in a name. *)
Lemma file_name_join p n :
  Forall (λ c, c <> slash) n -> n <> [] -> n <> lit "." -> n <> lit ".." ->
  file_name (p ++ slash :: n) = Some n.
Proof.
  intros Hs H0 H1 H2. unfold file_name.
  assert (forall cur, exists l, split_slash cur (p ++ slash :: n) = l ++ [n]) as Hl.
  { induction p as [|c p IH]; intros cur; simpl.
    - exists [reverse cur]. rewrite <- (app_nil_r n) at 1. rewrite split_slash_app by done. simpl.
      by rewrite app_nil_r, reverse_involutive.
    - destruct (c =? slash); [|apply IH]. destruct (IH []) as [l ->]. by exists (reverse cur :: l). }
  destruct (Hl []) as [l ->]. rewrite List.filter_app. simpl.
  assert (significant n = true) as -> by (unfold significant; by bdec).
  rewrite last_snoc. by rewrite bool_decide_eq_false_2.
Qed.

(** ** The operating system *)

(** [std::process::Output], with the output as lossily decoded text. *)
Record Output := { success : bool; stdout : str; stderr : str }.

Definition not_found (e : io_error) : bool :=
  match e with OsError n => n =? 2 | NotFound _ => true | _ => false end.

Class Os (W : Type) := {
  read_dir : W -> str -> result (list (result str io_error)) io_error;  (* the names *)
  read_link : W -> str -> result str io_error;
  read_to_string : W -> str -> result str io_error;
  path_exists : W -> str -> bool;
  write_file : str -> str -> W -> result unit io_error * W;
  command_output : str -> list str -> W -> result Output io_error * W;
  spawn_child : str -> list str -> W -> result Z io_error * W;          (* the process id *)
  try_wait : Z -> W -> result (option Z) io_error * W;
  wait_child : Z -> W -> result Z io_error * W;
  sigterm : Z -> W -> W;
  sigkill : Z -> W -> result unit io_error * W;
  sleep_ms : Z -> W -> W;
}.

(** *** [std::process::Child]

    The handle keeps the status once the process has been waited for; from
    then on it makes no system calls any more. *)
Record ChildHandle := { child_id : Z; child_status : option Z }.

Section child.
Context {W : Type} `{Os W}.

Definition child_try_wait (c : ChildHandle) : M W (result (option Z) io_error * ChildHandle) :=
  match child_status c with
  | Some st => mret (Ok (Some st), c)
  | None =>
      r ← act (try_wait (child_id c));
      match r with
      | Ok (Some st) => mret (Ok (Some st), {| child_id := child_id c; child_status := Some st |})
      | _ => mret (r, c)
      end
  end.

Definition child_kill (c : ChildHandle) : M W (result unit io_error) :=
  match child_status c with
  | Some _ => mret (Ok tt)
  | None => act (sigkill (child_id c))
  end.

Definition child_wait (c : ChildHandle) : M W (result Z io_error * ChildHandle) :=
  match child_status c with
  | Some st => mret (Ok st, c)
  | None =>
      r ← act (wait_child (child_id c));
      match r with
      | Ok st => mret (Ok st, {| child_id := child_id c; child_status := Some st |})
      | Err e => mret (Err e, c)
      end
  end.
End child.

(** ** A simulated machine *)

(** A child process: whether it runs, and how often it may be polled after
    SIGTERM before it is seen to have ended, if it obeys it at all. *)
Record Child := { alive : bool; termed : bool; lingers : option nat }.

(** What a command answers, and what it makes of the file system: its entries
    take the place of those that were there. *)
Record Outcome := {
  answer : result Output io_error;
  new_dirs : list (str * list str);
  new_links : list (str * str);
  new_files : list (str * str);
}.
Definition answers (r : result Output io_error) : Outcome :=
  {| answer := r; new_dirs := []; new_links := []; new_files := [] |}.

Record Box := {
  dirs : list (str * list str);
  links : list (str * str);
  files : list (str * str);
  outcomes : list Outcome;                   (* of the next commands *)
  calls : list (str * list str);             (* the commands run, in order *)
  children : list Child;                     (* by process id *)
  newborn : list (result Child io_error);    (* what the next spawns give *)
  slept_ms : Z;
  flags : list bool;                         (* what the next loads of the daemon's flag give *)
}.

Definition assoc {A} (l : list (str * A)) (k : str) : option A :=
  snd <$> find (λ e : str * A, bool_decide (e.1 = k)) l.
Definition enoent : io_error := OsError 2.
Definition or_enoent {A} (o : option A) : result A io_error :=
  match o with Some a => Ok a | None => Err enoent end.

Definition with_flags (fs : list bool) (w : Box) : Box :=
  {| dirs := dirs w; links := links w; files := files w; outcomes := outcomes w; calls := calls w;
     children := children w; newborn := newborn w; slept_ms := slept_ms w; flags := fs |}.
Definition with_children (cs : list Child) (w : Box) : Box :=
  {| dirs := dirs w; links := links w; files := files w; outcomes := outcomes w; calls := calls w;
     children := cs; newborn := newborn w; slept_ms := slept_ms w; flags := flags w |}.

Definition box_command (bin : str) (args : list str) (w : Box) : result Output io_error * Box :=
  let o := match outcomes w with o :: _ => o | [] => answers (Err enoent) end in
  (answer o,
   {| dirs := new_dirs o ++ dirs w; links := new_links o ++ links w; files := new_files o ++ files w; outcomes := tail (outcomes w);
      calls := calls w ++ [(bin, args)]; children := children w; newborn := newborn w;
      slept_ms := slept_ms w; flags := flags w |}).

Definition box_spawn (bin : str) (args : list str) (w : Box) : result Z io_error * Box :=
  let '(r, cs) := match newborn w with
                  | Ok c :: _ => (Ok (Z.of_nat (length (children w))), children w ++ [c])
                  | Err e :: _ => (Err e, children w)
                  | [] => (Err enoent, children w)
                  end in
  (r, {| dirs := dirs w; links := links w; files := files w; outcomes := outcomes w;
         calls := calls w ++ [(bin, args)]; children := cs; newborn := tail (newborn w);
         slept_ms := slept_ms w; flags := flags w |}).

(** One poll of a child. *)
Definition poll (c : Child) : option Z * Child :=
  if negb (alive c) then (Some 0, c)
  else if termed c then
    match lingers c with
    | Some O => (Some 0, {| alive := false; termed := true; lingers := Some O |})
    | Some (S k) => (None, {| alive := true; termed := true; lingers := Some k |})
    | None => (None, c)
    end
  else (None, c).

Definition on_child {A} (pid : Z) (dflt : A) (f : Child -> A * Child) (w : Box) : A * Box :=
  match children w !! Z.to_nat pid with
  | Some c => let '(a, c') := f c in (a, with_children (<[Z.to_nat pid := c']> (children w)) w)
  | None => (dflt, w)
  end.

#[export] Instance box_os : Os Box := {|
  read_dir := λ w p, match assoc (dirs w) p with Some l => Ok (Ok <$> l) | None => Err enoent end;
  read_link := λ w p, or_enoent (assoc (links w) p);
  read_to_string := λ w p, or_enoent (assoc (files w) p);
  path_exists := λ w p, bool_decide (is_Some (assoc (files w) p)) || bool_decide (is_Some (assoc (dirs w) p));
  write_file := λ p text w,
    (Ok tt, {| dirs := dirs w; links := links w; files := (p, text) :: files w; outcomes := outcomes w;
               calls := calls w; children := children w; newborn := newborn w; slept_ms := slept_ms w;
               flags := flags w |});
  command_output := box_command;
  spawn_child := box_spawn;
  try_wait := λ pid, on_child pid (Err (OsError 10)) (λ c, let '(r, c) := poll c in (Ok r, c));
  wait_child := λ pid, on_child pid (Err (OsError 10))
    (λ c, (Ok 9, {| alive := false; termed := termed c; lingers := lingers c |}));
  sigterm := λ pid w, (on_child pid tt (λ c, (tt, {| alive := alive c; termed := true; lingers := lingers c |})) w).2;
  sigkill := λ pid, on_child pid (Err (OsError 3))
    (λ c, (Ok tt, {| alive := false; termed := termed c; lingers := lingers c |}));
  sleep_ms := λ ms w,
    {| dirs := dirs w; links := links w; files := files w; outcomes := outcomes w; calls := calls w;
       children := children w; newborn := newborn w; slept_ms := slept_ms w + ms; flags := flags w |};
|}.

(** A machine with these directories, links and files and nothing running. *)
Definition box (ds : list (str * list str)) (ls fs : list (str * str)) : Box :=
  {| dirs := ds; links := ls; files := fs; outcomes := []; calls := []; children := []; newborn := [];
     slept_ms := 0; flags := [] |}.

Example file_name_tests :
  file_name (lit "../../bus/pci/drivers/iwlwifi") = Some (lit "iwlwifi")
  /\ file_name (lit "a/b/.") = Some (lit "b") /\ file_name (lit "/") = None /\ file_name (lit "a/..") = None.
Proof. done. Qed.
