(* ===== verification/Discovery.v ===== *)
(** * Finding WiFi cards (src/discovery.rs)

    The walk of the sysfs class directory, each card's driver, PTP clock and
    capabilities, the natural ordering of their names, and the table. *)

From Stdlib Require Import Sorted.
From S2P Require Import Prelude Ints Text Sys Os SyncMode.

(** ** Definitions *)

Inductive PtpSource := Native | TsfPtp | NoPtp.

#[export] Instance PtpSource_eq_dec : EqDecision PtpSource.
Proof. solve_decision. Defined.

Record WifiCard := {
  phy : str;
  driver : str;
  ptp_clock : option str;
  ptp_source : PtpSource;
  can_set_tsf : bool;
}.

#[export] Instance WifiCard_eq_dec : EqDecision WifiCard.
Proof. solve_decision. Defined.

Definition NATIVE_PTP_DRIVERS : list str := [lit "iwlwifi"].
Definition FULLMAC_DRIVERS : list str := [lit "brcmfmac"; lit "mwifiex"; lit "ath6kl"].
Definition READ_ONLY_DRIVERS : list str := [lit "rtl8xxxu"; lit "wil6210"].

(** [contains] *)
Definition contains (l : list str) (s : str) : bool := existsb (λ x, bool_decide (x = s)) l.

Definition is_ascii_digit (c : Z) : bool := (48 <=? c) && (c <=? 57).

Fixpoint take_non_digits (s : str) : str :=
  match s with c :: s' => if is_ascii_digit c then [] else c :: take_non_digits s' | [] => [] end.
Fixpoint skip_non_digits (s : str) : str :=
  match s with c :: s' => if is_ascii_digit c then s else skip_non_digits s' | [] => [] end.

Definition natural_sort_key (s : str) : str * Z :=
  (take_non_digits s, match u64_from_str (skip_non_digits s) with Ok n => n | Err _ => 0 end).

(** [Ord] on strings (their bytes, or equally their characters) and on pairs. *)
Fixpoint str_cmp (a b : str) : comparison :=
  match a, b with
  | [], [] => Eq
  | [], _ :: _ => Lt
  | _ :: _, [] => Gt
  | x :: a, y :: b => match x ?= y with Eq => str_cmp a b | c => c end
  end.
Definition key_cmp (a b : str * Z) : comparison :=
  match str_cmp a.1 b.1 with Eq => a.2 ?= b.2 | c => c end.

(** A stable sort. *)
Fixpoint insert_by {A} (cmp : A -> A -> comparison) (a : A) (l : list A) : list A :=
  match l with
  | [] => [a]
  | b :: l' => match cmp a b with Gt => b :: insert_by cmp a l' | _ => a :: l end
  end.
Fixpoint sort_by {A} (cmp : A -> A -> comparison) (l : list A) : list A :=
  match l with [] => [] | a :: l => insert_by cmp a (sort_by cmp l) end.

Definition card_cmp (a b : WifiCard) : comparison :=
  key_cmp (natural_sort_key (phy a)) (natural_sort_key (phy b)).

Section discovery.
Context {W : Type} `{Os W}.

Definition read_driver (w : W) (phy_path : str) : str :=
  match read_link w (join phy_path (lit "device/driver")) with
  | Ok target => match file_name target with Some n => n | None => lit "unknown" end
  | Err _ => lit "unknown"
  end.

(** The names of a directory, unreadable ones left out. *)
Definition flatten (l : list (result str io_error)) : list str :=
  omap (λ r, match r with Ok n => Some n | Err _ => None end) l.

Definition clock_in (w : W) (dir : str) : option str :=
  match read_dir w dir with
  | Ok entries => find (λ n, starts_with n (lit "ptp")) (flatten entries)
  | Err _ => None
  end.

Definition find_ptp_clock (w : W) (phy_path driver : str) : option str * PtpSource :=
  match (match clock_in w (join phy_path (lit "device")) with
         | Some n => Some n
         | None => clock_in w phy_path
         end) with
  | Some name => (Some (lit "/dev/" ++ name),
                  if contains NATIVE_PTP_DRIVERS driver then Native else TsfPtp)
  | None => (None, NoPtp)
  end.

(** The card of one entry of the class directory. *)
Definition card_of (w : W) (sysfs_root phy_name : str) : WifiCard :=
  let phy_path := join sysfs_root phy_name in
  let driver := read_driver w phy_path in
  let '(ptp_clock, ptp_source) := find_ptp_clock w phy_path driver in
  {| phy := phy_name; driver := driver; ptp_clock := ptp_clock; ptp_source := ptp_source;
     can_set_tsf := negb (contains FULLMAC_DRIVERS driver) && negb (contains READ_ONLY_DRIVERS driver) |}.

(** The loop over the entries. *)
Fixpoint collect_cards (w : W) (sysfs_root : str) (entries : list (result str io_error))
    (cards : list WifiCard) : result (list WifiCard) io_error :=
  match entries with
  | [] => Ok cards
  | Err e :: _ => Err e
  | Ok phy_name :: rest =>
      if negb (starts_with phy_name (lit "phy")) then collect_cards w sysfs_root rest cards
      else collect_cards w sysfs_root rest (cards ++ [card_of w sysfs_root phy_name])
  end.

Definition discover_cards (w : W) (sysfs_root : str) : result (list WifiCard) io_error :=
  match read_dir w sysfs_root with
  | Err e => if not_found e then Ok [] else Err e
  | Ok entries =>
      match collect_cards w sysfs_root entries [] with
      | Err e => Err e
      | Ok cards => Ok (sort_by card_cmp cards)
      end
  end.

Definition detect_active_sync_mode (w : W) : option SyncMode :=
  match read_to_string w (lit "/sys/module/tsf_ptp/parameters/sync_mode") with
  | Err _ => None
  | Ok value =>
      if bool_decide (trim value = lit "0") then Some Ptp
      else if bool_decide (trim value = lit "1") then Some Kernel
      else if bool_decide (trim value = lit "2") then Some Iouring
      else None
  end.
End discovery.

(** The em dash, printed for a missing value. *)
Definition dash : str := [8212].

Definition card_status (card : WifiCard) : str :=
  match ptp_source card with
  | Native => lit "native PTP"
  | TsfPtp => lit "tsf-ptp module"
  | NoPtp =>
      if contains FULLMAC_DRIVERS (driver card) then lit "unsupported (FullMAC)"
      else if negb (can_set_tsf card) then lit "read-only TSF"
      else lit "needs tsf-ptp module"
  end.

Definition table_row (a b c d : str) : str :=
  pad_right 10 a ++ [32] ++ pad_right 18 b ++ [32] ++ pad_right 14 c ++ [32] ++ d ++ [10].

Definition format_table (cards : list WifiCard) : str :=
  table_row (lit "PHY") (lit "DRIVER") (lit "PTP CLOCK") (lit "STATUS")
  ++ flat_map (λ card, table_row (phy card) (driver card) (default dash (ptp_clock card)) (card_status card)) cards.

(** ** Facts: sorting *)

Section sorting.
Context {A : Type} (cmp : A -> A -> comparison).
Hypothesis cmp_opp : forall a b, cmp b a = CompOpp (cmp a b).
Hypothesis cmp_trans : forall a b c, cmp a b <> Gt -> cmp b c <> Gt -> cmp a c <> Gt.

Lemma insert_by_perm a l : insert_by cmp a l ≡ₚ a :: l.
Proof using Type.
  induction l as [|b l IH]; [done|]. simpl. destruct (cmp a b); [done..|].
  rewrite IH. apply Permutation_swap.
Qed.

Lemma sort_by_perm l : sort_by cmp l ≡ₚ l.
Proof using Type. induction l as [|a l IH]; [done|]. simpl. by rewrite insert_by_perm, IH. Qed.

Lemma insert_by_sorted a l :
  StronglySorted (λ a b, cmp a b <> Gt) l -> StronglySorted (λ a b, cmp a b <> Gt) (insert_by cmp a l).
Proof using cmp_opp cmp_trans.
  induction 1 as [|b l Hs IH Hb]; simpl; [by repeat constructor|].
  destruct (cmp a b) eqn:E.
  1, 2: constructor; [by constructor|]; constructor; [congruence|];
    eapply Forall_impl; [exact Hb|]; intros c Hc; eapply cmp_trans; [|exact Hc]; congruence.
  constructor; [done|]. rewrite insert_by_perm. constructor; [|done].
  rewrite cmp_opp, E. done.
Qed.

Lemma sort_by_sorted l : StronglySorted (λ a b, cmp a b <> Gt) (sort_by cmp l).
Proof using cmp_opp cmp_trans. induction l; simpl; [constructor|by apply insert_by_sorted]. Qed.

(** Elements of one class keep their order. *)
Lemma insert_by_stable (P : A -> bool) a l :
  (forall b, P a = true -> P b = true -> cmp a b = Eq) ->
  List.filter P (insert_by cmp a l) = List.filter P (a :: l).
Proof using Type.
  intros Hc. induction l as [|b l IH]; [done|]. simpl.
  destruct (cmp a b) eqn:E; [done..|]. simpl. rewrite IH. simpl.
  destruct (P a) eqn:Pa, (P b) eqn:Pb; try done. rewrite Hc in E; done.
Qed.

Lemma sort_by_stable (P : A -> bool) l :
  (forall a b, P a = true -> P b = true -> cmp a b = Eq) ->
  List.filter P (sort_by cmp l) = List.filter P l.
Proof using Type.
  intros Hc. induction l as [|a l IH]; [done|]. simpl. rewrite insert_by_stable by eauto.
  simpl. by rewrite IH.
Qed.
End sorting.

Lemma str_cmp_opp a b : str_cmp b a = CompOpp (str_cmp a b).
Proof.
  revert b. induction a as [|x a IH]; intros [|y b]; try done. simpl. rewrite (Z.compare_antisym x y).
  destruct (x ?= y); simpl; auto.
Qed.
Lemma str_cmp_eq a b : str_cmp a b = Eq <-> a = b.
Proof.
  revert b. induction a as [|x a IH]; intros [|y b]; simpl; try done.
  destruct (Z.compare_spec x y) as [->|H|H]; [rewrite IH; split; congruence|..]; split; try done; intros [=]; lia.
Qed.
Lemma str_cmp_trans a b c : str_cmp a b = Lt -> str_cmp b c = Lt -> str_cmp a c = Lt.
Proof.
  revert b c. induction a as [|x a IH]; intros [|y b] [|z c]; simpl; try done.
  destruct (Z.compare_spec x y) as [->|H|H], (Z.compare_spec y z) as [->|H'|H']; try done; [apply IH|..]; intros _ _;
    by rewrite ?(proj2 (Z.compare_lt_iff _ _)) by lia.
Qed.

Lemma key_cmp_opp a b : key_cmp b a = CompOpp (key_cmp a b).
Proof.
  unfold key_cmp. rewrite str_cmp_opp. destruct (str_cmp a.1 b.1); simpl; try done.
  apply Z.compare_antisym.
Qed.
Lemma key_cmp_eq a b : key_cmp a b = Eq <-> a = b.
Proof.
  destruct a as [a1 a2], b as [b1 b2]. unfold key_cmp. simpl.
  destruct (str_cmp a1 b1) eqn:E.
  - apply str_cmp_eq in E as ->. rewrite Z.compare_eq_iff. naive_solver.
  - split; [done|]. intros [= -> ->]. by rewrite (proj2 (str_cmp_eq b1 b1)) in E.
  - split; [done|]. intros [= -> ->]. by rewrite (proj2 (str_cmp_eq b1 b1)) in E.
Qed.
Lemma key_cmp_trans a b c : key_cmp a b <> Gt -> key_cmp b c <> Gt -> key_cmp a c <> Gt.
Proof.
  destruct a as [a1 a2], b as [b1 b2], c as [c1 c2]. unfold key_cmp. simpl.
  destruct (str_cmp a1 b1) eqn:E1, (str_cmp b1 c1) eqn:E2; try done;
    try (apply str_cmp_eq in E1 as ->); try (apply str_cmp_eq in E2 as ->).
  - rewrite (proj2 (str_cmp_eq c1 c1)) by done. rewrite !Z.compare_gt_iff. lia.
  - by rewrite E2.
  - by rewrite E1.
  - by rewrite (str_cmp_trans _ _ _ E1 E2).
Qed.

(** ** Facts: the walk *)

Section discovery_facts.
Context {W : Type} `{HOs : Os W}.

Lemma collect_cards_spec (w : W) root entries cards :
  collect_cards w root entries cards =
  match find (λ r, match r with Err _ => true | Ok _ => false end) entries with
  | Some (Err e) => Err e
  | _ => Ok (cards ++ (card_of w root <$> List.filter (λ n, starts_with n (lit "phy")) (flatten entries)))
  end.
Proof.
  revert cards. induction entries as [|[n|e] entries IH]; intros cards; [|simpl|done].
  { simpl. by rewrite app_nil_r. }
  destruct (starts_with n (lit "phy")); simpl; rewrite IH; [|done].
  destruct (find _ entries) as [[|]|]; rewrite <- ?app_assoc; done.
Qed.
End discovery_facts.

(** ** Properties *)

Section discovery_properties.
Context {W : Type} `{HOs : Os W}.

(** C31: when the class directory can be listed, the cards found are exactly
    those of the entries whose names start with "phy", each once, in the order
    of their prefix and then of their number as a number, entries with equal
    keys in the directory's order. *)
Theorem discover_cards_sorted (w : W) (root : str) (names : list str) :
  read_dir w root = Ok (Ok <$> names) ->
  exists cards, discover_cards w root = Ok cards
    /\ cards ≡ₚ (card_of w root <$> List.filter (λ n, starts_with n (lit "phy")) names)
    /\ StronglySorted (λ a b, card_cmp a b <> Gt) cards
    /\ forall key, List.filter (λ c, bool_decide (natural_sort_key (phy c) = key)) cards
         = List.filter (λ c, bool_decide (natural_sort_key (phy c) = key))
             (card_of w root <$> List.filter (λ n, starts_with n (lit "phy")) names).
Proof.
  intros Hd. unfold discover_cards. rewrite Hd, collect_cards_spec.
  assert (find (λ r : result str io_error, match r with Err _ => true | Ok _ => false end)
            (Ok <$> names) = None) as -> by (clear; induction names; done).
  assert (flatten (Ok <$> names) = names) as ->.
  { clear Hd. induction names as [|n names IH]; [done|]. simpl. f_equal. exact IH. }
  eexists. split; [reflexivity|]. cbn [app]. split; [apply sort_by_perm|]. split.
  - apply sort_by_sorted; unfold card_cmp; intros; [apply key_cmp_opp|by eapply key_cmp_trans].
  - intros key. apply sort_by_stable. intros a b Ha Hb.
    apply bool_decide_eq_true_1 in Ha, Hb. apply key_cmp_eq. congruence.
Qed.

(** What is said of a card is consistent: it has a clock exactly when a
    source is named, the source is native exactly for iwlwifi's clocks, and
    when the clock is found it is the device named after the first entry, in
    the device directory or else in the card's own, that starts with "ptp",
    whatever follows: a directory named just "ptp" gives "/dev/ptp". *)
Theorem card_of_consistent (w : W) (root n : str) :
  let c := card_of w root n in
  phy c = n
  /\ (ptp_clock c = None <-> ptp_source c = NoPtp)
  /\ (ptp_source c = Native <-> is_Some (ptp_clock c) /\ driver c = lit "iwlwifi")
  /\ (can_set_tsf c = true <->
        driver c ∉ [lit "brcmfmac"; lit "mwifiex"; lit "ath6kl"; lit "rtl8xxxu"; lit "wil6210"])
  /\ (forall entries rest, read_dir w (join (join root n) (lit "device")) = Ok entries ->
        flatten entries = lit "ptp" :: rest -> ptp_clock c = Some (lit "/dev/ptp")).
Proof.
  intros c. subst c. unfold card_of. set (p := join root n). set (d := read_driver w p).
  unfold find_ptp_clock.
  assert (forall l (s : str), contains l s = true <-> s ∈ l) as Hcont.
  { intros l s. unfold contains. rewrite existsb_exists. split.
    - intros (x & Hx & E). apply bool_decide_eq_true_1 in E as ->. by apply list_elem_of_In.
    - intros Hx. exists s. split; [by apply list_elem_of_In|by apply bool_decide_eq_true_2]. }
  assert (contains NATIVE_PTP_DRIVERS d = true <-> d = lit "iwlwifi") as Hnat.
  { rewrite Hcont. unfold NATIVE_PTP_DRIVERS. apply list_elem_of_singleton. }
  set (clock := match clock_in w (join p (lit "device")) with Some n => Some n | None => clock_in w p end).
  split; [|split; [|split; [|split]]].
  - by destruct clock.
  - destruct clock; cbn [ptp_clock ptp_source]; [|done]. destruct (contains NATIVE_PTP_DRIVERS d); by split.
  - destruct clock as [nm|]; cbn [ptp_clock ptp_source driver].
    + destruct (contains NATIVE_PTP_DRIVERS d) eqn:E.
      * split; [|done]. intros _. split; [by eexists|by apply Hnat].
      * split; [done|]. intros [_ Hd]. by apply Hnat in Hd.
    + split; [done|]. by intros [[? ?] _].
  - assert (negb (contains FULLMAC_DRIVERS d) && negb (contains READ_ONLY_DRIVERS d) = true
      <-> d ∉ FULLMAC_DRIVERS ++ READ_ONLY_DRIVERS) as Hset.
    { rewrite andb_true_iff, !negb_true_iff, <- !not_true_iff_false, !Hcont.
      rewrite elem_of_app. tauto. }
    destruct clock; exact Hset.
  - intros entries rest Hdir Hfl. subst clock. unfold clock_in at 1. rewrite Hdir, Hfl. done.
Qed.
End discovery_properties.

Definition demo_sys : Box :=
  box [(lit "/sys/class/ieee80211", [lit "phy10"; lit "phy2"; lit "other"; lit "phy0"]);
       (lit "/sys/class/ieee80211/phy2/device", [lit "driver"; lit "ptp3"])]
      [(lit "/sys/class/ieee80211/phy2/device/driver", lit "../../bus/pci/drivers/iwlwifi")] [].

Lemma discover_cards_sorted_witness :
  exists cards, discover_cards demo_sys (lit "/sys/class/ieee80211") = Ok cards
    /\ phy <$> cards = [lit "phy0"; lit "phy2"; lit "phy10"]
    /\ StronglySorted (λ a b, card_cmp a b <> Gt) cards.
Proof.
  destruct (discover_cards_sorted demo_sys (lit "/sys/class/ieee80211")
              [lit "phy10"; lit "phy2"; lit "other"; lit "phy0"]) as (cards & H & _ & Hs & _);
    [reflexivity|].
  exists cards. split; [exact H|]. split; [|exact Hs].
  vm_compute in H. injection H as <-. reflexivity.
Defined.

Lemma card_of_consistent_witness :
  exists c, c = card_of (box [(lit "/r/phy0/device", [lit "ptp"])] [] []) (lit "/r") (lit "phy0")
    /\ ptp_clock c = Some (lit "/dev/ptp").
Proof.
  eexists. split; [reflexivity|].
  destruct (card_of_consistent (box [(lit "/r/phy0/device", [lit "ptp"])] [] []) (lit "/r") (lit "phy0"))
    as (_ & _ & _ & _ & H).
  apply (H [Ok (lit "ptp")] []); reflexivity.
Defined.
