(* ===== verification/ConfigGen.v ===== *)
(** * Generating the ptp4l configuration (src/config_gen.rs)

    The choice of the primary card and the text of the configuration, which is
    the rendering of a list of sections. *)

From S2P Require Import Prelude Ints Text Sys Os Discovery.

(** ** Definitions *)

Inductive ConfigError :=
  | NoPtpClocks
  | PrimaryNotFound (name : str)
  | PrimaryNoPtp (name : str)
  | NoPrimary
  | OnlyOneClock.

Definition has_clock (c : WifiCard) : bool := bool_decide (is_Some (ptp_clock c)).
Definition named (name : str) (c : WifiCard) : bool := bool_decide (phy c = name).
Definition is_native (c : WifiCard) : bool := bool_decide (ptp_source c = Native).

Definition select_primary (ptp_cards : list WifiCard) (selection : str) : result WifiCard ConfigError :=
  if negb (bool_decide (selection = lit "auto")) then
    match find (named selection) ptp_cards with
    | None => Err (PrimaryNotFound selection)
    | Some card => match ptp_clock card with
                   | None => Err (PrimaryNoPtp selection)
                   | Some _ => Ok card
                   end
    end
  else
    match find is_native ptp_cards with
    | Some card => Ok card
    | None => match ptp_cards with card :: _ => Ok card | [] => Err NoPrimary end
    end.

Definition line (s : str) : str := s ++ [10].

(** [ptp_clock.as_ref().unwrap()] *)
Definition clock_of (card : WifiCard) : outcome str :=
  match ptp_clock card with Some p => Done p | None => Panic end.

(** The loop over the secondary cards. *)
Fixpoint secondary_sections (primary : WifiCard) (cards : list WifiCard) (config : str) : outcome str :=
  match cards with
  | [] => Done config
  | card :: rest =>
      if bool_decide (phy card = phy primary) then secondary_sections primary rest config
      else
        ptp_path ← clock_of card;
        secondary_sections primary rest
          (config ++ line [] ++ line (lit "# Secondary: " ++ phy card ++ lit " (" ++ driver card ++ lit ")")
                  ++ line (lit "[" ++ ptp_path ++ lit "]"))
  end.

Definition generate_config (cards : list WifiCard) (primary_selection : str)
    : outcome (result str ConfigError) :=
  let ptp_cards := List.filter has_clock cards in
  match ptp_cards with
  | [] => Done (Err NoPtpClocks)
  | _ =>
      if (length ptp_cards <? 2)%nat then Done (Err OnlyOneClock)
      else
        match select_primary ptp_cards primary_selection with
        | Err e => Done (Err e)
        | Ok primary =>
            let config := line (lit "[global]") ++ line (lit "clockClass              248")
              ++ line (lit "priority1               128") ++ line (lit "priority2               128")
              ++ line (lit "domainNumber            42") ++ line [] in
            ptp_path ← clock_of primary;
            let config := config ++ line (lit "# Primary: " ++ phy primary ++ lit " (" ++ driver primary ++ lit ")")
              ++ line (lit "[" ++ ptp_path ++ lit "]") ++ line (lit "serverOnly              1") in
            config ← secondary_sections primary ptp_cards config;
            Done (Ok config)
        end
  end.

(** ** Specification *)

(** A configuration as its sections: the device, the comment before it, and
    whether it is the grandmaster's. *)
Record cfg_section := { sec_comment : str; sec_device : str; sec_server : bool }.

Definition global_text : str :=
  flat_map line [lit "[global]"; lit "clockClass              248"; lit "priority1               128";
                 lit "priority2               128"; lit "domainNumber            42"].

Definition render_section (s : cfg_section) : str :=
  line [] ++ line (sec_comment s) ++ line (lit "[" ++ sec_device s ++ lit "]")
  ++ (if sec_server s then line (lit "serverOnly              1") else []).
Definition render (l : list cfg_section) : str := global_text ++ flat_map render_section l.

Definition section_of (role : str) (server : bool) (c : WifiCard) : cfg_section :=
  {| sec_comment := lit "# " ++ role ++ lit ": " ++ phy c ++ lit " (" ++ driver c ++ lit ")";
     sec_device := default [] (ptp_clock c); sec_server := server |}.

(** The sections promised: the primary's first, then those of the other cards
    with clocks, in order. *)
Definition sections (primary : WifiCard) (ptp_cards : list WifiCard) : list cfg_section :=
  section_of (lit "Primary") true primary
  :: map (section_of (lit "Secondary") false)
       (List.filter (λ c, negb (bool_decide (phy c = phy primary))) ptp_cards).

(** The primary promised: the first card of the name; or the first with a
    native clock, and if there is none the first. *)
Definition chosen (selection : str) (ptp_cards : list WifiCard) (p : WifiCard) : Prop :=
  exists before after, ptp_cards = before ++ p :: after
    /\ (selection <> lit "auto" /\ phy p = selection /\ Forall (λ c, phy c <> selection) before
        \/ selection = lit "auto" /\ ptp_source p = Native /\ Forall (λ c, ptp_source c <> Native) before
        \/ selection = lit "auto" /\ before = [] /\ Forall (λ c, ptp_source c <> Native) ptp_cards).

(** ** Facts *)

Lemma find_none_iff {A} (f : A -> bool) l : find f l = None <-> forall x, x ∈ l -> f x = false.
Proof.
  split; [intros H x Hx; apply (find_none _ _ H), list_elem_of_In, Hx|].
  intros H. induction l as [|x l IH]; [done|]. cbn [find]. rewrite H by by left. apply IH. intros y Hy. apply H. by right.
Qed.

Lemma find_first {A} (f : A -> bool) l1 x l2 :
  f x = true -> (forall y, y ∈ l1 -> f y = false) -> find f (l1 ++ x :: l2) = Some x.
Proof.
  intros Hx H. induction l1 as [|y l1 IH]; cbn [app find]; [by rewrite Hx|].
  rewrite H by by left. apply IH. intros z Hz. apply H. by right.
Qed.

(** A list up to its first element with a property. *)
Lemma first_split {A} (P : A -> Prop) `{!forall x, Decision (P x)} (l : list A) :
  Forall (λ x, ~ P x) l \/ exists l1 x l2, l = l1 ++ x :: l2 /\ P x /\ Forall (λ x, ~ P x) l1.
Proof.
  induction l as [|x l IH]; [by left|]. destruct (decide (P x)); [right; by exists [], x, l|].
  destruct IH as [IH|(l1 & y & l2 & -> & Hy & Hl)].
  - left. by constructor.
  - right. exists (x :: l1), y, l2. split_and!; [done..|by constructor].
Qed.

Lemma chosen_exists selection l :
  l <> [] -> selection = lit "auto" \/ selection ∈ phy <$> l -> exists p, chosen selection l p.
Proof.
  intros Hne Hs. destruct (decide (selection = lit "auto")) as [Ha|Ha].
  - destruct (first_split (λ c, ptp_source c = Native) l) as [Hn|(l1 & p & l2 & E & Hp & Hn)].
    + destruct l as [|p l]; [done|]. exists p, [], l. split; [done|]. right. right. by split_and!.
    + exists p, l1, l2. split; [done|]. right. left. by split_and!.
  - destruct Hs as [?|(c & -> & Hc)%list_elem_of_fmap]; [done|].
    destruct (first_split (λ c', phy c' = phy c) l) as [Hn|(l1 & p & l2 & E & Hp & Hn)].
    + rewrite Forall_forall in Hn. by destruct (Hn c Hc).
    + exists p, l1, l2. split; [done|]. left. by split_and!.
Qed.

Lemma select_primary_chosen selection l p :
  Forall (λ c, is_Some (ptp_clock c)) l -> chosen selection l p -> select_primary l selection = Ok p.
Proof.
  intros Hcl (l1 & l2 & -> & Hc). unfold select_primary.
  destruct Hc as [(Ha & Hp & Hl)|[(Ha & Hp & Hl)|(Ha & -> & Hl)]]; rewrite Forall_forall in Hl.
  - rewrite bool_decide_eq_false_2 by done. cbn [negb]. rewrite find_first.
    + rewrite Forall_forall in Hcl. destruct (Hcl p) as [d ->]; [apply elem_of_app; right; left|done].
    + by apply bool_decide_eq_true.
    + intros y Hy. by apply bool_decide_eq_false, Hl.
  - rewrite bool_decide_eq_true_2 by done. cbn [negb]. rewrite find_first; [done|by apply bool_decide_eq_true|].
    intros y Hy. by apply bool_decide_eq_false, Hl.
  - rewrite bool_decide_eq_true_2 by done. cbn [negb].
    rewrite (proj2 (find_none_iff is_native _)); [done|]. intros y Hy. by apply bool_decide_eq_false, Hl.
Qed.

Lemma render_section_of role server c p :
  ptp_clock c = Some p ->
  render_section (section_of role server c)
  = line [] ++ line (lit "# " ++ role ++ lit ": " ++ phy c ++ lit " (" ++ driver c ++ lit ")")
    ++ line (lit "[" ++ p ++ lit "]") ++ (if server then line (lit "serverOnly              1") else []).
Proof. intros Hp. unfold render_section, section_of. cbn [sec_comment sec_device sec_server]. by rewrite Hp. Qed.

Lemma secondary_sections_done primary cards config :
  Forall (λ c, is_Some (ptp_clock c)) cards ->
  secondary_sections primary cards config =
  Done (config ++ flat_map render_section (map (section_of (lit "Secondary") false)
    (List.filter (λ c, negb (bool_decide (phy c = phy primary))) cards))).
Proof.
  intros Hall. revert config. induction Hall as [|c cards [p Hp] _ IH]; intros config.
  { cbn. by rewrite app_nil_r. }
  cbn [secondary_sections List.filter]. case_bool_decide as E; cbn [negb]; [apply IH|].
  unfold clock_of. rewrite Hp. cbn [mbind outcome_bind]. rewrite IH. f_equal.
  cbn [map flat_map]. rewrite (render_section_of _ _ _ _ Hp), app_nil_r, <- !app_assoc. done.
Qed.

Lemma select_primary_in ptp_cards selection p : select_primary ptp_cards selection = Ok p -> p ∈ ptp_cards.
Proof.
  unfold select_primary. destruct (bool_decide (selection = lit "auto")); cbn [negb].
  - destruct (find is_native ptp_cards) as [c|] eqn:Ef.
    + intros [= ->]. apply find_some in Ef as [Ef _]. by apply list_elem_of_In.
    + destruct ptp_cards as [|c l]; [done|]. intros [= ->]. by left.
  - destruct (find (named selection) ptp_cards) as [c|] eqn:Ef; [|done].
    destruct (ptp_clock c); [|done]. intros [= ->].
    apply find_some in Ef as [Ef _]. by apply list_elem_of_In.
Qed.

Lemma has_clock_filter cards : Forall (λ c, is_Some (ptp_clock c)) (List.filter has_clock cards).
Proof.
  apply Forall_forall. intros c Hc. apply list_elem_of_In, List.filter_In in Hc as [_ Hc].
  by apply bool_decide_eq_true_1 in Hc.
Qed.

(** ** Properties *)


Definition demo_cards : list WifiCard :=
  [{| phy := lit "phy0"; driver := lit "mt76"; ptp_clock := Some (lit "/dev/ptp1"); ptp_source := TsfPtp;
      can_set_tsf := true |};
   {| phy := lit "phy1"; driver := lit "brcmfmac"; ptp_clock := None; ptp_source := NoPtp;
      can_set_tsf := false |};
   {| phy := lit "phy2"; driver := lit "iwlwifi"; ptp_clock := Some (lit "/dev/ptp0"); ptp_source := Native;
      can_set_tsf := true |}].

