(* ===== verification/ModuleLoader.v ===== *)
(** * Loading the kernel module (src/module_loader.rs)

    Whether a module is loaded, from the text of /proc/modules, and loading
    and unloading tsf_ptp with its parameters. *)

From S2P Require Import Prelude Ints Text Sys Os SyncMode.

(** ** Definitions *)

Inductive ModuleError :=
  | ProcModules (e : io_error)
  | Modprobe (msg : str)
  | Rmmod (msg : str)
  | Exec (e : io_error).

Definition MODULE_NAME : str := lit "tsf_ptp".

(** [replace('-', "_")] *)
Definition normalize (module : str) : str := map (λ c, if c =? 45 then 95 else c) module.

Definition is_module_loaded_from (proc_modules module : str) : bool :=
  existsb (λ line, match split_whitespace line with
                   | name :: _ => bool_decide (name = normalize module)
                   | [] => false
                   end) (lines proc_modules).

Section loader.
Context {W : Type} `{Os W}.

Definition is_module_loaded (module : str) (w : W) : result bool ModuleError :=
  match read_to_string w (lit "/proc/modules") with
  | Err e => Err (ProcModules e)
  | Ok text => Ok (is_module_loaded_from text module)
  end.

Definition is_tsf_ptp_loaded (w : W) : result bool ModuleError := is_module_loaded MODULE_NAME w.

(** A command that must succeed, its standard error being the message
    otherwise. *)
Definition checked_command (bin : str) (args : list str) (error : str -> ModuleError)
    : M W (result unit ModuleError) :=
  r ← act (command_output bin args);
  match r with
  | Err e => mret (Err (Exec e))
  | Ok output => if success output then mret (Ok tt) else mret (Err (error (stderr output)))
  end.

Definition load_module (module : str) (params : list str) : M W (result unit ModuleError) :=
  checked_command (lit "modprobe") (module :: params) Modprobe.
Definition insmod (path : str) (params : list str) : M W (result unit ModuleError) :=
  checked_command (lit "insmod") (path :: params) Modprobe.
Definition unload_module (module : str) : M W (result unit ModuleError) :=
  checked_command (lit "rmmod") [module] Rmmod.

(** The parameters' strings. *)
Definition module_params (adjtime_threshold_ns : Z) (sync_mode : SyncMode) (sync_primary : option str)
    (sync_interval_ms : option Z) : list str :=
  [lit "adjtime_threshold_ns=" ++ dec adjtime_threshold_ns;
   lit "sync_mode=" ++ dec (as_kernel_param sync_mode)]
  ++ (match sync_primary with
      | Some primary =>
          if negb (bool_decide (primary = [])) && negb (bool_decide (primary = lit "auto"))
          then [lit "sync_primary=" ++ primary] else []
      | None => []
      end)
  ++ (match sync_interval_ms with
      | Some interval => [lit "sync_interval_ms=" ++ dec interval]
      | None => []
      end).

Definition module_path : str := lit "kernel/tsf_ptp.ko".

Definition load_tsf_ptp (adjtime_threshold_ns : Z) (sync_mode : SyncMode) (sync_primary : option str)
    (sync_interval_ms : option Z) : M W (result unit ModuleError) :=
  loaded ←? gets is_tsf_ptp_loaded;
  if loaded : bool then mret (Ok tt)
  else
    let params := module_params adjtime_threshold_ns sync_mode sync_primary sync_interval_ms in
    r ← load_module MODULE_NAME params;
    match r with
    | Ok _ => mret (Ok tt)
    | Err _ =>
        there ← gets (λ w, path_exists w module_path);
        if there : bool then insmod module_path params
        else mret (Err (Modprobe (lit "tsf_ptp module not found via modprobe or at " ++ module_path)))
    end.

Definition unload_tsf_ptp : M W (result unit ModuleError) :=
  loaded ←? gets is_tsf_ptp_loaded;
  if negb (loaded : bool) then mret (Ok tt) else unload_module MODULE_NAME.
End loader.

Definition SAMPLE_PROC_MODULES : str :=
  lit "mac80211_hwsim 69632 0 - Live 0xffffffffa0200000" ++ [10]
  ++ lit "tsf_ptp 16384 0 - Live 0xffffffffa0100000" ++ [10]
  ++ lit "cfg80211 1130496 2 mac80211_hwsim,mac80211, Live 0xffffffff9fe00000" ++ [10].
Example module_loaded_tests :
  is_module_loaded_from SAMPLE_PROC_MODULES (lit "tsf-ptp") = true
  /\ is_module_loaded_from SAMPLE_PROC_MODULES (lit "tsf") = false
  /\ is_module_loaded_from [] (lit "tsf_ptp") = false.
Proof. done. Qed.

(** ** Facts *)

(** A token without white space, at the start of a line, is its first word. *)
Lemma split_ws_from_token tok s rest :
  Forall (λ c, is_whitespace c = false) s -> s ++ tok <> [] ->
  split_ws_from tok (s ++ 32 :: rest) = (reverse tok ++ s) :: split_ws_from [] rest.
Proof.
  revert tok. induction s as [|c s IH]; intros tok Hs Hne.
  - simpl in *. destruct tok as [|t tok]; [done|]. by rewrite app_nil_r.
  - apply Forall_cons_iff in Hs as [Hc Hs]. simpl. rewrite Hc.
    rewrite IH by (done || (destruct s; done)). by rewrite reverse_cons, <- app_assoc.
Qed.

Lemma lines_from_app cur l rest :
  Forall (λ c, c <> 10) l -> lines_from cur (l ++ 10 :: rest) = reverse (chop_cr (reverse l ++ cur)) :: lines_from [] rest.
Proof.
  revert cur. induction l as [|c l IH]; intros cur Hl; [done|].
  apply Forall_cons_iff in Hl as [Hc Hl]. simpl. rewrite (proj2 (Z.eqb_neq c 10)) by done.
  rewrite IH by done. by rewrite reverse_cons, <- app_assoc.
Qed.

Lemma chop_cr_other c l : c <> 13 -> chop_cr (c :: l) = c :: l.
Proof. intros Hc. destruct c as [|p|p]; try done. do 4 (destruct p as [p|p|]; try done). Qed.

(** A line of /proc/modules: the name, a blank, and the rest of the line. *)
Record module_line := { ml_name : str; ml_rest : str }.
Definition module_line_wf (m : module_line) : Prop :=
  ml_name m <> [] /\ Forall (λ c, is_whitespace c = false) (ml_name m)
  /\ Forall (λ c, c <> 10 /\ c <> 13) (ml_rest m).
Definition module_line_text (m : module_line) : str := ml_name m ++ 32 :: ml_rest m ++ [10].

Lemma is_module_loaded_from_lines ms module :
  Forall module_line_wf ms ->
  is_module_loaded_from (flat_map module_line_text ms) module
  = existsb (λ m, bool_decide (ml_name m = normalize module)) ms.
Proof.
  unfold is_module_loaded_from, lines. induction 1 as [|m ms (Hne & Hws & Hrest) _ IH]; [done|].
  cbn [flat_map]. unfold module_line_text at 1.
  replace ((ml_name m ++ 32 :: ml_rest m ++ [10]) ++ flat_map module_line_text ms)
    with ((ml_name m ++ 32 :: ml_rest m) ++ 10 :: flat_map module_line_text ms)
    by (rewrite <- !app_assoc; simpl; by rewrite <- app_assoc).
  rewrite lines_from_app; cycle 1.
  { apply Forall_app. split.
    - eapply Forall_impl; [exact Hws|]. intros c Hc ->. done.
    - constructor; [done|]. eapply Forall_impl; [exact Hrest|]. naive_solver. }
  cbn [existsb]. rewrite IH. f_equal. rewrite app_nil_r.
  assert (chop_cr (reverse (ml_name m ++ 32 :: ml_rest m)) = reverse (ml_name m ++ 32 :: ml_rest m)) as ->.
  { rewrite reverse_app, reverse_cons, <- app_assoc. simpl.
    destruct (reverse (ml_rest m)) as [|c l] eqn:E; [done|].
    assert (c <> 13) as Hc.
    { rewrite Forall_forall in Hrest. apply Hrest. apply elem_of_reverse. rewrite E. by left. }
    by apply chop_cr_other. }
  rewrite reverse_involutive. unfold split_whitespace.
  rewrite split_ws_from_token by (done || by rewrite app_nil_r). done.
Qed.

(** ** Properties *)

(** A module is reported loaded exactly when some line of /proc/modules
    has its name, hyphens read as underscores, as its whole first word; a
    prefix, or a mention among another module's dependencies, does not count. *)
Theorem is_module_loaded_spec (ms : list module_line) (module : str) :
  Forall module_line_wf ms ->
  is_module_loaded_from (flat_map module_line_text ms) module = true
  <-> normalize module ∈ ml_name <$> ms.
Proof.
  intros Hms. rewrite is_module_loaded_from_lines by done. rewrite existsb_exists, list_elem_of_fmap.
  split.
  - intros (m & Hm & E). apply bool_decide_eq_true_1 in E. exists m. split; [done|]. by apply list_elem_of_In.
  - intros (m & E & Hm). exists m. split; [by apply list_elem_of_In|by apply bool_decide_eq_true_2].
Qed.

Definition two_modules : list module_line :=
  [{| ml_name := lit "mac80211"; ml_rest := lit "1036288 2 mac80211_hwsim,tsf_ptp, Live 0x0" |};
   {| ml_name := lit "tsf_ptp"; ml_rest := lit "16384 0 - Live 0x0" |}].

Lemma is_module_loaded_spec_witness :
  is_module_loaded_from (flat_map module_line_text two_modules) (lit "tsf-ptp") = true.
Proof.
  apply is_module_loaded_spec.
  - repeat (constructor; [split; [discriminate|]; split; apply (bool_decide_unpack _); reflexivity|]). constructor.
  - apply (bool_decide_unpack _). reflexivity.
Defined.

Section loader_properties.
Context {W : Type} `{HOs : Os W}.

(** Loading does nothing, and in particular does not set the parameters,
    when the module is already there; otherwise modprobe is tried with all the
    parameters, then, if that fails for any reason, insmod with the same ones
    when the built module exists. *)
Theorem load_tsf_ptp_trace (w : W) (threshold : Z) (mode : SyncMode) (primary : option str)
    (interval : option Z) (text : str) :
  read_to_string w (lit "/proc/modules") = Ok text ->
  let params := module_params threshold mode primary interval in
  (is_module_loaded_from text MODULE_NAME = true ->
     load_tsf_ptp threshold mode primary interval w = (Done (Ok tt), w))
  /\ (is_module_loaded_from text MODULE_NAME = false ->
     forall r w1, command_output (lit "modprobe") (MODULE_NAME :: params) w = (r, w1) ->
     (forall o, r = Ok o -> success o = true ->
        load_tsf_ptp threshold mode primary interval w = (Done (Ok tt), w1))
     /\ ((forall o, r = Ok o -> success o = false) -> path_exists w1 module_path = false ->
         exists msg, load_tsf_ptp threshold mode primary interval w = (Done (Err (Modprobe msg)), w1))
     /\ ((forall o, r = Ok o -> success o = false) -> path_exists w1 module_path = true ->
         load_tsf_ptp threshold mode primary interval w = insmod module_path params w1)).
Proof.
  intros Ht params. unfold load_tsf_ptp, is_tsf_ptp_loaded, is_module_loaded, load_module, checked_command.
  m_unfold. rewrite Ht. split; [intros ->; done|]. intros ->. intros r w1 Hc.
  fold params. rewrite Hc. split_and!.
  - intros o -> Hs. by rewrite Hs.
  - intros Hf Hp. destruct r as [o|e]; [rewrite (Hf o) by done|]; cbv beta iota; rewrite Hp; by eexists.
  - intros Hf Hp. destruct r as [o|e]; [rewrite (Hf o) by done|]; cbv beta iota; by rewrite Hp.
Qed.
End loader_properties.

Definition modules_box (outs : list Outcome) : Box :=
  {| dirs := []; links := []; files := [(lit "/proc/modules", lit "cfg80211 1 0 - Live 0x0" ++ [10])];
     outcomes := outs; calls := []; children := []; newborn := []; slept_ms := 0; flags := [] |}.

Lemma load_tsf_ptp_trace_witness :
  exists w', load_tsf_ptp 5000 Kernel (Some (lit "phy0")) (Some 10)
               (modules_box [answers (Ok {| success := true; stdout := []; stderr := [] |})]) = (Done (Ok tt), w')
    /\ calls w' = [(lit "modprobe", [lit "tsf_ptp"; lit "adjtime_threshold_ns=5000"; lit "sync_mode=1";
                                     lit "sync_primary=phy0"; lit "sync_interval_ms=10"])].
Proof.
  set (o := {| success := true; stdout := []; stderr := [] |}).
  destruct (load_tsf_ptp_trace (modules_box [answers (Ok o)]) 5000 Kernel (Some (lit "phy0")) (Some 10)
              (lit "cfg80211 1 0 - Live 0x0" ++ [10])) as [_ H]; [reflexivity|].
  destruct (command_output (lit "modprobe") (MODULE_NAME :: module_params 5000 Kernel (Some (lit "phy0")) (Some 10))
              (modules_box [answers (Ok o)])) as [r w1] eqn:E.
  destruct (H eq_refl r w1 eq_refl) as [H1 _]. exists w1.
  split.
  - apply (H1 o); [|reflexivity]. vm_compute in E. injection E as <- _. reflexivity.
  - vm_compute in E. injection E as _ <-. reflexivity.
Defined.
