(* ===== verification/Health.v ===== *)
(** * Health of the synchronisation (src/health.rs)

    The states reported by pmc and by the kernel module, parsed from text, and
    the table that shows them. *)

From S2P Require Import Prelude Ints Text Sys Os Discovery.

(** ** Definitions *)

Inductive HealthError :=
  | PmcExec (e : io_error)
  | PmcNotFound
  | Parse (msg : str).

Inductive HealthState := Converging | Healthy | Degraded | Failed | Removed.

#[export] Instance HealthState_eq_dec : EqDecision HealthState.
Proof. solve_decision. Defined.

Definition health_fmt (h : HealthState) : str :=
  match h with
  | Converging => lit "CONVERGING" | Healthy => lit "HEALTHY" | Degraded => lit "DEGRADED"
  | Failed => lit "FAILED" | Removed => lit "REMOVED"
  end.

Record ClockStatus := {
  port : str;
  port_state : str;
  offset_ns : option Z;
  path_delay_ns : option Z;
  health : HealthState;
}.

Definition HEALTHY_THRESHOLD_NS : Z := 1000000.

(** The match on the port's state. *)
Definition health_of (state : str) : HealthState :=
  if bool_decide (state = lit "MASTER") || bool_decide (state = lit "SLAVE") then Healthy
  else if bool_decide (state = lit "LISTENING") || bool_decide (state = lit "UNCALIBRATED")
          || bool_decide (state = lit "PRE_MASTER") then Converging
  else if bool_decide (state = lit "FAULTY") || bool_decide (state = lit "DISABLED") then Failed
  else Converging.

(** The body of the loop over the lines. *)
Definition parse_line (acc : (option str * option str) * list ClockStatus) (line : str)
    : (option str * option str) * list ClockStatus :=
  let '((current_port, current_state), statuses) := acc in
  let line := trim line in
  let '(current_port, current_state) :=
    if starts_with line (lit "portIdentity") then (last (split_whitespace line), current_state)
    else if starts_with line (lit "portState") then (current_port, last (split_whitespace line))
    else (current_port, current_state) in
  match current_port, current_state with
  | Some p, Some s =>
      ((None, None), statuses ++ [{| port := p; port_state := s; offset_ns := None; path_delay_ns := None;
                                     health := health_of s |}])
  | _, _ => ((current_port, current_state), statuses)
  end.

Definition parse_port_data_set (output : str) : result (list ClockStatus) HealthError :=
  Ok (foldl parse_line ((None, None), []) (lines output)).2.

Section health.
Context {W : Type} `{Os W}.

Definition query_health (uds_path : str) : M W (result (list ClockStatus) HealthError) :=
  r ← act (command_output (lit "pmc")
             [lit "-u"; lit "-b"; lit "0"; lit "-s"; uds_path; lit "GET"; lit "PORT_DATA_SET"]);
  match r with
  | Err e => mret (Err (if not_found e then PmcNotFound else PmcExec e))
  | Ok output => mret (parse_port_data_set (stdout output))
  end.

Record KernelSyncStatus := {
  sync_count : Z;
  sync_error_count : Z;
  adjtime_skip_count : Z;
  adjtime_apply_count : Z;
}.

Definition parameter_path (name : str) : str := lit "/sys/module/tsf_ptp/parameters/" ++ name.

Definition read_param (w : W) (name : str) : result Z HealthError :=
  match read_to_string w (parameter_path name) with
  | Err e => Err (PmcExec e)
  | Ok s => match i64_from_str (trim s) with
            | Ok v => Ok v
            | Err e => Err (Parse (name ++ lit ": " ++ parse_int_error_text e))
            end
  end.

Definition query_kernel_sync_health (w : W) : result KernelSyncStatus HealthError :=
  match read_param w (lit "sync_count") with
  | Err e => Err e
  | Ok sync_count =>
      match read_param w (lit "sync_error_count") with
      | Err e => Err e
      | Ok sync_error_count =>
          match read_param w (lit "adjtime_skip_count") with
          | Err e => Err e
          | Ok skip =>
              match read_param w (lit "adjtime_apply_count") with
              | Err e => Err e
              | Ok apply => Ok {| sync_count := sync_count; sync_error_count := sync_error_count;
                                  adjtime_skip_count := skip; adjtime_apply_count := apply |}
              end
          end
      end
  end.
End health.

(** [i64::abs] overflows on the least value. *)
Definition classify_offset `{Build} (offset_ns : Z) : outcome HealthState :=
  a ← i64_op overflow_checks (Z.abs offset_ns);
  Done (if a <? HEALTHY_THRESHOLD_NS then Healthy else Converging).

(** A row of the table, its third column as the formatter leaves it: a string
    is padded to 12, but the [Display] of a [HealthState] writes with [write!],
    which takes no notice of the width. *)
Definition status_row (a b c d e : str) : str :=
  pad_right 20 a ++ [32] ++ pad_right 14 b ++ [32] ++ c ++ [32] ++ pad_right 14 d ++ [32] ++ e ++ [10].
Definition ns_text (v : option Z) : str :=
  match v with Some v => dec_signed v ++ lit " ns" | None => dash end.

Definition format_status_table (statuses : list ClockStatus) : str :=
  status_row (lit "PORT") (lit "STATE") (pad_right 12 (lit "HEALTH")) (lit "OFFSET") (lit "PATH DELAY")
  ++ flat_map (λ s, status_row (port s) (port_state s) (health_fmt (health s)) (ns_text (offset_ns s))
                      (ns_text (path_delay_ns s))) statuses.

(** ** Facts *)

(** A report of pmc: per port, lines that say nothing of identity or state,
    the identity, more such lines, and the state. *)
Record port_report := { pr_before : list str; pr_port : str; pr_between : list str; pr_state : str }.

Definition word (s : str) : Prop := s <> [] /\ Forall (λ c, is_whitespace c = false) s.
Definition silent_line (l : str) : Prop :=
  Forall (λ c, c <> 10 /\ c <> 13) l
  /\ starts_with (trim l) (lit "portIdentity") = false /\ starts_with (trim l) (lit "portState") = false.
Definition port_report_wf (r : port_report) : Prop :=
  Forall silent_line (pr_before r) /\ Forall silent_line (pr_between r) /\ word (pr_port r) /\ word (pr_state r).

Definition identity_line (p : str) : str := lit "    portIdentity            " ++ p.
Definition state_line (s : str) : str := lit "    portState               " ++ s.
Definition report_lines (r : port_report) : list str :=
  pr_before r ++ [identity_line (pr_port r)] ++ pr_between r ++ [state_line (pr_state r)].
Definition report_text (rs : list port_report) : str :=
  flat_map (λ l, l ++ [10]) (flat_map report_lines rs).
Definition status_of (p s : str) : ClockStatus :=
  {| port := p; port_state := s; offset_ns := None; path_delay_ns := None; health := health_of s |}.

Lemma split_ws_from_word tok s :
  Forall (λ c, is_whitespace c = false) s -> reverse tok ++ s <> [] ->
  split_ws_from tok s = [reverse tok ++ s].
Proof.
  revert tok. induction s as [|c s IH]; intros tok Hs Hne; simpl.
  - rewrite app_nil_r in *. destruct tok as [|t tok]; [done|done].
  - apply Forall_cons_iff in Hs as [Hc Hs]. rewrite Hc.
    rewrite IH; [by rewrite reverse_cons, <- app_assoc|done|].
    rewrite reverse_cons, <- app_assoc. by destruct (reverse tok).
Qed.

Lemma trim_end_word k p : word p -> trim_end (k ++ p) = k ++ p.
Proof.
  intros [Hne Hp]. unfold trim_end. destruct p as [|c p _] using rev_ind; [done|].
  apply Forall_app in Hp as [_ Hc]. apply Forall_cons_iff in Hc as [Hc _].
  rewrite app_assoc, reverse_snoc, trim_start_non_ws by done.
  by rewrite reverse_cons, reverse_involutive.
Qed.

Lemma last_word k p : word p -> split_ws_from [] p = [p] /\ last (k :: split_ws_from [] p) = Some p.
Proof. intros [Hne Hp]. by rewrite split_ws_from_word. Qed.

Lemma parse_identity_line st sts p :
  word p -> parse_line ((None, st), sts) (identity_line p)
  = match st with Some s => ((None, None), sts ++ [status_of p s]) | None => ((Some p, None), sts) end.
Proof.
  intros Hp. unfold parse_line.
  assert (trim (identity_line p) = lit "portIdentity            " ++ p) as ->
    by (unfold trim; change (trim_start (identity_line p)) with (lit "portIdentity            " ++ p);
        by apply trim_end_word).
  change (starts_with (lit "portIdentity            " ++ p) (lit "portIdentity"))
    with (starts_with (lit "portIdentity" ++ lit "            " ++ p) (lit "portIdentity")).
  rewrite starts_with_app.
  change (split_whitespace (lit "portIdentity            " ++ p)) with (lit "portIdentity" :: split_ws_from [] p).
  destruct (last_word (lit "portIdentity") p Hp) as [_ ->]. by destruct st.
Qed.

Lemma parse_state_line pt sts s :
  word s -> parse_line ((pt, None), sts) (state_line s)
  = match pt with Some p => ((None, None), sts ++ [status_of p s]) | None => ((None, Some s), sts) end.
Proof.
  intros Hs. unfold parse_line.
  assert (trim (state_line s) = lit "portState               " ++ s) as ->
    by (unfold trim; change (trim_start (state_line s)) with (lit "portState               " ++ s);
        by apply trim_end_word).
  change (starts_with (lit "portState               " ++ s) (lit "portIdentity")) with false.
  change (starts_with (lit "portState               " ++ s) (lit "portState"))
    with (starts_with (lit "portState" ++ lit "               " ++ s) (lit "portState")).
  rewrite starts_with_app.
  change (split_whitespace (lit "portState               " ++ s)) with (lit "portState" :: split_ws_from [] s).
  destruct (last_word (lit "portState") s Hs) as [_ ->]. by destruct pt.
Qed.

Lemma parse_silent_lines pt st sts ls :
  pt = None \/ st = None -> Forall silent_line ls ->
  foldl parse_line ((pt, st), sts) ls = ((pt, st), sts).
Proof.
  intros Hn. induction 1 as [|l ls (_ & H1 & H2) _ IH]; [done|]. cbn [foldl].
  assert (parse_line ((pt, st), sts) l = ((pt, st), sts)) as ->; [|done].
  unfold parse_line. rewrite H1, H2. destruct Hn as [-> | ->]; [done|by destruct pt].
Qed.

Lemma lines_of_text ls :
  Forall (Forall (λ c, c <> 10 /\ c <> 13)) ls -> lines (flat_map (λ l, l ++ [10]) ls) = ls.
Proof.
  unfold lines. induction 1 as [|l ls Hl _ IH]; [done|]. cbn [flat_map].
  assert (forall cur rest, lines_from cur ((l ++ [10]) ++ rest)
            = reverse (chop_cr (reverse l ++ cur)) :: lines_from [] rest) as Happ.
  { clear IH. induction Hl as [|c l [Hc _] _ IH]; intros cur rest; [done|].
    simpl. rewrite (proj2 (Z.eqb_neq c 10)) by done. rewrite IH. by rewrite reverse_cons, <- app_assoc. }
  rewrite Happ, IH, app_nil_r. f_equal.
  destruct (reverse l) as [|c l'] eqn:E; [by rewrite <- (reverse_involutive l), E|].
  assert (c <> 13) as Hc.
  { rewrite Forall_forall in Hl. apply (Hl c), elem_of_reverse. rewrite E. by left. }
  replace (chop_cr (c :: l')) with (c :: l'); [by rewrite <- E, reverse_involutive|].
  destruct c as [|q|q]; try done. do 4 (destruct q as [q|q|]; try done).
Qed.

Lemma word_no_newline s : word s -> Forall (λ c, c <> 10 /\ c <> 13) s.
Proof.
  intros [_ Hs]. eapply Forall_impl; [exact Hs|]. intros c Hc. split; intros ->; done.
Qed.

(** ** Properties *)

(** C34: from any report of the form pmc writes, whatever other lines it holds,
    one status per port is read, in order, with the port's own identity and
    state; its health depends on the state alone, since no offset is ever
    read. *)
Theorem parse_port_data_set_reports (rs : list port_report) :
  Forall port_report_wf rs ->
  parse_port_data_set (report_text rs) = Ok (map (λ r, status_of (pr_port r) (pr_state r)) rs).
Proof.
  intros Hrs. unfold parse_port_data_set, report_text. rewrite lines_of_text; cycle 1.
  { induction Hrs as [|r rs (Hb & Hm & Hp & Hs) _ IH]; [constructor|]. cbn [flat_map].
    apply Forall_app. split; [|done]. unfold report_lines.
    rewrite !Forall_app. split_and!.
    - eapply Forall_impl; [exact Hb|]. by intros l [? _].
    - constructor; [|constructor]. unfold identity_line. apply Forall_app. split; [|by apply word_no_newline].
      apply (bool_decide_unpack _). reflexivity.
    - eapply Forall_impl; [exact Hm|]. by intros l [? _].
    - constructor; [|constructor]. unfold state_line. apply Forall_app. split; [|by apply word_no_newline].
      apply (bool_decide_unpack _). reflexivity. }
  assert (forall sts, foldl parse_line ((None, None), sts) (flat_map report_lines rs)
    = ((None, None), sts ++ map (λ r, status_of (pr_port r) (pr_state r)) rs)) as H; [|by rewrite H].
  induction Hrs as [|r rs (Hb & Hm & Hp & Hs) _ IH]; intros sts; [by rewrite app_nil_r|].
  cbn [flat_map map]. unfold report_lines. rewrite !foldl_app.
  rewrite parse_silent_lines by (by left || done). cbn [foldl]. rewrite parse_identity_line by done.
  rewrite parse_silent_lines by (by right || done). rewrite parse_state_line by done.
  rewrite IH, <- app_assoc. done.
Qed.

Lemma parse_port_data_set_reports_witness :
  parse_port_data_set (report_text
    [{| pr_before := [lit "sending: GET PORT_DATA_SET"]; pr_port := lit "001122.fffe.334455-1";
        pr_between := []; pr_state := lit "SLAVE" |};
     {| pr_before := [lit "    logMinDelayReqInterval  0"]; pr_port := lit "001122.fffe.334455-2";
        pr_between := [lit "    versionNumber 2"]; pr_state := lit "FAULTY" |}])
  = Ok [status_of (lit "001122.fffe.334455-1") (lit "SLAVE"); status_of (lit "001122.fffe.334455-2") (lit "FAULTY")].
Proof.
  rewrite parse_port_data_set_reports; [reflexivity|].
  repeat (constructor; [unfold port_report_wf, word, silent_line; split_and!;
    first [discriminate|apply (bool_decide_unpack _); vm_compute; reflexivity]|]). constructor.
Defined.

(** An offset is healthy exactly when it is within a millisecond; the
    least [i64], whose absolute value does not exist, panics in a debug build
    and is called healthy in a release build. *)
Theorem classify_offset_spec `{Build} (offset_ns : Z) :
  in_i64 offset_ns ->
  (offset_ns <> -9223372036854775808 ->
     classify_offset offset_ns = Done (if decide (-1000000 < offset_ns < 1000000) then Healthy else Converging))
  /\ (offset_ns = -9223372036854775808 ->
     classify_offset offset_ns = if overflow_checks then Panic else Done Healthy).
Proof.
  intros Hi. unfold classify_offset, HEALTHY_THRESHOLD_NS. split.
  - intros Hne. rewrite i64_op_in by (int_unfold; lia). cbn [mbind outcome_bind].
    case_decide; zbool; done || lia.
  - intros ->. by destruct overflow_checks.
Qed.

Lemma classify_offset_spec_witness :
  @classify_offset release_x86 (-9223372036854775808) = Done Healthy
  /\ @classify_offset release_x86 (-1000001) = Done Converging.
Proof.
  split.
  - apply (@classify_offset_spec release_x86 (-9223372036854775808)); [unfold in_i64; lia|reflexivity].
  - apply (@classify_offset_spec release_x86 (-1000001)); [unfold in_i64; lia|lia].
Defined.
