(* ===== verification/Ptp4l.v ===== *)
(** * The synchronisation processes (src/ptp4l.rs)

    Starting phc2sys and ptp4l, watching them and stopping them: first with
    SIGTERM and patience, then with SIGKILL.  The threads that forward their
    output to the log are left out. *)

From stdpp Require Import sets.
From S2P Require Import Prelude Ints Text Sys Os.

(** ** Definitions *)

(** [Exited] is never built by the program. *)
Inductive SyncError :=
  | Start (name : str) (source : io_error)
  | BinNotFound (bin : str)
  | Exited (name : str) (code : Z)
  | Stop (name : str) (reason : io_error).

Record SyncProcess := { child : ChildHandle; name : str }.

(** How often, and how far apart, a process is polled after SIGTERM. *)
Definition polls : nat := 50.
Definition poll_ms : Z := 100.

Section processes.
Context {W : Type} `{Os W}.

Definition spawn (bin : str) (args : list str) (name : str) : M W (result SyncProcess SyncError) :=
  r ← act (spawn_child bin args);
  match r with
  | Ok pid => mret (Ok {| child := {| child_id := pid; child_status := None |}; name := name |})
  | Err e => mret (Err (if not_found e then BinNotFound bin else Start name e))
  end.

Definition is_running (self : SyncProcess) : M W (bool * SyncProcess) :=
  '(r, c) ← child_try_wait (child self);
  mret (match r with Ok None => true | _ => false end, {| child := c; name := name self |}).

(** The loop of [stop]: [true] when the process was seen to have ended. *)
Fixpoint await_end (n : nat) (c : ChildHandle) : M W (bool * ChildHandle) :=
  match n with
  | O => mret (false, c)
  | S n =>
      '(r, c) ← child_try_wait c;
      match r with
      | Ok (Some _) => mret (true, c)
      | _ => _ ← act (λ w, (tt, sleep_ms poll_ms w)); await_end n c
      end
  end.

Definition stop (self : SyncProcess) : M W (result unit SyncError * SyncProcess) :=
  let pid := child_id (child self) in
  _ ← act (λ w, (tt, sigterm pid w));
  '(ended, c) ← await_end polls (child self);
  let self := {| child := c; name := name self |} in
  if ended : bool then mret (Ok tt, self)
  else
    r ← child_kill c;
    match r with
    | Err e => mret (Err (Stop (name self) e), self)
    | Ok _ =>
        '(r, c) ← child_wait c;
        match r with
        | Err e => mret (Err (Stop (name self) e), {| child := c; name := name self |})
        | Ok _ => mret (Ok tt, {| child := c; name := name self |})
        end
    end.

(** [Drop for SyncProcess] *)
Definition drop_process (self : SyncProcess) : M W unit :=
  '(running, self) ← is_running self;
  if running : bool then _ ← stop self; mret tt else mret tt.

(** Dropping a vector drops its elements in order. *)
Fixpoint drop_all (ps : list SyncProcess) : M W unit :=
  match ps with
  | [] => mret tt
  | p :: ps => _ ← drop_process p; drop_all ps
  end.

Definition phc2sys_args (primary_clock secondary_clock : str) : list str :=
  [lit "-s"; primary_clock; lit "-c"; secondary_clock; lit "-R"; lit "10"; lit "-O"; lit "0"; lit "-m"].

Definition phc2sys_name (primary_clock secondary_clock : str) : str :=
  lit "phc2sys[" ++ primary_clock ++ [8594] ++ secondary_clock ++ lit "]".

Definition start_phc2sys (primary_clock secondary_clock phc2sys_bin : str)
    : M W (result SyncProcess SyncError) :=
  spawn phc2sys_bin (phc2sys_args primary_clock secondary_clock) (phc2sys_name primary_clock secondary_clock).

Definition start_ptp4l (config_path ptp4l_bin : str) : M W (result SyncProcess SyncError) :=
  spawn ptp4l_bin [lit "-f"; config_path; lit "-m"] (lit "ptp4l").
End processes.

Definition phc2sys_bin_from (linuxptp_bin : str) : str :=
  match parent linuxptp_bin with
  | Some dir => if bool_decide (dir = []) then lit "phc2sys" else join dir (lit "phc2sys")
  | None => lit "phc2sys"
  end.

Example phc2sys_bin_tests :
  phc2sys_bin_from (lit "/nix/store/abc-linuxptp-4.4/bin/ptp4l") = lit "/nix/store/abc-linuxptp-4.4/bin/phc2sys"
  /\ phc2sys_bin_from (lit "ptp4l") = lit "phc2sys" /\ phc2sys_bin_from (lit "/ptp4l") = lit "/phc2sys"
  /\ phc2sys_bin_from (lit "/") = lit "phc2sys".
Proof. done. Qed.

(** ** Facts: a process on the simulated machine *)

(** The machine with one child replaced and more time slept. *)
Definition after (w : Box) (pid : nat) (c : Child) (ms : Z) : Box :=
  {| dirs := dirs w; links := links w; files := files w; outcomes := outcomes w; calls := calls w;
     children := <[pid := c]> (children w); newborn := newborn w; slept_ms := slept_ms w + ms;
     flags := flags w |}.

Lemma after_after w pid c c' ms ms' : after (after w pid c ms) pid c' ms' = after w pid c' (ms + ms').
Proof. unfold after. simpl. rewrite list_insert_insert_eq. f_equal. lia. Qed.
Lemma after_child w pid c ms : (pid < length (children w))%nat -> children (after w pid c ms) !! pid = Some c.
Proof. intros Hp. simpl. by apply list_lookup_insert_eq. Qed.
Lemma length_after w pid c ms : length (children (after w pid c ms)) = length (children w).
Proof. apply length_insert. Qed.

Definition unreaped (pid : nat) : ChildHandle := {| child_id := Z.of_nat pid; child_status := None |}.
Definition dying (k : option nat) : Child := {| alive := true; termed := true; lingers := k |}.
Definition dead (k : option nat) : Child := {| alive := false; termed := true; lingers := k |}.

Lemma on_child_after {A} w pid c ms (d : A) f :
  (pid < length (children w))%nat ->
  on_child (Z.of_nat pid) d f (after w pid c ms) = ((f c).1, after w pid (f c).2 ms).
Proof.
  intros Hp. unfold on_child. rewrite Nat2Z.id, after_child by done.
  destruct (f c) as [a c']. unfold with_children, after. simpl. by rewrite list_insert_insert_eq.
Qed.

(** The polls of a child that has been told to end. *)
Lemma await_end_dying w pid n k ms :
  (pid < length (children w))%nat ->
  await_end n (unreaped pid) (after w pid (dying k) ms) =
  match k with
  | Some k => if (k <? n)%nat
              then (Done (true, {| child_id := Z.of_nat pid; child_status := Some 0 |}),
                    after w pid (dead (Some O)) (ms + 100 * Z.of_nat k))
              else (Done (false, unreaped pid), after w pid (dying (Some (k - n)%nat)) (ms + 100 * Z.of_nat n))
  | None => (Done (false, unreaped pid), after w pid (dying None) (ms + 100 * Z.of_nat n))
  end.
Proof.
  intros Hp. revert k ms. induction n as [|n IH]; intros k ms.
  { destruct k as [k|]; cbn [Nat.ltb Nat.leb]; unfold mret, M_ret; cbn [await_end];
      rewrite Z.mul_0_r, Z.add_0_r, ?Nat.sub_0_r; done. }
  cbn [await_end]. unfold child_try_wait. cbn [child_status unreaped child_id].
  cbn [try_wait box_os]. unfold mbind, M_bind, act. rewrite on_child_after by done.
  assert (forall c, sleep_ms poll_ms (after w pid c ms) = after w pid c (ms + 100)) as Hsleep.
  { intros c. unfold poll_ms, after. simpl. f_equal. lia. }
  destruct k as [[|k]|]; cbn [dying poll alive termed lingers negb fst snd].
  - cbn [mret M_ret]. unfold mret, M_ret. rewrite Z.mul_0_r, Z.add_0_r. done.
  - unfold mret, M_ret. cbv beta iota. rewrite Hsleep. fold (dying (Some k)). fold (unreaped pid).
    rewrite IH. change (S k <? S n)%nat with (k <? n)%nat. cbn [Nat.sub].
    destruct (k <? n)%nat; do 2 f_equal; lia.
  - unfold mret, M_ret. cbv beta iota. rewrite Hsleep. fold (dying None). fold (unreaped pid).
    rewrite IH. do 2 f_equal; lia.
Qed.

Definition poll_rounds (k : option nat) : nat := match k with Some k => Nat.min k polls | None => polls end.

(** Stopping a running child. *)
Lemma stop_running w pid c nm :
  children w !! pid = Some c -> alive c = true ->
  exists st k, stop {| child := unreaped pid; name := nm |} w =
    (Done (Ok tt, {| child := {| child_id := Z.of_nat pid; child_status := Some st |}; name := nm |}),
     after w pid (dead k) (100 * Z.of_nat (poll_rounds (lingers c)))).
Proof.
  intros Hc Ha. assert (pid < length (children w))%nat as Hp by by eapply lookup_lt_Some.
  unfold stop. cbn [child name child_id unreaped].
  assert (sigterm (Z.of_nat pid) w = after w pid (dying (lingers c)) 0) as Hterm.
  { cbn [sigterm box_os]. unfold on_child. rewrite Nat2Z.id, Hc. unfold with_children, after, dying. simpl.
    rewrite Ha. f_equal. lia. }
  unfold mbind, M_bind, act. rewrite Hterm. fold (unreaped pid).
  rewrite await_end_dying by done. unfold poll_rounds.
  assert (forall k ms, exists st, (let 'x := child_kill (unreaped pid) (after w pid (dying k) ms) in
     x = (Done (Ok tt), after w pid (dead k) ms))
     /\ child_wait (unreaped pid) (after w pid (dead k) ms)
        = (Done (Ok st, {| child_id := Z.of_nat pid; child_status := Some st |}), after w pid (dead k) ms)) as Hkill.
  { intros k ms. exists 9. unfold child_kill, child_wait. cbn [child_status unreaped child_id].
    unfold mbind, M_bind, act. cbn [sigkill wait_child box_os]. rewrite !on_child_after by done. done. }
  destruct (lingers c) as [k|].
  - destruct (Nat.ltb_spec k polls) as [Hk|Hk].
    + exists 0, (Some O). unfold mret, M_ret. rewrite Nat.min_l by lia. done.
    + destruct (Hkill (Some (k - polls)%nat) (0 + 100 * Z.of_nat polls)) as (st & Hk1 & Hk2).
      cbv zeta in Hk1. exists st, (Some (k - polls)%nat). cbv beta iota.
      rewrite Hk1. cbv beta iota. rewrite Hk2. unfold mret, M_ret. rewrite Nat.min_r by lia. done.
  - destruct (Hkill None (0 + 100 * Z.of_nat polls)) as (st & Hk1 & Hk2).
    cbv zeta in Hk1. exists st, None. cbv beta iota. rewrite Hk1. cbv beta iota. rewrite Hk2. done.
Qed.

(** ** Facts: the processes a program holds handles of *)

Definition ended (w : Box) (pid : nat) : Prop := exists c, children w !! pid = Some c /\ alive c = false.

(** [p] is a handle of child [pid]: not yet waited for, or that of an ended
    process. *)
Definition owns (w : Box) (p : SyncProcess) (pid : nat) : Prop :=
  child_id (child p) = Z.of_nat pid
  /\ exists c, children w !! pid = Some c /\ (child_status (child p) = None \/ alive c = false).

(** A command that is run to its end, not a child that is kept. *)
Definition tool (c : str * list str) : Prop := c.1 ∈ [lit "modprobe"; lit "insmod"; lit "rmmod"; lit "pmc"].

(** Between [w] and [w'] time may have passed, tools been run, which may have
    changed files, and the children [pids] changed; the dead stay dead, and no
    child was started. *)
Definition tends (pids : list nat) (w w' : Box) : Prop :=
  (newborn w' = newborn w /\ flags w' = flags w)
  /\ (exists cs, calls w' = calls w ++ cs /\ Forall tool cs)
  /\ length (children w') = length (children w)
  /\ (forall i, i ∉ pids -> children w' !! i = children w !! i)
  /\ (forall i, ended w i -> ended w' i).

Lemma tends_refl pids w : tends pids w w.
Proof. split; [split_and!; done || lia|]. split; [exists []; by rewrite app_nil_r|done]. Qed.
Lemma tends_trans pids w1 w2 w3 : tends pids w1 w2 -> tends pids w2 w3 -> tends pids w1 w3.
Proof.
  intros (E1 & (cs1 & C1 & F1) & L1 & O1 & D1) (E2 & (cs2 & C2 & F2) & L2 & O2 & D2).
  destruct E1 as [? ?], E2 as [? ?]. split; [split; congruence|]. split.
  { exists (cs1 ++ cs2). rewrite C2, C1, app_assoc. split; [done|]. by apply Forall_app. }
  split; [congruence|]. split; [|auto]. intros i Hi. by rewrite O2, O1.
Qed.
Lemma tends_incl pids pids' w w' : pids ⊆ pids' -> tends pids w w' -> tends pids' w w'.
Proof.
  intros Hs (E & C & L & O & D). split; [done|]. split; [done|]. split; [done|]. split; [|done].
  intros i Hi. apply O. set_solver.
Qed.
Lemma tends_children pids w w' :
  newborn w' = newborn w -> flags w' = flags w ->
  (exists cs, calls w' = calls w ++ cs /\ Forall tool cs) -> children w' = children w -> tends pids w w'.
Proof.
  intros. split; [done|]. split; [done|]. unfold ended. split; [congruence|].
  by match goal with H : children _ = _ |- _ => rewrite H end.
Qed.
Lemma tends_after w pid c c' ms :
  children w !! pid = Some c -> (alive c = false -> alive c' = false) -> tends [pid] w (after w pid c' ms).
Proof.
  intros Hc Hd. assert (pid < length (children w))%nat as Hp by by eapply lookup_lt_Some.
  split; [split_and!; done || (simpl; lia)|]. split; [exists []; by rewrite app_nil_r|].
  split; [apply length_after|]. split.
  - intros i Hi. simpl. rewrite list_lookup_insert_ne; [done|set_solver].
  - intros i (ci & Hi & Hai). destruct (decide (i = pid)) as [->|Hne].
    + exists c'. rewrite after_child by done. split; [done|]. apply Hd. congruence.
    + exists ci. simpl. by rewrite list_lookup_insert_ne.
Qed.

Lemma owns_tends pids w w' p pid : tends pids w w' -> owns w p pid -> owns w' p pid.
Proof.
  intros (_ & _ & L & _ & D) (Hid & c & Hc & Hs). split; [done|].
  destruct (lookup_lt_is_Some_2 (children w') pid) as [c' Hc'];
    [rewrite L; by eapply lookup_lt_Some|].
  exists c'. split; [done|]. destruct Hs as [Hs|Hs]; [by left|right].
  destruct (D pid) as (c'' & Hc'' & Ha); [by exists c|]. congruence.
Qed.
Lemma owned_tends pids w w' ps qs : tends pids w w' -> Forall2 (owns w) ps qs -> Forall2 (owns w') ps qs.
Proof. intros Ht Ho. eapply Forall2_impl; [exact Ho|]. intros p q. by apply (owns_tends pids). Qed.
Lemma ended_tends pids w w' l : tends pids w w' -> Forall (ended w) l -> Forall (ended w') l.
Proof. intros (_ & _ & _ & _ & D) Hl. eapply Forall_impl; [exact Hl|]. apply D. Qed.

Lemma ended_after w pid c ms : (pid < length (children w))%nat -> alive c = false -> ended (after w pid c ms) pid.
Proof. intros Hp Hc. exists c. by rewrite after_child. Qed.

Lemma on_child_owned {A} w pid c (d : A) f :
  children w !! pid = Some c -> on_child (Z.of_nat pid) d f w = ((f c).1, after w pid (f c).2 0).
Proof.
  intros Hc. unfold on_child. rewrite Nat2Z.id, Hc. destruct (f c). unfold with_children, after. simpl.
  f_equal. f_equal. lia.
Qed.

Lemma is_running_owned w p pid :
  owns w p pid ->
  exists b p' w', is_running p w = (Done (b, p'), w') /\ tends [pid] w w' /\ name p' = name p
    /\ owns w' p' pid /\ if b : bool then child_status (child p') = None
                         /\ (exists c, children w' !! pid = Some c /\ alive c = true)
       else ended w' pid.
Proof.
  intros (Hid & c & Hc & Hs). assert (pid < length (children w))%nat as Hp by by eapply lookup_lt_Some.
  destruct p as [[i st] nm]. simpl in Hid, Hs. subst i.
  unfold is_running, child_try_wait. cbn [child child_status child_id name]. destruct st as [st|].
  { destruct Hs as [Hs|Hs]; [done|]. eexists false, _, w. split; [reflexivity|].
    split; [apply tends_refl|]. split; [done|]. split; [split; [done|]; exists c; split; [done|by right]|by exists c]. }
  unfold mbind, M_bind, act. cbn [try_wait box_os]. rewrite (on_child_owned _ _ c) by done.
  set (c' := (poll c).2).
  assert (alive c = false -> alive c' = false) as Hd by (subst c'; destruct c as [[] [] [[|k]|]]; done).
  assert (match (poll c).1 with Some _ => alive c' = false | None => alive c' = true end) as Hpoll
    by (subst c'; destruct c as [[] [] [[|k]|]]; done).
  assert (((let '(r, c0) := poll c in (Ok r, c0)) : result (option Z) io_error * Child) = (Ok (poll c).1, c')) as ->
    by (subst c'; by destruct (poll c)).
  cbn [fst snd]. destruct (poll c).1 as [st|]; unfold mret, M_ret; cbv beta iota.
  - eexists false, _, _. split; [reflexivity|].
    split; [by apply tends_after with c|]. split; [done|]. split; [|by apply ended_after].
    split; [done|]. exists c'. rewrite after_child by done. split; [done|by right].
  - eexists true, _, _. split; [reflexivity|].
    split; [by apply tends_after with c|]. split; [done|]. split.
    + split; [done|]. exists c'. rewrite after_child by done. split; [done|by left].
    + split; [done|]. exists c'. by rewrite after_child.
Qed.

Lemma stop_owned w p pid :
  owns w p pid ->
  exists p' w', stop p w = (Done (Ok tt, p'), w') /\ tends [pid] w w' /\ owns w' p' pid /\ ended w' pid.
Proof.
  intros (Hid & c & Hc & Hs). assert (pid < length (children w))%nat as Hp by by eapply lookup_lt_Some.
  destruct p as [[i st] nm]. simpl in Hid, Hs. subst i. destruct (alive c) eqn:Ha.
  { destruct Hs as [->|]; [|done].
    destruct (stop_running w pid c nm Hc Ha) as (st & k & Hstop). unfold unreaped in Hstop.
    eexists _, _. split; [exact Hstop|]. split; [apply tends_after with c; [done|congruence]|].
    split; [|by apply ended_after].
    split; [done|]. exists (dead k). rewrite after_child by done. split; [done|by right]. }
  set (c' := {| alive := alive c; termed := true; lingers := lingers c |}).
  assert (sigterm (Z.of_nat pid) w = after w pid c' 0) as Hterm
    by (cbn [sigterm box_os]; rewrite (on_child_owned w pid c) by exact Hc; reflexivity).
  assert (exists st', stop {| child := {| child_id := Z.of_nat pid; child_status := st |}; name := nm |} w
    = (Done (Ok tt, {| child := {| child_id := Z.of_nat pid; child_status := Some st' |}; name := nm |}),
       after w pid c' 0)) as (st' & Hst).
  { unfold stop. cbn [child child_id name]. unfold mbind, M_bind, act. rewrite Hterm.
    assert (exists n, polls = S n) as [n ->] by by exists 49%nat. cbn [await_end]. unfold child_try_wait. cbn [child_status child_id].
    destruct st as [st|]; [by exists st|]. exists 0. unfold mbind, M_bind, act. cbn [try_wait box_os].
    rewrite on_child_after by done. unfold poll. subst c'. cbn [alive termed lingers]. rewrite Ha. done. }
  eexists _, _. split; [exact Hst|]. split; [by apply tends_after with c|].
  split; [|by apply ended_after].
  split; [done|]. exists c'. rewrite after_child by done. split; [done|by right].
Qed.

Lemma drop_owned w p pid :
  owns w p pid -> exists w', drop_process p w = (Done tt, w') /\ tends [pid] w w' /\ ended w' pid.
Proof.
  intros Ho. destruct (is_running_owned w p pid Ho) as (b & p' & w1 & Hr & Ht & _ & Ho1 & Hb).
  unfold drop_process, mbind, M_bind. rewrite Hr. destruct b; [|by exists w1].
  destruct (stop_owned w1 p' pid Ho1) as (p2 & w2 & Hs & Ht2 & _ & He). rewrite Hs.
  exists w2. split; [done|]. split; [by eapply tends_trans|done].
Qed.

Lemma drop_all_owned ps pids w :
  Forall2 (owns w) ps pids ->
  exists w', drop_all ps w = (Done tt, w') /\ tends pids w w' /\ Forall (ended w') pids.
Proof.
  intros Ho. revert w Ho. induction ps as [|p ps IH] in pids |- *; intros w Ho.
  { inversion Ho; subst. exists w. split; [done|]. split; [apply tends_refl|constructor]. }
  inversion Ho as [|? pid ? pids' Hp Hps]; subst. destruct (drop_owned w p pid Hp) as (w1 & Hd & Ht & He).
  destruct (IH pids' w1) as (w2 & Hr & Ht2 & He2); [by apply (owned_tends [pid] w)|].
  exists w2. cbn [drop_all]. unfold mbind, M_bind. rewrite Hd, Hr. split; [done|].
  assert (tends (pid :: pids') w1 w2) as Ht2' by (apply (tends_incl pids'); [set_solver|done]).
  split.
  - eapply tends_trans; [apply (tends_incl [pid]); [set_solver|exact Ht]|exact Ht2'].
  - constructor; [|done]. destruct Ht2 as (_ & _ & _ & _ & D). by apply D.
Qed.

(** ** Properties *)

(** C19: on the simulated machine, stopping a running child always succeeds and
    leaves it ended and waited for, whether it obeys SIGTERM at once, late or
    never, within the five seconds of fifty polls; nothing else changes. *)
Theorem stop_ends_child (w : Box) (pid : nat) (c : Child) (nm : str) :
  children w !! pid = Some c -> alive c = true ->
  exists st c', stop {| child := unreaped pid; name := nm |} w =
    (Done (Ok tt, {| child := {| child_id := Z.of_nat pid; child_status := Some st |}; name := nm |}),
     after w pid c' (100 * Z.of_nat (poll_rounds (lingers c))))
    /\ alive c' = false /\ 100 * Z.of_nat (poll_rounds (lingers c)) <= 5000.
Proof.
  intros Hc Ha. destruct (stop_running w pid c nm Hc Ha) as (st & k & ->).
  exists st, (dead k). split_and!; [done..|]. unfold poll_rounds, polls. destruct (lingers c); lia.
Qed.

Lemma stop_ends_child_witness :
  exists st c' w', stop {| child := unreaped 0; name := lit "phc2sys" |}
      {| dirs := []; links := []; files := []; outcomes := []; calls := []; newborn := []; slept_ms := 0;
         children := [{| alive := true; termed := false; lingers := None |}]; flags := [] |}
    = (Done (Ok tt, {| child := {| child_id := 0; child_status := Some st |}; name := lit "phc2sys" |}), w')
    /\ children w' = [c'] /\ alive c' = false /\ slept_ms w' = 5000.
Proof.
  edestruct (stop_ends_child
      {| dirs := []; links := []; files := []; outcomes := []; calls := []; newborn := []; slept_ms := 0;
         children := [{| alive := true; termed := false; lingers := None |}]; flags := [] |}
      0 {| alive := true; termed := false; lingers := None |} (lit "phc2sys")) as (st & c' & -> & Hd & _);
    [reflexivity..|].
  exists st, c'. eexists. split_and!; [reflexivity..|exact Hd|reflexivity].
Defined.

(** Once [is_running] has seen a process end, and so waited for it, its
    number is free for the system to give to another process; dropping the
    handle then does nothing, but [stop] still sends SIGTERM to that number, to
    whatever process has it in the world [w2] it is called in. *)
Theorem stop_signals_reaped `{Os W} (pid st : Z) (nm : str) (w w1 w2 : W) :
  try_wait pid w = (Ok (Some st), w1) ->
  exists p, is_running {| child := {| child_id := pid; child_status := None |}; name := nm |} w
            = (Done (false, p), w1)
    /\ drop_process p w2 = (Done tt, w2)
    /\ stop p w2 = (Done (Ok tt, p), sigterm pid w2).
Proof.
  intros Hw. exists {| child := {| child_id := pid; child_status := Some st |}; name := nm |}.
  unfold is_running, child_try_wait. cbn [child child_status child_id]. unfold mbind, M_bind, act.
  rewrite Hw. done.
Qed.

Definition one_child (c : Child) : Box :=
  {| dirs := []; links := []; files := []; outcomes := []; calls := []; newborn := []; slept_ms := 0;
     children := [c]; flags := [] |}.

(** Process 0 ends, and another process is given its number. *)
Lemma stop_signals_reaped_witness :
  exists p, is_running {| child := {| child_id := 0; child_status := None |}; name := lit "phc2sys" |}
                (one_child {| alive := false; termed := false; lingers := None |})
            = (Done (false, p), one_child {| alive := false; termed := false; lingers := None |})
    /\ termed <$> children (stop p (one_child {| alive := true; termed := false; lingers := None |})).2 = [true].
Proof.
  destruct (stop_signals_reaped 0 0 (lit "phc2sys") (one_child {| alive := false; termed := false; lingers := None |})
              (one_child {| alive := false; termed := false; lingers := None |})
              (one_child {| alive := true; termed := false; lingers := None |})) as (p & Hp & _ & Hs); [reflexivity|].
  exists p. split; [exact Hp|]. rewrite Hs. reflexivity.
Defined.
