(* ===== verification/Daemon.v ===== *)
(** * The daemon (src/daemon.rs)

    Starting the stack (discovery, module, synchronisation), watching it,
    stopping it, and showing its status.  Log messages become events; the
    io_uring thread is described by its arguments, its body is
    [io_uring_thread]. *)

From stdpp Require Import sets.
From S2P Require Import Prelude Ints Text Sys Os Discovery ConfigGen ModuleLoader SyncMode IoUring Health Ptp4l.

(** ** Definitions *)

Inductive DaemonError :=
  | Discovery (e : io_error)
  | Config (e : ConfigError)
  | Module (e : ModuleError)
  | Sync (e : SyncError)
  | Io (e : io_error).

Definition SYSFS_IEEE80211 : str := lit "/sys/class/ieee80211".
Definition DEFAULT_UDS_PATH : str := lit "/var/run/ptp4l".

(** What the io_uring thread was given: the primary's index, the threshold and
    the interval. *)
Record ThreadArgs := { t_primary : Z; t_threshold : Z; t_interval : Z }.

Inductive SyncState :=
  | Phc2sys (processes : list SyncProcess)
  | KernelLoop
  | IoUringThread (handle : ThreadArgs) (running : bool).

(** What is logged and printed. *)
Inductive daemon_event :=
  | ProcessExited (i : nat)          (* "will restart on next cycle" *)
  | ClockStatuses (l : list ClockStatus)
  | HealthUnavailable (e : HealthError)
  | KernelStats (s : KernelSyncStatus)
  | SyncThreadExited
  | Counters (skipped applied : Z).

Inductive printed :=
  | Text (s : str)
  | NoKernelStatus (e : HealthError)
  | NoPtp4lStatus (e : HealthError).

(** The flag that the signal handler clears, and the state of the io_uring
    thread. *)
Class Threads (W : Type) := {
  install_handler : W -> W;
  load_running : W -> bool * W;
  thread_finished : W -> bool * W;
}.

Definition map_err {W A E E'} (f : E -> E') (m : M W (result A E)) : M W (result A E') :=
  r ← m; mret (match r with Ok a => Ok a | Err e => Err (f e) end).

(** The UTF-8 encoding of a text. *)
Definition utf8_char (c : Z) : list Z :=
  if c <? 128 then [c]
  else if c <? 2048 then [192 + c / 64; 128 + c mod 64]
  else if c <? 65536 then [224 + c / 4096; 128 + c / 64 mod 64; 128 + c mod 64]
  else [240 + c / 262144; 128 + c / 4096 mod 64; 128 + c / 64 mod 64; 128 + c mod 64].
Definition utf8_encode (s : str) : list Z := flat_map utf8_char s.

Definition needs_module (cards : list WifiCard) : bool :=
  existsb (λ c, can_set_tsf c && negb (has_clock c) && bool_decide (ptp_source c = NoPtp)) cards.

Section daemon.
Context {W : Type} `{Os W} `{Uring W} `{Build}.
Variable iouring : bool.              (* the feature *)
Variable utf8 : list Z -> bool.       (* valid UTF-8 *)

(** The loop over the cards in mode A; on an error the processes started so
    far are dropped. *)
Fixpoint start_secondaries (primary_card : WifiCard) (primary_clock phc2sys_bin : str)
    (cards : list WifiCard) (processes : list SyncProcess) : M W (result (list SyncProcess) DaemonError) :=
  match cards with
  | [] => mret (Ok processes)
  | card :: rest =>
      if bool_decide (phy card = phy primary_card)
      then start_secondaries primary_card primary_clock phc2sys_bin rest processes
      else
        secondary_clock ← lift (clock_of card);
        r ← start_phc2sys primary_clock secondary_clock phc2sys_bin;
        match r with
        | Ok proc => start_secondaries primary_card primary_clock phc2sys_bin rest (processes ++ [proc])
        | Err e => _ ← drop_all processes; mret (Err (Sync e))
        end
  end.

(** The body of the thread. *)
Definition io_uring_thread (fuel : nat) (t : ThreadArgs) : M W (result (list (result SyncStats io_error)) io_error) :=
  syncer ←? syncer_new (t_primary t) (t_threshold t) (t_interval t);
  log ← run fuel syncer [];
  mret (Ok log).

(** The [match] on the mode at the end of [start]. *)
Definition start_mode (linuxptp_bin : str) (adjtime_threshold_ns : Z) (sync_mode : SyncMode)
    (sync_interval_ms : Z) (ptp_cards : list WifiCard) (primary_card : WifiCard) (primary_clock : str)
    : M W (result SyncState DaemonError) :=
  match sync_mode with
  | Ptp =>
      processes ←? start_secondaries primary_card primary_clock (phc2sys_bin_from linuxptp_bin) ptp_cards [];
      mret (Ok (Phc2sys processes))
  | Kernel => mret (Ok KernelLoop)
  | Iouring =>
      if iouring then
        primary_index ←? map_err Io (find_primary_index utf8 (utf8_encode (phy primary_card)));
        mret (Ok (IoUringThread {| t_primary := primary_index; t_threshold := as_i64 adjtime_threshold_ns;
                                   t_interval := sync_interval_ms |} true))
      else mret (Err (Io (Other (lit "iouring sync mode requires --features iouring"))))
  end.

Definition start (primary linuxptp_bin : str) (adjtime_threshold_ns : Z) (sync_mode : SyncMode)
    (sync_interval_ms : Z) : M W (result SyncState DaemonError) :=
  cards ←? map_err Discovery (gets (λ w, discover_cards w SYSFS_IEEE80211));
  let primary_for_module := if negb (bool_decide (primary = lit "auto")) then Some primary else None in
  _ ←? (if needs_module cards then
          _ ←? map_err Module (load_tsf_ptp adjtime_threshold_ns sync_mode primary_for_module (Some sync_interval_ms));
          _ ← act (λ w, (tt, sleep_ms 500 w));
          mret (Ok tt)
        else mret (Ok tt));
  cards ←? map_err Discovery (gets (λ w, discover_cards w SYSFS_IEEE80211));
  let ptp_cards := List.filter has_clock cards in
  if (length ptp_cards <? 2)%nat then mret (Err (Config OnlyOneClock))
  else
    primary_card ←? map_err Config (mret (select_primary ptp_cards primary));
    primary_clock ← lift (clock_of primary_card);
    start_mode linuxptp_bin adjtime_threshold_ns sync_mode sync_interval_ms ptp_cards primary_card primary_clock.

Fixpoint stop_each (ps : list SyncProcess) : M W (list SyncProcess) :=
  match ps with
  | [] => mret []
  | p :: ps => '(_, p) ← Ptp4l.stop p; ps ← stop_each ps; mret (p :: ps)
  end.

(** The [match] of [stop], and [stop]. *)
Definition stop_state (state : SyncState) : M W SyncState :=
  match state with
  | Phc2sys processes =>
      processes ← stop_each processes;
      _ ← drop_all processes;
      mret (Phc2sys [])
  | KernelLoop => mret KernelLoop
  | IoUringThread handle _ => mret (IoUringThread handle false)
  end.

Definition stop (state : SyncState) : M W (result unit DaemonError * SyncState) :=
  state ← stop_state state;
  r ← map_err Module unload_tsf_ptp;
  mret (r, state).

Definition read_sysfs_counter (name : str) (w : W) : option Z :=
  match read_to_string w (parameter_path name) with
  | Ok s => match i64_from_str (trim s) with Ok v => Some v | Err _ => None end
  | Err _ => None
  end.

Definition both_counters (w : W) : option (Z * Z) :=
  match read_sysfs_counter (lit "adjtime_skip_count") w, read_sysfs_counter (lit "adjtime_apply_count") w with
  | Some skip, Some apply => Some (skip, apply)
  | _, _ => None
  end.

Definition kernel_lines (mode : SyncMode) (k : KernelSyncStatus) : list printed :=
  [Text (lit "Sync mode: " ++ mode_fmt mode);
   Text (lit "  sync_count:        " ++ dec_signed (sync_count k));
   Text (lit "  sync_error_count:  " ++ dec_signed (sync_error_count k));
   Text (lit "  adjtime_skip:      " ++ dec_signed (adjtime_skip_count k));
   Text (lit "  adjtime_apply:     " ++ dec_signed (adjtime_apply_count k))].

Definition status : M W (list printed) :=
  active_mode ← gets detect_active_sync_mode;
  out ← (match active_mode with
         | Some Kernel | Some Iouring =>
             r ← gets query_kernel_sync_health;
             mret (match r with
                   | Ok kstatus => match active_mode with Some m => kernel_lines m kstatus | None => [] end
                   | Err e => [NoKernelStatus e]
                   end)
         | _ =>
             r ← query_health DEFAULT_UDS_PATH;
             mret (match r with
                   | Ok [] => [Text (lit "No clock statuses reported. Is ptp4l running?")]
                   | Ok statuses => [Text (format_status_table statuses)]
                   | Err e => [NoPtp4lStatus e]
                   end)
         end);
  counters ← gets both_counters;
  mret (out ++ match counters with
               | Some (skip, apply) =>
                   [Text (lit "  adjtime: " ++ dec_signed apply ++ lit " applied, " ++ dec_signed skip ++ lit " skipped")]
               | None => []
               end).

Section monitoring.
Context `{Threads W}.

Fixpoint check_processes (i : nat) (ps : list SyncProcess) : M W (list SyncProcess * list daemon_event) :=
  match ps with
  | [] => mret ([], [])
  | p :: ps =>
      '(running, p) ← is_running p;
      '(ps, es) ← check_processes (S i) ps;
      mret (p :: ps, (if running : bool then [] else [ProcessExited i]) ++ es)
  end.

(** The part of the loop that depends on the mode. *)
Definition monitor (state : SyncState) : M W (SyncState * list daemon_event) :=
  match state with
  | Phc2sys processes =>
      '(processes, exits) ← check_processes 0 processes;
      r ← query_health DEFAULT_UDS_PATH;
      mret (Phc2sys processes, exits ++ match r with
                                        | Ok statuses => [ClockStatuses statuses]
                                        | Err e => [HealthUnavailable e]
                                        end)
  | KernelLoop =>
      r ← gets query_kernel_sync_health;
      mret (KernelLoop, match r with Ok k => [KernelStats k] | Err _ => [] end)
  | IoUringThread handle running =>
      finished ← act thread_finished;
      mret (IoUringThread handle running, if finished : bool then [SyncThreadExited] else [])
  end.

Definition counters_event : M W (list daemon_event) :=
  c ← gets both_counters;
  mret (match c with Some (skip, apply) => [Counters skip apply] | None => [] end).

(** The loop of [run_daemon], with what it has logged. *)
Fixpoint monitor_loop (fuel : nat) (interval : Z) (state : SyncState) (log : list daemon_event)
    : M W (SyncState * list daemon_event) :=
  match fuel with
  | O => lift OutOfFuel
  | S f =>
      running ← act load_running;
      if running : bool then
        _ ← act (λ w, (tt, sleep_ms interval w));
        running ← act load_running;
        if negb (running : bool) then mret (state, log)
        else
          '(state, es) ← monitor state;
          cs ← counters_event;
          monitor_loop f interval state (log ++ es ++ cs)
      else mret (state, log)
  end.

Definition run_daemon (fuel : nat) (primary : str) (interval : Z) (linuxptp_bin : str)
    (adjtime_threshold_ns : Z) (sync_mode : SyncMode) (sync_interval_ms : Z)
    : M W (result (list daemon_event) DaemonError) :=
  _ ← act (λ w, (tt, install_handler w));
  state ←? start primary linuxptp_bin adjtime_threshold_ns sync_mode sync_interval_ms;
  '(state, log) ← monitor_loop fuel interval state [];
  '(r, _) ← stop state;
  mret (match r with Ok _ => Ok log | Err e => Err e end).
End monitoring.
End daemon.

(** The simulated machine plays the threads too; it has no io_uring. *)
#[export] Instance box_threads : Threads Box := {|
  install_handler := λ w, w;
  load_running := λ w, (hd false (flags w), with_flags (tail (flags w)) w);
  thread_finished := λ w, (false, w);
|}.

(** A duration, in milliseconds. *)
Definition parse_u64_then (rest : str) (k : Z -> outcome Z) (err : parse_int_error -> str) : outcome (result Z str) :=
  match u64_from_str rest with
  | Ok v => d ← k v; Done (Ok d)
  | Err e => Done (Err (err e))
  end.

Definition from_millis (v : Z) : outcome Z := Done v.
Definition from_secs (v : Z) : outcome Z := Done (v * 1000).

Definition parse_interval `{Build} (s : str) : outcome (result Z str) :=
  let s := trim s in
  match strip_suffix s (lit "ms") with
  | Some rest => parse_u64_then rest from_millis parse_int_error_text
  | None =>
      match strip_suffix s (lit "s") with
      | Some rest => parse_u64_then rest from_secs parse_int_error_text
      | None =>
          match strip_suffix s (lit "m") with
          | Some rest => parse_u64_then rest (λ m, v ← u64_op overflow_checks (m * 60); from_secs v) parse_int_error_text
          | None => parse_u64_then s from_secs
                      (λ e, lit "invalid interval '" ++ s ++ lit "': " ++ parse_int_error_text e)
          end
      end
  end.

Example parse_interval_tests :
  let _ := debug_x86 in
  parse_interval (lit "10s") = Done (Ok 10000) /\ parse_interval (lit " 5m ") = Done (Ok 300000)
  /\ parse_interval (lit "100ms") = Done (Ok 100) /\ parse_interval (lit "30") = Done (Ok 30000)
  /\ (exists e, parse_interval (lit "abc") = Done (Err e)) /\ (exists e, parse_interval [] = Done (Err e)).
Proof. split_and!; first [reflexivity|eexists; reflexivity]. Qed.

(** ** Facts: the simulated machine under the daemon *)

Lemma sleep_tends pids ms w : tends pids w (sleep_ms ms w).
Proof. apply tends_children; try done. exists []. by rewrite app_nil_r. Qed.

Lemma tends_with_flags pids fs w w' : tends pids w w' -> tends pids (with_flags fs w) (with_flags fs w').
Proof. intros [[? _] Ht]. split; [split; [done|reflexivity]|exact Ht]. Qed.

Lemma command_tends pids bin args w r w' :
  command_output bin args w = (r, w') -> tool (bin, args) -> tends pids w w'.
Proof.
  intros [= <- <-] Ht. apply tends_children; try done. exists [(bin, args)]. split; [done|by apply Forall_singleton].
Qed.

(** A computation on the machine that runs no more than tools. *)
Definition calm {A} (m : M Box A) : Prop :=
  forall pids w, exists a w', m w = (Done a, w') /\ tends pids w w'.

Lemma calm_ret {A} (a : A) : calm (mret a).
Proof. intros pids w. exists a, w. split; [done|apply tends_refl]. Qed.
Lemma calm_gets {A} (f : Box -> A) : calm (gets f).
Proof. intros pids w. exists (f w), w. split; [done|apply tends_refl]. Qed.
Lemma calm_bind {A B} (m : M Box A) (k : A -> M Box B) : calm m -> (forall a, calm (k a)) -> calm (a ← m; k a).
Proof.
  intros Hm Hk pids w. destruct (Hm pids w) as (a & w1 & E1 & T1). destruct (Hk a pids w1) as (b & w2 & E2 & T2).
  exists b, w2. unfold mbind, M_bind. rewrite E1. split; [done|by eapply tends_trans].
Qed.
Lemma calm_try {A B E} (m : M Box (result A E)) (k : A -> M Box (result B E)) :
  calm m -> (forall a, calm (k a)) -> calm (try_bind m k).
Proof. intros Hm Hk. apply calm_bind; [done|]. intros [a|e]; [apply Hk|apply calm_ret]. Qed.
Lemma calm_map_err {A E E'} (f : E -> E') (m : M Box (result A E)) : calm m -> calm (map_err f m).
Proof. intros Hm. apply calm_bind; [done|]. intros r. apply calm_ret. Qed.
Lemma calm_command bin args : tool (bin, args) -> calm (act (command_output bin args)).
Proof.
  intros Ht pids w. destruct (command_output bin args w) as [r w'] eqn:E. exists r, w'.
  unfold act. rewrite E. split; [done|by eapply command_tends].
Qed.
Lemma calm_sleep ms : calm (act (λ w : Box, (tt, sleep_ms ms w))).
Proof. intros pids w. exists tt, (sleep_ms ms w). split; [done|apply sleep_tends]. Qed.

Lemma map_err_ok {W A E E'} (f : E -> E') (m : M W (result A E)) w a w1 :
  m w = (Done (Ok a), w1) -> map_err f m w = (Done (Ok a), w1).
Proof. intros Hm. unfold map_err. by rewrite (bind_done _ _ _ _ _ Hm). Qed.
Lemma map_err_err {W A E E'} (f : E -> E') (m : M W (result A E)) w e w1 :
  m w = (Done (Err e), w1) -> map_err f m w = (Done (Err (f e)), w1).
Proof. intros Hm. unfold map_err. by rewrite (bind_done _ _ _ _ _ Hm). Qed.

Create HintDb calm.
#[export] Hint Resolve calm_ret calm_gets calm_bind calm_try calm_map_err calm_sleep : calm.

Lemma calm_checked bin args err : tool (bin, args) -> calm (checked_command (W := Box) bin args err).
Proof.
  intros Ht. apply calm_bind; [by apply calm_command|]. intros [o|e]; [|apply calm_ret].
  destruct (success o); apply calm_ret.
Qed.

Lemma calm_load threshold mode primary interval : calm (load_tsf_ptp (W := Box) threshold mode primary interval).
Proof.
  apply calm_try; [apply calm_gets|]. intros [|]; [apply calm_ret|].
  apply calm_bind; [apply calm_checked; unfold tool; set_solver|]. intros [_|_]; [apply calm_ret|].
  apply calm_bind; [apply calm_gets|]. intros [|]; [|apply calm_ret].
  apply calm_checked. unfold tool. set_solver.
Qed.
Lemma calm_unload : calm (unload_tsf_ptp (W := Box)).
Proof.
  apply calm_try; [apply calm_gets|]. intros [|]; [|apply calm_ret].
  apply calm_checked. unfold tool. set_solver.
Qed.
Lemma calm_query_health path : calm (query_health (W := Box) path).
Proof. apply calm_bind; [apply calm_command; unfold tool; set_solver|]. intros [o|e]; apply calm_ret. Qed.
Lemma calm_counters : calm (counters_event (W := Box)).
Proof. apply calm_bind; [apply calm_gets|]. intros. apply calm_ret. Qed.
#[export] Hint Resolve calm_load calm_unload calm_query_health calm_counters : calm.

(** *** Starting the processes of mode A *)

(** Between [w] and [w'] some of the children [pids] may have ended, and [k]
    children were started. *)
Definition grows (pids : list nat) (k : nat) (w w' : Box) : Prop :=
  flags w' = flags w /\ length (children w') = (length (children w) + k)%nat
  /\ (forall i, (i < length (children w))%nat -> i ∉ pids -> children w' !! i = children w !! i)
  /\ (forall i, ended w i -> ended w' i).

Lemma tends_grows pids w w' : tends pids w w' -> grows pids 0 w w'.
Proof.
  intros ([_ E] & _ & L & O & D). split; [done|]. split; [lia|]. split; [|done].
  intros i _ Hi. by apply O.
Qed.
Lemma grows_trans pids j k w1 w2 w3 :
  grows pids j w1 w2 -> grows pids k w2 w3 -> grows pids (j + k) w1 w3.
Proof.
  intros (E1 & L1 & O1 & D1) (E2 & L2 & O2 & D2).
  split; [congruence|]. split; [lia|]. split; [|auto].
  intros i Hi Hn. rewrite O2 by (lia || done). by apply O1.
Qed.
Lemma grows_incl pids pids' k w w' :
  grows pids k w w' -> (forall i, (i < length (children w))%nat -> i ∈ pids -> i ∈ pids') -> grows pids' k w w'.
Proof.
  intros (? & ? & O & ?) Hi. split; [done|]. split; [done|]. split; [|done].
  intros i Hlt Hn. apply O; [done|]. intros Hin. by apply Hn, Hi.
Qed.

Definition secondaries_of (p : WifiCard) (cards : list WifiCard) : list WifiCard :=
  List.filter (λ c, negb (bool_decide (phy c = phy p))) cards.
Definition phc2sys_call (bin clk : str) (c : WifiCard) : str * list str :=
  (bin, phc2sys_args clk (default [] (ptp_clock c))).

(** A spawn on the machine. *)
Lemma spawn_box bin args nm (w : Box) :
  exists w', grows [] (match newborn w with Ok _ :: _ => 1 | _ => 0 end) w w'
    /\ calls w' = calls w ++ [(bin, args)] /\ newborn w' = tail (newborn w)
    /\ match newborn w with
       | Ok c :: _ => spawn bin args nm w = (Done (Ok {| child := unreaped (length (children w)); name := nm |}), w')
       | _ => exists e, spawn bin args nm w = (Done (Err e), w')
       end.
Proof.
  unfold spawn, mbind, M_bind, act. cbn [spawn_child box_os]. unfold box_spawn.
  assert (forall (cs : list Child) ob, children w `prefix_of` cs ->
    let w' := {| dirs := dirs w; links := links w; files := files w; outcomes := outcomes w;
                 calls := calls w ++ [(bin, args)]; children := cs; newborn := ob;
                 slept_ms := slept_ms w; flags := flags w |} in
    grows [] (length cs - length (children w)) w w') as Hg.
  { intros cs ob [l ->] w'. subst w'. unfold grows, ended. cbn [flags children].
    rewrite length_app. split; [done|]. split; [lia|]. split.
    - intros i Hi _. by apply lookup_app_l.
    - intros i (c & Hc & Ha). exists c. split; [by apply lookup_app_l_Some|done]. }
  destruct (newborn w) as [|[c|e] ob] eqn:En; cbv beta iota.
  - refine (ex_intro _ _ (conj _ (conj _ (conj _ _)))); [| | |by eexists]; [|reflexivity|by rewrite ?En].
    specialize (Hg (children w) (tail (newborn w)) (reflexivity _)). rewrite Nat.sub_diag in Hg.
    rewrite En in Hg. exact Hg.
  - refine (ex_intro _ _ (conj _ (conj _ (conj _ _)))); [| | |reflexivity]; [|reflexivity|by rewrite ?En].
    specialize (Hg (children w ++ [c]) ob (prefix_app_r _ _ _ (reflexivity _))).
    rewrite length_app in Hg. replace (_ - _)%nat with 1%nat in Hg by (simpl; lia). exact Hg.
  - refine (ex_intro _ _ (conj _ (conj _ (conj _ _)))); [| | |by eexists]; [|reflexivity|by rewrite ?En].
    specialize (Hg (children w) ob (reflexivity _)). rewrite Nat.sub_diag in Hg. exact Hg.
Qed.

Lemma owns_grows pids k w w' p pid : grows pids k w w' -> owns w p pid -> owns w' p pid.
Proof.
  intros (_ & L & _ & D) (Hid & c & Hc & Hs). split; [done|].
  destruct (lookup_lt_is_Some_2 (children w') pid) as [c' Hc'];
    [apply lookup_lt_Some in Hc; lia|].
  exists c'. split; [done|]. destruct Hs as [Hs|Hs]; [by left|right].
  destruct (D pid) as (c'' & Hc'' & Ha); [by exists c|]. congruence.
Qed.

Lemma owns_unreaped w pid nm :
  (pid < length (children w))%nat -> owns w {| child := unreaped pid; name := nm |} pid.
Proof. intros Hp. destruct (lookup_lt_is_Some_2 _ _ Hp) as [c Hc]. split; [done|]. exists c. split; [done|by left]. Qed.

Lemma start_secondaries_spec primary clk bin cards :
  Forall (λ c, is_Some (ptp_clock c)) cards ->
  forall ps pids (w : Box), Forall2 (owns w) ps pids ->
  let sec := secondaries_of primary cards in
  exists r w', start_secondaries primary clk bin cards ps w = (Done r, w')
    /\ match r with
       | Ok ps' => grows [] (length sec) w w' /\ calls w' = calls w ++ map (phc2sys_call bin clk) sec
           /\ exists qs, ps' = ps ++ qs /\ child <$> qs = unreaped <$> seq (length (children w)) (length sec)
       | Err _ => exists k, (k <= length sec)%nat /\ grows pids k w w'
           /\ Forall (ended w') (pids ++ seq (length (children w)) k)
           /\ exists i, (i < length sec)%nat /\ forall c, newborn w !! i <> Some (Ok c)
       end.
Proof.
  induction 1 as [|c cards Hc _ IH]; intros ps pids w Ho sec; subst sec.
  { exists (Ok ps), w. split; [done|]. split; [apply (tends_grows []), tends_refl|].
    cbn. rewrite app_nil_r. split; [done|]. exists []. by rewrite app_nil_r. }
  cbn [start_secondaries secondaries_of List.filter].
  destruct (bool_decide (phy c = phy primary)); [by apply IH|]. cbn [negb].
  destruct Hc as [clock Hclock].
  fold (secondaries_of primary cards). cbn [length map].
  assert (phc2sys_call bin clk c = (bin, phc2sys_args clk clock)) as Hcall
    by (unfold phc2sys_call; by rewrite Hclock).
  unfold clock_of. rewrite Hclock. unfold start_phc2sys.
  destruct (spawn_box bin (phc2sys_args clk clock) (phc2sys_name clk clock) w) as (w1 & Hg & Hcalls & Hnb & Hs).
  unfold mbind, M_bind, lift.
  assert ((exists ch ob, newborn w = Ok ch :: ob) \/ (forall ch ob, newborn w <> Ok ch :: ob)) as [(ch & ob & En)|En]
    by (destruct (newborn w) as [|[ch|e] ob]; [right; done|left; eauto|right; done]).
  - rewrite En in Hg, Hs. rewrite Hs. cbv beta iota.
    assert (length (children w1) = S (length (children w))) as Hlen by (destruct Hg as (_ & ? & _); lia).
    set (p := {| child := unreaped (length (children w)); name := _ |}).
    destruct (IH (ps ++ [p]) (pids ++ [length (children w)]) w1) as (r & w2 & Hr & Hres).
    { apply Forall2_app.
      - eapply Forall2_impl; [exact Ho|]. intros q j. by eapply owns_grows.
      - constructor; [|constructor]. apply owns_unreaped. lia. }
    exists r, w2. split; [done|]. rewrite Hlen in Hres. destruct r as [ps'|e].
    + destruct Hres as (Hg2 & Hc2 & qs & -> & Hqs). split; [by apply (grows_trans [] 1 _ w w1)|].
      rewrite Hc2, Hcalls, <- app_assoc, Hcall. split; [done|].
      exists (p :: qs). rewrite <- app_assoc. split; [done|]. rewrite fmap_cons, Hqs. done.
    + destruct Hres as (k & Hk & Hg2 & He & j & Hj & Hno). exists (S k). split; [lia|]. split; [|split].
      * apply (grows_incl (pids ++ [length (children w)])).
        -- apply (grows_trans _ 1 k w w1); [|done]. eapply grows_incl; [exact Hg|]. set_solver.
        -- intros i Hi Hin. apply elem_of_app in Hin as [|Hin]; [done|]. set_unfold in Hin. lia.
      * rewrite <- app_assoc in He. exact He.
      * exists (S j). split; [lia|]. intros ch'. rewrite En. rewrite Hnb, En in Hno. apply Hno.
  - assert (exists e, spawn bin (phc2sys_args clk clock) (phc2sys_name clk clock) w = (Done (Err e), w1)) as (e & He).
    { destruct (newborn w) as [|[ch|e] ob]; [done|by edestruct En|done]. }
    assert (grows [] 0 w w1) as Hg0 by (destruct (newborn w) as [|[ch|e'] ob]; [done|by edestruct En|done]).
    rewrite He. cbv beta iota.
    destruct (drop_all_owned ps pids w1) as (w2 & Hd & Ht & Hend).
    { eapply Forall2_impl; [exact Ho|]. intros q j. by eapply owns_grows. }
    rewrite Hd. exists (Err (Sync e)), w2. split; [done|]. exists 0%nat. split; [lia|]. split.
    + apply (grows_trans _ 0 0 w w1); [|by apply tends_grows]. eapply grows_incl; [exact Hg0|]. set_solver.
    + rewrite app_nil_r. split; [done|]. exists 0%nat. split; [lia|]. intros ch Hch.
      destruct (newborn w) as [|r ob]; [done|]. injection Hch as ->. by eapply En.
Qed.

(** *** The stack in mode A *)

(** The machine on which a start in mode A selects the cards: as it is, or,
    when a card needs the module, as it is after that was loaded; nothing when
    the first discovery or the loading fails. *)
Definition prepared (w : Box) (primary : str) (threshold ms : Z) : option Box :=
  match discover_cards w SYSFS_IEEE80211 with
  | Ok cards =>
      if existsb (λ c, can_set_tsf c && bool_decide (ptp_clock c = None) && bool_decide (ptp_source c = NoPtp)) cards
      then match load_tsf_ptp threshold Ptp (if bool_decide (primary = lit "auto") then None else Some primary) (Some ms) w with
           | (Done (Ok _), u) => Some (sleep_ms 500 u)
           | _ => None
           end
      else Some w
  | Err _ => None
  end.

(** The cards that get a process: those with a clock but the primary, when
    discovery and selection succeed. *)
Definition selected (w : Box) (primary : str) : option (WifiCard * list WifiCard) :=
  match discover_cards w SYSFS_IEEE80211 with
  | Ok cards =>
      let ptp_cards := List.filter has_clock cards in
      if (length ptp_cards <? 2)%nat then None
      else match select_primary ptp_cards primary with
           | Ok p => Some (p, secondaries_of p ptp_cards)
           | Err _ => None
           end
  | Err _ => None
  end.
Definition secondary_cards (w : Box) (primary : str) (threshold ms : Z) : list WifiCard :=
  match prepared w primary threshold ms ≫= λ u, selected u primary with Some (_, l) => l | None => [] end.

Section stack.
Context `{Uring Box}.
Variable iouring : bool.
Variable utf8 : list Z -> bool.

(** What a start in mode A has done when it answers [r]: all the processes
    run, in order; or those started have been ended again, and discovery, loading,
    selection or the start of one of the processes has failed. *)
Definition started (w : Box) (primary bin : str) (threshold ms : Z) (r : result SyncState DaemonError) (w' : Box) : Prop :=
  match r with
  | Ok st => exists u p sec clk ps, prepared w primary threshold ms = Some u /\ selected u primary = Some (p, sec)
      /\ ptp_clock p = Some clk /\ grows [] (length sec) w w'
      /\ calls w' = calls u ++ map (phc2sys_call (phc2sys_bin_from bin) clk) sec
      /\ st = Phc2sys ps /\ child <$> ps = unreaped <$> seq (length (children w)) (length sec)
  | Err _ => exists k, (k <= length (secondary_cards w primary threshold ms))%nat /\ grows [] k w w'
      /\ Forall (ended w') (seq (length (children w)) k)
      /\ forall u p sec, prepared w primary threshold ms = Some u -> selected u primary = Some (p, sec) ->
           exists i, (i < length sec)%nat /\ forall c, newborn w !! i <> Some (Ok c)
  end.

Lemma started_err w primary bin threshold ms e w' :
  tends [] w w' ->
  (forall u, prepared w primary threshold ms = Some u -> selected u primary = None) ->
  started w primary bin threshold ms (Err e) w'.
Proof.
  intros Ht Hno. exists 0%nat. split; [lia|]. split; [by apply tends_grows|]. split; [constructor|].
  intros u p sec Hu. by rewrite (Hno u Hu).
Qed.

(** The part of [start] before the second discovery. *)
Lemma prepare_box primary threshold ms (w : Box) cards :
  discover_cards w SYSFS_IEEE80211 = Ok cards ->
  exists r w1, (if needs_module cards then
          _ ←? map_err Module (load_tsf_ptp threshold Ptp (if negb (bool_decide (primary = lit "auto")) then Some primary else None) (Some ms));
          _ ← act (λ w, (tt, sleep_ms 500 w));
          mret (Ok tt)
        else mret (Ok tt) : M Box (result unit DaemonError)) w = (Done r, w1)
    /\ tends [] w w1 /\ match r with Ok _ => prepared w primary threshold ms = Some w1 | Err _ => prepared w primary threshold ms = None end.
Proof.
  intros Ed. unfold prepared. rewrite Ed.
  assert (existsb (λ c, can_set_tsf c && bool_decide (ptp_clock c = None) && bool_decide (ptp_source c = NoPtp)) cards
          = needs_module cards) as ->.
  { unfold needs_module. induction cards as [|c cards IH] in |- *; [done|]. cbn [existsb]. rewrite IH. f_equal. f_equal. f_equal.
    unfold has_clock. by destruct (ptp_clock c). }
  destruct (needs_module cards); [|by exists (Ok tt), w; split; [|split; [apply tends_refl|]]].
  set (prim := if bool_decide (primary = lit "auto") then None else Some primary).
  assert ((if negb (bool_decide (primary = lit "auto")) then Some primary else None) = prim) as ->
    by (subst prim; by destruct (bool_decide (primary = lit "auto"))).
  destruct (calm_load threshold Ptp prim (Some ms) [] w) as (r & u & E & T). rewrite E. destruct r as [x|e].
  - exists (Ok tt), (sleep_ms 500 u). split; [by erewrite try_bind_ok by (by apply map_err_ok)|].
    split; [|done]. eapply tends_trans; [exact T|apply sleep_tends].
  - exists (Err (Module e)), u. split; [by erewrite try_bind_err by (by apply map_err_err)|done].
Qed.

Lemma start_ptp_started primary bin threshold ms (w : Box) :
  exists r w', start iouring utf8 primary bin threshold Ptp ms w = (Done r, w') /\ started w primary bin threshold ms r w'.
Proof.
  unfold start. destruct (discover_cards w SYSFS_IEEE80211) as [cards|e] eqn:Ed.
  2:{ erewrite try_bind_err; [|apply map_err_err; unfold gets; by rewrite Ed].
      eexists _, w. split; [reflexivity|]. apply started_err; [apply tends_refl|]. unfold prepared. by rewrite Ed. }
  erewrite try_bind_ok; [|apply map_err_ok; unfold gets; by rewrite Ed]. cbv zeta.
  destruct (prepare_box primary threshold ms w cards Ed) as ([[]|e] & w1 & E0 & T0 & Hp);
    [erewrite try_bind_ok by exact E0|erewrite try_bind_err by exact E0];
    [|eexists _, w1; split; [reflexivity|]; apply started_err; [done|by rewrite Hp]].
  assert (forall e, selected w1 primary = None -> started w primary bin threshold ms (Err e) w1) as Herr
    by (intros e Hs; apply started_err; [done|]; rewrite Hp; by intros u [= <-]).
  destruct (discover_cards w1 SYSFS_IEEE80211) as [cards1|e] eqn:Ed1.
  2:{ erewrite try_bind_err; [|apply map_err_err; unfold gets; by rewrite Ed1].
      eexists _, w1. split; [reflexivity|]. apply Herr. unfold selected. by rewrite Ed1. }
  erewrite try_bind_ok; [|apply map_err_ok; unfold gets; by rewrite Ed1].
  destruct (length (List.filter has_clock cards1) <? 2)%nat eqn:El.
  { eexists _, w1. split; [reflexivity|]. apply Herr. unfold selected. by rewrite Ed1, El. }
  destruct (select_primary (List.filter has_clock cards1) primary) as [p|e] eqn:Ep.
  2:{ erewrite try_bind_err; [|by apply map_err_err]. eexists _, w1. split; [reflexivity|].
      apply Herr. unfold selected. by rewrite Ed1, El, Ep. }
  erewrite try_bind_ok; [|by apply map_err_ok].
  assert (selected w1 primary = Some (p, secondaries_of p (List.filter has_clock cards1))) as Hsel
    by (unfold selected; by rewrite Ed1, El, Ep).
  pose proof (has_clock_filter cards1) as Hclocks. rewrite Forall_forall in Hclocks.
  destruct (Hclocks p (select_primary_in _ _ _ Ep)) as [clk Hclk].
  erewrite bind_done; [|unfold lift, clock_of; by rewrite Hclk]. unfold start_mode.
  destruct (start_secondaries_spec p clk (phc2sys_bin_from bin) (List.filter has_clock cards1)
              (has_clock_filter cards1) [] [] w1 (List.Forall2_nil _)) as (r & w2 & Hr & Hres).
  pose proof (tends_grows _ _ _ T0) as G0. destruct T0 as ([Hnb _] & _ & Hlen & _).
  rewrite Hlen in Hres. destruct r as [ps|e].
  - destruct Hres as (Hg & Hc & qs & -> & Hq). erewrite try_bind_ok by exact Hr.
    eexists _, w2. split; [reflexivity|].
    exists w1, p, (secondaries_of p (List.filter has_clock cards1)), clk, qs.
    split; [done|]. split; [done|]. split; [done|]. split; [by apply (grows_trans _ 0 _ w w1)|]. done.
  - destruct Hres as (k & Hk & Hg & He & i & Hi & Hno). erewrite try_bind_err by exact Hr.
    eexists _, w2. split; [reflexivity|]. exists k.
    unfold secondary_cards. rewrite Hp. cbn [mbind option_bind]. rewrite Hsel.
    split; [done|]. split; [by apply (grows_trans _ 0 _ w w1)|]. split; [done|].
    intros u p' sec [= <-] Hs'. rewrite Hsel in Hs'. injection Hs' as <- <-. rewrite Hnb in Hno. by exists i.
Qed.

(** *** Stopping and watching *)

Lemma stop_each_owned ps pids (w : Box) :
  Forall2 (owns w) ps pids ->
  exists ps' w', stop_each ps w = (Done ps', w') /\ tends pids w w' /\ Forall2 (owns w') ps' pids.
Proof.
  intros Ho. revert w Ho. induction ps as [|p ps IH] in pids |- *; intros w Ho.
  { inversion Ho; subst. exists [], w. split; [done|]. split; [apply tends_refl|constructor]. }
  inversion Ho as [|? pid ? pids' Hp Hps]; subst.
  destruct (stop_owned w p pid Hp) as (p' & w1 & Hs & Ht & Ho1 & _).
  destruct (IH pids' w1) as (ps' & w2 & Hr & Ht2 & Ho2); [by apply (owned_tends [pid] w)|].
  exists (p' :: ps'), w2. cbn [stop_each]. unfold mbind, M_bind. rewrite Hs, Hr. split; [done|].
  assert (tends (pid :: pids') w1 w2) as Ht2' by (apply (tends_incl pids'); [set_solver|done]).
  split; [eapply tends_trans; [apply (tends_incl [pid]); [set_solver|exact Ht]|exact Ht2']|].
  constructor; [|done]. by apply (owns_tends pids' w1).
Qed.

Lemma stop_phc2sys_owned ps pids (w : Box) :
  Forall2 (owns w) ps pids ->
  exists r u w', stop (Phc2sys ps) w = (Done (r, Phc2sys []), w') /\ tends pids w w' /\ Forall (ended w') pids
    /\ Forall (ended u) pids /\ map_err Module unload_tsf_ptp u = (Done r, w').
Proof.
  intros Ho. destruct (stop_each_owned ps pids w Ho) as (ps' & w1 & Hs & Ht & Ho1).
  destruct (drop_all_owned ps' pids w1 Ho1) as (w2 & Hd & Ht2 & He).
  destruct (calm_map_err Module _ calm_unload pids w2) as (r & w3 & Hu & Ht3).
  exists r, w2, w3. unfold stop, stop_state, mbind, M_bind. rewrite Hs, Hd. unfold mret, M_ret. cbv beta iota.
  rewrite Hu. split; [done|]. split; [by eapply tends_trans; [|eapply tends_trans]|].
  split; [by eapply ended_tends|done].
Qed.

Lemma check_processes_owned i ps pids (w : Box) :
  Forall2 (owns w) ps pids ->
  exists ps' es w', check_processes i ps w = (Done (ps', es), w') /\ tends pids w w' /\ Forall2 (owns w') ps' pids.
Proof.
  intros Ho. revert i w Ho. induction ps as [|p ps IH] in pids |- *; intros i w Ho.
  { inversion Ho; subst. exists [], [], w. split; [done|]. split; [apply tends_refl|constructor]. }
  inversion Ho as [|? pid ? pids' Hp Hps]; subst.
  destruct (is_running_owned w p pid Hp) as (b & p' & w1 & Hs & Ht & _ & Ho1 & _).
  destruct (IH pids' (S i) w1) as (ps' & es & w2 & Hr & Ht2 & Ho2); [by apply (owned_tends [pid] w)|].
  eexists (p' :: ps'), _, w2. cbn [check_processes]. unfold mbind, M_bind. rewrite Hs, Hr. split; [reflexivity|].
  assert (tends (pid :: pids') w1 w2) as Ht2' by (apply (tends_incl pids'); [set_solver|done]).
  split; [eapply tends_trans; [apply (tends_incl [pid]); [set_solver|exact Ht]|exact Ht2']|].
  constructor; [|done]. by apply (owns_tends pids' w1).
Qed.

(** The flag was loaded until it was found cleared: the loads still to come
    were [fs] and are [fs'].  It stays cleared at the end of the list. *)
Definition read_until_cleared (fs fs' : list bool) : Prop :=
  exists n, fs = replicate n true ++ false :: fs' \/ fs = replicate n true /\ fs' = [].

Lemma read_cleared fs : hd false fs = false -> read_until_cleared fs (tail fs).
Proof. intros Hh. exists 0%nat. destruct fs as [|b fs]; [by right|]. left. simpl in *. by subst. Qed.
Lemma read_set fs fs' : hd false fs = true -> read_until_cleared (tail fs) fs' -> read_until_cleared fs fs'.
Proof.
  destruct fs as [|b fs]; [done|]. simpl. intros -> (n & Hn). exists (S n).
  destruct Hn as [->|[-> ->]]; [by left|by right].
Qed.

Lemma monitor_loop_owned fuel interval ps pids log (w : Box) :
  Forall2 (owns w) ps pids -> (length (flags w) < fuel)%nat ->
  exists ps' log' w', monitor_loop fuel interval (Phc2sys ps) log w = (Done (Phc2sys ps', log'), w')
    /\ tends pids (with_flags (flags w') w) w' /\ Forall2 (owns w') ps' pids
    /\ read_until_cleared (flags w) (flags w').
Proof.
  revert ps log w. induction fuel as [|f IH]; intros ps log w Ho Hf; [lia|]. cbn [monitor_loop].
  unfold mbind, M_bind, act. cbn [load_running box_threads].
  set (w1 := with_flags (tail (flags w)) w). destruct (hd false (flags w)) eqn:B1.
  2:{ exists ps, log, w1. split; [done|]. split; [apply tends_refl|]. split; [exact Ho|by apply read_cleared]. }
  set (w2 := sleep_ms interval w1). change (flags w2) with (tail (flags w)).
  set (w3 := with_flags (tail (tail (flags w))) w2).
  assert (forall fs, tends pids (with_flags fs w) (with_flags fs w3)) as T03 by (intros fs; apply (sleep_tends pids interval (with_flags fs w))).
  assert (Forall2 (owns w3) ps pids) as O3 by exact (owned_tends pids _ _ _ _ (T03 (flags w3)) Ho).
  destruct (hd false (tail (flags w))) eqn:B2; cbn [negb].
  2:{ exists ps, log, w3. split; [done|]. split; [exact (T03 (flags w3))|]. split; [done|].
      apply read_set; [done|by apply read_cleared]. }
  destruct (check_processes_owned 0 ps pids w3 O3) as (ps1 & es & w4 & Ec & T4 & O4).
  cbn [monitor]. unfold mbind, M_bind. rewrite Ec.
  destruct (calm_query_health DEFAULT_UDS_PATH pids w4) as (r & w5 & E5 & T5). rewrite E5.
  unfold mret, M_ret. cbv beta iota.
  destruct (calm_counters pids w5) as (cs & w6 & E6 & T6). rewrite E6.
  assert (tends pids w4 w6) as T46 by by eapply tends_trans.
  assert (tends pids w3 w6) as T36 by by eapply tends_trans.
  assert (flags w6 = tail (tail (flags w))) as F6 by (destruct T36 as ([_ ->] & _); done).
  match goal with |- context [monitor_loop f interval (Phc2sys ps1) ?l w6] =>
    destruct (IH ps1 l w6) as (ps2 & log2 & w7 & E7 & T7 & O7 & R7) end.
  - by apply (owned_tends pids w4).
  - rewrite F6. destruct (flags w) as [|b fs]; [done|]. destruct fs; simpl in *; lia.
  - exists ps2, log2, w7. rewrite E7. split; [done|]. split; [|split; [done|]].
    + eapply tends_trans; [apply T03|]. eapply tends_trans; [apply tends_with_flags, T36|exact T7].
    + rewrite F6 in R7. by apply read_set, read_set.
Qed.
End stack.

(** *** Intervals *)

Lemma trim_dec n suf :
  0 <= n -> match last suf with None => True | Some c => is_whitespace c = false end -> trim (dec n ++ suf) = dec n ++ suf.
Proof.
  intros Hn Hs. destruct (dec_last n Hn) as (ds & c & E & Hc). destruct (dec_spec n Hn) as (Hd & _ & Hne & _).
  apply trim_id.
  - destruct (dec n) as [|d ds']; [done|]. apply Forall_cons_iff in Hd as [Hd _]. by apply dec_not_ws.
  - rewrite last_app. destruct (last suf); [done|]. rewrite E, last_snoc. by apply dec_not_ws.
Qed.

(** A numeral does not end in a letter. *)
Lemma strip_suffix_dec n suf p :
  0 <= n -> (forall ds c r, is_dec c -> (ds ++ [c]) ++ suf <> r ++ p) -> strip_suffix (dec n ++ suf) p = None.
Proof.
  intros Hn Hp. destruct (strip_suffix (dec n ++ suf) p) as [r|] eqn:E; [|done].
  apply strip_suffix_spec in E. destruct (dec_last n Hn) as (ds & c & Hd & Hc). rewrite Hd in E.
  by destruct (Hp ds c r Hc).
Qed.

(** Two lists with different last elements. *)
Lemma snoc_ne {A} (l1 l2 : list A) a b : a <> b -> l1 ++ [a] <> l2 ++ [b].
Proof. intros Hne E. apply app_inj_tail in E as [_ E]. done. Qed.
Lemma snoc2_ne {A} (l1 l2 : list A) a b c d : a <> b -> (l1 ++ [a]) ++ [c] <> l2 ++ [b; d].
Proof.
  intros Hne E. replace (l2 ++ [b; d]) with ((l2 ++ [b]) ++ [d]) in E by by rewrite <- app_assoc.
  apply app_inj_tail in E as [E _]. by apply snoc_ne in E.
Qed.

(** ** Properties *)

(** C18: on the simulated machine, whose commands may change files, a start in
    mode A always answers.  The cards are those discovered once the module has
    been loaded with the threshold, mode, primary and interval, if any card needed it.
    Either all the processes run: one phc2sys for each of these cards with a
    clock but the primary's, in order, with the two clocks in its arguments; or it answers an
    error, and every process it started on the way has been ended again, at
    most one for each such card; and then the first discovery, the loading, the
    selection or the start of one of the processes failed. *)
Theorem start_all_or_nothing `{Uring Box} (iouring : bool) (utf8 : list Z -> bool)
    (primary bin : str) (threshold ms : Z) (w : Box) :
  exists r w', start iouring utf8 primary bin threshold Ptp ms w = (Done r, w')
    /\ started w primary bin threshold ms r w'.
Proof. apply start_ptp_started. Qed.

(** C16: on the simulated machine the daemon in mode A returns.  When the start
    fails it answers that; otherwise it returns at the first load of the flag that
    finds it cleared, having started one process for each
    secondary card and no more, so that a process that exits is not restarted; all have ended
    before it unloads the module, whose failure it answers.  No child that was there before is touched: the
    machine gives no number twice.  (A real one may, and then [stop] can signal another process.) *)
Theorem run_daemon_cleans_up `{Uring Box} (iouring : bool) (utf8 : list Z -> bool)
    (primary bin : str) (interval threshold ms : Z) (w : Box) :
  let n := length (children w) in
  let start_w := start iouring utf8 primary bin threshold Ptp ms w in
  exists r w' k, run_daemon iouring utf8 (S (length (flags w))) primary interval bin threshold Ptp ms w = (Done r, w')
    /\ (k <= length (secondary_cards w primary threshold ms))%nat /\ length (children w') = (n + k)%nat
    /\ (forall i, (i < n)%nat -> children w' !! i = children w !! i)
    /\ Forall (ended w') (seq n k)
    /\ match start_w with
       | (Done (Ok _), _) =>
           k = length (secondary_cards w primary threshold ms) /\ read_until_cleared (flags w) (flags w')
           /\ exists u a log, Forall (ended u) (seq n k) /\ map_err Module unload_tsf_ptp u = (Done a, w')
                /\ r = match a with Ok _ => Ok log | Err e => Err e end
       | (Done (Err e), w1) => r = Err e /\ w' = w1
       | _ => False
       end.
Proof.
  intros n start_w. subst start_w. unfold run_daemon. erewrite bind_done by reflexivity. cbn [install_handler box_threads].
  destruct (start_ptp_started iouring utf8 primary bin threshold ms w) as ([st|e] & w1 & E1 & R1); rewrite E1.
  - erewrite try_bind_ok by exact E1.
    destruct R1 as (u & p & sec & clk & ps & Hu & Hsel & _ & (F & L & O & _) & _ & -> & Hps).
    assert (Forall2 (owns w1) ps (seq n (length sec))) as Ho.
    { assert (length ps = length sec) as Hl
        by (rewrite <- (length_fmap child ps), Hps, length_fmap; apply length_seq).
      apply Forall2_same_length_lookup_2; [by rewrite length_seq|]. intros i q j Hq Hj.
      apply lookup_seq in Hj as [-> Hi].
      assert (child q = unreaped (n + i)) as Hc.
      { assert ((child <$> ps) !! i = Some (child q)) as H1 by by rewrite list_lookup_fmap, Hq.
        rewrite Hps, list_lookup_fmap, (proj2 (lookup_seq _ _ _ _) (conj eq_refl Hi)) in H1. by simplify_eq/=. }
      destruct q as [h nm]. simpl in Hc. subst h. apply owns_unreaped. subst n. lia. }
    destruct (monitor_loop_owned (S (length (flags w))) interval ps (seq n (length sec)) [] w1 Ho)
      as (ps' & log & w2 & E2 & T2 & O2 & R2); [rewrite F; lia|].
    erewrite bind_done by exact E2. cbv beta iota.
    destruct (stop_phc2sys_owned ps' _ w2 O2) as (r & v & w3 & E3 & T3 & He & Hev & Hun).
    erewrite bind_done by exact E3. cbv beta iota. eexists _, w3, (length sec). split; [reflexivity|].
    unfold secondary_cards. rewrite Hu. cbn [mbind option_bind]. rewrite Hsel.
    destruct T2 as (_ & _ & L2 & O12 & _). destruct T3 as ([_ F3] & _ & L3 & O23 & _). cbn [children with_flags] in L2, O12.
    split; [done|]. split; [subst n; lia|]. split.
    { intros i Hi. assert (i ∉ seq n (length sec)) by (rewrite elem_of_seq; lia).
      rewrite O23, O12, O by (done || set_solver). done. }
    split; [done|]. split; [done|]. split; [by rewrite F3, <- F|]. exists v, r, log. done.
  - erewrite try_bind_err by exact E1. destruct R1 as (k & Hk & (_ & L & O & _) & He & _).
    exists (Err e), w1, k. split; [done|]. split; [done|]. split; [done|]. split; [|done].
    intros i Hi. apply O; [done|set_solver].
Qed.

(** When every card that could be served already has a clock (its own, or
    the module's because the module is loaded), a start in mode B does nothing
    at all: the module is neither loaded nor told about the mode, and the
    answer is that the kernel's loop is active. *)
Theorem start_kernel_does_nothing {W : Type} `{Os W} `{Uring W} (iouring : bool) (utf8 : list Z -> bool)
    (primary bin : str) (threshold ms : Z) (w : W) (cards : list WifiCard) (p : WifiCard) :
  discover_cards w SYSFS_IEEE80211 = Ok cards -> needs_module cards = false ->
  (2 <= length (List.filter has_clock cards))%nat ->
  select_primary (List.filter has_clock cards) primary = Ok p ->
  start iouring utf8 primary bin threshold Kernel ms w = (Done (Ok KernelLoop), w).
Proof.
  intros Hd Hn Hl Hp. unfold start. erewrite try_bind_ok; [|apply map_err_ok; unfold gets; by rewrite Hd].
  rewrite Hn. erewrite try_bind_ok by reflexivity.
  erewrite try_bind_ok; [|apply map_err_ok; unfold gets; by rewrite Hd].
  destruct (Nat.ltb_spec (length (List.filter has_clock cards)) 2); [lia|].
  erewrite try_bind_ok; [|apply map_err_ok; by rewrite Hp].
  pose proof (has_clock_filter cards) as Hc. rewrite Forall_forall in Hc.
  destruct (Hc p (select_primary_in _ _ _ Hp)) as [clk Hc'].
  erewrite bind_done; [reflexivity|]. unfold lift, clock_of. by rewrite Hc'.
Qed.

(** No io_uring on the machine. *)
Definition no_uring : Uring Box := {|
  dev_open := λ w, (Err enoent, w); ring_new := λ _ w, (Err enoent, w); ring_push := λ _ w, (false, w);
  ring_submit_and_wait := λ w, (Done (Err enoent), w); ring_next := λ w, (None, w);
  dev_read := λ _ w, (Err enoent, w); thread_sleep := λ _ w, w; uring_running := λ w, (false, w) |}.

Definition two_intel_cards : Box :=
  box [(lit "/sys/class/ieee80211", [lit "phy0"; lit "phy1"]);
       (lit "/sys/class/ieee80211/phy0/device", [lit "ptp0"]);
       (lit "/sys/class/ieee80211/phy1/device", [lit "ptp1"])]
      [(lit "/sys/class/ieee80211/phy0/device/driver", lit "../../bus/pci/drivers/iwlwifi");
       (lit "/sys/class/ieee80211/phy1/device/driver", lit "../../bus/pci/drivers/iwlwifi")] [].

(** Two cards without clocks, which loading the module gives them; the one
    process that is started obeys SIGTERM at the third poll. *)
Definition two_atheros_cards : Box :=
  {| dirs := [(lit "/sys/class/ieee80211", [lit "phy0"; lit "phy1"])];
     links := [(lit "/sys/class/ieee80211/phy0/device/driver", lit "../../bus/pci/drivers/ath9k");
               (lit "/sys/class/ieee80211/phy1/device/driver", lit "../../bus/pci/drivers/ath9k")];
     files := [(lit "/proc/modules", [])];
     outcomes := [{| answer := Ok {| success := true; stdout := []; stderr := [] |};
                     new_dirs := [(lit "/sys/class/ieee80211/phy0/device", [lit "ptp0"]);
                                  (lit "/sys/class/ieee80211/phy1/device", [lit "ptp1"])];
                     new_links := []; new_files := [(lit "/proc/modules", lit "tsf_ptp 16384 0 -" ++ [10])] |};
                  answers (Err enoent);
                  {| answer := Ok {| success := true; stdout := []; stderr := [] |};
                     new_dirs := []; new_links := []; new_files := [(lit "/proc/modules", [])] |}];
     calls := []; children := []; newborn := [Ok {| alive := true; termed := false; lingers := Some 2%nat |}];
     slept_ms := 0; flags := [true; true; false] |}.

Definition load_call : str * list str :=
  (lit "modprobe", [lit "tsf_ptp"; lit "adjtime_threshold_ns=5000"; lit "sync_mode=0"; lit "sync_interval_ms=10"]).

Lemma start_all_or_nothing_witness :
  exists ps w', @start Box box_os no_uring false (λ _, true) (lit "auto") (lit "ptp4l") 5000 Ptp 10 two_atheros_cards
                = (Done (Ok (Phc2sys ps)), w')
    /\ calls w' = [load_call; (lit "phc2sys", phc2sys_args (lit "/dev/ptp0") (lit "/dev/ptp1"))]
    /\ length ps = 1%nat.
Proof.
  destruct (@start_all_or_nothing no_uring false (λ _, true) (lit "auto") (lit "ptp4l") 5000 10 two_atheros_cards)
    as (r & w' & E & S). destruct r as [st|e].
  - destruct S as (u & p & sec & clk & ps & Hu & Hs & Hc & Hg & Hcalls & -> & Hps). exists ps, w'. split; [exact E|].
    vm_compute in Hu. injection Hu as <-. vm_compute in Hs. injection Hs as <- <-. vm_compute in Hc. injection Hc as <-.
    split; [rewrite Hcalls; vm_compute; reflexivity|]. by rewrite <- (length_fmap child ps), Hps.
  - vm_compute in E. discriminate.
Defined.

Lemma run_daemon_cleans_up_witness :
  exists log w', @run_daemon Box box_os no_uring false (λ _, true) _ 4 (lit "auto") 1000 (lit "ptp4l") 5000 Ptp 10 two_atheros_cards
                 = (Done (Ok log), w')
    /\ Forall (ended w') [0%nat] /\ flags w' = []
    /\ last (calls w') = Some (lit "rmmod", [lit "tsf_ptp"]).
Proof.
  destruct (@run_daemon_cleans_up no_uring false (λ _, true) (lit "auto") (lit "ptp4l") 1000 5000 10 two_atheros_cards)
    as (r & w' & k & E & _ & Hk & _ & He & _). pose proof E as E'. vm_compute in E'. injection E' as Er Ew.
  destruct r as [log|e]; [|discriminate]. exists log, w'. split; [exact E|].
  assert (k = 1%nat) as -> by (rewrite <- Ew in Hk; cbn in Hk; lia). split; [exact He|]. by rewrite <- Ew.
Defined.

Lemma start_kernel_does_nothing_witness :
  @start Box box_os no_uring false (λ _, true) (lit "auto") (lit "ptp4l") 5000 Kernel 10 two_intel_cards
  = (Done (Ok KernelLoop), two_intel_cards).
Proof.
  eapply (@start_kernel_does_nothing Box box_os no_uring false); [reflexivity..|vm_compute; lia|reflexivity].
Defined.

(** Whatever [u64] is printed before "ms", "s", nothing or "m", it is read
    back as so many milliseconds, seconds, seconds or minutes; beyond
    [2^64 / 60] minutes the product overflows: a panic in a debug build, another
    interval in a release build. *)
Theorem parse_interval_round_trip `{Build} (n : Z) :
  in_u64 n ->
  parse_interval (dec n ++ lit "ms") = Done (Ok n)
  /\ parse_interval (dec n ++ lit "s") = Done (Ok (n * 1000))
  /\ parse_interval (dec n) = Done (Ok (n * 1000))
  /\ parse_interval (dec n ++ lit "m") =
       if bool_decide (n * 60 <= 18446744073709551615) then Done (Ok (n * 60000))
       else if overflow_checks then Panic else Done (Ok (as_u64 (n * 60) * 1000)).
Proof.
  intros Hn. assert (0 <= n) as H0 by (unfold in_u64 in Hn; lia).
  assert (forall k err, parse_u64_then (dec n) k err = (d ← k n; Done (Ok d) : outcome (result Z str))) as Hp
    by (intros k err; unfold parse_u64_then; by rewrite u64_from_str_dec).
  assert (trim (dec n) = dec n ++ []) as Htrim by (rewrite <- (app_nil_r (dec n)) at 1; by apply trim_dec).
  unfold parse_interval. rewrite !trim_dec, Htrim by done.
  split_and!.
  - by rewrite strip_suffix_app, Hp.
  - rewrite (strip_suffix_dec n (lit "s") (lit "ms")); [by rewrite strip_suffix_app, Hp|done|].
    intros ds c r Hc. apply snoc2_ne. intros ->. by destruct Hc as [_ []].
  - rewrite !strip_suffix_dec; [by rewrite app_nil_r, Hp|done|..]; try done; intros ds c r Hc; rewrite app_nil_r.
    + apply snoc_ne. intros ->. by destruct Hc as [_ []].
    + apply snoc_ne. intros ->. by destruct Hc as [_ []].
    + change (lit "ms") with ([109] ++ lit "s"). rewrite app_assoc. apply snoc_ne. intros ->.
      by destruct Hc as [_ []].
  - rewrite (strip_suffix_dec n (lit "m") (lit "ms")) by (done || (intros ds c r Hc;
      change (lit "ms") with ([109] ++ lit "s"); rewrite app_assoc; by apply snoc_ne)).
    rewrite (strip_suffix_dec n (lit "m") (lit "s")) by (done || (intros ds c r Hc; by apply snoc_ne)).
    rewrite strip_suffix_app, Hp. case_bool_decide.
    + rewrite u64_op_in by (unfold in_u64; lia). cbn. do 2 f_equal. lia.
    + unfold u64_op. rewrite decide_False by (unfold in_u64; lia). by destruct overflow_checks.
Qed.

Lemma parse_interval_round_trip_witness :
  @parse_interval release_x86 (lit "307445734561825861m") = Done (Ok 44000).
Proof.
  change (lit "307445734561825861m") with (dec 307445734561825861 ++ lit "m").
  destruct (@parse_interval_round_trip release_x86 307445734561825861) as (_ & _ & _ & ->);
    [unfold in_u64; lia|reflexivity].
Defined.
