(* ===== verification/Sysfs.v ===== *)
(** * The module's counters as the daemon reads them

    The counters of kernel/tsf_ptp.c are parameters that can only be read; the
    kernel shows them as files, which [Health] and [Daemon] parse. *)

From S2P Require Import Prelude Ints Text Sys Os SyncMode Chardev IoUring KernelSync.
From S2P Require Import Discovery ConfigGen ModuleLoader Health Ptp4l Daemon.

(** ** Definitions *)

(** [sysfs_emit(buffer, "%lld\n", ...)] *)
Definition param_get_atomic64 (val : Z) : str := dec_signed val ++ [10].

(** The four [module_param_cb]. *)
Definition counter_params (k : KState) : list (str * str) :=
  [(lit "adjtime_skip_count", param_get_atomic64 (Chardev.adjtime_skip_count k));
   (lit "adjtime_apply_count", param_get_atomic64 (Chardev.adjtime_apply_count k));
   (lit "sync_count", param_get_atomic64 (global_sync_count k));
   (lit "sync_error_count", param_get_atomic64 (global_sync_error_count k))].

(** *** The file system

    A parameter's file holds what its [get] has written. *)
Definition shows `{Os W} (w : W) (k : KState) : Prop :=
  Forall (λ '(name, text), read_to_string w (parameter_path name) = Ok text) (counter_params k).

(** The counters as [atomic64_t] holds them. *)
Definition counters_fit (k : KState) : Prop :=
  in_i64 (Chardev.adjtime_skip_count k) /\ in_i64 (Chardev.adjtime_apply_count k)
  /\ in_i64 (global_sync_count k) /\ in_i64 (global_sync_error_count k).

(** ** Facts *)

Lemma param_round_trip v : in_i64 v -> i64_from_str (trim (param_get_atomic64 v)) = Ok v.
Proof.
  intros Hv. unfold param_get_atomic64. rewrite trim_line; [by apply i64_from_str_dec_signed|apply trim_dec_signed|].
  unfold dec_signed. destruct (Z.ltb_spec v 0); [done|]. by destruct (dec_spec v) as (_ & _ & ? & _).
Qed.

Definition status_of_module (k : KState) : KernelSyncStatus :=
  {| sync_count := global_sync_count k; sync_error_count := global_sync_error_count k;
     Health.adjtime_skip_count := Chardev.adjtime_skip_count k;
     Health.adjtime_apply_count := Chardev.adjtime_apply_count k |}.

Lemma shows_reads `{Os W} (w : W) k :
  shows w k -> counters_fit k ->
  query_kernel_sync_health w = Ok (status_of_module k)
  /\ both_counters w = Some (Chardev.adjtime_skip_count k, Chardev.adjtime_apply_count k).
Proof.
  intros Hs (H1 & H2 & H3 & H4). unfold shows, counter_params in Hs. rewrite !Forall_cons_iff in Hs.
  destruct Hs as (R1 & R2 & R3 & R4 & _).
  split.
  - unfold query_kernel_sync_health, read_param. by rewrite R3, R4, R1, R2, !param_round_trip.
  - unfold both_counters, read_sysfs_counter. by rewrite R1, R2, !param_round_trip.
Qed.

(** Ticks of mode B's timer, each with the delays it meets. *)
Definition ticks (dss : list (list Z)) (k : KState) : KState := foldl (λ k ds, (tsf_sync_work_fn ds k).1) k dss.

(** Each is counted once, as a cycle or as an error. *)
Lemma work_fn_counts ds k :
  let k' := (tsf_sync_work_fn ds k).1 in
  global_sync_count k <= global_sync_count k' /\ global_sync_error_count k <= global_sync_error_count k'
  /\ global_sync_count k' + global_sync_error_count k' = global_sync_count k + global_sync_error_count k + 1.
Proof.
  unfold tsf_sync_work_fn. destruct (find_primary_locked k) as [p|]; [|simpl; lia].
  destruct (cards k !! p) as [c|]; [|simpl; lia]. destruct (negb (c_vif c)); [simpl; lia|]. cbv zeta.
  pose proof (sync_cards_globals (length (cards (k_elapse (hd 0 ds) k))) p (k_get_tsf (k_elapse (hd 0 ds) k) c)
                (adjtime_threshold k) 0 (tail ds) (k_elapse (hd 0 ds) k)) as [H1 H2].
  destruct (sync_cards _ _ _ _ _ _ _) as [ds' k']. simpl in *. lia.
Qed.

Lemma ticks_counts dss k :
  let k' := ticks dss k in
  global_sync_count k <= global_sync_count k' /\ global_sync_error_count k <= global_sync_error_count k'
  /\ global_sync_count k' + global_sync_error_count k'
     = global_sync_count k + global_sync_error_count k + Z.of_nat (length dss).
Proof.
  revert k. induction dss as [|ds dss IH]; intros k; [simpl; lia|]. cbn [ticks foldl length].
  fold (ticks dss (tsf_sync_work_fn ds k).1). pose proof (work_fn_counts ds k) as Hw. specialize (IH (tsf_sync_work_fn ds k).1).
  cbv zeta in *. lia.
Qed.

(** ** Properties *)

(** C21: what the kernel's loop counts is what the daemon reports.  After any
    number of ticks, whatever they meet, the files of the module's parameters
    are read without an error by [query_kernel_sync_health] and by the loop of
    the daemon, each counter from its own file and with its exact value; and in
    them every tick is counted exactly once, as a cycle or as an error. *)
Theorem daemon_reports_cycles `{Os W} `{Threads W} (w : W) (k : KState) (dss : list (list Z)) :
  let k' := ticks dss k in
  shows w k' -> counters_fit k' ->
  exists s, query_kernel_sync_health w = Ok s
    /\ sync_count s = global_sync_count k' /\ sync_error_count s = global_sync_error_count k'
    /\ Health.adjtime_skip_count s = Chardev.adjtime_skip_count k'
    /\ Health.adjtime_apply_count s = Chardev.adjtime_apply_count k'
    /\ monitor KernelLoop w = (Done (KernelLoop, [KernelStats s]), w)
    /\ counters_event w
       = (Done [Counters (Chardev.adjtime_skip_count k') (Chardev.adjtime_apply_count k')], w)
    /\ sync_count s + sync_error_count s
       = global_sync_count k + global_sync_error_count k + Z.of_nat (length dss)
    /\ global_sync_count k <= sync_count s /\ global_sync_error_count k <= sync_error_count s.
Proof.
  intros k' Hs Hf. destruct (shows_reads w k' Hs Hf) as [Hq Hb].
  destruct (ticks_counts dss k) as (H1 & H2 & H3). exists (status_of_module k').
  do 5 (split; [done|]). split; [|split].
  - unfold monitor, gets, mbind, M_bind, mret, M_ret. by rewrite Hq.
  - unfold counters_event, gets, mbind, M_bind, mret, M_ret. by rewrite Hb.
  - cbn [status_of_module sync_count sync_error_count]. fold k' in H1, H2, H3. lia.
Qed.

(** ** Witnesses *)

Definition sysfs_box (k : KState) : Box :=
  box [] [] ((λ '(name, text), (parameter_path name, text)) <$> counter_params k).

Lemma daemon_reports_cycles_witness :
  exists s, @query_kernel_sync_health Box _ (sysfs_box (ticks [[3; 1; 1]; []] demo_kernel)) = Ok s
    /\ Health.adjtime_skip_count s = 1 /\ Health.adjtime_apply_count s = 1 /\ sync_count s + sync_error_count s = 2.
Proof.
  destruct (daemon_reports_cycles (sysfs_box (ticks [[3; 1; 1]; []] demo_kernel)) demo_kernel [[3; 1; 1]; []])
    as (s & Hq & _ & _ & Hsk & Hap & _ & _ & Hc & _).
  - repeat constructor.
  - repeat split; vm_compute; congruence.
  - exists s. split; [exact Hq|]. rewrite Hsk, Hap. split; [vm_compute; reflexivity|].
    split; [vm_compute; reflexivity|exact Hc].
Defined.
