(* ===== verification/Signals.v ===== *)
(** * The daemon's signals (src/daemon.rs)

    [ctrlc_handler] and [signal_handler], with the cells of the flags that the
    calls of [run_daemon] make and the signals that arrive between any two
    steps.  The instance of [Threads] is what the daemon's loop reads its flag
    through. *)

From S2P Require Import Prelude Daemon.

(** ** Definitions *)

Inductive signal := SIGTERM | SIGINT.
Inductive disposition := SigDefault | SigHandler.

(** The statics [ONCE] and [HANDLER], the dispositions, and the atomic flags
    allocated so far; a handler is the flag its closure stores to. *)
Record Process := {
  once : bool;
  HANDLER : option nat;
  on_term : disposition;
  on_int : disposition;
  cells : list bool;
  killed : bool;
}.

Definition fresh_process : Process :=
  {| once := false; HANDLER := None; on_term := SigDefault; on_int := SigDefault; cells := []; killed := false |}.

Definition with_cells (cs : list bool) (p : Process) : Process :=
  {| once := once p; HANDLER := HANDLER p; on_term := on_term p; on_int := on_int p; cells := cs; killed := killed p |}.

(** [Arc::new(AtomicBool::new(true))] *)
Definition new_flag (p : Process) : nat * Process := (length (cells p), with_cells (cells p ++ [true]) p).

(** The closure [run_daemon] passes. *)
Definition store_false (flag : nat) (p : Process) : Process := with_cells (<[flag := false]> (cells p)) p.

Definition signal_handler (p : Process) : Process :=
  match HANDLER p with
  | Some handler => store_false handler p
  | None => p
  end.

(** The arrival of a signal; by default both end the process. *)
Definition deliver (p : Process) (s : signal) : Process :=
  if killed p then p
  else match (match s with SIGTERM => on_term p | SIGINT => on_int p end) with
       | SigDefault => {| once := once p; HANDLER := HANDLER p; on_term := on_term p; on_int := on_int p;
                          cells := cells p; killed := true |}
       | SigHandler => signal_handler p
       end.
Definition deliver_all (p : Process) (ss : list signal) : Process := foldl deliver p ss.

(** The steps of the closure given to [call_once]. *)
Definition set_once (p : Process) : Process :=
  {| once := true; HANDLER := HANDLER p; on_term := on_term p; on_int := on_int p; cells := cells p; killed := killed p |}.
Definition set_handler (flag : nat) (p : Process) : Process :=
  {| once := once p; HANDLER := Some flag; on_term := on_term p; on_int := on_int p; cells := cells p; killed := killed p |}.
Definition libc_signal (s : signal) (p : Process) : Process :=
  match s with
  | SIGTERM => {| once := once p; HANDLER := HANDLER p; on_term := SigHandler; on_int := on_int p; cells := cells p; killed := killed p |}
  | SIGINT => {| once := once p; HANDLER := HANDLER p; on_term := on_term p; on_int := SigHandler; cells := cells p; killed := killed p |}
  end.

(** [ctrlc_handler], with the signals that arrive after each of its three
    steps. *)
Definition ctrlc_handler (s1 s2 s3 : list signal) (flag : nat) (p : Process) : Process :=
  if once p then deliver_all p (s1 ++ s2 ++ s3)
  else
    let p := deliver_all (set_handler flag (set_once p)) s1 in
    let p := deliver_all (libc_signal SIGTERM p) s2 in
    deliver_all (libc_signal SIGINT p) s3.

(** A process in [run_daemon], with the signals that arrive during the
    installation and before each load of the flag. *)
Record Signalled := {
  proc : Process;
  flag : nat;
  arriving : list (list signal);
}.

#[export] Instance signal_threads : Threads Signalled := {|
  install_handler := λ w,
    let '(f, p) := new_flag (proc w) in
    {| proc := ctrlc_handler (nth 0 (arriving w) []) (nth 1 (arriving w) []) (nth 2 (arriving w) []) f p;
       flag := f; arriving := drop 3 (arriving w) |};
  load_running := λ w,
    let p := deliver_all (proc w) (hd [] (arriving w)) in
    (nth (flag w) (cells p) false, {| proc := p; flag := flag w; arriving := tail (arriving w) |});
  thread_finished := λ w, (false, w);
|}.

(** The first [n] loads. *)
Fixpoint loads (n : nat) (w : Signalled) : list bool * Signalled :=
  match n with
  | O => ([], w)
  | S n => let '(b, w) := load_running w in let '(bs, w) := loads n w in (b :: bs, w)
  end.

(** ** Facts *)

Definition is_nil {A} (l : list A) : bool := match l with [] => true | _ => false end.

Definition caught (p : Process) (s : signal) : bool :=
  match (match s with SIGTERM => on_term p | SIGINT => on_int p end) with SigDefault => false | SigHandler => true end.

Lemma with_cells_id p : with_cells (cells p) p = p.
Proof. by destruct p. Qed.

Lemma deliver_all_killed p ss : killed p = true -> deliver_all p ss = p.
Proof.
  intros Hk. induction ss as [|s ss IH]; [done|]. cbn [deliver_all foldl]. unfold deliver at 2. by rewrite Hk.
Qed.

(** A batch of signals that are all handled stores to the handler's flag and
    does nothing else; any other batch ends the process. *)
Lemma deliver_all_spec f p ss :
  HANDLER p = Some f -> killed p = false ->
  if forallb (caught p) ss
  then deliver_all p ss = with_cells (if is_nil ss then cells p else <[f := false]> (cells p)) p
  else killed (deliver_all p ss) = true.
Proof.
  intros Hh. revert p Hh. induction ss as [|s ss IH]; intros p Hh Hk; [by cbn; rewrite with_cells_id|].
  cbn [deliver_all foldl is_nil forallb]. fold (deliver_all (deliver p s) ss).
  unfold deliver, caught at 1. rewrite Hk.
  destruct (match s with SIGTERM => on_term p | SIGINT => on_int p end); cbn [andb].
  - by rewrite deliver_all_killed.
  - unfold signal_handler. rewrite Hh. specialize (IH (store_false f p) Hh Hk).
    change (caught (store_false f p)) with (caught p) in IH. destruct (forallb (caught p) ss); [|done].
    rewrite IH. unfold store_false. cbn [with_cells cells]. destruct ss; [done|]. cbn [is_nil].
    by rewrite list_insert_insert_eq.
Qed.

(** With the handler in place. *)
Record installed (f : nat) (p : Process) : Prop := {
  i_once : once p = true;
  i_handler : HANDLER p = Some f;
  i_term : on_term p = SigHandler;
  i_int : on_int p = SigHandler;
  i_alive : killed p = false;
}.

Lemma installed_cells f p cs : installed f p -> installed f (with_cells cs p).
Proof. intros []. by split. Qed.

Lemma deliver_all_installed f p ss :
  installed f p -> deliver_all p ss = with_cells (if is_nil ss then cells p else <[f := false]> (cells p)) p.
Proof.
  intros [Ho Hh Ht Hi Hk]. pose proof (deliver_all_spec f p ss Hh Hk) as Hd.
  replace (forallb (caught p) ss) with true in Hd; [done|]. symmetry. apply forallb_forall. intros s _.
  unfold caught. rewrite Ht, Hi. by destruct s.
Qed.

(** The installation: it survives exactly the signals that come after their
    dispositions are set, and forgets none of them. *)
Lemma ctrlc_handler_first s1 s2 s3 f p :
  once p = false -> killed p = false -> HANDLER p = None -> on_term p = SigDefault -> on_int p = SigDefault ->
  let p' := ctrlc_handler s1 s2 s3 f p in
  if is_nil s1 && forallb (λ s, match s with SIGTERM => true | SIGINT => false end) s2
  then installed f p' /\ cells p' = if is_nil (s2 ++ s3) then cells p else <[f := false]> (cells p)
  else killed p' = true.
Proof.
  intros Ho Hk Hh Ht Hi p'. subst p'. unfold ctrlc_handler. rewrite Ho.
  pose proof (deliver_all_spec f (set_handler f (set_once p)) s1 eq_refl Hk) as H1.
  destruct s1 as [|s s1]; cbn [is_nil andb forallb] in *.
  2: { assert (caught (set_handler f (set_once p)) s = false) as Hc
         by (unfold caught; cbn [set_handler set_once on_term on_int]; rewrite Ht, Hi; by destruct s).
       rewrite Hc in H1. cbn [andb] in H1. rewrite (deliver_all_killed (libc_signal SIGTERM _)) by exact H1.
       rewrite deliver_all_killed by exact H1. exact H1. }
  rewrite H1, with_cells_id. set (p1 := libc_signal SIGTERM (set_handler f (set_once p))).
  pose proof (deliver_all_spec f p1 s2 eq_refl Hk) as H2.
  assert (forallb (λ s, match s with SIGTERM => true | SIGINT => false end) s2 = forallb (caught p1) s2) as ->.
  { clear H2. induction s2 as [|s s2 IH]; [done|]. cbn [forallb]. rewrite IH. f_equal. unfold caught, p1.
    cbn [libc_signal set_handler set_once on_term on_int]. rewrite Hi. by destruct s. }
  destruct (forallb (caught p1) s2); [|rewrite deliver_all_killed by exact H2; exact H2].
  rewrite H2. set (c2 := if is_nil s2 then _ else _).
  assert (installed f (libc_signal SIGINT (with_cells c2 p1))) as Hin by by split.
  rewrite (deliver_all_installed f) by exact Hin. split; [by apply installed_cells|].
  cbn [with_cells cells libc_signal]. subst c2 p1. cbn [libc_signal set_handler set_once cells].
  destruct s2, s3; cbn [is_nil app]; try done. by rewrite list_insert_insert_eq.
Qed.

(** What a load sees of the signals that have arrived. *)
Lemma nth_batch f g (ss : list signal) cs :
  (g < length cs)%nat ->
  nth g (if is_nil ss then cs else <[f := false]> cs) false
  = nth g cs false && (negb (g =? f)%nat || is_nil ss).
Proof.
  intros Hg. destruct (is_nil ss) eqn:E; [by rewrite orb_true_r, andb_true_r|]. rewrite !nth_lookup.
  destruct (Nat.eqb_spec g f) as [->|Hne]; cbn [negb orb].
  - rewrite list_lookup_insert_eq by done. by rewrite andb_false_r.
  - rewrite list_lookup_insert_ne by congruence. by rewrite andb_true_r.
Qed.

Lemma is_nil_app {A} (l k : list A) : is_nil (l ++ k) = is_nil l && is_nil k.
Proof. by destruct l. Qed.

Lemma loads_installed n w i f :
  installed f (proc w) -> (flag w < length (cells (proc w)))%nat -> (i < n)%nat ->
  (loads n w).1 !! i = Some (nth (flag w) (cells (proc w)) false
    && (negb (flag w =? f)%nat || is_nil (concat (take (S i) (arriving w))))).
Proof.
  revert w i. induction n as [|n IH]; intros [p g ss] i Hi Hg Hn; [lia|]. cbn [proc flag arriving] in *.
  cbn [loads load_running signal_threads proc flag arriving].
  set (p1 := deliver_all p (hd [] ss)).
  assert (p1 = with_cells (if is_nil (hd [] ss) then cells p else <[f := false]> (cells p)) p) as Hp1
    by (by apply deliver_all_installed).
  assert (length (cells p1) = length (cells p)) as Hl
    by (rewrite Hp1; cbn; destruct (is_nil _); by rewrite ?length_insert).
  assert (nth g (cells p1) false = nth g (cells p) false && (negb (g =? f)%nat || is_nil (hd [] ss))) as Hv
    by (rewrite Hp1; cbn [with_cells cells]; by apply nth_batch).
  specialize (IH {| proc := p1; flag := g; arriving := tail ss |}).
  destruct (loads n _) as [bs w'] eqn:E. cbn [fst] in *. destruct i as [|i]; cbn [lookup list_lookup].
  - rewrite Hv. destruct ss as [|s ss]; [done|]. cbn [hd take concat]. by rewrite take_0, app_nil_r.
  - change (list_lookup i bs) with (bs !! i).
    rewrite IH; cbn [proc flag arriving]; [|rewrite Hp1; by apply installed_cells|by rewrite Hl|lia].
    f_equal. rewrite Hv. destruct ss as [|s ss]; [by cbn; rewrite !orb_true_r, !andb_true_r|].
    cbn [hd tail]. rewrite (firstn_cons (S i)). cbn [concat]. rewrite is_nil_app.
    destruct (nth g (cells p) false), (negb (g =? f)%nat), (is_nil s); by rewrite ?andb_true_r.
Qed.

(** ** Properties *)

(** C27: the first daemon of a process and its signals.  A signal that comes
    before its disposition is set ends the process: any before the first
    [signal] call, SIGINT before the second.  Otherwise no signal is lost,
    even one that comes during the installation: the flag reads true until
    the first arrival and false at every load from then on. *)
Theorem first_daemon_hears (p : Process) (g n : nat) (s1 s2 s3 : list signal) (ss : list (list signal)) :
  once p = false -> killed p = false -> HANDLER p = None -> on_term p = SigDefault -> on_int p = SigDefault ->
  let w := install_handler {| proc := p; flag := g; arriving := s1 :: s2 :: s3 :: ss |} in
  if is_nil s1 && forallb (λ s, match s with SIGTERM => true | SIGINT => false end) s2
  then killed (proc w) = false
       /\ forall i, (i < n)%nat -> (loads n w).1 !! i = Some (is_nil (concat (s2 :: s3 :: take (S i) ss)))
  else killed (proc w) = true.
Proof.
  intros Ho Hk Hh Ht Hi w. cbn [install_handler signal_threads new_flag proc arriving nth drop] in w.
  set (f := length (cells p)) in w. set (q := with_cells (cells p ++ [true]) p) in w.
  pose proof (ctrlc_handler_first s1 s2 s3 f q Ho Hk Hh Ht Hi) as Hc. cbv zeta in Hc.
  destruct (_ && _); [|exact Hc]. destruct Hc as [Hin Hc]. split; [by destruct Hin|]. intros i Hn.
  assert (f < length (cells q))%nat as Hf by (unfold q; cbn [with_cells cells]; rewrite length_app; simpl; lia).
  rewrite (loads_installed n w i f) by (exact Hin || exact Hn || (cbn [w proc flag]; rewrite Hc;
    destruct (is_nil _); by rewrite ?length_insert)).
  cbn [w proc flag arriving]. rewrite Hc, nth_batch, Nat.eqb_refl by exact Hf.
  assert (nth f (cells q) false = true) as ->
    by (unfold q, f; cbn [with_cells cells]; by rewrite app_nth2, Nat.sub_diag by lia).
  cbn [negb orb andb concat]. by rewrite !is_nil_app, andb_assoc.
Qed.

(** A second call of [run_daemon] in the same process installs nothing,
    because of [ONCE]: no signal ever clears its flag, while the first
    call's flag, which nobody reads any more, is cleared. *)
Theorem second_daemon_deaf (p : Process) (f g n : nat) (arriving : list (list signal)) :
  installed f p -> (f < length (cells p))%nat ->
  let w := install_handler {| proc := p; flag := g; arriving := arriving |} in
  (forall i, (i < n)%nat -> (loads n w).1 !! i = Some true)
  /\ (concat (take 3 arriving) <> [] -> cells (proc w) !! f = Some false).
Proof.
  intros Hin Hf w. cbn [install_handler signal_threads new_flag proc Signals.arriving] in w.
  set (q := with_cells (cells p ++ [true]) p) in w. set (s := concat (take 3 arriving)).
  assert (ctrlc_handler (nth 0 arriving []) (nth 1 arriving []) (nth 2 arriving []) (length (cells p)) q
          = with_cells (if is_nil s then cells q else <[f := false]> (cells q)) q) as Hc.
  { unfold ctrlc_handler. rewrite (i_once f q) by (by apply installed_cells).
    assert (nth 0 arriving [] ++ nth 1 arriving [] ++ nth 2 arriving [] = s) as ->
      by (subst s; destruct arriving as [|? [|? [|? ?]]]; cbn; by rewrite ?app_nil_r).
    apply deliver_all_installed. by apply installed_cells. }
  assert (length (cells q) = S (length (cells p))) as Hl
    by (unfold q; cbn [with_cells cells]; rewrite length_app; simpl; lia).
  split.
  - intros i Hn.
    assert (length (cells p) < length (cells (proc w)))%nat as Hw
      by (cbn [w proc]; rewrite Hc; cbn [with_cells cells]; destruct (is_nil s); rewrite ?length_insert; lia).
    rewrite (loads_installed n w i f); cbn [w proc flag]; try done;
      [|rewrite Hc; apply installed_cells; by apply installed_cells].
    rewrite Hc. cbn [with_cells cells]. rewrite nth_batch by lia.
    rewrite (proj2 (Nat.eqb_neq (length (cells p)) f)) by lia. cbn [negb orb].
    unfold q. cbn [with_cells cells]. by rewrite app_nth2, Nat.sub_diag by lia.
  - intros Hne. cbn [w proc]. rewrite Hc. cbn [with_cells cells].
    destruct s as [|x s']; [done|]. cbn [is_nil]. apply list_lookup_insert_eq. lia.
Qed.

(** ** Witnesses *)

Lemma first_daemon_hears_witness :
  (loads 3 (install_handler {| proc := fresh_process; flag := 0; arriving := [[]; []; []; []; [SIGTERM]; []] |})).1 !! 2%nat
  = Some false.
Proof.
  destruct (first_daemon_hears fresh_process 0 3 [] [] [] [[]; [SIGTERM]; []] eq_refl eq_refl eq_refl eq_refl eq_refl)
    as [_ H].
  rewrite (H 2%nat) by lia. reflexivity.
Defined.

Lemma second_daemon_deaf_witness :
  (loads 2 (install_handler
     {| proc := {| once := true; HANDLER := Some 0%nat; on_term := SigHandler; on_int := SigHandler;
                   cells := [true]; killed := false |};
        flag := 0; arriving := [[]; [SIGINT]; []; [SIGTERM]; [SIGTERM]] |})).1 !! 1%nat = Some true.
Proof.
  apply (second_daemon_deaf {| once := true; HANDLER := Some 0%nat; on_term := SigHandler; on_int := SigHandler;
                               cells := [true]; killed := false |} 0 0 2
           [[]; [SIGINT]; []; [SIGTERM]; [SIGTERM]]).
  - by split.
  - simpl. lia.
  - lia.
Defined.
