(* ===== verification/Shutdown.v ===== *)
(** * Stopping mode C (src/daemon.rs, src/iouring_sync.rs)

    [stop] clears the flag of the io_uring thread and unloads the module without
    waiting for the thread, which has the module's device open until it looks at
    the flag.  The two threads as steps; those of the main thread are the two
    parts of [Daemon.stop], each on the machine as it is at the time. *)

From stdpp Require Import relations.
From S2P Require Import Prelude Ints Text Sys Os Discovery ConfigGen ModuleLoader SyncMode IoUring Health Ptp4l Daemon.

(** ** Definitions *)

(** [IoUringSyncer::new], the loop of [run], and the end of the thread, which
    closes the device. *)
Inductive thread_pc := T_new | T_test | T_cycle | T_sleep | T_close | T_gone.

(** [stop]: its [match], the unloading, the answer. *)
Inductive stop_pc := M_store | M_unload | M_returned (r : result unit DaemonError).

Record StopState := {
  t_flag : bool;
  t_pc : thread_pc;
  m_loaded : bool;
  m_pc : stop_pc;
}.

Definition has_open (pc : thread_pc) : bool :=
  match pc with T_new | T_gone => false | _ => true end.

Definition thread_goes (pc : thread_pc) (s : StopState) : StopState :=
  {| t_flag := t_flag s; t_pc := pc; m_loaded := m_loaded s; m_pc := m_pc s |}.

(** *** The machine

    What the system does here is an assumption: a module is in use while its
    device is open, and rmmod then fails and changes nothing; otherwise the
    module goes from /proc/modules. *)
Definition proc_modules : str := lit "/proc/modules".
Definition in_use_msg : str := lit "rmmod: ERROR: Module tsf_ptp is in use".
Definition rmmod_outcome (open : bool) : Outcome :=
  if open then answers (Ok {| success := false; stdout := []; stderr := in_use_msg |})
  else {| answer := Ok {| success := true; stdout := []; stderr := [] |}; new_dirs := []; new_links := [];
          new_files := [(proc_modules, [])] |}.
Definition stop_box (s : StopState) : Box :=
  {| dirs := []; links := [];
     files := [(proc_modules, if m_loaded s then lit "tsf_ptp 16384 0 - Live 0x0000000000000000" ++ [10] else [])];
     outcomes := [rmmod_outcome (has_open (t_pc s))];
     calls := []; children := []; newborn := []; slept_ms := 0; flags := [] |}.

(** Whether the module is there. *)
Definition loaded_in (w : Box) : bool :=
  match is_tsf_ptp_loaded w with Ok b => b | Err _ => false end.
(** The flag as the main thread has left it. *)
Definition flag_of (st : SyncState) : bool := match st with IoUringThread _ b => b | _ => true end.

Inductive stop_step : StopState -> StopState -> Prop :=
  | thread_opens s : t_pc s = T_new -> m_loaded s = true -> stop_step s (thread_goes T_test s)
  | thread_fails s : t_pc s = T_new -> stop_step s (thread_goes T_gone s)
  | thread_tests s : t_pc s = T_test -> stop_step s (thread_goes (if t_flag s then T_cycle else T_close) s)
  | thread_syncs s : t_pc s = T_cycle -> stop_step s (thread_goes T_sleep s)
  | thread_sleeps s : t_pc s = T_sleep -> stop_step s (thread_goes T_test s)
  | thread_closes s : t_pc s = T_close -> stop_step s (thread_goes T_gone s)
  | main_stores s h st w :
      m_pc s = M_store -> stop_state (IoUringThread h (t_flag s)) (stop_box s) = (Done st, w) ->
      stop_step s {| t_flag := flag_of st; t_pc := t_pc s; m_loaded := m_loaded s; m_pc := M_unload |}
  | main_unloads s r w :
      m_pc s = M_unload -> map_err Daemon.Module unload_tsf_ptp (stop_box s) = (Done r, w) ->
      stop_step s {| t_flag := t_flag s; t_pc := t_pc s; m_loaded := loaded_in w; m_pc := M_returned r |}.

(** When [stop] is called: the thread may be anywhere. *)
Definition stop_called (pc : thread_pc) : StopState :=
  {| t_flag := true; t_pc := pc; m_loaded := true; m_pc := M_store |}.

(** ** Facts *)

Definition unload_answer (there : bool) : result unit DaemonError :=
  if there then Err (Daemon.Module (Rmmod in_use_msg)) else Ok tt.

Lemma unload_run s :
  exists w, map_err Daemon.Module unload_tsf_ptp (stop_box s)
            = (Done (unload_answer (m_loaded s && has_open (t_pc s))), w)
    /\ loaded_in w = m_loaded s && has_open (t_pc s).
Proof. destruct s as [f [] [] m]; vm_compute; (eexists; split; reflexivity). Qed.

(** The module is there while the device is open, and what [stop] has answered
    is whether it is gone. *)
Definition stop_inv (s : StopState) : Prop :=
  (has_open (t_pc s) = true -> m_loaded s = true)
  /\ match m_pc s with
     | M_store => m_loaded s = true
     | M_unload => t_flag s = false /\ m_loaded s = true
     | M_returned r => t_flag s = false /\ r = unload_answer (m_loaded s)
     end.

Lemma stop_inv_step s s' : stop_inv s -> stop_step s s' -> stop_inv s'.
Proof.
  intros [Ho Hm] Hs. destruct Hs as [s Hp Hl|s Hp|s Hp|s Hp|s Hp|s Hp|s h st w Hp E|s r w Hp E];
    unfold stop_inv in *; cbn [thread_goes t_pc t_flag m_loaded m_pc]; rewrite Hp in *; cbn [has_open] in *.
  - done.
  - done.
  - split; [|done]. intros _. auto.
  - auto.
  - auto.
  - done.
  - injection E as <- <-. done.
  - destruct Hm as [Hf Hl]. destruct (unload_run s) as (w' & E' & Hw). rewrite E in E'. injection E' as -> ->.
    rewrite Hw, Hl. cbn [andb]. done.
Qed.

Lemma stop_inv_steps s s' : stop_inv s -> rtc stop_step s s' -> stop_inv s'.
Proof. intros H Hs. induction Hs; eauto using stop_inv_step. Qed.

(** Once the flag is cleared the thread has this much left to do. *)
Definition steps_left (pc : thread_pc) : nat :=
  match pc with T_new => 5 | T_cycle => 4 | T_sleep => 3 | T_test => 2 | T_close => 1 | T_gone => 0 end.

Lemma thread_ends s :
  t_flag s = false -> exists s', rtc stop_step s s' /\ t_pc s' = T_gone /\ m_pc s' = m_pc s /\ m_loaded s' = m_loaded s.
Proof.
  remember (steps_left (t_pc s)) as n eqn:En. revert s En. induction n as [n IH] using lt_wf_ind. intros s En Hf.
  destruct (t_pc s) eqn:Hp; cbn [steps_left] in En.
  - exists (thread_goes T_gone s). split; [apply rtc_once; by constructor 2|done].
  - destruct (IH 1%nat ltac:(lia) (thread_goes T_close s)) as (s' & Hs & H); [done..|].
    exists s'. split; [|exact H]. eapply rtc_l; [|exact Hs]. pose proof (thread_tests s Hp) as Ht. by rewrite Hf in Ht.
  - destruct (IH 3%nat ltac:(lia) (thread_goes T_sleep s)) as (s' & Hs & H); [done..|].
    exists s'. split; [|exact H]. eapply rtc_l; [by constructor 4|exact Hs].
  - destruct (IH 2%nat ltac:(lia) (thread_goes T_test s)) as (s' & Hs & H); [done..|].
    exists s'. split; [|exact H]. eapply rtc_l; [by constructor 5|exact Hs].
  - exists (thread_goes T_gone s). split; [apply rtc_once; by constructor 6|done].
  - by exists s.
Qed.

Lemma main_unloads_now s :
  m_pc s = M_unload -> stop_step s
    {| t_flag := t_flag s; t_pc := t_pc s; m_loaded := m_loaded s && has_open (t_pc s);
       m_pc := M_returned (unload_answer (m_loaded s && has_open (t_pc s))) |}.
Proof. intros Hp. destruct (unload_run s) as (w & E & Hw). rewrite <- Hw at 1. by eapply main_unloads. Qed.

Definition thread_args : ThreadArgs := {| t_primary := 0; t_threshold := 0; t_interval := 0 |}.

(** ** Properties *)

(** C22: the end of mode C, in every interleaving of [stop] and the thread, on a
    system where rmmod fails exactly while the device is open.  Uninterrupted,
    [stop] clears the flag and answers whether the device was open.  Otherwise
    too, what it answers is whether the module is still there, and once it has
    answered the thread can come to its end.  It may answer either, since nothing waits for
    the thread: when the device is open as [stop] is called, the unloading can
    come first and fail, the module staying loaded for good; and the thread can be through
    first. *)
Theorem stop_races_with_thread (pc : thread_pc) (h : ThreadArgs) :
  let in_use := Err (Daemon.Module (Rmmod in_use_msg)) in
  (Daemon.stop (IoUringThread h true) (stop_box (stop_called pc))).1
    = Done (if has_open pc then in_use else Ok tt, IoUringThread h false)
  /\ (forall s, rtc stop_step (stop_called pc) s ->
     forall r, m_pc s = M_returned r ->
           r = (if m_loaded s then in_use else Ok tt)
           /\ exists s', rtc stop_step s s' /\ t_pc s' = T_gone /\ m_loaded s' = m_loaded s)
  /\ (has_open pc = true -> exists s, rtc stop_step (stop_called pc) s
        /\ m_pc s = M_returned in_use /\ m_loaded s = true)
  /\ exists s, rtc stop_step (stop_called pc) s /\ m_pc s = M_returned (Ok tt) /\ m_loaded s = false /\ t_pc s = T_gone.
Proof.
  intros in_use. set (s1 := {| t_flag := false; t_pc := pc; m_loaded := true; m_pc := M_unload |}).
  assert (stop_step (stop_called pc) s1) as H1 by exact (main_stores (stop_called pc) h (IoUringThread h false) _ eq_refl eq_refl).
  split; [destruct pc; vm_compute; reflexivity|]. split; [|split].
  - intros s Hs r Hr. assert (stop_inv (stop_called pc)) as Hi by (split; done).
    destruct (stop_inv_steps _ _ Hi Hs) as [Ho Hm]. rewrite Hr in Hm.
    destruct Hm as [Hf ->]. split; [done|]. destruct (thread_ends s Hf) as (s' & ? & ? & _ & ?). by exists s'.
  - intros Hop. pose proof (main_unloads_now s1 eq_refl) as Hs. cbn [s1 m_loaded t_pc t_flag andb] in Hs. rewrite Hop in Hs.
    eexists. split; [eapply rtc_l; [exact H1|apply rtc_once, Hs]|]. done.
  - destruct (thread_ends s1 eq_refl) as (s2 & Hs2 & Hp & Hm & Hl).
    pose proof (main_unloads_now s2 Hm) as Hs. rewrite Hp, Hl in *. cbn [has_open andb] in Hs.
    eexists. split; [eapply rtc_l; [exact H1|transitivity s2; [exact Hs2|apply rtc_once, Hs]]|]. done.
Qed.

(** ** Witnesses *)

Lemma stop_races_with_thread_witness :
  exists s, rtc stop_step (stop_called T_sleep) s
    /\ m_pc s = M_returned (Err (Daemon.Module (Rmmod in_use_msg))) /\ m_loaded s = true.
Proof. apply (stop_races_with_thread T_sleep thread_args). reflexivity. Defined.
