(* ===== verification/ModeC.v ===== *)
(** * Mode C as a whole

    The daemon's io_uring thread (src/daemon.rs, src/iouring_sync.rs) over the
    module's character device (kernel/tsf_ptp.c), from the name of the primary
    to the end of the thread.  There are no definitions of the program here. *)

From S2P Require Import Prelude Ints Text Sys SyncMode Chardev IoUring KernelSync.
From S2P Require Import Os Discovery ConfigGen ModuleLoader Health Ptp4l Daemon.

(** ** Facts *)

(** The counters stay in range for twice the time given by the delays, and [n] naps. *)
Definition timely (interval : Z) (n : nat) (k : KState) (dss : list (list Z)) : Prop :=
  Forall (card_range k (2 * total (concat dss) + Z.of_nat n * Z.abs (interval * 1000))) (cards k).

(** What cycles of at most [late] microseconds make of a card, when the others
    are brought to base [b]: one that is down or read-only keeps its counter;
    any other keeps it or gets one no further off than [late], and is in the end no
    further off than the larger of the two thresholds and [late]. *)
Definition held (b threshold kernel_threshold late : Z) (c c' : Card) : Prop :=
  c' = with_base (c_base c') c
  /\ (c_base c' = c_base c \/ Z.abs (c_base c' - b) <= late)
  /\ if c_vif c && c_set c then 1000 * Z.abs (c_base c' - b) <= Z.max threshold (kernel_threshold - 1) + 1000 * late
     else c_base c' = c_base c.

Lemma settled_held b thr kthr late late' c c' : late <= late' -> settled b thr kthr late c c' -> held b thr kthr late' c c'.
Proof.
  intros Hl (H1 & H2 & H3 & _ & H4). split; [done|]. split; [lia|]. destruct (c_vif c && c_set c); [lia|done].
Qed.

(** Only the last cycle counts, and the first change is one. *)
Lemma held_trans b thr kthr late c1 c2 c3 :
  held b thr kthr late c1 c2 -> held b thr kthr late c2 c3 -> held b thr kthr late c1 c3.
Proof.
  intros (H1 & H2 & H3) (H4 & H5 & H6). rewrite H1 in H6. cbn [with_base c_vif c_set c_base] in H6.
  split; [rewrite H1 in H4; rewrite H4 at 1; by destruct c1|]. split; [lia|]. destruct (c_vif c1 && c_set c1); [done|lia].
Qed.

Lemma total_concat dss : total (concat dss) = total (hd [] dss) + total (concat (tail dss)).
Proof. destruct dss as [|ds dss]; [done|]. apply total_app. Qed.

Lemma takes_total k k' dss dss' :
  takes k k' dss dss' -> k_now k <= k_now k' /\ k_now k' + total (concat dss') <= k_now k + total (concat dss).
Proof.
  pose proof (total_concat dss). pose proof (total_concat (tail dss)). pose proof (total_pos (hd [] (tail dss))).
  intros [? [[-> ?]|[-> ?]]]; lia.
Qed.

Lemma takes_late (P : list Z -> Prop) k k' dss dss' : takes k k' dss dss' -> Forall P dss -> Forall P (tail dss) /\ Forall P dss'.
Proof.
  intros Ht Hf. assert (forall l : list (list Z), Forall P l -> Forall P (tail l)) as Hd by (by intros ? []).
  destruct Ht as [_ [[-> _]|[-> _]]]; auto.
Qed.

Lemma cycle_time_late late dss :
  0 <= late -> Forall (λ ds, total ds <= late) dss -> cycle_time dss <= 2 * late.
Proof.
  unfold cycle_time. intros Hlate Hf. destruct Hf as [|ds dss H1 Hf]; [simpl; lia|].
  destruct Hf as [|ds' dss H2 Hf]; simpl in *; lia.
Qed.

Section mode_c.
Context `{Build}.
Variables (self : IoUringSyncer) (p : nat) (primary : Card) (kthr late : Z).
Hypothesis Hidx : primary_index self = Z.of_nat p.
Hypothesis Hthr : 0 <= threshold_ns self.
Hypothesis Hup : c_vif primary = true.
Hypothesis Hlate : 0 <= late.

(** What some cycles make of the cards. *)
Definition kept_cards (cs cs' : list Card) : Prop :=
  length cs' = length cs
  /\ forall i c, cs !! i = Some c -> exists c', cs' !! i = Some c'
     /\ if bool_decide (i = p) then c' = c else held (c_base primary) (threshold_ns self) kthr (2 * late) c c'.

Lemma kept_cards_trans cs1 cs2 cs3 : kept_cards cs1 cs2 -> kept_cards cs2 cs3 -> kept_cards cs1 cs3.
Proof.
  intros [Hl1 H1] [Hl2 H2]. split; [congruence|]. intros i c Hi. destruct (H1 i c Hi) as (c2 & Hc2 & Hr2).
  destruct (H2 i c2 Hc2) as (c3 & Hc3 & Hr3). exists c3. split; [done|].
  destruct (bool_decide (i = p)); [congruence|by eapply held_trans].
Qed.

(** One cycle and the nap after it. *)
Lemma cycle_kept n k dss fl :
  Forall card_wf (cards k) -> (length (cards k) <= MAX_CARDS)%nat -> cards k !! p = Some primary ->
  adjtime_threshold k = kthr -> Forall (λ ds, total ds <= late) dss -> timely (interval self) (S n) k dss ->
  exists stats k1 dss1, sync_once self (at_rest k dss fl) = (Done (Ok stats), at_rest k1 dss1 fl)
    /\ cards_read stats = Z.of_nat (length (cards k)) /\ kept_cards (cards k) (cards k1)
    /\ adjtime_threshold k1 = kthr /\ Forall (λ ds, total ds <= late) dss1
    /\ timely (interval self) n (k_elapse (interval self * 1000) k1) dss1.
Proof using Hidx Hthr Hup Hlate.
  intros Hwf Hlen Hp Hk Hl Ht.
  assert (Forall (card_range k (cycle_time dss)) (cards k)) as Hr.
  { eapply Forall_impl; [exact Ht|]. intros c Hc Hv. specialize (Hc Hv). unfold cycle_time.
    pose proof (total_concat dss). pose proof (total_concat (tail dss)). pose proof (total_pos (concat (tail (tail dss)))).
    pose proof (total_pos (concat dss)). lia. }
  destruct (sync_once_cycle self k dss p primary Hwf Hlen Hp Hidx Hr Hthr fl)
    as (stats & k1 & dss1 & Hs & Hcr & Hth & Htk & Hlc & Hc).
  destruct (takes_total _ _ _ _ Htk) as [Hn1 Hn2]. destruct (takes_late _ _ _ _ _ Htk Hl) as [_ Hl1].
  assert (k_now k1 - k_now k <= 2 * late) as Hlt.
  { pose proof (cycle_time_late late dss Hlate Hl). pose proof (total_pos (hd [] (tail dss))). unfold cycle_time in *.
    destruct Htk as [_ [[_ ?]|[_ ?]]]; lia. }
  unfold target_base in Hc. rewrite Hup, Hk in Hc. exists stats, k1, dss1.
  split; [done|]. split; [done|]. split; [|split; [congruence|split; [done|]]].
  - split; [done|]. intros i c Hi. destruct (Hc i c Hi) as (c' & Hc' & Hs'). exists c'. split; [done|].
    destruct (bool_decide (i = p)); [done|by eapply settled_held].
  - pose proof (Forall_lookup_1 _ _ _ _ Ht Hp Hup) as Htp. apply Forall_lookup_2. intros i c' Hi.
    change (cards k1 !! i = Some c') in Hi. intros Hv. cbn [k_elapse with_cards_now k_now].
    destruct (lookup_lt_is_Some_2 (cards k) i) as [c Hci]; [rewrite <- Hlc; by eapply lookup_lt_Some|].
    destruct (Hc i c Hci) as (c2 & Hc2 & Hs2). rewrite Hi in Hc2. injection Hc2 as <-.
    destruct (decide (i = p)) as [->|Hne].
    + rewrite bool_decide_eq_true_2 in Hs2 by done. subst c'.
      pose proof (Forall_lookup_1 _ _ _ _ Ht Hci Hv). lia.
    + rewrite bool_decide_eq_false_2 in Hs2 by done. destruct Hs2 as (Hw & _ & Hb & _).
      rewrite Hw in Hv. cbn [with_base c_vif] in Hv. pose proof (Forall_lookup_1 _ _ _ _ Ht Hci Hv). lia.
Qed.

Lemma run_cycle fuel log k dss b fl r k1 dss1 :
  sync_once self (at_rest k dss fl) = (Done r, at_rest k1 dss1 fl) -> b = true ->
  run (S fuel) self log (at_rest k dss (b :: fl))
  = run fuel self (log ++ [r]) (at_rest (k_elapse (interval self * 1000) k1) dss1 fl).
Proof.
  intros Hs ->. cbn [run]. erewrite bind_done by reflexivity. cbv beta iota.
  change (default false (head (kflags (at_rest k dss (true :: fl))))) with true. cbv iota.
  erewrite bind_done by exact Hs. by erewrite bind_done by reflexivity.
Qed.

Lemma kept_wf cs cs' : kept_cards cs cs' -> Forall card_wf cs -> Forall card_wf cs'.
Proof.
  intros [Hl Hk] Hwf. apply Forall_lookup_2. intros i c' Hi.
  destruct (lookup_lt_is_Some_2 cs i) as [c Hci]; [rewrite <- Hl; by eapply lookup_lt_Some|].
  destruct (Hk i c Hci) as (c2 & Hc2 & Hs). rewrite Hi in Hc2. injection Hc2 as <-.
  pose proof (Forall_lookup_1 _ _ _ _ Hwf Hci) as Hw. unfold card_wf in *.
  destruct (bool_decide (i = p)); [by subst|]. destruct Hs as [-> _]. exact Hw.
Qed.

(** [n] cycles. *)
Lemma run_cycles n fuel k dss log :
  (n < fuel)%nat -> Forall card_wf (cards k) -> (length (cards k) <= MAX_CARDS)%nat ->
  cards k !! p = Some primary -> adjtime_threshold k = kthr -> Forall (λ ds, total ds <= late) dss ->
  timely (interval self) n k dss ->
  exists log' k' dss', run fuel self log (at_rest k dss (replicate n true)) = (Done (log ++ log'), at_rest k' dss' [])
    /\ length log' = n /\ Forall (λ r, exists s, r = Ok s /\ cards_read s = Z.of_nat (length (cards k))) log'
    /\ if (n =? 0)%nat then k' = k else kept_cards (cards k) (cards k').
Proof using Hidx Hthr Hup Hlate.
  revert fuel k dss log. induction n as [|n IH]; intros [|fuel] k dss log Hf Hwf Hlen Hp Hk Hl Ht; try lia.
  { exists [], k, dss. rewrite app_nil_r. by split_and!. }
  destruct (cycle_kept n k dss (replicate n true)) as (stats & k1 & dss1 & Hs & Hr & Hkc & Hk1 & Hl1 & Ht1); try done.
  set (k2 := k_elapse (interval self * 1000) k1) in *. change (cards k1) with (cards k2) in Hkc.
  destruct (proj2 Hkc p primary Hp) as (pr & Hp2 & Hpr). rewrite bool_decide_eq_true_2 in Hpr by done. subst pr.
  destruct (IH fuel k2 dss1 (log ++ [Ok stats])) as (log' & k' & dss' & Hrun & Hlg & Hok & Hc');
    [lia|by eapply kept_wf|by rewrite (proj1 Hkc)|done..|].
  rewrite (proj1 Hkc) in Hok. exists (Ok stats :: log'), k', dss'. rewrite <- app_assoc in Hrun. cbn [replicate].
  split; [by erewrite run_cycle; [exact Hrun|exact Hs|]|]. split; [simpl; by rewrite Hlg|].
  split; [constructor; [by exists stats|done]|]. cbn [Nat.eqb].
  destruct (n =? 0)%nat; [by subst k'|by eapply kept_cards_trans].
Qed.
End mode_c.

(** ** Properties *)

(** C7: mode C from the primary's name to the end of its thread, over the
    module's device, with the primary's interface up and no call of the device taking more than
    [late] microseconds.  The index found by name is the one the thread works
    with; while the daemon runs, the thread makes a cycle per flag it reads,
    none fails and each reads every card; it ends
    when the flag is cleared.  From the first cycle on every other card
    that is up and writable is off from the primary's counter by no more than the larger of
    the two thresholds and the [2 * late] that a cycle's read and write take, and what was
    changed is off by no more than that time; the primary and the cards that
    are down or read-only are as they were. *)
Theorem mode_c_aligns `{Build} (utf8 : list Z -> bool) (name : list Z) (threshold interval late : Z) (n fuel : nat)
    (k : KState) (dss : list (list Z)) (p : nat) (primary : Card) :
  Forall (named_well utf8) (cards k) -> (length (cards k) <= MAX_CARDS)%nat ->
  list_find (λ c, c_phy c = name) (cards k) = Some (p, primary) -> c_vif primary = true ->
  0 <= threshold -> timely interval n k dss -> 0 <= late -> Forall (λ ds, total ds <= late) dss -> (0 < n < fuel)%nat ->
  exists log k' dss',
    (index ←? find_primary_index utf8 name;
     io_uring_thread fuel {| t_primary := index; t_threshold := threshold; t_interval := interval |})
      (at_rest k dss (replicate n true)) = (Done (Ok log), at_rest k' dss' [])
    /\ length log = n /\ Forall (λ r, exists s, r = Ok s /\ cards_read s = Z.of_nat (length (cards k))) log
    /\ length (cards k') = length (cards k)
    /\ forall i c, cards k !! i = Some c -> exists c', cards k' !! i = Some c'
         /\ if bool_decide (i = p) then c' = c
            else held (c_base primary) threshold (adjtime_threshold k) (2 * late) c c'.
Proof.
  intros Hwf Hlen Hfind Hup Hthr Ht Hl0 Hl [Hn Hf].
  destruct (find_primary_index_spec utf8 name k dss (replicate n true) Hwf Hlen) as (now & Hnow & Hfp). rewrite Hfind in Hfp.
  erewrite try_bind_ok by exact Hfp.
  apply list_find_Some in Hfind as (Hp & _).
  set (self := {| primary_index := Z.of_nat p; threshold_ns := threshold; IoUring.interval := interval |}).
  destruct (run_cycles self p primary (adjtime_threshold k) late eq_refl Hthr Hup Hl0 n fuel (at_time now k) (tail dss) [])
    as (log & k' & dss' & Hrun & Hlg & Hok & Hc); try done.
  - eapply Forall_impl; [exact Hwf|]. by intros c [? _].
  - by destruct Hl.
  - eapply Forall_impl; [exact Ht|]. intros c Hc Hv. specialize (Hc Hv). cbn [at_time with_cards_now k_now].
    change (IoUring.interval self) with interval. pose proof (total_concat dss). pose proof (total_pos (hd [] dss)). lia.
  - exists log, k', dss'. rewrite (proj2 (Nat.eqb_neq n 0)) in Hc by lia. destruct Hc as [Hlc Hc].
    split; [|done]. unfold io_uring_thread. erewrite try_bind_ok by reflexivity. by erewrite bind_done by exact Hrun.
Qed.

(** ** Witnesses *)

(** Three cycles, the first read and write taking time: the second card is
    first set 8 microseconds behind, within the thresholds and twice 9. *)
Lemma mode_c_aligns_witness :
  exists log k' dss',
    (index ←? find_primary_index (λ _, true) (lit "phy0");
     @io_uring_thread _ _ release_x86 4 {| t_primary := index; t_threshold := 5000; t_interval := 10 |})
      (at_rest demo_kernel [[3]; [2; 1; 4]; [2; 4]] [true; true; true]) = (Done (Ok log), at_rest k' dss' [])
    /\ length log = 3%nat
    /\ cards k' !! 0%nat = Some (fresh_card (lit "phy0") true true 1000000)
    /\ exists c', cards k' !! 1%nat = Some c' /\ 1000 * Z.abs (c_base c' - 1000000) <= 23000.
Proof.
  destruct (@mode_c_aligns release_x86 (λ _, true) (lit "phy0") 5000 10 9 3 4 demo_kernel [[3]; [2; 1; 4]; [2; 4]] 0
              (fresh_card (lit "phy0") true true 1000000)) as (log & k' & dss' & Hrun & Hl & _ & _ & Hc).
  - repeat constructor; vm_compute; try lia; congruence.
  - vm_compute. lia.
  - reflexivity.
  - reflexivity.
  - lia.
  - repeat constructor; vm_compute; congruence.
  - lia.
  - repeat constructor; vm_compute; congruence.
  - lia.
  - exists log, k', dss'. split; [exact Hrun|]. split; [exact Hl|].
    destruct (Hc 0%nat _ eq_refl) as (c0 & Hc0 & Hr0). simpl in Hr0. subst c0. split; [exact Hc0|].
    destruct (Hc 1%nat _ eq_refl) as (c1 & Hc1 & _ & _ & Hh). exists c1. split; [exact Hc1|].
    simpl in Hh. lia.
Defined.
