(* ===== verification/Cli.v ===== *)
(** * The command line (src/main.rs)

    What each subcommand of tsf-sync does, and the exit status.  The parsing of
    the arguments is clap's; [Command] is its result. *)

From S2P Require Import Prelude Ints Text Sys Os Discovery ConfigGen ModuleLoader SyncMode IoUring Health Ptp4l Daemon.

(** ** Definitions *)

Inductive Command :=
  | Discover
  | ConfigCmd (primary : str) (output : option str)
  | StartCmd (primary : str) (adjtime_threshold_ns : Z) (sync_mode : SyncMode) (sync_interval_ms : Z)
  | Status
  | StopCmd
  | DaemonCmd (primary interval : str) (adjtime_threshold_ns : Z) (sync_mode : SyncMode) (sync_interval_ms : Z).

(** The errors [run] boxes. *)
Inductive CliError :=
  | CliDiscovery (e : io_error)
  | CliConfig (e : ConfigError)
  | CliIo (e : io_error)
  | CliDaemon (e : DaemonError)
  | CliMessage (s : str).

(** How a subcommand ends: with what it printed and its result, or never. *)
Inductive run_end :=
  | Returned (out : list printed) (r : result unit CliError)
  | SleepsForever (state : SyncState).

Section cli.
Context {W : Type} `{Os W} `{Uring W} `{Threads W} `{Build}.
Variable iouring : bool.
Variable utf8 : list Z -> bool.
Variable fuel : nat.                  (* bounds the daemon's cycles *)

Definition finish {A E} (f : E -> CliError) (m : M W (result A E)) (k : A -> M W run_end) : M W run_end :=
  r ← m; match r with Ok a => k a | Err e => mret (Returned [] (Err (f e))) end.

(** The guard on the mode without the feature. *)
Definition lacks_feature (sync_mode : SyncMode) : bool := negb iouring && bool_decide (sync_mode = Iouring).
Definition no_feature : run_end :=
  Returned [] (Err (CliMessage (lit "iouring sync mode requires --features iouring"))).

Definition run (command : Command) (linuxptp_bin : str) : M W run_end :=
  match command with
  | Discover =>
      finish CliDiscovery (gets (λ w, discover_cards w SYSFS_IEEE80211)) (λ cards,
        mret (Returned [Text (match cards with
                              | [] => lit "No WiFi cards found." ++ [10]
                              | _ => format_table cards
                              end)] (Ok tt)))
  | ConfigCmd primary output =>
      finish CliDiscovery (gets (λ w, discover_cards w SYSFS_IEEE80211)) (λ cards,
      finish CliConfig (lift (generate_config cards primary)) (λ config,
        match output with
        | Some path => finish CliIo (act (write_file path config)) (λ _, mret (Returned [] (Ok tt)))
        | None => mret (Returned [Text config] (Ok tt))
        end))
  | StartCmd primary adjtime_threshold_ns sync_mode sync_interval_ms =>
      if lacks_feature sync_mode then mret no_feature
      else finish CliDaemon (start iouring utf8 primary linuxptp_bin adjtime_threshold_ns sync_mode sync_interval_ms)
             (λ state, mret (SleepsForever state))
  | Status => out ← status; mret (Returned out (Ok tt))
  | StopCmd =>
      finish CliDaemon ('(r, _) ← stop (Phc2sys []); mret r) (λ _, mret (Returned [] (Ok tt)))
  | DaemonCmd primary interval adjtime_threshold_ns sync_mode sync_interval_ms =>
      if lacks_feature sync_mode then mret no_feature
      else
        interval ← lift (parse_interval interval);
        match interval with
        | Err e => mret (Returned [] (Err (CliMessage (lit "invalid interval: " ++ e))))
        | Ok interval =>
            finish CliDaemon (run_daemon iouring utf8 fuel primary interval linuxptp_bin adjtime_threshold_ns
                                sync_mode sync_interval_ms) (λ _, mret (Returned [] (Ok tt)))
        end
  end.

(** [main]: the exit status, when there is one. *)
Definition main (command : Command) (linuxptp_path : str) : M W (option Z) :=
  e ← run command linuxptp_path;
  mret (match e with
        | Returned _ (Ok _) => Some 0
        | Returned _ (Err _) => Some 1
        | SleepsForever _ => None
        end).
End cli.

(** ** Properties *)

(** On the simulated machine [tsf-sync stop] ends no process, whatever
    runs: the list it stops is always empty, and all it does is unload the
    module. *)
Theorem stop_command_ends_nothing `{Uring Box} `{Build} (iouring : bool) (utf8 : list Z -> bool) (fuel : nat)
    (bin : str) (w : Box) :
  exists e w', run iouring utf8 fuel StopCmd bin w = (Done e, w')
    /\ children w' = children w
    /\ exists cs, calls w' = calls w ++ cs /\ (cs = [] \/ cs = [(lit "rmmod", [lit "tsf_ptp"])]).
Proof.
  assert (exists r w1, unload_tsf_ptp w = (Done r, w1) /\ children w1 = children w
    /\ exists cs, calls w1 = calls w ++ cs /\ (cs = [] \/ cs = [(lit "rmmod", [lit "tsf_ptp"])])) as (r & w1 & E & Hw).
  { unfold unload_tsf_ptp, is_tsf_ptp_loaded, is_module_loaded, unload_module, checked_command.
    m_unfold. cbn [read_to_string command_output box_os].
    destruct (or_enoent (assoc (files w) (lit "/proc/modules"))) as [text|e];
      [destruct (is_module_loaded_from text MODULE_NAME); cbn [negb]|].
    - unfold box_command. destruct (outcomes w) as [|[[o|e] nd nl nf] os]; [|destruct (success o) eqn:Eo|]; cbn [answer answers new_dirs new_links new_files fst snd]; rewrite ?Eo;
        (eexists _, _; split; [reflexivity|]; split; [reflexivity|]; eexists; split; [reflexivity|by right]).
    - eexists _, w. split; [reflexivity|]. split; [done|]. exists []. by rewrite app_nil_r; split; [|left].
    - eexists _, w. split; [reflexivity|]. split; [done|]. exists []. by rewrite app_nil_r; split; [|left]. }
  set (r' := match r with Ok a => Ok a | Err e => Err (Module e) end).
  exists (match r' with Ok _ => Returned [] (Ok tt) | Err e => Returned [] (Err (CliDaemon e)) end), w1.
  split; [|exact Hw]. unfold run, finish.
  assert (map_err Module unload_tsf_ptp w = (Done r', w1)) as Em by (unfold map_err; by rewrite (bind_done _ _ _ _ _ E)).
  assert (stop (Phc2sys []) w = (Done (r', Phc2sys []), w1)) as Hs
    by (unfold stop; erewrite bind_done by reflexivity; erewrite bind_done by exact Em; reflexivity).
  erewrite bind_done; [|erewrite bind_done by exact Hs; reflexivity]. by destruct r' as [[]|].
Qed.
