(* ===== verification/DebugfsMain.v ===== *)
(** * The start of tsf-sync-debugfs (src/bin/tsf_sync_debugfs/main.rs, cli.rs, signal.rs)

    From the parsed arguments to the loops: checks, opening of the files,
    controllers, real-time set-up, signal handlers and the derived numbers. *)

From Stdlib Require Import SpecFloat.
From stdpp Require Import gmap.
From S2P Require Import Prelude Ints Text Hex Sys Sim Debugfs Floats Control Stats Rt Threading Parallel ParallelSync.

(** ** Definitions *)

(** The arguments. *)
Record Cli := {
  master : str;
  followers : list str;
  cpu : option Z;
  period_ms : Z;
  priority : Z;
  kp_ppm : Z;
  max_step_us : Z;
  stats_interval : Z;
  rms_warn : Z;
  use_kalman : bool;
  parallel : bool;
}.

Section main.
Context {W F : Type} `{Sys W} `{F64 F} `{Build}.
Variable mounted : W -> bool.         (* [Path::new("/sys/kernel/debug").exists()] *)
Variable sys_signal : Z -> W -> W.    (* sets [signal_handler] for a signal *)

(** What is handed to the loops. *)
Record Launch := {
  l_master : TsfFile;
  l_followers : list TsfFile;
  l_controllers : list (Controller F);
  l_period_ns : Z;
  l_stats_interval_cycles : Z;
  l_rms_warn : Z;
}.

(** Why the program exits with status 1. *)
Inductive failure :=
  | NotMounted
  | MasterOpen (e : io_error)
  | MasterRead (e : io_error)
  | FollowerOpen (path : str) (e : io_error).

Definition install_handler : M W unit :=
  _ ← act (λ w, (tt, sys_signal 2 w));
  act (λ w, (tt, sys_signal 15 w)).

(** The loop that opens the followers. *)
Fixpoint open_followers (paths : list str) (opened : list TsfFile) : M W (result (list TsfFile) failure) :=
  match paths with
  | [] => mret (Ok opened)
  | path :: rest =>
      r ← open path;
      match r with
      | Ok f => open_followers rest (opened ++ [f])
      | Err e => mret (Err (FollowerOpen path e))
      end
  end.

(** The division by the period. *)
Definition stats_cycles (args : Cli) : outcome Z :=
  if 0 <? stats_interval args then
    n ← u64_op overflow_checks (stats_interval args * 1000);
    if period_ms args =? 0 then Panic else Done (n / period_ms args)
  else Done 0.

(** [main] up to the choice of the loop; a failed real-time set-up is only
    reported. *)
Definition startup (args : Cli) : M W (result Launch failure) :=
  there ← gets mounted;
  if negb (there : bool) then mret (Err NotMounted)
  else
    r ← open (master args);
    match r with
    | Err e => mret (Err (MasterOpen e))
    | Ok m =>
        r ← read_tsf m;
        match r with
        | Err e => mret (Err (MasterRead e))
        | Ok _ =>
            followers ←? open_followers (followers args) [];
            let controllers := replicate (length followers)
                                 (controller_new (kp_ppm args) (max_step_us args) (use_kalman args)) in
            _ ← setup_rt (priority args) (cpu args);
            _ ← install_handler;
            period_ns ← lift (i64_op overflow_checks (as_i64 (period_ms args) * 1000000));
            stats_interval_cycles ← lift (stats_cycles args);
            mret (Ok {| l_master := m; l_followers := followers; l_controllers := controllers;
                        l_period_ns := period_ns; l_stats_interval_cycles := stats_interval_cycles;
                        l_rms_warn := rms_warn args |})
        end
    end.

(** How [main] goes on: it exits, it has run the single-threaded loop, or it
    starts the threads in this state. *)
Inductive main_end :=
  | Exits (code : Z)
  | RanSingle (st : SyncState F)
  | RunsParallel (p : Par W F).

Definition main (nap_fuel fuel : nat) (args : Cli) : M W main_end :=
  r ← startup args;
  match r with
  | Err _ => mret (Exits 1)
  | Ok l =>
      if parallel args then
        d ← now_monotonic;
        gets (λ w, RunsParallel (par_init (l_followers l) (l_controllers l) d w))
      else
        st ← run_single nap_fuel (l_master l) (l_followers l) (l_period_ns l) (l_stats_interval_cycles l)
               (l_rms_warn l) fuel (l_controllers l);
        mret (RanSingle st)
  end.
End main.

Arguments Launch F : clear implicits.

(** ** Facts *)

Section main_facts.
Context {W F : Type} `{Sys W} `{F64 F} `{Build}.
Variable mounted : W -> bool.
Variable sys_signal : Z -> W -> W.

Lemma open_followers_length paths opened (w : W) fs w' :
  open_followers paths opened w = (Done (Ok fs), w') -> length fs = (length opened + length paths)%nat.
Proof.
  revert opened w. induction paths as [|path paths IH]; intros opened w; cbn [open_followers].
  - intros [= <- _]. simpl. lia.
  - unfold mbind, M_bind. destruct (open path w) as [[[f|e]| |] w1]; [|done..].
    intros Hr%IH. rewrite Hr, length_app. simpl. lia.
Qed.

(** Inversion of a bind that has returned. *)
Lemma bind_inv {A B} (m : M W A) (k : A -> M W B) w b w' :
  (a ← m; k a) w = (Done b, w') -> exists a w1, m w = (Done a, w1) /\ k a w1 = (Done b, w').
Proof. unfold mbind, M_bind. destruct (m w) as [[a| |] w1]; [|done..]. by exists a, w1. Qed.

Lemma i64_op_done oc z v : i64_op oc z = Done v -> v = as_i64 z /\ (oc = true -> in_i64 z).
Proof.
  unfold i64_op. case_decide as Hz; [intros [= <-]; split; [by rewrite as_i64_id|done]|].
  destruct oc; [done|]. by intros [= <-].
Qed.
Lemma u64_op_done oc z v : u64_op oc z = Done v -> v = as_u64 z /\ (oc = true -> in_u64 z).
Proof.
  unfold u64_op. case_decide as Hz; [intros [= <-]; split; [by rewrite as_u64_id|done]|].
  destruct oc; [done|]. by intros [= <-].
Qed.

(** What a start that reaches the loops has computed. *)
Lemma startup_inv (args : Cli) (w : W) (l : Launch F) (w' : W) :
  startup mounted sys_signal args w = (Done (Ok l), w') ->
  length (l_followers l) = length (followers args)
  /\ l_controllers l = replicate (length (followers args))
                         (controller_new (kp_ppm args) (max_step_us args) (use_kalman args))
  /\ i64_op overflow_checks (as_i64 (period_ms args) * 1000000) = Done (l_period_ns l)
  /\ stats_cycles args = Done (l_stats_interval_cycles l).
Proof.
  unfold startup. intros (there & w1 & [= <- <-] & E)%bind_inv. destruct (mounted w); [|done]. cbn [negb] in E.
  apply bind_inv in E as ([m|e] & w2 & _ & E); [|done].
  apply bind_inv in E as ([v|e] & w3 & _ & E); [|done].
  apply bind_inv in E as ([fs|e] & w4 & Ef & E); [|done].
  apply open_followers_length in Ef. simpl in Ef.
  apply bind_inv in E as (x & w5 & _ & E). apply bind_inv in E as (x' & w6 & _ & E).
  apply bind_inv in E as (p & w7 & [= Ep <-] & E). apply bind_inv in E as (n & w8 & [= En <-] & E).
  injection E as <- _. cbn [l_followers l_controllers l_period_ns l_stats_interval_cycles].
  by rewrite Ef.
Qed.
End main_facts.

(** *** A steady start

    What a steady stretch of time means for the calls made before the loops: a
    file that opens answers from then on, its first byte can be read, and none
    of these calls changes a counter. *)
Class SteadyStart (W : Type) `{Steady W} := {
  steady_open fds lat path w r w' :
    steady fds lat w -> sys_open path w = (r, w') ->
    base w' = base w /\ steady fds lat w' /\ (0 <= r -> steady (r :: fds) lat w');
  steady_probe fds lat fd w r data w' :
    steady fds lat w -> fd ∈ fds -> sys_pread64 fd 1 0 w = ((r, data), w') ->
    0 <= r /\ base w' = base w /\ steady fds lat w';
  steady_mlockall fds lat w :
    steady fds lat w -> base (sys_mlockall w).2 = base w /\ steady fds lat (sys_mlockall w).2;
  steady_setscheduler fds lat p w :
    steady fds lat w -> base (sys_sched_setscheduler p w).2 = base w /\ steady fds lat (sys_sched_setscheduler p w).2;
  steady_setaffinity fds lat c w :
    steady fds lat w -> base (sys_sched_setaffinity c w).2 = base w /\ steady fds lat (sys_sched_setaffinity c w).2;
  steady_gettime fds lat w :
    steady fds lat w -> base (sys_clock_gettime w).2 = base w /\ steady fds lat (sys_clock_gettime w).2;
}.

Section steady_start.
Context {W F : Type} `{HSS : SteadyStart W} `{HF : F64 F} `{HB : Build}.
Variable mounted : W -> bool.
Variable sys_signal : Z -> W -> W.
Variable lat : Z.
Hypothesis signal_steady : forall n fds w,
  steady fds lat w -> base (sys_signal n w) = base w /\ steady fds lat (sys_signal n w).

(** A file that can be used, and a computation that disturbs nothing. *)
Definition usable (fds : list Z) (f : TsfFile) : Prop := fd f ∈ fds /\ pread_ok f = true.
Definition undisturbed {A} (m : M W A) : Prop := forall fds w o w',
  steady fds lat w -> m w = (o, w') -> base w' = base w /\ steady fds lat w'.

Lemma undisturbed_bind {A B} (m : M W A) (k : A -> M W B) :
  undisturbed m -> (forall a, undisturbed (k a)) -> undisturbed (a ← m; k a).
Proof.
  intros Hm Hk fds w o w' Hs. unfold mbind, M_bind. destruct (m w) as [oa w1] eqn:E.
  destruct (Hm _ _ _ _ Hs E) as [Hb1 Hs1].
  destruct oa as [a| |]; [|by intros [= _ <-]..]. intros E2.
  destruct (Hk a _ _ _ _ Hs1 E2) as [Hb2 Hs2]. split; [congruence|done].
Qed.
Lemma undisturbed_ret {A} (a : A) : undisturbed (mret a).
Proof. intros fds w o w' Hs [= _ <-]. done. Qed.
Lemma undisturbed_lift {A} (o : outcome A) : undisturbed (lift o).
Proof. intros fds w o' w' Hs [= _ <-]. done. Qed.
Lemma undisturbed_act {A} (f : W -> A * W) :
  (forall fds w, steady fds lat w -> base (f w).2 = base w /\ steady fds lat (f w).2) -> undisturbed (act f).
Proof. intros Hf fds w o w' Hs. specialize (Hf fds w Hs). unfold act. destruct (f w). by intros [= _ <-]. Qed.

Lemma undisturbed_setup_rt priority cpu : undisturbed (setup_rt priority cpu).
Proof.
  assert (forall (m : M W (result unit io_error)) (k : unit -> M W (result unit io_error)),
    undisturbed m -> (forall a, undisturbed (k a)) -> undisturbed (try_bind m k)) as Htry.
  { intros m k Hm Hk. apply undisturbed_bind; [done|]. intros [a|e]; [apply Hk|apply undisturbed_ret]. }
  unfold setup_rt, lock_memory, set_rt_priority, set_cpu_affinity.
  apply Htry; [apply undisturbed_bind; [apply undisturbed_act; intros; by apply steady_mlockall|intros; apply undisturbed_ret]|intros _].
  apply Htry; [apply undisturbed_bind; [apply undisturbed_act; intros; by apply steady_setscheduler|intros; apply undisturbed_ret]|intros _].
  destruct cpu as [c|]; [|apply undisturbed_ret].
  apply Htry; [|intros; apply undisturbed_ret].
  apply undisturbed_bind; [apply undisturbed_act; intros; by apply steady_setaffinity|intros; apply undisturbed_ret].
Qed.

Lemma undisturbed_install_handler : undisturbed (install_handler sys_signal).
Proof. apply undisturbed_bind; [|intros _]; apply undisturbed_act; intros; by apply signal_steady. Qed.

Lemma open_steady fds path w f w' :
  steady fds lat w -> open path w = (Done (Ok f), w') ->
  exists fds', fds ⊆ fds' /\ usable fds' f /\ base w' = base w /\ steady fds' lat w'.
Proof.
  intros Hs. unfold open. intros (r & w1 & Ho & E)%bind_inv. unfold act in Ho.
  destruct (sys_open path w) as [r0 w1'] eqn:Ho'. injection Ho as -> ->.
  destruct (steady_open _ _ _ _ _ _ Hs Ho') as (Hb1 & _ & Hs1).
  destruct (Z.ltb_spec (libc_ret r) 0) as [Hneg|Hpos]; [done|].
  assert (0 <= r) as Hr by (unfold libc_ret in Hpos; zbool; lia). specialize (Hs1 Hr).
  apply bind_inv in E as ((q & b) & w2 & Ep & E). injection E as <- <-. rewrite do_pread_raw in Ep.
  destruct (sys_pread64 r (length [0]) 0 w1) as [[q' data] w3] eqn:Eq. injection Ep as -> _ ->.
  destruct (steady_probe _ _ _ _ _ _ _ Hs1 (list_elem_of_here _ _) Eq) as (Hq & Hb2 & Hs2).
  exists (r :: fds). split; [set_solver|]. split; [|split; [congruence|done]].
  split; [left|]. simpl. by apply Z.leb_le.
Qed.

Lemma open_followers_steady paths fds opened w fs w' :
  steady fds lat w -> Forall (usable fds) opened -> open_followers paths opened w = (Done (Ok fs), w') ->
  exists fds', fds ⊆ fds' /\ Forall (usable fds') fs /\ base w' = base w /\ steady fds' lat w'.
Proof.
  revert fds opened w. induction paths as [|path paths IH]; intros fds opened w Hs Hop; cbn [open_followers].
  { intros [= <- <-]. exists fds. done. }
  intros ([f|e] & w1 & Ho & E)%bind_inv; [|done].
  destruct (open_steady _ _ _ _ _ Hs Ho) as (fds1 & Hsub & Hu & Hb1 & Hs1).
  destruct (IH fds1 (opened ++ [f]) w1 Hs1) with (2 := E) as (fds2 & Hsub2 & Hf & Hb2 & Hs2).
  - apply Forall_app. split; [|by constructor]. eapply Forall_impl; [exact Hop|]. unfold usable. set_solver.
  - exists fds2. split; [set_solver|]. split; [done|]. split; [congruence|done].
Qed.

(** What the start hands to the loops can be used, and it has changed nothing. *)
Lemma startup_steady (args : Cli) (w : W) (L : Launch F) (w' : W) :
  steady [] lat w -> startup mounted sys_signal args w = (Done (Ok L), w') ->
  exists fds, usable fds (l_master L) /\ Forall (usable fds) (l_followers L)
    /\ base w' = base w /\ steady fds lat w'.
Proof.
  intros Hs. unfold startup. intros (there & w1 & [= <- <-] & E)%bind_inv. destruct (mounted w); [|done]. cbn [negb] in E.
  apply bind_inv in E as ([m|e] & w2 & Ho & E); [|done].
  destruct (open_steady _ _ _ _ _ Hs Ho) as (fds1 & _ & Hu & Hb1 & Hs1).
  apply bind_inv in E as ([v|e] & w3 & Hrd & E); [|done].
  destruct Hu as [Hin Hpr].
  destruct (read_tsf_steady m fds1 lat w2 Hs1 Hin Hpr) as (t & w3' & Hrd' & _ & _ & Hb2 & Hs2).
  rewrite Hrd in Hrd'. injection Hrd' as _ <-.
  apply bind_inv in E as ([fs|e] & w4 & Ef & E); [|done].
  destruct (open_followers_steady _ _ _ _ _ _ Hs2 (Forall_nil_2 _) Ef) as (fds2 & Hsub & Hfs & Hb3 & Hs3).
  apply bind_inv in E as (x & w5 & E5 & E). destruct (undisturbed_setup_rt _ _ _ _ _ _ Hs3 E5) as [Hb5 Hs5].
  apply bind_inv in E as (x' & w6 & E6 & E). destruct (undisturbed_install_handler _ _ _ _ Hs5 E6) as [Hb6 Hs6].
  apply bind_inv in E as (p & w7 & [= Ep <-] & E). apply bind_inv in E as (n & w8 & [= En <-] & E).
  injection E as <- <-. exists fds2. cbn [l_master l_followers]. split; [split; [set_solver|done]|].
  split; [done|]. split; [congruence|done].
Qed.
End steady_start.

(** ** Properties *)

Section main_properties.
Context {W F : Type} `{Sys W} `{F64 F} `{Build}.
Variable mounted : W -> bool.
Variable sys_signal : Z -> W -> W.

(** C32: what a start that gets as far as the loops hands to them: every
    follower opened, one fresh controller for each, so that no index of the
    loop is out of range; the period and the reporting interval as the
    products and quotient of the arguments, which have not overflowed in a
    debug build; and no period of zero together with reporting, which is a
    division by zero. A reporting interval shorter than the period becomes 0,
    that is, no reporting. *)
Theorem startup_launch (args : Cli) (w : W) (l : Launch F) (w' : W) :
  startup mounted sys_signal args w = (Done (Ok l), w') ->
  length (l_followers l) = length (followers args)
  /\ l_controllers l = replicate (length (followers args))
                         (controller_new (kp_ppm args) (max_step_us args) (use_kalman args))
  /\ l_period_ns l = as_i64 (as_i64 (period_ms args) * 1000000)
  /\ (overflow_checks = true -> in_i64 (as_i64 (period_ms args) * 1000000))
  /\ (stats_interval args <= 0 -> l_stats_interval_cycles l = 0)
  /\ (0 < stats_interval args -> period_ms args <> 0
        /\ l_stats_interval_cycles l = as_u64 (stats_interval args * 1000) / period_ms args
        /\ (overflow_checks = true -> in_u64 (stats_interval args * 1000)))
  /\ (0 < stats_interval args < 18446744073709552 -> stats_interval args * 1000 < period_ms args ->
        l_stats_interval_cycles l = 0).
Proof.
  intros (Hlen & Hc & Ep & En)%startup_inv.
  apply i64_op_done in Ep as [Ep Hp]. unfold stats_cycles in En.
  split; [done|]. split; [done|]. split; [done|]. split; [done|].
  destruct (Z.ltb_spec 0 (stats_interval args)) as [Hs|Hs].
  - destruct (u64_op overflow_checks (stats_interval args * 1000)) as [k| |] eqn:Ek; [|done..].
    apply u64_op_done in Ek as [-> Hk]. cbn [mbind outcome_bind] in En.
    destruct (Z.eqb_spec (period_ms args) 0) as [|Hne]; [done|]. injection En as <-.
    split; [lia|]. split; [done|]. intros Hlt Hper. rewrite as_u64_id by (unfold in_u64; lia).
    apply Z.div_small. lia.
  - injection En as <-. split; [done|]. split; lia.
Qed.
End main_properties.

Section main_synchronises.
Context {W F : Type} `{HSy : Sys W} `{HF : F64 F} `{HB : Build}.

(** C3: the tool as a whole, single-threaded at the default gain without the
    filter, in a release build on a machine where the files that open go on
    answering within [lat] microseconds, are different ones, and count without
    drifting: once the start-up is over, the
    program makes passes, one whenever it finds the flag set; it returns exactly when
    it finds the flag cleared, or else has made as many passes as the fuel; it
    never panics; and after each number [j] of passes made, each
    follower is behind or ahead of the master by no more than what it was at the
    beginning ([b]) less [j] times the margin of the bound over the length [l] of
    a pass, or [l] if that is more; and so it is in the end. *)
Theorem main_synchronises `{HTs : !TsfFiles W} `{HSt : !Steady W} `{HSS : !SteadyStart W}
    (mounted : W -> bool) (sys_signal : Z -> W -> W) (nap_fuel fuel : nat) (args : Cli) (lat b sec ns : Z)
    (w w1 w2 : W) (L : Launch F) :
  let max := max_step_us args in
  let l := (1 + 2 * Z.of_nat (length (followers args))) * lat in
  let made := passes (S nap_fuel) (l_master L) (l_followers L) (l_period_ns L) (l_stats_interval_cycles L) (l_rms_warn L) in
  let start := ({| deadline := {| tv_sec := sec; tv_nsec := ns |}; stats := stats_new; cycle := 0;
                   controllers := l_controllers L; log := [] |}, w2) in
  let close k u := Forall (λ f, Z.abs (lag u (fd (l_master L)) (fd f)) <= Z.max l (b - Z.of_nat k * (max - l))) (l_followers L) in
  overflow_checks = false -> use_kalman args = false -> kp_ppm args = 1000000 -> parallel args = false ->
  in_i64 max -> l < max -> 0 <= b -> l + Z.max l b <= 9223372036854 ->
  (forall n fds w, steady fds lat w -> base (sys_signal n w) = base w /\ steady fds lat (sys_signal n w)) ->
  steady [] lat w -> startup mounted sys_signal args w = (Done (Ok L), w1) ->
  sys_clock_gettime w1 = ((sec, ns), w2) ->
  NoDup (fd <$> l_master L :: l_followers L) ->
  Forall (λ f, Z.abs (lag w (fd (l_master L)) (fd f)) <= b) (l_followers L) ->
  exists k o st wk w', main mounted sys_signal (S nap_fuel) fuel args w = (o, w')
    /\ made k start (st, wk)
    /\ ((exists r, o = Done (RanSingle r)) /\ running_load wk = (false, w') /\ (k < fuel)%nat
        \/ o = OutOfFuel /\ w' = wk /\ k = fuel)
    /\ (forall j stj wj, made j start (stj, wj) -> close j wj)
    /\ close k w'.
Proof.
  intros max l made start close Ho Hk Hkp Hpar Hm Hlm H0 Hb Hsig Hs Hstart Hg Hnd Hlag.
  destruct (startup_steady mounted sys_signal lat Hsig args w L w1 Hs Hstart) as (fds & Hu & Hus & Hb1 & Hs1).
  destruct (startup_inv mounted sys_signal args w L w1 Hstart) as (Hlen & Hc & _).
  destruct (steady_gettime _ _ _ Hs1) as [Hb2 Hs2]. rewrite Hg in Hb2, Hs2. simpl in Hb2, Hs2.
  assert (wired fds max (l_master L) (l_followers L) start.1) as Hwd.
  { split; try done; simpl; rewrite Hc; [apply Forall_replicate; split; [simpl; by rewrite Hk|done]|].
    by rewrite length_replicate, Hlen. }
  assert (Forall (λ f, within b l (lag w2 (fd (l_master L)) (fd f))) (l_followers L)) as Hw2.
  { eapply Forall_impl; [exact Hlag|]. unfold lag, within. rewrite Hb2, Hb1. intros f Hf. simpl in Hf. lia. }
  assert ((1 + 2 * Z.of_nat (length (l_followers L))) * lat <= l) as Hl by (by rewrite Hlen).
  assert (forall j stj wj, made j start (stj, wj) -> close j wj) as Hclose.
  { intros j stj wj Hj.
    destruct (passes_steady fds lat l max Ho (conj Hm Hlm) nap_fuel (l_master L) (l_followers L) (l_period_ns L)
                (l_stats_interval_cycles L) (l_rms_warn L) j start.1 stj w2 wj b Hs2 Hwd Hl Hb Hw2 Hj) as (_ & _ & Hwj).
    eapply Forall_impl; [exact Hwj|]. unfold within. intros f Hf. simpl in Hf. lia. }
  destruct (run_loop_passes fds lat l max Ho (conj Hm Hlm) nap_fuel (l_master L) (l_followers L) (l_period_ns L)
              (l_stats_interval_cycles L) (l_rms_warn L) fuel start.1 w2 b Hs2 Hwd Hl Hb Hw2)
    as (k & o & st & wk & w' & Hrun & Hp & Hout & Hbk).
  exists k. unfold main. rewrite (bind_done _ _ _ _ _ Hstart), Hpar. unfold run_single, now_monotonic. m_unfold.
  rewrite Hg. cbv beta iota. cbn [start fst] in Hrun. rewrite Hrun.
  assert (close k w') as Hend by (unfold close, lag; rewrite Hbk; by apply (Hclose k st wk)).
  destruct Hout as [(-> & Hfl & Hkf)|(-> & -> & ->)]; eexists _, st, wk, _; (split; [reflexivity|]); (split; [done|]);
    (split; [|done]); [left; split; [by eexists|done]|by right].
Qed.

(** C4: and in parallel mode: after the same start-up the program spawns one
    worker for each follower, and however the threads are then scheduled no
    thread panics, every completed pass brings the followers closer to the
    master, and passes keep being completed until the flag is cleared. *)
Theorem main_parallel_synchronises `{HTs : !TsfFiles W} `{HSt : !Steady W} `{HSS : !SteadyStart W}
    (mounted : W -> bool) (sys_signal : Z -> W -> W) (nap_fuel fuel : nat) (args : Cli) (lat b : Z)
    (w w1 : W) (L : Launch F) :
  let max := max_step_us args in
  let n := length (followers args) in
  let l := (1 + 2 * Z.of_nat n) * lat in
  overflow_checks = false -> use_kalman args = false -> kp_ppm args = 1000000 -> parallel args = true ->
  in_i64 max -> l < max -> 0 <= b -> l + Z.max l b <= 9223372036854 ->
  (forall n fds w, steady fds lat w -> base (sys_signal n w) = base w /\ steady fds lat (sys_signal n w)) ->
  steady [] lat w -> startup mounted sys_signal args w = (Done (Ok L), w1) ->
  NoDup (fd <$> l_master L :: l_followers L) ->
  Forall (λ f, Z.abs (lag w (fd (l_master L)) (fd f)) <= b) (l_followers L) ->
  exists p w', main mounted sys_signal nap_fuel fuel args w = (Done (RunsParallel p), w')
    /\ follower <$> workers p = l_followers L
    /\ forall acts st,
         schedule (S nap_fuel) (l_master L) (l_period_ns L) (l_stats_interval_cycles L) (l_rms_warn L) n acts p = Some st ->
         in_step (S nap_fuel) (l_master L) (l_followers L) (l_period_ns L) (l_stats_interval_cycles L) (l_rms_warn L)
           l max b acts st.
Proof.
  intros max n l Ho Hk Hkp Hpar Hm Hlm H0 Hb Hsig Hs Hstart Hnd Hlag.
  destruct (startup_steady mounted sys_signal lat Hsig args w L w1 Hs Hstart) as (fds & Hu & Hus & Hb1 & Hs1).
  destruct (startup_inv mounted sys_signal args w L w1 Hstart) as (Hlen & Hc & _).
  unfold main. rewrite (bind_done _ _ _ _ _ Hstart), Hpar.
  destruct (steady_gettime _ _ _ Hs1) as [Hb2 Hs2].
  destruct (sys_clock_gettime w1) as [[sec ns] w2] eqn:Hg. simpl in Hb2, Hs2.
  unfold now_monotonic. m_unfold. rewrite Hg. cbv beta iota. eexists _, _. split; [reflexivity|].
  assert (length (l_controllers L) = length (l_followers L)) as Hlc by (by rewrite Hc, length_replicate).
  split.
  - simpl. clear -Hlc. revert Hlc. generalize (l_controllers L). induction (l_followers L) as [|f fs IH]; intros [|c cs] H; simplify_eq/=; [done|].
    by rewrite IH.
  - intros acts st. subst n l. rewrite <- Hlen in Hlm, Hb |- *. intros Hsch.
    eapply (run_in_step fds lat max b nap_fuel (l_master L) (l_followers L)); try done.
    + rewrite Hc. apply Forall_replicate. split; [simpl; by rewrite Hk|done].
    + eapply Forall_impl; [exact Hlag|]. unfold lag. rewrite Hb2, Hb1. done.
Qed.
End main_synchronises.

Definition demo_args : Cli :=
  {| master := lit "/m"; followers := [lit "/f"; lit "/g"]; cpu := None; period_ms := 2000; priority := 80;
     kp_ppm := 1000000; max_step_us := 200; stats_interval := 1; rms_warn := 10; use_kalman := false;
     parallel := false |}.
Definition demo_machine : Sim :=
  {| now := 1000; latency := 1; offsets := list_to_map [(3, 5); (4, 6); (5, 7)];
     paths := [(lit "/m", 3); (lit "/f", 4); (lit "/g", 5)]; faults := []; naps := []; flags := []; slept := [] |}.

Lemma startup_launch_witness :
  exists l w', @startup Sim spec_float sim_sys _ release_x86 (λ _, true) (λ _ w, w) demo_args demo_machine
               = (Done (Ok l), w')
    /\ length (l_followers l) = 2%nat /\ l_period_ns l = 2000000000 /\ l_stats_interval_cycles l = 0.
Proof.
  destruct (@startup Sim spec_float sim_sys _ release_x86 (λ _, true) (λ _ w, w) demo_args demo_machine)
    as [[[l|e]| |] w'] eqn:E; [|vm_compute in E; discriminate..].
  exists l, w'. split; [reflexivity|].
  destruct (@startup_launch Sim spec_float sim_sys _ release_x86 (λ _, true) (λ _ w, w) demo_args demo_machine l w' E)
    as (Hf & _ & Hp & _ & _ & _ & H0).
  split; [exact Hf|]. split; [exact Hp|]. apply H0; simpl; lia.
Defined.

#[export, program] Instance sim_steady_start : SteadyStart Sim := {}.
Next Obligation.
  intros fds lat path w r w' (Hf & Hn & Hl & Hall & Hp). simpl. unfold sim_open.
  destruct (find _ (paths w)) as [[p f]|] eqn:E; intros [= <- <-].
  - split; [done|]. split; [done|]. intros _. split_and!; try done. constructor; [|done].
    apply find_some in E as [Hin _]. unfold opens_files in Hp. rewrite Forall_forall in Hp.
    apply (Hp (p, f)). by apply list_elem_of_In.
  - done.
Qed.
Next Obligation.
  intros fds lat fd w r data w' (Hf & Hn & Hl & Hall & Hp) Hin. simpl. unfold sim_read, fault.
  rewrite Hf. pose proof Hall as Hall'. rewrite Forall_forall in Hall'. destruct (Hall' _ Hin) as [b Hb]. rewrite Hb.
  intros [= <- _ <-]. simpl. rewrite Hf. split_and!; done || lia.
Qed.
Next Obligation. intros fds lat w (Hf & Hn & Hl & Hall & Hp). simpl. by rewrite Hf. Qed.
Next Obligation. intros fds lat p w (Hf & Hn & Hl & Hall & Hp). simpl. by rewrite Hf. Qed.
Next Obligation. intros fds lat c w (Hf & Hn & Hl & Hall & Hp). simpl. by rewrite Hf. Qed.
Next Obligation. intros fds lat w (Hf & Hn & Hl & Hall & Hp). done. Qed.

(** Started with the flag set for three passes. *)
Definition running_machine : Sim :=
  {| now := 1000; latency := 1; offsets := offsets demo_machine; paths := paths demo_machine; faults := []; naps := [];
     flags := [true; true; true]; slept := [] |}.

Lemma main_synchronises_witness :
  exists r w', @main Sim spec_float sim_sys _ release_x86 (λ _, true) (λ _ w, w) 1 10 demo_args running_machine
      = (Done (RanSingle r), w')
    /\ flags w' = [] /\ Forall (λ f, Z.abs (lag w' 3 (fd f)) <= 5) [file 4; file 5].
Proof.
  destruct (@startup Sim spec_float sim_sys _ release_x86 (λ _, true) (λ _ w, w) demo_args running_machine)
    as [[[L|e]| |] w1] eqn:E; [|vm_compute in E; discriminate..].
  assert (l_master L = file 3 /\ l_followers L = [file 4; file 5]) as [Em Ef]
    by (vm_compute in E; injection E as <- _; split; reflexivity).
  destruct (sys_clock_gettime w1) as [[sec ns] w2] eqn:Eg.
  destruct (@main_synchronises Sim spec_float sim_sys _ release_x86 _ _ _ (λ _, true) (λ _ w, w) 0 10 demo_args 1 2 sec ns
              running_machine w1 w2 L) as (k & o & st & wk & w' & Hmain & _ & Hk & _ & Hlag); try reflexivity; try assumption.
  - vm_compute. split; discriminate.
  - lia.
  - simpl. lia.
  - done.
  - split; [reflexivity|]. split; [reflexivity|]. split; [simpl; lia|]. split; [constructor|].
    repeat constructor; eexists; reflexivity.
  - rewrite Em, Ef. apply (bool_decide_unpack _). vm_compute. reflexivity.
  - rewrite Em, Ef. apply (bool_decide_unpack _). vm_compute. reflexivity.
  - pose proof Hmain as Hrun. vm_compute in Hrun. injection Hrun as Ho Hw'. destruct Hk as [[[r ->] _]|[-> _]]; [|discriminate].
    exists r, w'. split; [exact Hmain|]. split; [by rewrite <- Hw'|].
    rewrite Em, Ef in Hlag. eapply Forall_impl; [exact Hlag|]. intros f Hf. simpl in Hf. lia.
Defined.

Definition parallel_args : Cli :=
  {| master := lit "/m"; followers := [lit "/f"; lit "/g"]; cpu := None; period_ms := 2000; priority := 80;
     kp_ppm := 1000000; max_step_us := 200; stats_interval := 1; rms_warn := 10; use_kalman := false;
     parallel := true |}.

Lemma main_parallel_synchronises_witness :
  exists p w', @main Sim spec_float sim_sys _ release_x86 (λ _, true) (λ _ w, w) 0 10 parallel_args running_machine
                 = (Done (RunsParallel p), w')
    /\ forall acts st, @schedule Sim spec_float _ _ release_x86 1 (file 3) 2000000000 0 10 2 acts p = Some st ->
         Forall (λ f, Z.abs (lag (world (shared st)) 3 (fd f)) <= 5) [file 4; file 5].
Proof.
  destruct (@startup Sim spec_float sim_sys _ release_x86 (λ _, true) (λ _ w, w) parallel_args running_machine)
    as [[[L|e]| |] w1] eqn:E; [|vm_compute in E; discriminate..].
  assert (l_master L = file 3 /\ l_followers L = [file 4; file 5] /\ l_period_ns L = 2000000000
          /\ l_stats_interval_cycles L = 0 /\ l_rms_warn L = 10) as (Em & Ef & Ep & Es & Er)
    by (vm_compute in E; injection E as <- _; split_and!; reflexivity).
  destruct (@main_parallel_synchronises Sim spec_float sim_sys _ release_x86 _ _ _ (λ _, true) (λ _ w, w) 0 10
              parallel_args 1 2 running_machine w1 L) as (p & w' & Hmain & _ & Hrun); try reflexivity; try assumption.
  - vm_compute. split; discriminate.
  - lia.
  - simpl. lia.
  - done.
  - split; [reflexivity|]. split; [reflexivity|]. split; [simpl; lia|]. split; [constructor|].
    repeat constructor; eexists; reflexivity.
  - rewrite Em, Ef. apply (bool_decide_unpack _). vm_compute. reflexivity.
  - rewrite Em, Ef. apply (bool_decide_unpack _). vm_compute. reflexivity.
  - exists p, w'. split; [exact Hmain|]. intros acts st Hs. rewrite Em, Ef, Ep, Es, Er in Hrun.
    destruct (Hrun acts st Hs) as [Hlag _]. eapply Forall_impl; [exact Hlag|]. intros f Hf. simpl in Hf. lia.
Defined.
